(* ===== verification/_CoqProject ===== *)
-Q . S2P
Prelude.v
Preserve.v
FieldOp.v
MsgNode.v
Snowflake.v
MinHeap.v
MinHeapFacts.v
LoadBalancer.v
LoadBalancerFacts.v
Clock.v
Random.v
Decimal.v
CppString.v
Security.v
Dbm.v
DbmPool.v
DbmFacts.v
RedisBase.v
RedisLock.v
StatusService.v
StatusServiceFacts.v
StatusLife.v
Session.v
SessionFacts.v
SessionClose.v
SendQueue.v
Timer.v
Reporter.v
Backend.v
ServerSetup.v
BackendFacts.v
Registry.v
ServerClass.v
ServerLife.v
ServerMain.v
RpcClient.v
IoPool.v
Gateway.v
GatewayFacts.v
TokenFacts.v
RedisTime.v
Presence.v
LoginRace.v
Http.v
GatewayApp.v
GatewayPool.v
Client.v
ClientThreads.v
ClientFacts.v
ClientLogin.v
ChatEnd.v
QueueThread.v
Authentic.v
System.v
ClientMain.v
NewUser.v
Heartbeat.v
