(* ===== verification/Prelude.v ===== *)
(** * cpp_chatroom: a verification development

    This library models the C++ chat system under src/src and proves properties of it.  The
    present file is its root: the documentation comes first, then the prelude the other files
    share (machine integers, outcomes of C++ code, the two small monads, tactics, hint
    databases, lemmas on byte strings and slices).

    ** The program

    Four programs talk to each other.
    - The _status service_ (status/) keeps the list of backend servers with their loads in a
      load balancer, answers RPC calls about it and uploads the list to Redis from a thread.
    - A _backend server_ (server/) accepts TCP connections of clients.  A session reads framed
      messages and posts them to the message handler, whose thread checks login tokens
      against Redis, delivers chat messages to local sessions, and passes others to the
      streams of other servers.  A queue handler reads the server's own streams.  Timed tasks
      report the load to the status service and renew the online users in Redis.
    - The _gateway_ (http/) answers HTTP requests: registration and login against MySQL
      through a pool of connections, the choice of a backend by asking the status service,
      and the login token it stores in Redis.
    - The _client_ (client/) reads commands, logs in at the gateway, connects to the backend it
      was given, verifies itself with the token, sends and shows messages.
    The parts share code (common/, utils/): network byte order, message nodes, timers, the
    Redis handle, identifiers, a lock.

    ** How code is modelled

    A function is a Rocq function with the name of the C++ one.  [res] is the outcome of code
    that may throw or go wrong: [Ok], [Throw] with the exception, [UB] with the rule that is
    broken (an access outside a block, a null or dangling pointer, signed overflow, locking a
    [std::mutex] twice, a failed assertion or [std::terminate], an object after its life
    time), or with [blocked] and
    [no_progress] where the thread does not come back.  [st S A] is code on a state [S]; a call
    that throws keeps the state it reached.  Integers are [Z] reduced to their width where the
    code converts or wraps.  Where objects are shared they live in a store by address (the
    balancer's [ServerInfo], the sessions of a [World], the connections of a [DBM]).
    Interleavings are step functions or relations over explicit lists of events, in which a
    critical section is one step and code without a lock is cut where another thread can make
    a difference: [SendQueue] (the write behind the latch), [SessionClose] (the test of [down_],
    the parts of [Close]), [ClientThreads], [StatusService] (the uploader's thread),
    [LoginRace] (every Redis command).  Elsewhere a callback is one step.  Where a theorem needs
    that two calls do not overlap it says so ([DbmPool]: [Start] and [Stop] take no latch), and
    what happens when they do is a theorem beside it.

    Code outside the repository is an argument, given by a type class of operations with, where
    a theorem needs it, a second class of laws: [RedisOps], [GatewayRedis] and [RedisLaws]
    (Redis), [RedisStreams] and [StreamLaws] (its streams with consumer groups), [RedisOrigin]
    and [OriginLaws] (where what it holds comes from), [RedisTime] (keys and fields that expire),
    [LockRedis] and [LockLaws], [MySql],
    [MySqlLaws], [MySqlStart] and [MySqlTyped], [JsonReader], [JsonLib] and [JsonLaws]
    (jsoncpp), [Crypto] and [CryptoLaws] (OpenSSL, Boost.Algorithm), [Base64Laws], [Dist64] (a
    distribution of the C++ library), [IoContext] and [IoContextLaws] (Boost.Asio).  The laws
    are those of a healthy server: commands on keys of the right type that do not fail; what a failing Redis does to the gateway and to a backend is stated
    separately ([redis_error_ends_gateway], [malformed_entry_terminates]).  The schema of the
    user table is not in the repository; whether it has a unique key on the user id is a field
    of [MySqlLaws].  [StatusRPC] and [MinimalRPC] are the interfaces between the programs, the
    first one implemented by the status service of this library.  Every class of laws has an
    instance, which the witnesses of the theorems use.

    ** Files, in dependency order

    Besides this file, [Preserve] is shared: programs that keep an invariant, and the tactic
    that goes through them.

    Common parts: [FieldOp] (utils/field_op.hpp), [MsgNode] (common/msgnode.hpp), [Snowflake]
    (utils/snowflake_id.hpp), [Decimal] and [CppString] (what is used of the string library),
    [RedisBase] (common/redis/base_redis_mgr), [RedisLock] (common/redis/redis_lock.hpp),
    [Timer] (common/timer, server/online_status_upload.hpp), [Clock] and [Random]
    (utils/util_func.hpp).

    Status service: [MinHeap], [LoadBalancer] (status/load_balancer) with their facts;
    [StatusService] (status_service_impl.hpp, status_uploader.cpp, redis/status_redis.cpp) with
    its facts; [StatusLife] (status_class).

    Backend: [Session] (server/session) with its facts, [SessionClose] (closing under
    interleaving), [SendQueue] (the sending side under interleaving), [Reporter]
    (status_reporter), [Backend] (session_manager, msg_handler, mq_handler, redis/server_redis) with its facts, [ServerSetup] (server_main, io_context_pool,
    io_thread_pool: arguments and the choice of a context), [Registry] (runs of a process),
    [ServerClass] (construction and listening), [ServerLife] (ownership and destruction),
    [ServerMain] (server_main and status_main as a whole), [RpcClient] (both
    rpc/status_rpc_client.hpp: stubs and the threads that share them), [IoPool] (the two pools
    with their threads, the singleton), [QueueThread] (the thread of mq_handler).

    Gateway: [Security] (dbm/security.cpp), [Dbm] (dbm/dbconn, dbm/gateway_dbm), [DbmPool] (the
    pool under threads), [DbmFacts]; [Gateway] (req_handler, redis/gateway_redis) with its
    facts; [TokenFacts]; [RedisTime] (the Redis commands of a login with their life times, stores
    up to what is alive in them); [Presence] (who is online, in time); [LoginRace] (logins of
    one user at the same time, cut at their commands); [Http] (http_server); [GatewayApp]
    (gateway_class, gateway_main); [GatewayPool] (all connections with the threads of the pool).

    Client: [Client] (client_class, the chat loop of client_main) with its facts,
    [ClientThreads] (the worker of client_class among the threads that send and close),
    [ClientLogin] (the login dialogue, commands), [ClientMain] (client_main before the chat),
    [NewUser] (registration and first login through client and gateway), [Heartbeat].

    All programs: [ChatEnd] (a message from the keyboard of one user to the screen of another),
    [Authentic] (a user id from the password to the frame, program by program), [System]
    (backends, gateway and Redis as one transition system).

    ** What the theorems show

    - _Refinement_: the balancer implements a map of servers ([balancer_refines_map]), the
      connection pool a table of accounts ([user_store_refines]), the lock a table of holders,
      a report against the service interface, the gateway program the stored accounts, the
      connections of the gateway under its threads each a connection alone
      ([pool_serves_connections]).
    - _Invariants_: heap order and index; well-formed nodes; only verified sessions are
      registered, in every run of a backend; a database connection is used by one thread; no
      raw pointer of the status server dangles; identifiers increase.
    - _Behaviour_ on every branch: reassembly of the byte stream however it is cut; login,
      registration and kick; local and remote delivery of a chat message; the status
      handlers; the client's screen and commands.
    - _Across programs_: the token of a granted login is accepted by the backend; a new user's
      way from the typed words to the queued verification; what the client sends is what
      the backend's handler gets; a started backend gets the next login; a typed message is
      shown as typed by the receiver's client on another server ([chat_end_to_end]).
    - _Security of the whole_: in every reachable state of the system a chat frame names as
      its sender only a user whose password was accepted ([sender_authentic]); of logins of
      one user at the same time one is granted ([logins_exclusive]).
    - _Time_: for how long a token is good, a login excludes others, and an active user can be
      found ([active_user_located], [login_slot_outlives_token]), and when not any more
      ([online_user_forgotten]).
    - _Start and stop_: the server program gets ready or fails as it should; stopping a pool
      runs every posted handler and returns; the queue thread stops; a session is closed once,
      with one notification and the right removal.
    - _Round trips, bounds, termination, errors_: fields, nodes, passwords; clock and expiry;
      bounded retries; the uploader's error budget; oversized headers; failed uploads; stream
      entries that end a server.
    - _Liveness under interleaving_: no message stays in a send queue, of a session or of the
      client, without someone to send it; the client's worker ends after [Close], with one
      window that is described exactly; an upload request is not lost outside a window that is
      described exactly; every request posted to the gateway's pool gets its response.
    Theorems on behaviour that looks unintended (a lost wake-up, a second lock of a mutex, an
    index entry left behind, a periodic task that ends, pointers used too late) are stated next
    to the ones they limit.

    ** Bounds and fuel

    Loops run on fuel only where the recursion is not structural, and running out is [UB
    no_progress], so a theorem with result [Ok] also says that the loop ends: the heap loops
    (one round per level), the expiry loops (one per server), [GetIdleConn] (two rounds: a
    round that goes on has filled the queue), [to_string] (20 digits hold a 64-bit number),
    splitting arguments (one per character), releasing objects ([ServerLife], one per part).
    The clocks are lists or streams of readings; a generator that waits for the clock ends when
    the list does.  The client's loops take a number of rounds, and theorems hold for every
    sufficient number.

    ** Not modelled

    The event loops and sockets of Boost.Asio and Beast (they are the source of events; of
    [io_context] only what the pools rely on), gRPC itself (a stub is its channel's address),
    HTTP parsing, the Redis, MySQL, OpenSSL and jsoncpp libraries themselves (arguments, as
    above), logging, the random device and the algorithm of a distribution (the C++ library's
    choice), and the tests.  The
    signal that ends a server is the end of its event loop.  In [System] a step is a whole
    callback, round or request: keys expire and other processes act between steps, not within
    one; [LoginRace] is where commands of one request interleave with others.  A handler of
    [GatewayPool] may return or throw anything, so that its interleaving with other handlers is
    not looked into there.  Declarations in headers have no model of their own beside the
    definitions they declare; the defaulted destructors and deleted copies have none.

    ** Left for later

    Commands of different processes interleaved within a step of [System]; the life times of
    [Presence] in the state of [System]. *)

From stdpp Require Export base tactics numbers list gmap strings pretty option.

#[global] Open Scope Z_scope.
Declare Scope cpp_scope.
Delimit Scope cpp_scope with cpp.

(** ** Machine-width integers

    A [uintN_t] is a [Z] kept in [[0, 2^N)]; conversions reduce modulo [2^N] and a
    conversion to [int] reads the low 32 bits in two's complement. *)

Definition u16 (x : Z) : Z := x mod 2 ^ 16.

Definition u32 (x : Z) : Z := x mod 2 ^ 32.

Definition u64 (x : Z) : Z := x mod 2 ^ 64.

Definition i32 (x : Z) : Z :=
  let y := u32 x in if y <? 2 ^ 31 then y else y - 2 ^ 32.

Definition is_u16 (x : Z) : Prop := 0 <= x < 2 ^ 16.

Definition is_u32 (x : Z) : Prop := 0 <= x < 2 ^ 32.

Definition is_u64 (x : Z) : Prop := 0 <= x < 2 ^ 64.

Definition is_byte (x : Z) : Prop := 0 <= x < 256.

(** ** Outcomes of C++ code

    A call returns a value, throws, or does not come back: [UB] says which rule it broke,
    that a failed [assert] ended the process, or that the thread went to sleep.  Exceptions carry the text given to their constructor. *)

Inductive exn :=
  | runtime_error (what : string)
  | invalid_argument (what : string)
  | out_of_range (what : string).

Inductive ub :=
  | out_of_bounds      (* access outside an allocated block or a container *)
  | null_deref         (* access through a null pointer *)
  | signed_overflow    (* int arithmetic outside [-2^31, 2^31) *)
  | relock             (* a thread locks a std::mutex it already owns *)
  | no_progress        (* a loop runs past the bound that ends it *)
  | aborted            (* a failed assert calls abort() *)
  | blocked            (* the thread sleeps until another one acts *)
  | destroyed.         (* an object is used after its life time *)

Inductive res (A : Type) :=
  | Ok (a : A)
  | Throw (e : exn)
  | UB (why : ub).
Arguments Ok {A} a.
Arguments Throw {A} e.
Arguments UB {A} why.

#[global] Instance exn_eq_dec : EqDecision exn.
Proof. solve_decision. Defined.

#[global] Instance ub_eq_dec : EqDecision ub.
Proof. solve_decision. Defined.

#[global] Instance res_eq_dec `{EqDecision A} : EqDecision (res A).
Proof. solve_decision. Defined.

#[global] Instance res_ret : MRet res := @Ok.

#[global] Instance res_bind : MBind res := λ A B f m,
  match m with
  | Ok a => f a
  | Throw e => Throw e
  | UB w => UB w
  end.

#[global] Instance res_fmap : FMap res := λ A B f m,
  match m with
  | Ok a => Ok (f a)
  | Throw e => Throw e
  | UB w => UB w
  end.

Definition is_ok {A} (m : res A) : Prop := ∃ a, m = Ok a.

Lemma bind_Ok {A B} (m : res A) (f : A → res B) (a : A) :
  m = Ok a → m ≫= f = f a.
Proof. by intros ->. Qed.

Lemma bind_Ok_inv {A B} (m : res A) (f : A → res B) (b : B) :
  m ≫= f = Ok b → ∃ a, m = Ok a ∧ f a = Ok b.
Proof. destruct m; simpl; intros H; [eauto | discriminate..]. Qed.

(** ** Stateful code

    [st S A] threads a state [S]; a call that throws keeps the state it reached. *)

Definition st (S A : Type) : Type := S → S * res A.

Definition st_ret {S A} (a : A) : st S A := λ s, (s, Ok a).

Definition st_bind {S A B} (m : st S A) (k : A → st S B) : st S B := λ s,
  match m s with
  | (s', Ok a) => k a s'
  | (s', Throw e) => (s', Throw e)
  | (s', UB w) => (s', UB w)
  end.

Definition st_get {S A} (f : S → A) : st S A := λ s, (s, Ok (f s)).

Definition st_mod {S} (f : S → S) : st S unit := λ s, (f s, Ok tt).

Definition st_res {S A} (r : res A) : st S A := λ s, (s, r).

Notation "x <- m ;; k" := (st_bind m%cpp (λ x, k%cpp))
  (at level 100, m at next level, right associativity) : cpp_scope.

Notation "m1 ;; m2" := (st_bind m1%cpp (λ _, m2%cpp))
  (at level 100, right associativity) : cpp_scope.

Lemma st_bind_Ok {S A B} (m : st S A) (k : A → st S B) s s' a :
  m s = (s', Ok a) → st_bind m k s = k a s'.
Proof. intros H. unfold st_bind. by rewrite H. Qed.

Lemma st_bind_inv {S A B} (m : st S A) (k : A → st S B) s s' b :
  st_bind m k s = (s', Ok b) → ∃ s1 a, m s = (s1, Ok a) ∧ k a s1 = (s', Ok b).
Proof. unfold st_bind. destruct (m s) as [s1 [a| |]]; [|done..]. eauto. Qed.

(** ** Tactics and hint databases *)

Create HintDb chat.
Create Rewrite HintDb chat_rw.

(** [inv_res] splits an equation [m ≫= f = Ok b] of the context, repeatedly. *)
Ltac inv_res :=
  repeat match goal with
  | H : mbind _ _ = Ok _ |- _ =>
      let a := fresh "a" in let H1 := fresh "Hm" in let H2 := fresh "Hk" in
      apply bind_Ok_inv in H as (a & H1 & H2)
  | H : Ok _ = Ok _ |- _ => injection H; clear H; intros; subst
  | H : Throw _ = Ok _ |- _ => discriminate H
  | H : UB _ = Ok _ |- _ => discriminate H
  end.

(** [decide_bool] turns the boolean comparisons of the context into propositions. *)
Ltac decide_bool :=
  repeat match goal with
  | H : (_ <? _)%Z = true |- _ => apply Z.ltb_lt in H
  | H : (_ <? _)%Z = false |- _ => apply Z.ltb_ge in H
  | H : (_ <=? _)%Z = true |- _ => apply Z.leb_le in H
  | H : (_ <=? _)%Z = false |- _ => apply Z.leb_gt in H
  | H : (_ =? _)%Z = true |- _ => apply Z.eqb_eq in H
  | H : (_ =? _)%Z = false |- _ => apply Z.eqb_neq in H
  | H : (_ <? _)%nat = true |- _ => apply Nat.ltb_lt in H
  | H : (_ <? _)%nat = false |- _ => apply Nat.ltb_ge in H
  | H : (_ <=? _)%nat = true |- _ => apply Nat.leb_le in H
  | H : (_ <=? _)%nat = false |- _ => apply Nat.leb_gt in H
  end.

(** Case on a boolean test of the goal and read off what it decides. *)
Ltac case_if :=
  match goal with
  | |- context [if ?b then _ else _] => destruct b eqn:?; decide_bool
  end.

(** ** Facts about machine integers *)

Lemma u32_id (x : Z) : is_u32 x → u32 x = x.
Proof. intros H. by apply Z.mod_small. Qed.

Lemma u64_id (x : Z) : is_u64 x → u64 x = x.
Proof. intros H. by apply Z.mod_small. Qed.

Lemma u16_id (x : Z) : is_u16 x → u16 x = x.
Proof. intros H. by apply Z.mod_small. Qed.

Lemma u16_bound (x : Z) : is_u16 (u16 x).
Proof. by apply Z.mod_pos_bound. Qed.

Lemma u32_bound (x : Z) : is_u32 (u32 x).
Proof. by apply Z.mod_pos_bound. Qed.

Lemma u64_bound (x : Z) : is_u64 (u64 x).
Proof. by apply Z.mod_pos_bound. Qed.

Lemma i32_small (x : Z) : 0 <= x < 2 ^ 31 → i32 x = x.
Proof.
  intros H. unfold i32. rewrite u32_id by (unfold is_u32; lia). case_if; lia.
Qed.

#[export] Hint Resolve u16_bound u32_bound u64_bound : chat.
#[export] Hint Rewrite u32_id u64_id u16_id i32_small using (unfold is_u32, is_u64, is_u16 in *; lia) : chat_rw.

(** ** Bit fields: or-ing a value into zeroed low bits is addition *)

Lemma testbit_above (b n i : Z) : 0 <= b < 2 ^ n → 0 <= n <= i → Z.testbit b i = false.
Proof.
  intros Hb Hi. rewrite <- (Z.mod_small b (2 ^ n)) by done.
  apply Z.mod_pow2_bits_high. lia.
Qed.

Lemma lor_shiftl_add (a b n : Z) :
  0 <= n → 0 <= b < 2 ^ n → Z.lor (Z.shiftl a n) b = a * 2 ^ n + b.
Proof.
  intros Hn Hb. rewrite <- Z.shiftl_mul_pow2 by done.
  assert (Hland : Z.land (Z.shiftl a n) b = 0).
  { apply Z.bits_inj'. intros i Hi. rewrite Z.land_spec, Z.bits_0.
    destruct (Z_lt_dec i n) as [Hlt|Hge].
    - by rewrite Z.shiftl_spec_low.
    - rewrite (testbit_above b n i) by lia. apply andb_false_r. }
  pose proof (Z.add_lor_land (Z.shiftl a n) b). lia.
Qed.

Lemma land_ones_mod (x n : Z) : 0 <= n → Z.land x (2 ^ n - 1) = x mod 2 ^ n.
Proof.
  intros Hn. rewrite <- Z.land_ones by done. by rewrite Z.ones_equiv, Z.sub_1_r.
Qed.

(** ** Little-endian byte strings *)

Fixpoint le_bytes (n : nat) (x : Z) : list Z :=
  match n with
  | O => []
  | S n' => x mod 256 :: le_bytes n' (x / 256)
  end.

Fixpoint le_combine (l : list Z) : Z :=
  match l with
  | [] => 0
  | b :: l' => b + 256 * le_combine l'
  end.

Lemma length_le_bytes n x : length (le_bytes n x) = n.
Proof. revert x; induction n; intros x; simpl; auto. Qed.

Lemma le_bytes_byte n x : Forall is_byte (le_bytes n x).
Proof.
  revert x; induction n; intros x; constructor; [by apply Z.mod_pos_bound | auto].
Qed.

Lemma le_combine_bytes n x : 0 <= x < 256 ^ Z.of_nat n → le_combine (le_bytes n x) = x.
Proof.
  revert x; induction n as [|n IH]; intros x Hx.
  - change (256 ^ Z.of_nat 0) with 1 in Hx. simpl. lia.
  - rewrite Nat2Z.inj_succ, Z.pow_succ_r in Hx by lia. cbn [le_bytes le_combine].
    rewrite IH by (split; [apply Z.div_pos | apply Z.div_lt_upper_bound]; lia).
    pose proof (Z_div_mod_eq_full x 256). lia.
Qed.

Lemma le_combine_bound l : Forall is_byte l → 0 <= le_combine l < 256 ^ Z.of_nat (length l).
Proof.
  induction 1 as [|b l Hb _ IH]; [done|]. cbn [le_combine length].
  rewrite Nat2Z.inj_succ, Z.pow_succ_r by lia. unfold is_byte in Hb. lia.
Qed.

Lemma le_bytes_combine l : Forall is_byte l → le_bytes (length l) (le_combine l) = l.
Proof.
  induction 1 as [|b l Hb _ IH]; [done|]. cbn [le_combine length le_bytes].
  unfold is_byte in Hb.
  assert (Hm : (b + 256 * le_combine l) mod 256 = b).
  { rewrite Z.mul_comm, Z.mod_add by lia. by apply Z.mod_small. }
  assert (Hd : (b + 256 * le_combine l) / 256 = le_combine l).
  { rewrite Z.mul_comm, Z.div_add by lia. rewrite Z.div_small by done. lia. }
  by rewrite Hm, Hd, IH.
Qed.

Lemma le_bytes_app n m x :
  le_bytes (n + m) x = le_bytes n x ++ le_bytes m (x / 256 ^ Z.of_nat n).
Proof.
  revert x; induction n as [|n IH]; intros x.
  - change (256 ^ Z.of_nat 0) with 1. by rewrite Z.div_1_r.
  - cbn [Nat.add le_bytes app]. f_equal. rewrite IH. do 2 f_equal.
    rewrite Nat2Z.inj_succ, Z.pow_succ_r by lia. by rewrite Z.div_div by lia.
Qed.

Lemma le_bytes_mod n x : le_bytes n (x mod 256 ^ Z.of_nat n) = le_bytes n x.
Proof.
  revert x; induction n as [|n IH]; intros x; [done|]. cbn [le_bytes].
  rewrite Nat2Z.inj_succ, Z.pow_succ_r by lia.
  rewrite Z.rem_mul_r by lia. f_equal.
  - rewrite Z.mul_comm, Z.mod_add, Z.mod_mod by lia. done.
  - rewrite Z.mul_comm, Z.div_add by lia.
    rewrite (Z.div_small (x mod 256)) by (by apply Z.mod_pos_bound).
    by rewrite Z.add_0_l, IH.
Qed.

#[export] Hint Rewrite length_le_bytes : chat_rw.
#[export] Hint Resolve le_bytes_byte : chat.

(** ** Overwriting a slice of a block *)

Definition splice {A} (l : list A) (off : nat) (s : list A) : list A :=
  take off l ++ s ++ drop (off + length s) l.

Lemma length_splice {A} (l s : list A) off :
  (off + length s <= length l)%nat → length (splice l off s) = length l.
Proof. intros H. unfold splice. rewrite !length_app, length_take, length_drop. lia. Qed.

Lemma splice_read {A} (l s : list A) off :
  (off + length s <= length l)%nat → take (length s) (drop off (splice l off s)) = s.
Proof.
  intros H. unfold splice. rewrite drop_app_length' by (rewrite length_take; lia).
  by rewrite take_app_length.
Qed.

Lemma splice_before {A} (l s : list A) off n :
  (n <= off)%nat → (off + length s <= length l)%nat → take n (splice l off s) = take n l.
Proof.
  intros Hn H. unfold splice. rewrite take_app_le by (rewrite length_take; lia).
  rewrite take_take. f_equal. lia.
Qed.

Lemma splice_after {A} (l s : list A) off n :
  (off + length s <= n)%nat → (off + length s <= length l)%nat →
  drop n (splice l off s) = drop n l.
Proof.
  intros Hn H. unfold splice. rewrite app_assoc.
  rewrite drop_app_ge by (rewrite length_app, length_take; lia).
  rewrite drop_drop, length_app, length_take. f_equal. lia.
Qed.

Lemma splice_lookup_ne {A} (l s : list A) off i :
  (i < off ∨ off + length s <= i)%nat → (off + length s <= length l)%nat →
  splice l off s !! i = l !! i.
Proof.
  intros [Hi|Hi] H.
  - rewrite <- (lookup_take_lt (splice l off s) off i), <- (lookup_take_lt l off i) by done.
    by rewrite splice_before.
  - replace i with (off + length s + (i - off - length s))%nat by lia.
    rewrite <- !lookup_drop. by rewrite splice_after.
Qed.

Lemma Forall_splice {A} (P : A → Prop) (l s : list A) off :
  Forall P l → Forall P s → Forall P (splice l off s).
Proof.
  intros Hl Hs. unfold splice. rewrite !Forall_app. auto using Forall_take, Forall_drop.
Qed.
