(* ===== verification/Preserve.v ===== *)
(** * Programs that keep an invariant

    [preserves I m]: the program [m] leads from states with [I] to states with [I], whether it
    returns, throws or goes wrong.  The tactic [keep] goes through a program with the lemmas
    of the hint database [keeps]; what it leaves are the steps that need an argument. *)

From S2P Require Import Prelude.

Definition preserves {S A} (I : S → Prop) (m : st S A) : Prop := ∀ s, I s → I (m s).1.

Create HintDb keeps.

Section preserves.
Context {S : Type} (I : S → Prop).

Lemma preserves_bind {A B} (m : st S A) (k : A → st S B) :
  preserves I m → (∀ a, preserves I (k a)) → preserves I (st_bind m k).
Proof.
  intros Hm Hk s Hs. unfold st_bind. specialize (Hm s Hs). destruct (m s) as [s' [a| |]]; cbn in *; [by apply Hk|done..].
Qed.

Lemma preserves_ret {A} (a : A) : preserves I (st_ret a).
Proof. by intros s. Qed.

Lemma preserves_get {A} (f : S → A) : preserves I (st_get f).
Proof. by intros s. Qed.

Lemma preserves_res {A} (r : res A) : preserves I (st_res r).
Proof. by intros s. Qed.

Lemma preserves_mod (f : S → S) : (∀ s, I s → I (f s)) → preserves I (st_mod f).
Proof. intros Hf s. apply Hf. Qed.

(** The value a pure computation returns may be used. *)
Lemma preserves_res_bind {A B} (r : res A) (k : A → st S B) :
  (∀ a, r = Ok a → preserves I (k a)) → preserves I (st_bind (st_res r) k).
Proof. intros Hk s Hs. unfold st_bind, st_res. destruct r as [a| |]; [by apply Hk|done..]. Qed.
End preserves.

#[export] Hint Resolve preserves_ret preserves_get preserves_res : keeps.

(** A program that returns a value with a property *)
Definition returns {S A} (I : S → Prop) (m : st S A) (Q : A → Prop) : Prop :=
  ∀ s, I s → I (m s).1 ∧ ∀ a, (m s).2 = Ok a → Q a.

Lemma returns_bind {S A B} (I : S → Prop) (m : st S A) (Q : A → Prop) (k : A → st S B) :
  returns I m Q → (∀ a, Q a → preserves I (k a)) → preserves I (st_bind m k).
Proof.
  intros Hm Hk s Hs. unfold st_bind. destruct (Hm s Hs) as [Hi Hq]. destruct (m s) as [s' [a| |]]; cbn in *; [|done..].
  by apply Hk; [apply Hq|].
Qed.

Ltac keep :=
  repeat (first
    [ solve [auto with keeps nocore]
    | apply preserves_bind; [|intros ?]
    | progress cbn beta iota zeta
    | case_match ]).
