(* ===== verification/FieldOp.v ===== *)
(** * Network-order integer fields (src/src/include/utils/field_op.hpp)

    The header writes and reads 16, 32 and 64-bit unsigned integers in network order
    at an offset of a [char] buffer.  A buffer is a list of bytes; [memcpy] outside it
    is undefined behaviour.  The host byte order is a parameter of every definition
    (the header selects a branch of [htonll] by [__BYTE_ORDER]), and the theorems hold
    for both orders: what reaches the wire is big-endian on any host. *)

From S2P Require Import Prelude.

(** The byte order [__BYTE_ORDER] of the host. *)
Inductive byte_order := LITTLE_ENDIAN | BIG_ENDIAN.

(** [memcpy(dst + off, src, src.size())] into the block [dst]. *)
Definition memcpy_to (dst : list Z) (off : nat) (src : list Z) : res (list Z) :=
  if (off + length src <=? length dst)%nat
  then Ok (splice dst off src)
  else UB out_of_bounds.

(** The bytes [memcpy(_, src + off, n)] reads from the block [src]. *)
Definition memcpy_from (src : list Z) (off n : nat) : res (list Z) :=
  if (off + n <=? length src)%nat then Ok (take n (drop off src)) else UB out_of_bounds.

Section host.
Context (host : byte_order).

(** The object representation of an unsigned integer of [n] bytes, and its value. *)
Definition to_mem (n : nat) (x : Z) : list Z :=
  match host with LITTLE_ENDIAN => le_bytes n x | BIG_ENDIAN => rev (le_bytes n x) end.

Definition of_mem (l : list Z) : Z :=
  match host with LITTLE_ENDIAN => le_combine l | BIG_ENDIAN => le_combine (rev l) end.

(** [htons], [htonl] and their inverses reverse the bytes on a little-endian host. *)
Definition swab (n : nat) (x : Z) : Z :=
  match host with
  | LITTLE_ENDIAN => le_combine (rev (le_bytes n x))
  | BIG_ENDIAN => x
  end.

Definition htons (x : Z) : Z := swab 2 (u16 x).

Definition ntohs (x : Z) : Z := swab 2 (u16 x).

Definition htonl (x : Z) : Z := swab 4 (u32 x).

Definition ntohl (x : Z) : Z := swab 4 (u32 x).

Definition htonll (value : Z) : Z :=
  match host with
  | LITTLE_ENDIAN =>
      Z.lor (u64 (Z.shiftl (htonl (Z.land value 0xFFFFFFFF)) 32)) (htonl (Z.shiftr value 32))
  | BIG_ENDIAN => value
  end.

Definition ntohll (value : Z) : Z :=
  match host with
  | LITTLE_ENDIAN =>
      Z.lor (u64 (Z.shiftl (ntohl (Z.land value 0xFFFFFFFF)) 32)) (ntohl (Z.shiftr value 32))
  | BIG_ENDIAN => value
  end.

Definition WriteNetField32 (dst : list Z) (off : nat) (val : Z) : res (list Z) :=
  memcpy_to dst off (to_mem 4 (htonl val)).

Definition ReadNetField32 (beg : list Z) (off : nat) : res Z :=
  val ← memcpy_from beg off 4; Ok (ntohl (of_mem val)).

Definition WriteNetField16 (dst : list Z) (off : nat) (val : Z) : res (list Z) :=
  memcpy_to dst off (to_mem 2 (htons val)).

Definition ReadNetField16 (beg : list Z) (off : nat) : res Z :=
  val ← memcpy_from beg off 2; Ok (ntohs (of_mem val)).

Definition WriteNetField64 (dst : list Z) (off : nat) (val : Z) : res (list Z) :=
  memcpy_to dst off (to_mem 8 (htonll val)).

Definition ReadNetField64 (beg : list Z) (off : nat) : res Z :=
  val ← memcpy_from beg off 8; Ok (ntohll (of_mem val)).
End host.

(** ** The reference: big-endian fields *)

(** [n] bytes of [x], most significant first, and the value of such a string. *)
Definition be_bytes (n : nat) (x : Z) : list Z := rev (le_bytes n x).

Definition be_value (l : list Z) : Z := le_combine (rev l).

Lemma length_be_bytes n x : length (be_bytes n x) = n.
Proof. unfold be_bytes. by rewrite length_rev, length_le_bytes. Qed.

Lemma be_bytes_byte n x : Forall is_byte (be_bytes n x).
Proof. apply Forall_rev, le_bytes_byte. Qed.

Lemma be_value_bytes n x : 0 <= x < 256 ^ Z.of_nat n → be_value (be_bytes n x) = x.
Proof. intros H. unfold be_value, be_bytes. by rewrite rev_involutive, le_combine_bytes. Qed.

Lemma be_value_bound l : Forall is_byte l → 0 <= be_value l < 256 ^ Z.of_nat (length l).
Proof. intros H. unfold be_value. rewrite <- length_rev. by apply le_combine_bound, Forall_rev. Qed.

(** ** Byte order conversions *)

Lemma swab_to_mem host n x :
  0 <= x < 256 ^ Z.of_nat n → to_mem host n (swab host n x) = be_bytes n x.
Proof.
  intros H. unfold be_bytes. destruct host; simpl; [|done].
  rewrite <- (length_le_bytes n x) at 1. rewrite <- length_rev at 1.
  apply le_bytes_combine, Forall_rev, le_bytes_byte.
Qed.

Lemma swab_of_mem host l :
  Forall is_byte l → swab host (length l) (of_mem host l) = be_value l.
Proof. intros H. destruct host; simpl; [by rewrite le_bytes_combine | done]. Qed.

Lemma swab_bound host n x :
  0 <= x < 256 ^ Z.of_nat n → 0 <= swab host n x < 256 ^ Z.of_nat n.
Proof.
  intros H. destruct host; [|done]. simpl.
  pose proof (le_combine_bound (rev (le_bytes n x))) as Hb.
  rewrite length_rev, length_le_bytes in Hb. by apply Hb, Forall_rev, le_bytes_byte.
Qed.

(** Both 64-bit conversions are the byte reversal of the whole word. *)
Lemma htonll_swab host x : is_u64 x → htonll host x = swab host 8 x.
Proof.
  intros Hx. destruct host; [|done]. unfold htonll, htonl.
  change 0xFFFFFFFF with (2 ^ 32 - 1). rewrite land_ones_mod, Z.shiftr_div_pow2 by done.
  fold (u32 x). rewrite (u32_id (u32 x)) by apply u32_bound.
  assert (Hhi : is_u32 (x / 2 ^ 32)).
  { unfold is_u32, is_u64 in *. split; [apply Z.div_pos | apply Z.div_lt_upper_bound]; lia. }
  rewrite (u32_id (x / 2 ^ 32)) by done.
  pose proof (swab_bound LITTLE_ENDIAN 4 (u32 x) (u32_bound x)) as Hlo'.
  pose proof (swab_bound LITTLE_ENDIAN 4 (x / 2 ^ 32) Hhi) as Hhi'.
  change (256 ^ Z.of_nat 4) with (2 ^ 32) in *.
  rewrite u64_id by (rewrite Z.shiftl_mul_pow2 by done; unfold is_u64; lia).
  rewrite lor_shiftl_add by done. unfold swab in *.
  change (le_bytes 8 x) with (le_bytes (4 + 4) x).
  rewrite (le_bytes_app 4 4 x), rev_app_distr.
  change (256 ^ Z.of_nat 4) with (2 ^ 32).
  rewrite <- (le_bytes_mod 4 x). change (x mod 256 ^ Z.of_nat 4) with (u32 x).
  generalize (le_bytes 4 (u32 x)) (length_le_bytes 4 (u32 x)); intros lo Elo.
  generalize (le_bytes 4 (x / 2 ^ 32)) (length_le_bytes 4 (x / 2 ^ 32)); intros hi Ehi.
  destruct hi as [|h0 [|h1 [|h2 [|h3 [|]]]]]; try discriminate Ehi.
  cbn -[Z.mul Z.add Z.pow]. lia.
Qed.

Lemma ntohll_htonll host x : ntohll host x = htonll host x.
Proof. by destruct host. Qed.

(** ** Fields of a buffer *)

Lemma memcpy_to_Ok dst off src :
  (off + length src <= length dst)%nat →
  memcpy_to dst off src = Ok (splice dst off src).
Proof. intros H. unfold memcpy_to. case_if; [done | lia]. Qed.

Lemma memcpy_from_Ok src off n :
  (off + n <= length src)%nat → memcpy_from src off n = Ok (take n (drop off src)).
Proof. intros H. unfold memcpy_from. case_if; [done | lia]. Qed.

Section fields.
Context (host : byte_order).

Lemma to_mem_htonl val : to_mem host 4 (htonl host val) = be_bytes 4 (u32 val).
Proof. apply swab_to_mem, u32_bound. Qed.

Lemma to_mem_htons val : to_mem host 2 (htons host val) = be_bytes 2 (u16 val).
Proof. apply swab_to_mem, u16_bound. Qed.

Lemma to_mem_htonll val : is_u64 val → to_mem host 8 (htonll host val) = be_bytes 8 val.
Proof. intros H. rewrite htonll_swab by done. by apply swab_to_mem. Qed.

Lemma of_mem_bound l : Forall is_byte l → 0 <= of_mem host l < 256 ^ Z.of_nat (length l).
Proof. intros H. destruct host; [by apply le_combine_bound | by apply be_value_bound]. Qed.

Lemma ntohl_of_mem l : Forall is_byte l → length l = 4%nat → ntohl host (of_mem host l) = be_value l.
Proof.
  intros Hl Hn. pose proof (of_mem_bound l Hl) as Hb. rewrite Hn in Hb.
  unfold ntohl. rewrite u32_id by done. rewrite <- Hn. by apply swab_of_mem.
Qed.

Lemma ntohll_of_mem l : Forall is_byte l → length l = 8%nat → ntohll host (of_mem host l) = be_value l.
Proof.
  intros Hl Hn. pose proof (of_mem_bound l Hl) as Hb. rewrite Hn in Hb.
  rewrite ntohll_htonll, htonll_swab by done. rewrite <- Hn. by apply swab_of_mem.
Qed.

Lemma WriteNetField32_Ok dst off val :
  (off + 4 <= length dst)%nat →
  WriteNetField32 host dst off val
    = Ok (splice dst off (be_bytes 4 (u32 val))).
Proof.
  intros H. unfold WriteNetField32. rewrite to_mem_htonl.
  by rewrite memcpy_to_Ok; rewrite ?length_be_bytes.
Qed.

Lemma WriteNetField32_UB dst off val :
  (length dst < off + 4)%nat → WriteNetField32 host dst off val = UB out_of_bounds.
Proof.
  intros H. unfold WriteNetField32. rewrite to_mem_htonl. unfold memcpy_to.
  rewrite length_be_bytes. case_if; [lia | done].
Qed.

Lemma WriteNetField64_Ok dst off val :
  is_u64 val → (off + 8 <= length dst)%nat →
  WriteNetField64 host dst off val
    = Ok (splice dst off (be_bytes 8 val)).
Proof.
  intros Hv H. unfold WriteNetField64. rewrite to_mem_htonll by done.
  by rewrite memcpy_to_Ok; rewrite ?length_be_bytes.
Qed.

Lemma WriteNetField16_Ok dst off val :
  (off + 2 <= length dst)%nat →
  WriteNetField16 host dst off val = Ok (splice dst off (be_bytes 2 (u16 val))).
Proof.
  intros H. unfold WriteNetField16. rewrite to_mem_htons.
  by rewrite memcpy_to_Ok; rewrite ?length_be_bytes.
Qed.

Lemma ReadNetField16_Ok buf off :
  Forall is_byte buf → (off + 2 <= length buf)%nat →
  ReadNetField16 host buf off = Ok (be_value (take 2 (drop off buf))).
Proof.
  intros Hb H. unfold ReadNetField16. rewrite memcpy_from_Ok by done. simpl. f_equal.
  assert (Hl : length (take 2 (drop off buf)) = 2%nat) by (rewrite length_take, length_drop; lia).
  pose proof (of_mem_bound (take 2 (drop off buf))) as Hbd. rewrite Hl in Hbd.
  assert (Hby : Forall is_byte (take 2 (drop off buf))) by (by apply Forall_take, Forall_drop).
  unfold ntohs. rewrite u16_id by (by apply Hbd). rewrite <- Hl at 1. by apply swab_of_mem.
Qed.

Lemma ReadNetField32_Ok buf off :
  Forall is_byte buf → (off + 4 <= length buf)%nat →
  ReadNetField32 host buf off = Ok (be_value (take 4 (drop off buf))).
Proof.
  intros Hb H. unfold ReadNetField32. rewrite memcpy_from_Ok by done. simpl. f_equal.
  apply ntohl_of_mem; [by apply Forall_take, Forall_drop|].
  rewrite length_take, length_drop. lia.
Qed.

Lemma ReadNetField64_Ok buf off :
  Forall is_byte buf → (off + 8 <= length buf)%nat →
  ReadNetField64 host buf off = Ok (be_value (take 8 (drop off buf))).
Proof.
  intros Hb H. unfold ReadNetField64. rewrite memcpy_from_Ok by done. simpl. f_equal.
  apply ntohll_of_mem; [by apply Forall_take, Forall_drop|].
  rewrite length_take, length_drop. lia.
Qed.
End fields.

Lemma length_splice_be (dst : list Z) off n x :
  (off + n <= length dst)%nat → length (splice dst off (be_bytes n x)) = length dst.
Proof. intros H. apply length_splice. by rewrite length_be_bytes. Qed.

(** Reading back the slice a write has just filled. *)
Lemma be_value_splice (dst : list Z) off n x :
  (off + n <= length dst)%nat → 0 <= x < 256 ^ Z.of_nat n →
  be_value (take n (drop off (splice dst off (be_bytes n x)))) = x.
Proof.
  intros H Hx. rewrite <- (length_be_bytes n x) at 1.
  rewrite splice_read by (by rewrite length_be_bytes). by apply be_value_bytes.
Qed.

(** C24. Writing a 16, 32 or 64-bit value into a buffer that has room at the offset
    succeeds on a host of either byte order, stores the big-endian bytes of the value,
    changes no byte outside the field, and the matching read returns the value. *)
Theorem net_field_roundtrip (host : byte_order) (dst : list Z) (off n : nat) (val : Z) :
  Forall is_byte dst → (off + n <= length dst)%nat → 0 <= val < 256 ^ Z.of_nat n →
  ∀ write read,
  (n, write, read) ∈ [(2%nat, WriteNetField16 host, ReadNetField16 host);
                      (4%nat, WriteNetField32 host, ReadNetField32 host);
                      (8%nat, WriteNetField64 host, ReadNetField64 host)] →
  ∃ dst', write dst off val = Ok dst'
    ∧ read dst' off = Ok val
    ∧ take n (drop off dst') = be_bytes n val
    ∧ length dst' = length dst
    ∧ (∀ i, (i < off ∨ off + n <= i)%nat → dst' !! i = dst !! i).
Proof.
  intros Hb Hoff Hval write read Hin.
  assert (Hw : write dst off val = Ok (splice dst off (be_bytes n val))
            ∧ read (splice dst off (be_bytes n val)) off = Ok val).
  { assert (Forall is_byte (splice dst off (be_bytes n val)))
      by auto using Forall_splice, be_bytes_byte.
    rewrite !elem_of_cons, elem_of_nil in Hin.
    destruct Hin as [[= -> -> ->]|[[= -> -> ->]|[[= -> -> ->]|[]]]].
    - rewrite WriteNetField16_Ok, u16_id by done. split; [done|].
      rewrite ReadNetField16_Ok; rewrite ?length_splice; rewrite ?length_be_bytes; try done.
      by rewrite be_value_splice.
    - rewrite WriteNetField32_Ok, u32_id by done. split; [done|].
      rewrite ReadNetField32_Ok; rewrite ?length_splice; rewrite ?length_be_bytes; try done.
      by rewrite be_value_splice.
    - rewrite WriteNetField64_Ok by done. split; [done|].
      rewrite ReadNetField64_Ok; rewrite ?length_splice; rewrite ?length_be_bytes; try done.
      by rewrite be_value_splice. }
  destruct Hw as [Hw Hr]. exists (splice dst off (be_bytes n val)).
  split_and!; [done|done| | |].
  - rewrite <- (length_be_bytes n val) at 1. apply splice_read. by rewrite length_be_bytes.
  - apply length_splice. by rewrite length_be_bytes.
  - intros i Hi. apply splice_lookup_ne; by rewrite length_be_bytes.
Qed.

Lemma net_field_roundtrip_witness :
  ∃ dst', WriteNetField64 LITTLE_ENDIAN (replicate 10 7) 1 0x0102030405060708 = Ok dst'
    ∧ ReadNetField64 LITTLE_ENDIAN dst' 1 = Ok 0x0102030405060708
    ∧ dst' = [7; 1; 2; 3; 4; 5; 6; 7; 8; 7].
Proof.
  destruct (net_field_roundtrip LITTLE_ENDIAN (replicate 10 7) 1 8 0x0102030405060708
    ltac:(apply Forall_replicate; vm_compute; split; congruence) ltac:(vm_compute; lia) ltac:(vm_compute; split; congruence)
    (WriteNetField64 LITTLE_ENDIAN) (ReadNetField64 LITTLE_ENDIAN) ltac:(set_solver))
    as (dst' & Hw & Hr & _).
  exists dst'. split_and!; [done|done|]. vm_compute in Hw. by injection Hw.
Defined.
