(* ===== verification/MsgNode.v ===== *)
(** * TLV message nodes (src/src/include/common/msgnode.hpp)

    A node owns one heap block holding [Tag | Len | Content]; [Tag] and [Len] are 32-bit
    network-order fields.  The block is [data_] (a null pointer is [None]); [cur_pos_],
    [ctx_len_] and [max_len_] are the [uint32_t] members.  Bytes of a fresh [new char[n]]
    are indeterminate: the definitions take them from an arbitrary function [junk]. *)

From S2P Require Import Prelude FieldOp.

(** The tags of a message, in the order of the enumeration. *)
Inductive TagType :=
  | DEBUG | VERIFY | VERIFY_DONE | CHAT_MSG | CHAT_MSG_TOCLI | GROUP_CHAT_MSG | PING | RESERVED.

Definition tag_value (t : TagType) : Z :=
  match t with
  | DEBUG => 0 | VERIFY => 1 | VERIFY_DONE => 2 | CHAT_MSG => 3
  | CHAT_MSG_TOCLI => 4 | GROUP_CHAT_MSG => 5 | PING => 6 | RESERVED => 7
  end.

(** [TagTypeStr] takes the enumeration by value; the client casts any [uint32_t] to it.
    [PING] has no case of its own. *)
Definition TagTypeStr (e : Z) : string :=
  if e =? tag_value DEBUG then "DEBUG"
  else if e =? tag_value VERIFY then "VERIFY"
  else if e =? tag_value VERIFY_DONE then "VERIFY_DONE"
  else if e =? tag_value CHAT_MSG then "CHAT_MSG"
  else if e =? tag_value CHAT_MSG_TOCLI then "CHAT_MSG_TOCLI"
  else if e =? tag_value GROUP_CHAT_MSG then "GROUP_CHAT_MSG"
  else if e =? tag_value RESERVED then "RESERVED"
  else "UNKNOWN".

Definition TAG_LEN : Z := 4.

Definition LENGTH_LEN : Z := 4.

Definition HEAD_LEN : Z := TAG_LEN + LENGTH_LEN.

Definition MAX_CTX_LEN : Z := 1024 * 1024.

Record MsgNode := mkMsgNode {
  data_ : option (list Z);
  cur_pos_ : Z;
  ctx_len_ : Z;
  max_len_ : Z
}.

(** The block behind a pointer that is about to be accessed. *)
Definition block (m : MsgNode) : res (list Z) :=
  match data_ m with Some b => Ok b | None => UB null_deref end.

Definition set_data (m : MsgNode) (b : list Z) : MsgNode :=
  mkMsgNode (Some b) (cur_pos_ m) (ctx_len_ m) (max_len_ m).

Definition set_cur_pos (m : MsgNode) (p : Z) : MsgNode :=
  mkMsgNode (data_ m) p (ctx_len_ m) (max_len_ m).

Definition set_ctx_len (m : MsgNode) (n : Z) : MsgNode :=
  mkMsgNode (data_ m) (cur_pos_ m) n (max_len_ m).

Section node.
Context (host : byte_order) (junk : nat → Z).

(** [new char[n]] *)
Definition new_char (n : Z) : list Z := map (λ i, junk i mod 256) (seq 0 (Z.to_nat n)).

(** [MsgNode(uint32_t max_len)] *)
Definition MsgNode_sized (max_len : Z) : MsgNode :=
  mkMsgNode (if 0 <? max_len then Some (new_char max_len) else None) 0 0 max_len.

(** [MsgNode(const char *content, uint32_t msg_len, uint32_t tag)]; [content] is the
    block the pointer designates. *)
Definition MsgNode_of (content : list Z) (msg_len tag : Z) : res MsgNode :=
  let data := if 0 <? msg_len then Some (new_char (u32 (HEAD_LEN + msg_len))) else None in
  let m := mkMsgNode data 0 msg_len (u32 (HEAD_LEN + msg_len)) in
  if 0 <? msg_len then
    b ← block m;
    b ← WriteNetField32 host b 0 tag;
    b ← WriteNetField32 host b (Z.to_nat TAG_LEN) msg_len;
    c ← memcpy_from content 0 (Z.to_nat msg_len);
    b ← memcpy_to b (Z.to_nat (TAG_LEN + LENGTH_LEN)) c;
    Ok (set_data m b)
  else Throw (invalid_argument "Attempt to create a zero-sized message").

(** [MsgNode(char *data_ptr, uint32_t data_len)] *)
Definition MsgNode_raw (data_ptr : option (list Z)) (data_len : Z) : MsgNode :=
  mkMsgNode data_ptr 0 0 data_len.

Definition Clear (m : MsgNode) : MsgNode := mkMsgNode None 0 0 0.

Definition ResetCurPos (m : MsgNode) : MsgNode := set_cur_pos m 0.

Definition Zero (m : MsgNode) : MsgNode := set_ctx_len (set_cur_pos m 0) 0.

Definition Reallocate (m : MsgNode) (new_len : Z) : res MsgNode :=
  m1 ← match data_ m with
       | Some b =>
           if max_len_ m <? new_len then
             c ← memcpy_from b 0 (Z.to_nat (max_len_ m));
             tmp ← memcpy_to (new_char new_len) 0 c;
             Ok (set_data m tmp)
           else Ok m
       | None => Ok (mkMsgNode (Some (new_char new_len)) 0 0 (max_len_ m))
       end;
  Ok (mkMsgNode (data_ m1) (cur_pos_ m1) (ctx_len_ m1) (Z.max (max_len_ m1) new_len)).

(** [operator=]; [same] is the self-assignment test [this == &rhs]. *)
Definition assign (same : bool) (m rhs : MsgNode) : res MsgNode :=
  if same then Ok m
  else
    dst ← match data_ m with
          | Some b => if max_len_ m <? max_len_ rhs then Ok (new_char (max_len_ rhs)) else Ok b
          | None => Ok (new_char (max_len_ rhs))
          end;
    src ← block rhs;
    c ← memcpy_from src 0 (Z.to_nat (max_len_ rhs));
    dst ← memcpy_to dst 0 c;
    Ok (mkMsgNode (Some dst) (cur_pos_ rhs) (ctx_len_ rhs) (Z.max (max_len_ m) (max_len_ rhs))).

(** The copy constructor. *)
Definition MsgNode_copy (rhs : MsgNode) : res MsgNode :=
  src ← block rhs;
  c ← memcpy_from src 0 (Z.to_nat (max_len_ rhs));
  dst ← memcpy_to (new_char (max_len_ rhs)) 0 c;
  Ok (mkMsgNode (Some dst) (cur_pos_ rhs) (ctx_len_ rhs) (max_len_ rhs)).

Definition GetContentLen (m : MsgNode) : Z := ctx_len_ m.

Definition UpdateContentLenField (m : MsgNode) : res (Z * MsgNode) :=
  b ← block m;
  f ← memcpy_from b (Z.to_nat TAG_LEN) (Z.to_nat LENGTH_LEN);
  let n := ntohl host (of_mem host f) in
  Ok (n, set_ctx_len m n).

Definition SetContentLenField (m : MsgNode) (content_len : Z) : res MsgNode :=
  b ← block m;
  b ← WriteNetField32 host b (Z.to_nat TAG_LEN) content_len;
  Ok (set_ctx_len (set_data m b) content_len).

Definition GetTagField (m : MsgNode) : res Z :=
  b ← block m;
  f ← memcpy_from b 0 (Z.to_nat TAG_LEN);
  Ok (ntohl host (of_mem host f)).

Definition SetTagField (m : MsgNode) (tag : Z) : res MsgNode :=
  b ← block m;
  b ← WriteNetField32 host b 0 tag;
  Ok (set_data m b).

(** [GetContent()] points [HEAD_LEN] bytes into the block: the bytes from there on. *)
Definition GetContent (m : MsgNode) : res (list Z) :=
  b ← block m; Ok (drop (Z.to_nat HEAD_LEN) b).

(** Writes through that pointer. *)
Definition write_content (m : MsgNode) (off : nat) (s : list Z) : res MsgNode :=
  b ← block m;
  b ← memcpy_to b (Z.to_nat HEAD_LEN + off) s;
  Ok (set_data m b).
End node.

(** ** Well-formed nodes *)

Definition node_wf (m : MsgNode) : Prop :=
  is_u32 (max_len_ m) ∧ is_u32 (cur_pos_ m) ∧ is_u32 (ctx_len_ m) ∧
  match data_ m with
  | Some b => Z.of_nat (length b) = max_len_ m ∧ Forall is_byte b
  | None => max_len_ m = 0
  end.

(** The bytes of a message on the wire. *)
Definition frame (tag : Z) (content : list Z) : list Z :=
  be_bytes 4 tag ++ be_bytes 4 (Z.of_nat (length content)) ++ content.

Lemma length_frame tag content :
  length (frame tag content) = (Z.to_nat HEAD_LEN + length content)%nat.
Proof. unfold frame. by rewrite !length_app, !length_be_bytes. Qed.

Lemma length_new_char junk n : length (new_char junk n) = Z.to_nat n.
Proof. unfold new_char. by rewrite length_map, length_seq. Qed.

Lemma new_char_byte junk n : Forall is_byte (new_char junk n).
Proof.
  unfold new_char. apply List.Forall_map, List.Forall_forall. intros i _.
  by apply Z.mod_pos_bound.
Qed.

#[export] Hint Resolve new_char_byte be_bytes_byte : chat.
#[export] Hint Rewrite length_new_char length_be_bytes : chat_rw.

Lemma memcpy_from_byte b off n c :
  Forall is_byte b → memcpy_from b off n = Ok c → Forall is_byte c ∧ length c = n.
Proof.
  unfold memcpy_from. intros Hb. case_if; intros H; inv_res.
  split; [by apply Forall_take, Forall_drop | rewrite length_take, length_drop; lia].
Qed.

Lemma memcpy_to_byte b off s b' :
  Forall is_byte b → Forall is_byte s → memcpy_to b off s = Ok b' →
  Forall is_byte b' ∧ length b' = length b ∧ b' = splice b off s.
Proof.
  unfold memcpy_to. intros Hb Hs. case_if; intros H; inv_res.
  split_and!; [by apply Forall_splice | by apply length_splice | done].
Qed.

Lemma WriteNetField32_byte host b off v b' :
  Forall is_byte b → WriteNetField32 host b off v = Ok b' →
  Forall is_byte b' ∧ length b' = length b.
Proof.
  intros Hb H. unfold WriteNetField32 in H. rewrite to_mem_htonl in H.
  apply memcpy_to_byte in H as (?&?&_); auto using be_bytes_byte.
Qed.

(** ** Reading the header of a node *)

Section read.
Context (host : byte_order).

Lemma GetTagField_Ok m b :
  data_ m = Some b → Forall is_byte b → (4 <= length b)%nat →
  GetTagField host m = Ok (be_value (take 4 b)).
Proof.
  intros Hd Hb Hl. unfold GetTagField, block. rewrite Hd. cbn [mbind res_bind].
  change (Z.to_nat TAG_LEN) with 4%nat. rewrite memcpy_from_Ok by lia.
  cbn [mbind res_bind]; rewrite ?drop_0. f_equal.
  apply ntohl_of_mem; [by apply Forall_take | rewrite length_take; lia].
Qed.

Lemma UpdateContentLenField_Ok m b :
  data_ m = Some b → Forall is_byte b → (8 <= length b)%nat →
  UpdateContentLenField host m =
    Ok (be_value (take 4 (drop 4 b)), set_ctx_len m (be_value (take 4 (drop 4 b)))).
Proof.
  intros Hd Hb Hl. unfold UpdateContentLenField, block. rewrite Hd. cbn [mbind res_bind].
  change (Z.to_nat TAG_LEN) with 4%nat. change (Z.to_nat LENGTH_LEN) with 4%nat.
  rewrite memcpy_from_Ok by lia. cbn [mbind res_bind].
  rewrite ntohl_of_mem; [done | by apply Forall_take, Forall_drop|].
  rewrite length_take, length_drop. lia.
Qed.

(** The header fields of a framed message. *)
Lemma frame_tag tag content : is_u32 tag → be_value (take 4 (frame tag content)) = tag.
Proof.
  intros H. unfold frame. rewrite take_app_length' by (by rewrite length_be_bytes).
  by apply be_value_bytes.
Qed.

Lemma frame_len tag content :
  is_u32 (Z.of_nat (length content)) →
  be_value (take 4 (drop 4 (frame tag content))) = Z.of_nat (length content).
Proof.
  intros H. unfold frame. rewrite drop_app_length' by (by rewrite length_be_bytes).
  rewrite take_app_length' by (by rewrite length_be_bytes). by apply be_value_bytes.
Qed.

Lemma frame_content tag content : drop (Z.to_nat HEAD_LEN) (frame tag content) = content.
Proof.
  unfold frame. rewrite app_assoc.
  by rewrite drop_app_length' by (by rewrite length_app, !length_be_bytes).
Qed.

Lemma frame_byte tag content : Forall is_byte content → Forall is_byte (frame tag content).
Proof. intros H. unfold frame. rewrite !Forall_app. auto using be_bytes_byte. Qed.

(** Filling the three slices of a block of the right size makes it the frame. *)
Lemma splice_frame (b : list Z) tag content :
  length b = (Z.to_nat HEAD_LEN + length content)%nat →
  splice (splice (splice b 0 (be_bytes 4 tag)) 4 (be_bytes 4 (Z.of_nat (length content))))
    8 content = frame tag content.
Proof.
  change (Z.to_nat HEAD_LEN) with 8%nat. intros Hl.
  assert (E4 : ∀ x, length (be_bytes 4 x) = 4%nat) by (intros; apply length_be_bytes).
  unfold splice. rewrite !E4, take_0, app_nil_l. unfold frame.
  rewrite (take_app_length' (be_bytes 4 tag) _ 4) by (by rewrite E4).
  rewrite (take_app_ge (be_bytes 4 tag) _ 8) by (rewrite E4; lia).
  rewrite (take_app_length' (be_bytes 4 (Z.of_nat (length content)))) by (by rewrite !E4).
  rewrite (drop_ge _ (8 + _)); [by rewrite app_nil_r, <- app_assoc|].
  rewrite !length_app, !length_drop, !length_app, !E4, !length_drop. lia.
Qed.

Lemma MsgNode_of_Ok junk content msg_len tag :
  Forall is_byte content → 0 < msg_len <= Z.of_nat (length content) →
  msg_len < 2 ^ 32 - HEAD_LEN → is_u32 tag →
  MsgNode_of host junk content msg_len tag =
    Ok (mkMsgNode (Some (frame tag (take (Z.to_nat msg_len) content))) 0 msg_len
          (HEAD_LEN + msg_len)).
Proof.
  intros Hc Hlen Hmax Ht. unfold MsgNode_of. change HEAD_LEN with 8 in *.
  destruct (Z.ltb_spec 0 msg_len) as [_|]; [|lia].
  rewrite u32_id by (unfold is_u32; lia). unfold block. cbn [data_ mbind res_bind].
  change (Z.to_nat TAG_LEN) with 4%nat. change (Z.to_nat (TAG_LEN + LENGTH_LEN)) with 8%nat.
  rewrite WriteNetField32_Ok, u32_id by (rewrite ?length_new_char; done || lia).
  cbn [mbind res_bind].
  assert (Hl0 := length_new_char junk (8 + msg_len)).
  rewrite WriteNetField32_Ok, u32_id by (rewrite ?length_splice_be; unfold is_u32; lia).
  cbn [mbind res_bind]. rewrite memcpy_from_Ok by lia. cbn [mbind res_bind]; rewrite ?drop_0.
  set (c := take (Z.to_nat msg_len) content).
  assert (Hcl : length c = Z.to_nat msg_len) by (unfold c; rewrite length_take; lia).
  rewrite memcpy_to_Ok by (rewrite !length_splice_be by (rewrite ?length_splice_be; lia); lia).
  cbn [mbind res_bind]. unfold set_data. cbn [cur_pos_ ctx_len_ max_len_]. do 3 f_equal.
  replace msg_len with (Z.of_nat (length c)) at 2 by lia.
  apply splice_frame. rewrite length_new_char, Hcl. change (Z.to_nat HEAD_LEN) with 8%nat. lia.
Qed.
End read.

(** C25. A node built from [msg_len] bytes of content holds exactly the frame
    [Tag | Len | Content], and the accessors of a receiver give back the tag, the
    length and the content. *)
Theorem MsgNode_roundtrip (host : byte_order) (junk : nat → Z) (content : list Z) (msg_len tag : Z) :
  Forall is_byte content → 0 < msg_len <= Z.of_nat (length content) →
  msg_len < 2 ^ 32 - HEAD_LEN → is_u32 tag →
  ∃ m, MsgNode_of host junk content msg_len tag = Ok m
    ∧ data_ m = Some (frame tag (take (Z.to_nat msg_len) content))
    ∧ node_wf m
    ∧ GetTagField host m = Ok tag
    ∧ UpdateContentLenField host m = Ok (msg_len, m)
    ∧ GetContent m = Ok (take (Z.to_nat msg_len) content).
Proof.
  intros Hc Hlen Hmax Ht. eexists. split; [by apply MsgNode_of_Ok|]. split; [done|].
  set (c := take (Z.to_nat msg_len) content).
  assert (Hcl : Z.of_nat (length c) = msg_len) by (unfold c; rewrite length_take; lia).
  assert (Hcb : Forall is_byte (frame tag c)) by (by apply frame_byte, Forall_take).
  pose proof (length_frame tag c) as Hfl. change HEAD_LEN with 8 in *.
  split; [|split; [|split]].
  - unfold node_wf, is_u32 in *. cbn [max_len_ cur_pos_ ctx_len_ data_]. split_and!; lia || done.
  - rewrite (GetTagField_Ok host _ (frame tag c)) by (done || lia). by rewrite frame_tag.
  - rewrite (UpdateContentLenField_Ok host _ (frame tag c)) by (done || lia).
    rewrite frame_len by (unfold is_u32 in *; lia). by rewrite Hcl.
  - unfold GetContent, block. cbn [data_ mbind res_bind]. by rewrite frame_content.
Qed.

Lemma MsgNode_roundtrip_witness :
  ∃ m, MsgNode_of LITTLE_ENDIAN (λ i, Z.of_nat i) [104; 105; 33] 2 3 = Ok m
    ∧ data_ m = Some [0; 0; 0; 3; 0; 0; 0; 2; 104; 105]
    ∧ GetTagField LITTLE_ENDIAN m = Ok 3.
Proof.
  destruct (MsgNode_roundtrip LITTLE_ENDIAN (λ i, Z.of_nat i) [104; 105; 33] 2 3)
    as (m & Hm & Hd & _ & Ht & _).
  - repeat constructor; vm_compute; congruence.
  - vm_compute; split; congruence.
  - done.
  - vm_compute; split; congruence.
  - exists m. split_and!; [done | by rewrite Hd | done].
Defined.

(** ** Every operation keeps a node well formed *)

(** The member functions that change a node, with their arguments. *)
Inductive node_op :=
  | OpClear
  | OpResetCurPos
  | OpZero
  | OpReallocate (new_len : Z)
  | OpAssign (same : bool) (rhs : MsgNode)
  | OpUpdateContentLenField
  | OpSetContentLenField (content_len : Z)
  | OpSetTagField (tag : Z)
  | OpWriteContent (off : nat) (s : list Z).

Definition run_node_op (host : byte_order) (junk : nat → Z) (op : node_op) (m : MsgNode) : res MsgNode :=
  match op with
  | OpClear => Ok (Clear m)
  | OpResetCurPos => Ok (ResetCurPos m)
  | OpZero => Ok (Zero m)
  | OpReallocate n => Reallocate junk m n
  | OpAssign same rhs => assign junk same m rhs
  | OpUpdateContentLenField => r ← UpdateContentLenField host m; Ok r.2
  | OpSetContentLenField n => SetContentLenField host m n
  | OpSetTagField t => SetTagField host m t
  | OpWriteContent off s => write_content m off s
  end.

Definition node_op_args_ok (op : node_op) : Prop :=
  match op with
  | OpReallocate n | OpSetContentLenField n | OpSetTagField n => is_u32 n
  | OpAssign _ rhs => node_wf rhs
  | OpWriteContent _ s => Forall is_byte s
  | _ => True
  end.

Lemma block_Ok m b : block m = Ok b → data_ m = Some b.
Proof. unfold block. destruct (data_ m); intros H; inv_res; done. Qed.

Lemma node_wf_block m b :
  node_wf m → data_ m = Some b → Z.of_nat (length b) = max_len_ m ∧ Forall is_byte b.
Proof. intros (_&_&_&H) E. by rewrite E in H. Qed.

Lemma node_wf_mk b p n l :
  is_u32 l → is_u32 p → is_u32 n → Z.of_nat (length b) = l → Forall is_byte b →
  node_wf (mkMsgNode (Some b) p n l).
Proof. unfold node_wf. simpl. tauto. Qed.

Lemma is_u32_0 : is_u32 0.
Proof. unfold is_u32. lia. Qed.

#[export] Hint Resolve is_u32_0 : chat.

Lemma set_data_wf m b :
  node_wf m → Z.of_nat (length b) = max_len_ m → Forall is_byte b → node_wf (set_data m b).
Proof. intros (?&?&?&_) ? ?. by apply node_wf_mk. Qed.

Lemma set_ctx_len_wf m n : node_wf m → is_u32 n → node_wf (set_ctx_len m n).
Proof. intros (?&?&?&?) Hn. unfold node_wf. by split_and!. Qed.

Lemma Reallocate_Ok junk m new_len :
  node_wf m → is_u32 new_len →
  ∃ m', Reallocate junk m new_len = Ok m' ∧ node_wf m'
    ∧ max_len_ m' = Z.max (max_len_ m) new_len
    ∧ match data_ m with
      | Some b => cur_pos_ m' = cur_pos_ m ∧ ctx_len_ m' = ctx_len_ m
                  ∧ ∃ b', data_ m' = Some b' ∧ take (length b) b' = b
      | None => cur_pos_ m' = 0 ∧ ctx_len_ m' = 0
      end.
Proof.
  intros Hwf Hn. pose proof Hwf as (Hmax&Hcur&Hctx&Hd). unfold Reallocate.
  assert (is_u32 (Z.max (max_len_ m) new_len)) by (unfold is_u32 in *; lia).
  unfold is_u32 in Hn, Hmax.
  destruct (data_ m) as [b|] eqn:E; [destruct Hd as [Hlen Hb]; case_if|].
  - rewrite memcpy_from_Ok by lia. cbn [mbind res_bind]. rewrite drop_0, take_ge by lia.
    rewrite memcpy_to_Ok by (rewrite length_new_char; lia). cbn [mbind res_bind].
    assert (Hl' : length (splice (new_char junk new_len) 0 b) = Z.to_nat new_len)
      by (rewrite length_splice; rewrite length_new_char; lia).
    eexists; split; [reflexivity|]. simpl. split_and!; try done.
    + apply node_wf_mk; try done; [lia|]. apply Forall_splice; auto with chat.
    + eexists; split; [done|]. unfold splice. by rewrite take_0, app_nil_l, take_app_length.
  - eexists; split; [reflexivity|]. simpl. rewrite E. split_and!; try done.
    + apply node_wf_mk; try done. lia.
    + eexists; split; [done|]. by rewrite take_ge.
  - eexists; split; [reflexivity|]. simpl. split_and!; try done.
    apply node_wf_mk; auto with chat. rewrite length_new_char. lia.
Qed.

Lemma assign_wf junk same m rhs m' :
  node_wf m → node_wf rhs → assign junk same m rhs = Ok m' → node_wf m'.
Proof.
  intros Hm Hr H. pose proof Hm as (Hmax&_&_&Hd). pose proof Hr as (Hmax'&Hcur&Hctx&_).
  unfold is_u32 in *. unfold assign in H. destruct same; inv_res; [done|].
  apply block_Ok in Hm1. destruct (node_wf_block _ _ Hr Hm1) as [_ Hb0].
  apply memcpy_from_byte in Hm2 as [Hb1 Hl1]; [|done].
  assert (Forall is_byte a ∧ Z.of_nat (length a) = Z.max (max_len_ m) (max_len_ rhs)) as [Ha Hla].
  { pose proof (length_new_char junk (max_len_ rhs)).
    destruct (data_ m) as [b|]; [destruct Hd; revert Hm0; case_if|]; intros; inv_res;
      split; auto with chat; lia. }
  apply memcpy_to_byte in Hm3 as (?&?&_); [|done..].
  apply node_wf_mk; unfold is_u32; lia || done.
Qed.

Lemma MsgNode_sized_wf junk max_len : is_u32 max_len → node_wf (MsgNode_sized junk max_len).
Proof.
  intros Hn. unfold MsgNode_sized. unfold is_u32 in Hn. case_if.
  - apply node_wf_mk; auto with chat. rewrite length_new_char. lia.
  - unfold node_wf, is_u32. simpl. lia.
Qed.

Lemma MsgNode_of_wf host junk content msg_len tag m :
  Forall is_byte content → is_u32 msg_len → MsgNode_of host junk content msg_len tag = Ok m → node_wf m.
Proof.
  intros Hc Hl H. unfold MsgNode_of in H. destruct (0 <? msg_len); [|done]. inv_res.
  apply block_Ok in Hm. cbn [data_] in Hm. injection Hm as <-.
  apply WriteNetField32_byte in Hm0 as [Hb1 Hl1]; [|auto with chat].
  apply WriteNetField32_byte in Hm1 as [Hb2 Hl2]; [|done].
  apply memcpy_from_byte in Hm2 as [Hb3 _]; [|done].
  apply memcpy_to_byte in Hm3 as (Hb4&Hl4&_); [|done..].
  pose proof (u32_bound (HEAD_LEN + msg_len)) as Hu.
  apply node_wf_mk; auto with chat. rewrite Hl4, Hl2, Hl1, length_new_char.
  cbn [max_len_]. unfold is_u32 in Hu. lia.
Qed.

Lemma MsgNode_copy_wf junk rhs m : node_wf rhs → MsgNode_copy junk rhs = Ok m → node_wf m.
Proof.
  intros Hr H. pose proof Hr as (Hmax&Hcur&Hctx&_). unfold MsgNode_copy in H. inv_res.
  apply block_Ok in Hm. destruct (node_wf_block _ _ Hr Hm) as [Hlen Hb].
  apply memcpy_from_byte in Hm0 as [Hb1 _]; [|done].
  apply memcpy_to_byte in Hm1 as (Hb2&Hl2&_); [|auto with chat|done].
  apply node_wf_mk; try done. rewrite Hl2, length_new_char. unfold is_u32 in Hmax. lia.
Qed.

Lemma run_node_op_wf host junk op m m' :
  node_wf m → node_op_args_ok op → run_node_op host junk op m = Ok m' → node_wf m'.
Proof.
  intros Hwf Hargs H. destruct op; cbn [run_node_op node_op_args_ok] in H, Hargs; inv_res.
  - unfold node_wf, is_u32. simpl. lia.
  - destruct Hwf as (?&?&?&?). unfold node_wf, is_u32 in *. simpl. split_and!; lia || done.
  - destruct Hwf as (?&?&?&?). unfold node_wf, is_u32 in *. simpl. split_and!; lia || done.
  - destruct (Reallocate_Ok junk m new_len Hwf Hargs) as (?&?&?&_). congruence.
  - exact (assign_wf _ _ _ _ _ Hwf Hargs H).
  - unfold UpdateContentLenField in Hm. inv_res. apply set_ctx_len_wf; [done|].
    apply (swab_bound host 4), u32_bound.
  - unfold SetContentLenField in H. inv_res. apply block_Ok in Hm.
    destruct (node_wf_block _ _ Hwf Hm) as [? Hb].
    apply WriteNetField32_byte in Hm0 as [??]; [|done].
    apply set_ctx_len_wf; [|done]. apply set_data_wf; try done. lia.
  - unfold SetTagField in H. inv_res. apply block_Ok in Hm.
    destruct (node_wf_block _ _ Hwf Hm) as [? Hb].
    apply WriteNetField32_byte in Hm0 as [??]; [|done]. apply set_data_wf; try done. lia.
  - unfold write_content in H. inv_res. apply block_Ok in Hm.
    destruct (node_wf_block _ _ Hwf Hm) as [? Hb].
    apply memcpy_to_byte in Hm0 as (?&?&_); [|done..]. apply set_data_wf; try done. lia.
Qed.

(** C26. The node invariant: the block is as long as [max_len_] says (and [max_len_] is 0
    for a null block), every cell is a byte and every member is a [uint32_t].  The sized
    constructor establishes it, and so do the constructor from a content and the copy
    constructor, of a well-formed node, whenever they return; the deprecated constructor from
    a raw pointer adopts the pointer and the length as they are, and establishes it exactly
    when the pointer designates a block of that length.  Every member function that changes
    a node keeps it. *)
Theorem node_wf_invariant (host : byte_order) (junk : nat → Z) :
  (∀ max_len, is_u32 max_len → node_wf (MsgNode_sized junk max_len)) ∧
  (∀ content msg_len tag m, Forall is_byte content → is_u32 msg_len →
     MsgNode_of host junk content msg_len tag = Ok m → node_wf m) ∧
  (∀ rhs m, node_wf rhs → MsgNode_copy junk rhs = Ok m → node_wf m) ∧
  (∀ b data_len, is_u32 data_len → Forall is_byte b →
     node_wf (MsgNode_raw (Some b) data_len) ↔ Z.of_nat (length b) = data_len) ∧
  (∀ data_len, is_u32 data_len → node_wf (MsgNode_raw None data_len) ↔ data_len = 0) ∧
  (∀ op m m', node_wf m → node_op_args_ok op → run_node_op host junk op m = Ok m' → node_wf m').
Proof.
  split_and!.
  - apply MsgNode_sized_wf.
  - apply MsgNode_of_wf.
  - apply MsgNode_copy_wf.
  - intros b n Hn Hb. split; [by intros (_&_&_&?&_)|]. intros. apply node_wf_mk; auto with chat.
  - intros n Hn. unfold node_wf, is_u32 in *. simpl. lia.
  - apply run_node_op_wf.
Qed.

Lemma node_wf_invariant_witness :
  node_wf (MsgNode_sized (λ _, 5) 4)
  ∧ (∀ m, MsgNode_of LITTLE_ENDIAN (λ _, 5) [104; 105; 33] 2 3 = Ok m →
      node_wf m ∧ ∀ m', MsgNode_copy (λ _, 5) m = Ok m' → node_wf m')
  ∧ ¬ node_wf (MsgNode_raw (Some [1; 2]) 4)
  ∧ (∀ m', Reallocate (λ _, 5) (MsgNode_sized (λ _, 5) 4) 16 = Ok m' → node_wf m').
Proof.
  destruct (node_wf_invariant LITTLE_ENDIAN (λ _, 5)) as (Hnew & Hof & Hcopy & Hraw & _ & Hop).
  assert (H4 : node_wf (MsgNode_sized (λ _, 5) 4)) by (apply Hnew; vm_compute; split; congruence).
  split; [done|]. split; [|split].
  - intros m Hm. assert (Hw : node_wf m).
    { apply (Hof [104; 105; 33] 2 3); [repeat constructor; vm_compute; congruence|vm_compute; split; congruence|done]. }
    split; [done|]. intros m'. by apply Hcopy.
  - intros Hw. apply Hraw in Hw; [done|vm_compute; split; congruence|].
    repeat constructor; vm_compute; congruence.
  - intros m'. apply (Hop (OpReallocate 16)); [done|]. vm_compute; split; congruence.
Defined.

(** The lengths for which a message cannot be built: length 0 is refused with
    [std::invalid_argument], and from [2^32 - HEAD_LEN] on the allocation size
    [HEAD_LEN + msg_len] wraps around, so that the header is written out of bounds. *)
Theorem MsgNode_of_limits (host : byte_order) (junk : nat → Z) (content : list Z) (tag : Z) :
  MsgNode_of host junk content 0 tag
    = Throw (invalid_argument "Attempt to create a zero-sized message") ∧
  (∀ msg_len, 2 ^ 32 - HEAD_LEN <= msg_len < 2 ^ 32 →
     MsgNode_of host junk content msg_len tag = UB out_of_bounds).
Proof.
  split; [done|]. intros msg_len H. change HEAD_LEN with 8 in *. unfold MsgNode_of.
  change HEAD_LEN with 8.
  destruct (Z.ltb_spec 0 msg_len) as [_|]; [|lia].
  assert (Hw : u32 (8 + msg_len) = 8 + msg_len - 2 ^ 32).
  { unfold u32. symmetry. apply Z.mod_unique_pos with 1; lia. }
  rewrite Hw. unfold block. cbn [data_ mbind res_bind].
  pose proof (length_new_char junk (8 + msg_len - 2 ^ 32)) as Hl.
  destruct (decide (4 <= length (new_char junk (8 + msg_len - 2 ^ 32)))%nat).
  - rewrite WriteNetField32_Ok by lia. cbn [mbind res_bind].
    rewrite WriteNetField32_UB; [done|]. rewrite length_splice_be by lia.
    change (Z.to_nat TAG_LEN) with 4%nat. lia.
  - rewrite WriteNetField32_UB by lia. done.
Qed.

Lemma MsgNode_of_limits_witness :
  MsgNode_of LITTLE_ENDIAN (λ _, 0) [1; 2] (2 ^ 32 - 6) 3 = UB out_of_bounds.
Proof.
  apply (proj2 (MsgNode_of_limits LITTLE_ENDIAN (λ _, 0) [1; 2] 3)).
  vm_compute; split; congruence.
Defined.
