(* ===== verification/Snowflake.v ===== *)
(** * Snowflake identifiers (src/src/include/utils/snowflake_id.hpp)

    [UIDGenerator::Generate] packs a millisecond timestamp, a 10-bit worker id and a
    12-bit sequence number.  The system clock is the list of the readings
    [system_clock::now().time_since_epoch()] (nanoseconds) the calls consume; a call
    that spins until the clock advances consumes readings, and has no result when the
    list ends while it is still spinning. *)

From Stdlib Require Import Sorted.
From S2P Require Import Prelude.

Record UIDGenerator := mkUIDGenerator {
  worker_id_ : Z;
  seq_ : Z;
  last_ts_ : Z;
  epoch_ : Z
}.

(** [UIDGenerator(uint16_t worker_id, uint64_t begin_epoch)] *)
Definition UIDGenerator_init (worker_id begin_epoch : Z) : UIDGenerator :=
  mkUIDGenerator (Z.land worker_id 0x3FF) 0 0 begin_epoch.

(** [duration_cast<milliseconds>(now.time_since_epoch() - epoch_).count()] as [uint64_t] *)
Definition ts_of (epoch now : Z) : Z := u64 (Z.quot (now - epoch * 1000000) 1000000).

(** [while (ts <= last_ts_) { now = ...; ts = ...; }], entered with [ts <= last_ts_]. *)
Fixpoint spin (epoch last_ts : Z) (clock : list Z) : option (Z * list Z) :=
  match clock with
  | [] => None
  | now :: clock' =>
      let ts := ts_of epoch now in
      if ts <=? last_ts then spin epoch last_ts clock' else Some (ts, clock')
  end.

(** [(ts << 22) | (worker_id_ << 12) | seq_] in 64 bits *)
Definition pack (ts worker seq : Z) : Z :=
  Z.lor (Z.lor (u64 (Z.shiftl ts 22)) (Z.shiftl worker 12)) seq.

Definition Generate (g : UIDGenerator) (clock : list Z) : option (Z * UIDGenerator * list Z) :=
  match clock with
  | [] => None
  | now :: clock1 =>
      let ts := ts_of (epoch_ g) now in
      r ← (if ts =? last_ts_ g then
             let seq := Z.land (u16 (seq_ g + 1)) 0xFFF in
             if seq =? 0 then
               p ← spin (epoch_ g) (last_ts_ g) clock1; Some (p.1, seq, p.2)
             else Some (ts, seq, clock1)
           else Some (ts, 0, clock1));
      let '(ts, seq, clock2) := r in
      Some (pack ts (worker_id_ g) seq, mkUIDGenerator (worker_id_ g) seq ts (epoch_ g), clock2)
  end.

(** [n] successive calls. *)
Fixpoint generate_n (n : nat) (g : UIDGenerator) (clock : list Z)
    : option (list Z * UIDGenerator * list Z) :=
  match n with
  | O => Some ([], g, clock)
  | S n' =>
      r ← Generate g clock;
      let '(id, g1, clock1) := r in
      r' ← generate_n n' g1 clock1;
      let '(ids, g2, clock2) := r' in
      Some (id :: ids, g2, clock2)
  end.

(** ** The fields of an identifier *)

(** A generator whose members are in range. *)
Definition gen_wf (g : UIDGenerator) : Prop :=
  0 <= worker_id_ g < 2 ^ 10 ∧ 0 <= seq_ g < 2 ^ 12 ∧ 0 <= last_ts_ g.

Lemma UIDGenerator_init_wf w e : gen_wf (UIDGenerator_init w e).
Proof.
  unfold gen_wf, UIDGenerator_init. simpl. change 0x3FF with (2 ^ 10 - 1).
  rewrite land_ones_mod by done. split; [by apply Z.mod_pos_bound | lia].
Qed.

Lemma seq_next s : 0 <= s < 2 ^ 12 → Z.land (u16 (s + 1)) 0xFFF = (s + 1) mod 2 ^ 12.
Proof.
  intros H. rewrite u16_id by (unfold is_u16; lia). change 0xFFF with (2 ^ 12 - 1).
  by rewrite land_ones_mod.
Qed.

(** The low 42 bits of the timestamp, the worker id and the sequence number add up. *)
Lemma pack_fields ts w s :
  0 <= w < 2 ^ 10 → 0 <= s < 2 ^ 12 →
  pack ts w s = (ts mod 2 ^ 42) * 2 ^ 22 + w * 2 ^ 12 + s.
Proof.
  intros Hw Hs. unfold pack, u64. rewrite Z.shiftl_mul_pow2 by done.
  change (2 ^ 64) with (2 ^ 42 * 2 ^ 22). rewrite Z.mul_mod_distr_r by done.
  generalize (ts mod 2 ^ 42); intros t.
  rewrite <- (Z.shiftl_mul_pow2 t 22) by done.
  rewrite lor_shiftl_add by (rewrite ?Z.shiftl_mul_pow2 by done; lia).
  rewrite !Z.shiftl_mul_pow2 by done.
  assert (E : t * 2 ^ 22 + w * 2 ^ 12 = Z.shiftl (t * 2 ^ 10 + w) 12)
    by (rewrite Z.shiftl_mul_pow2 by done; lia).
  rewrite E at 1. rewrite lor_shiftl_add by lia. lia.
Qed.

Lemma pack_add ts w s :
  0 <= ts < 2 ^ 42 → 0 <= w < 2 ^ 10 → 0 <= s < 2 ^ 12 →
  pack ts w s = ts * 2 ^ 22 + w * 2 ^ 12 + s.
Proof.
  intros Hts Hw Hs. rewrite pack_fields by done. by rewrite Z.mod_small.
Qed.

(** ** One call *)

(** The readings of a clock that never runs backwards and stays within 42 bits of
    milliseconds after the epoch; none lies before [lo]. *)
Fixpoint clock_ok (epoch lo : Z) (clock : list Z) : Prop :=
  match clock with
  | [] => True
  | now :: clock' => lo <= ts_of epoch now < 2 ^ 42 ∧ clock_ok epoch (ts_of epoch now) clock'
  end.

Lemma spin_spec epoch last lo clock ts clock' :
  clock_ok epoch lo clock → spin epoch last clock = Some (ts, clock') →
  last < ts < 2 ^ 42 ∧ clock_ok epoch ts clock'.
Proof.
  revert lo; induction clock as [|now clock IH]; intros lo Hc H; [done|].
  destruct Hc as [Hb Hc]. simpl in H. destruct (Z.leb_spec (ts_of epoch now) last).
  - eapply IH; eauto.
  - injection H as <- <-. split; [lia | done].
Qed.

(** A call returns the packed fields of its new state, and the pair of timestamp and
    sequence number grows. *)
Lemma Generate_spec g clock id g' clock' :
  gen_wf g → clock_ok (epoch_ g) (last_ts_ g) clock → Generate g clock = Some (id, g', clock') →
  id = pack (last_ts_ g') (worker_id_ g) (seq_ g') ∧ gen_wf g' ∧
  worker_id_ g' = worker_id_ g ∧ epoch_ g' = epoch_ g ∧
  last_ts_ g' < 2 ^ 42 ∧ clock_ok (epoch_ g) (last_ts_ g') clock' ∧
  (last_ts_ g < last_ts_ g' ∨ last_ts_ g = last_ts_ g' ∧ seq_ g < seq_ g').
Proof.
  intros (Hw&Hs&Hl) Hc H. destruct clock as [|now clock1]; [done|].
  destruct Hc as [Hnow Hc]. cbn [Generate] in H. rewrite seq_next in H by done.
  destruct (Z.eqb_spec (ts_of (epoch_ g) now) (last_ts_ g)) as [Heq|Hne].
  - destruct (Z.eqb_spec ((seq_ g + 1) mod 2 ^ 12) 0) as [Hz|Hz].
    + destruct (spin _ _ _) as [[ts c2]|] eqn:Hsp; [|done]. simpl in H. simplify_eq. simpl.
      apply (spin_spec _ _ _ _ _ _ Hc) in Hsp as [??].
      unfold gen_wf. simpl. split_and!; lia || done.
    + simpl in H. simplify_eq. simpl. assert (seq_ g + 1 ≠ 2 ^ 12) by (intros E; by rewrite E in Hz).
      rewrite Z.mod_small by lia. unfold gen_wf. simpl.
      rewrite Heq in *. split_and!; lia || done.
  - simpl in H. simplify_eq. unfold gen_wf. simpl. split_and!; lia || done.
Qed.

Lemma pack_lt ts s ts' s' w :
  0 <= w < 2 ^ 10 → 0 <= ts → 0 <= s < 2 ^ 12 → 0 <= s' < 2 ^ 12 → ts' < 2 ^ 42 →
  (ts < ts' ∨ ts = ts' ∧ s < s') → pack ts w s < pack ts' w s'.
Proof. intros. rewrite !pack_add by lia. lia. Qed.

(** The identifiers of successive calls are increasing and follow the generator's last one. *)
Lemma generate_n_increasing n g clock ids g' clock' :
  gen_wf g → last_ts_ g < 2 ^ 42 → clock_ok (epoch_ g) (last_ts_ g) clock →
  generate_n n g clock = Some (ids, g', clock') →
  StronglySorted Z.lt (pack (last_ts_ g) (worker_id_ g) (seq_ g) :: ids).
Proof.
  revert g clock ids; induction n as [|n IH]; intros g clock ids Hwf Hlast Hc H; simpl in H.
  - simplify_eq. repeat constructor.
  - destruct (Generate g clock) as [[[id g1] c1]|] eqn:Hg; [|done]. simpl in H.
    destruct (generate_n n g1 c1) as [[[ids1 g2] c2]|] eqn:Hn; [|done]. simpl in H. simplify_eq.
    apply Generate_spec in Hg as (-> & Hwf1 & Hw1 & He1 & Hl1 & Hc1 & Hlt); [|done..].
    specialize (IH g1 c1 ids1 Hwf1 Hl1). rewrite He1, Hw1 in IH. specialize (IH Hc1 Hn).
    destruct Hwf as (?&?&?), Hwf1 as (?&?&?). constructor; [done|].
    assert (pack (last_ts_ g) (worker_id_ g) (seq_ g) < pack (last_ts_ g1) (worker_id_ g) (seq_ g1))
      by (apply pack_lt; done || lia).
    constructor; [done|]. inversion IH as [|?? _ HF]; subst.
    eapply List.Forall_impl; [|exact HF]. intros; lia.
Qed.

(** C22. Under a clock that does not run backwards and stays within 42 bits, any number
    of successive calls on a fresh generator return strictly increasing identifiers, so
    no identifier is returned twice. *)
Theorem Generate_strictly_increasing (n : nat) (worker begin_epoch : Z) (clock ids clock' : list Z) g' :
  clock_ok begin_epoch 0 clock →
  generate_n n (UIDGenerator_init worker begin_epoch) clock = Some (ids, g', clock') →
  StronglySorted Z.lt ids ∧ NoDup ids.
Proof.
  intros Hc H. apply generate_n_increasing in H; [|apply UIDGenerator_init_wf|done|done].
  inversion H as [|?? Hs _]; subst. split; [done|]. clear -Hs.
  induction Hs as [|x l _ IH HF]; constructor; [|done].
  intros Hin%list_elem_of_In. rewrite List.Forall_forall in HF. specialize (HF x Hin). lia.
Qed.

Lemma Generate_strictly_increasing_witness :
  ∃ ids g' clock',
    generate_n 3 (UIDGenerator_init 1025 7) [8000000; 8000001; 9500000; 9600000] = Some (ids, g', clock')
    ∧ ids = [4198400; 4198401; 8392704] ∧ NoDup ids.
Proof.
  eexists _, _, _. split; [vm_compute; reflexivity|]. split; [done|].
  refine (proj2 (Generate_strictly_increasing 3 1025 7
    [8000000; 8000001; 9500000; 9600000] _ _ _ _ _)).
  - repeat split; vm_compute; congruence.
  - vm_compute; reflexivity.
Defined.

(** A call, whatever the clock does, returns an identifier whose worker field is the
    generator's worker id. *)
Lemma Generate_fields g clock id g' clock' :
  gen_wf g → Generate g clock = Some (id, g', clock') →
  gen_wf g' ∧ worker_id_ g' = worker_id_ g ∧
  id = pack (last_ts_ g') (worker_id_ g) (seq_ g').
Proof.
  intros (Hw&Hs&Hl) H. destruct clock as [|now clock1]; [done|].
  cbn [Generate] in H. rewrite seq_next in H by done.
  assert (Hts : ∀ now, 0 <= ts_of (epoch_ g) now) by (intros; apply u64_bound).
  assert (Hsq := Z.mod_pos_bound (seq_ g + 1) (2 ^ 12) ltac:(done)).
  assert (Hspin : ∀ ts c, spin (epoch_ g) (last_ts_ g) clock1 = Some (ts, c) → 0 <= ts).
  { clear H. induction clock1 as [|x l IH]; simpl; intros ts c; [done|].
    case_if; [apply IH|]. intros; simplify_eq. auto. }
  destruct (_ =? last_ts_ g); [destruct (_ =? 0)|].
  - destruct (spin _ _ _) as [[ts c2]|] eqn:Hsp; [|done]. simpl in H. simplify_eq.
    specialize (Hspin _ _ eq_refl). unfold gen_wf. simpl. split_and!; lia || done.
  - simpl in H. simplify_eq. unfold gen_wf. simpl. split_and!; lia || eauto.
  - simpl in H. simplify_eq. unfold gen_wf. simpl. split_and!; lia || eauto.
Qed.

Lemma pack_worker ts w s :
  0 <= w < 2 ^ 10 → 0 <= s < 2 ^ 12 → (pack ts w s / 2 ^ 12) mod 2 ^ 10 = w.
Proof.
  intros Hw Hs. rewrite pack_fields by done. generalize (ts mod 2 ^ 42); intros t.
  replace (t * 2 ^ 22 + w * 2 ^ 12 + s) with (s + (t * 2 ^ 10 + w) * 2 ^ 12) by lia.
  rewrite Z.div_add, Z.div_small, Z.add_0_l, Z.add_comm, Z.mod_add by lia. by apply Z.mod_small.
Qed.

(** Two generators whose worker ids differ in their low 10 bits never return the
    same identifier, whatever their clocks and states are. *)
Theorem Generate_workers_disjoint (g h : UIDGenerator) (c d : list Z) id g' c' id' h' d' :
  gen_wf g → gen_wf h → worker_id_ g ≠ worker_id_ h →
  Generate g c = Some (id, g', c') → Generate h d = Some (id', h', d') → id ≠ id'.
Proof.
  intros Hg Hh Hne H1 H2 E.
  apply Generate_fields in H1 as ((_&?&_) & _ & ->); [|done].
  apply Generate_fields in H2 as ((_&?&_) & _ & ->); [|done].
  destruct Hg as (?&_&_), Hh as (?&_&_). apply Hne.
  rewrite <- (pack_worker (last_ts_ g') (worker_id_ g) (seq_ g')) by done.
  rewrite E. by apply pack_worker.
Qed.

Lemma Generate_workers_disjoint_witness :
  ∀ id g' c' id' h' d',
    Generate (UIDGenerator_init 1 0) [5000000] = Some (id, g', c') →
    Generate (UIDGenerator_init 2 0) [5000000] = Some (id', h', d') → id ≠ id'.
Proof.
  intros id g' c' id' h' d'.
  apply (Generate_workers_disjoint (UIDGenerator_init 1 0) (UIDGenerator_init 2 0));
    [apply UIDGenerator_init_wf | apply UIDGenerator_init_wf | done].
Defined.

Lemma spin_progress epoch last pre now post :
  last < ts_of epoch now → is_Some (spin epoch last (pre ++ now :: post)).
Proof.
  intros H. induction pre as [|x pre IH]; simpl; case_if; eauto. lia.
Qed.

(** A call terminates as soon as the clock has moved past the last timestamp: given
    a first reading and some later reading beyond [last_ts_], [Generate] returns. *)
Theorem Generate_terminates (g : UIDGenerator) (now0 : Z) (pre : list Z) (now : Z) (post : list Z) :
  last_ts_ g < ts_of (epoch_ g) now →
  is_Some (Generate g (now0 :: pre ++ now :: post)).
Proof.
  intros H. cbn [Generate].
  destruct (_ =? last_ts_ g); [destruct (_ =? 0)|]; simpl; eauto.
  destruct (spin_progress (epoch_ g) (last_ts_ g) pre now post H) as [[ts c] ->]. simpl. eauto.
Qed.

Lemma Generate_terminates_witness :
  is_Some (Generate (mkUIDGenerator 1 4095 3 0) (3000000 :: [3000000; 3500000] ++ 4000000 :: [])).
Proof. apply (Generate_terminates (mkUIDGenerator 1 4095 3 0)). done. Defined.

(** The guard for a clock that runs backwards does nothing: after the clock steps
    back from one millisecond to another and returns, the generator repeats an
    identifier. *)
Theorem Generate_backward_clock_duplicates (g : UIDGenerator) (t1 t2 : Z) :
  ts_of (epoch_ g) t1 ≠ last_ts_ g → ts_of (epoch_ g) t2 ≠ ts_of (epoch_ g) t1 →
  ∃ id1 id2 g', generate_n 3 g [t1; t2; t1] = Some ([id1; id2; id1], g', []).
Proof.
  intros H1 H2. cbn [generate_n Generate].
  rewrite (proj2 (Z.eqb_neq _ _) H1). simpl.
  rewrite (proj2 (Z.eqb_neq _ _) H2). simpl.
  rewrite (proj2 (Z.eqb_neq _ _) (not_eq_sym H2)). simpl. eauto.
Qed.

Lemma Generate_backward_clock_duplicates_witness :
  ∃ id1 id2 g', generate_n 3 (UIDGenerator_init 1 0) [5000000; 4000000; 5000000]
    = Some ([id1; id2; id1], g', []).
Proof.
  apply (Generate_backward_clock_duplicates (UIDGenerator_init 1 0)); vm_compute; congruence.
Defined.
