(* ===== verification/MinHeap.v ===== *)
(** * The indexed min-heap (src/src/include/status/load_balancer.hpp, [MinHeapImpl])

    [vec_] is the binary tree in an array, [idx_] maps the id of an element to its
    position.  Both are kept as in the code: [vec_[i]] outside the vector is undefined
    behaviour, [idx_[k]] of a missing key creates the entry with value 0.  The element
    type, the comparator [comp_] ("greater") and [GetID] are parameters, as the template
    has them.  The two loops run on fuel; running out is [UB no_progress], so a result
    [Ok] says that the loop ended. *)

From S2P Require Import Prelude.

(** What the template asks of its comparator beyond [Comparable]: it is the "greater"
    of a total preorder. *)
Class GreaterComp {T : Type} (comp : T → T → bool) := {
  comp_asym : ∀ x y, comp x y = true → comp y x = false;
  comp_trans : ∀ x y z, comp x y = false → comp y z = false → comp x z = false
}.

Record MinHeapImpl (T : Type) := mkHeap { vec_ : list T; idx_ : gmap Z nat }.
Arguments mkHeap {T} vec_ idx_.
Arguments vec_ {T} _.
Arguments idx_ {T} _.

Definition MinHeap_empty {T} : MinHeapImpl T := mkHeap [] ∅.

(** [vec_[i]] *)
Definition vec_at {T} (v : list T) (i : nat) : res T :=
  match v !! i with Some x => Ok x | None => UB out_of_bounds end.

(** [idx_[k]] read after its default insertion *)
Definition idx_at (m : gmap Z nat) (k : Z) : nat := default 0%nat (m !! k).

(** [std::swap(idx_[a], idx_[b])] *)
Definition swap_idx (m : gmap Z nat) (a b : Z) : gmap Z nat :=
  <[a := idx_at m b]> (<[b := idx_at m a]> m).

Definition heap_parent (i : nat) : nat := ((i - 1) / 2)%nat.

Section heap.
Context {T : Type} (comp : T → T → bool) (GetID : T → Z).

(** [std::swap(vec_[i], vec_[j])] followed by the swap of the two index entries *)
Definition swap_nodes (h : MinHeapImpl T) (i j : nat) : res (MinHeapImpl T) :=
  a ← vec_at (vec_ h) i;
  b ← vec_at (vec_ h) j;
  let v := <[j := a]> (<[i := b]> (vec_ h)) in
  x ← vec_at v i;
  y ← vec_at v j;
  Ok (mkHeap v (swap_idx (idx_ h) (GetID x) (GetID y))).

Fixpoint HeapUp_loop (fuel : nat) (h : MinHeapImpl T) (cur : nat) : res (MinHeapImpl T) :=
  match fuel with
  | O => UB no_progress
  | S fuel' =>
      if (0 <? cur)%nat then
        let parent := heap_parent cur in
        p ← vec_at (vec_ h) parent;
        c ← vec_at (vec_ h) cur;
        h' ← (if comp p c then swap_nodes h parent cur else Ok h);
        HeapUp_loop fuel' h' parent
      else Ok h
  end.

Definition HeapUp (h : MinHeapImpl T) (cur : nat) : res (MinHeapImpl T) :=
  HeapUp_loop (S cur) h cur.

Fixpoint HeapDown_loop (fuel total : nat) (h : MinHeapImpl T) (cur : nat) : res (MinHeapImpl T) :=
  match fuel with
  | O => UB no_progress
  | S fuel' =>
      if (cur * 2 + 1 <? total)%nat then
        if (cur * 2 + 2 <? total)%nat then
          let c1 := (cur * 2 + 1)%nat in
          let c2 := (cur * 2 + 2)%nat in
          v1 ← vec_at (vec_ h) c1;
          v2 ← vec_at (vec_ h) c2;
          vcur ← vec_at (vec_ h) cur;
          if comp v1 v2 then
            if comp v2 vcur then Ok h
            else h' ← swap_nodes h c2 cur; HeapDown_loop fuel' total h' c2
          else
            if comp v1 vcur then Ok h
            else h' ← swap_nodes h c1 cur; HeapDown_loop fuel' total h' c1
        else
          let child := (cur * 2 + 1)%nat in
          vcur ← vec_at (vec_ h) cur;
          vchild ← vec_at (vec_ h) child;
          if comp vcur vchild then swap_nodes h cur child else Ok h
      else Ok h
  end.

Definition HeapDown (h : MinHeapImpl T) (cur : nat) : res (MinHeapImpl T) :=
  HeapDown_loop (S (length (vec_ h))) (length (vec_ h)) h cur.

Definition InsertOrUpdate (h : MinHeapImpl T) (id : Z) (val : T) (hint : Z) : res (MinHeapImpl T) :=
  match idx_ h !! id with
  | Some idx =>
      if (idx <? length (vec_ h))%nat then
        let h := mkHeap (<[idx := val]> (vec_ h)) (idx_ h) in
        if hint <? 0 then HeapUp h idx
        else if 0 <? hint then HeapDown h idx
        else h ← HeapUp h idx; HeapDown h idx
      else UB out_of_bounds
  | None =>
      let v := vec_ h ++ [val] in
      let h := mkHeap v (<[id := (length v - 1)%nat]> (idx_ h)) in
      HeapUp h (length v - 1)
  end.

Definition Get (h : MinHeapImpl T) : res T :=
  match vec_ h with
  | [] => Throw (runtime_error "MinHeap is empty")
  | front :: _ => Ok front
  end.

(** [vec_.pop_back()] *)
Definition pop_back (v : list T) : list T := take (length v - 1) v.

Definition Remove (h : MinHeapImpl T) : res (MinHeapImpl T) :=
  match vec_ h with
  | [] => Throw (runtime_error "MinHeap is empty")
  | front :: _ =>
      let m := delete (GetID front) (idx_ h) in
      back ← vec_at (vec_ h) (length (vec_ h) - 1);
      let v := <[0%nat := back]> (vec_ h) in
      front' ← vec_at v 0;
      let m := if (1 <? length v)%nat then <[GetID front' := 0%nat]> m else m in
      let h := mkHeap (pop_back v) m in
      if (0 <? length (vec_ h))%nat then HeapDown h 0 else Ok h
  end.

Definition AnyRemove (h : MinHeapImpl T) (by_id : Z) : res (MinHeapImpl T) :=
  match idx_ h !! by_id with
  | None => Throw (runtime_error "Element not found")
  | Some idx =>
      if (length (vec_ h) =? 0)%nat then Throw (runtime_error "MinHeap is empty")
      else
        let m := delete by_id (idx_ h) in
        back ← vec_at (vec_ h) (length (vec_ h) - 1);
        _ ← vec_at (vec_ h) idx;
        let v := <[idx := back]> (vec_ h) in
        back' ← vec_at v (length v - 1);
        let m := if (1 <? length v)%nat then <[GetID back' := idx]> m else m in
        let h := mkHeap (pop_back v) m in
        if (idx <? length (vec_ h))%nat then h ← HeapUp h idx; HeapDown h idx
        else Ok h
  end.

Definition Empty (h : MinHeapImpl T) : bool := (length (vec_ h) =? 0)%nat.

Definition Size (h : MinHeapImpl T) : nat := length (vec_ h).
End heap.

(** The test of the repository: [AnyRemove] on the eight-element tree. *)
Example AnyRemove_test :
  let ins h p := h ≫= λ h, InsertOrUpdate (λ x y : Z * Z, x.2 >? y.2) fst h p.1 p 0 in
  let rem h id := h ≫= λ h, AnyRemove (λ x y : Z * Z, x.2 >? y.2) fst h id in
  let h0 := foldl ins (Ok MinHeap_empty)
    [(0,11); (1,14); (2,17); (3,20); (4,25); (5,30); (6,47); (7,85)] in
  let ids h := h ≫= λ h, Ok (fst <$> vec_ h) in
  ids (foldl rem h0 [4; 2; 1; 0]) = Ok [3; 6; 5; 7].
Proof. vm_compute. reflexivity. Qed.
