(* ===== verification/MinHeapFacts.v ===== *)
(** * Correctness of the indexed min-heap

    Two invariants: [ids_ok], every element's index entry points at it, and [ordered],
    no parent is greater than its child.  The loops are memory safe and terminate under
    [ids_ok] alone; they restore [ordered] from a heap that is ordered except around one
    position.  The results per operation are at the end. *)

From Stdlib Require Import Sorted.
From S2P Require Import Prelude MinHeap.

Section facts.
Context {T : Type} (comp : T → T → bool) (GetID : T → Z).

Abbreviation heap := (MinHeapImpl T).
Abbreviation parent := heap_parent.

(** ** The invariants *)

Definition ids_ok (h : heap) : Prop :=
  ∀ i x, vec_ h !! i = Some x → idx_ h !! GetID x = Some i.

(** The edge between position [i] and its parent. *)
Definition edge_ok (v : list T) (i : nat) : Prop :=
  ∀ x p, v !! i = Some x → v !! parent i = Some p → comp p x = false.

Definition ordered (v : list T) : Prop := ∀ i, (0 < i)%nat → edge_ok v i.

(** The parent of [k] is not greater than a child of [k]. *)
Definition grand_ok (v : list T) (k : nat) : Prop :=
  ∀ i x p, (0 < k)%nat → (0 < i)%nat → parent i = k →
    v !! i = Some x → v !! parent k = Some p → comp p x = false.

(** Ordered except for the edge above, the edges below, and all edges at [k]. *)
Definition up_except (v : list T) (k : nat) : Prop :=
  (∀ i, (0 < i)%nat → i ≠ k → edge_ok v i) ∧ grand_ok v k.

Definition down_except (v : list T) (k : nat) : Prop :=
  (∀ i, (0 < i)%nat → parent i ≠ k → edge_ok v i) ∧ grand_ok v k.

Definition mid_except (v : list T) (k : nat) : Prop :=
  (∀ i, (0 < i)%nat → i ≠ k → parent i ≠ k → edge_ok v i) ∧ grand_ok v k.

(** The elements are the same, and so are the ids that have an index entry. *)
Definition same_elems (h h' : heap) : Prop :=
  vec_ h' ≡ₚ vec_ h ∧ dom (idx_ h') = dom (idx_ h).

Lemma same_elems_refl h : same_elems h h.
Proof. by split. Qed.

Lemma same_elems_trans h1 h2 h3 : same_elems h1 h2 → same_elems h2 h3 → same_elems h1 h3.
Proof. intros [H1 D1] [H2 D2]. split; [by rewrite H2 | by rewrite D2]. Qed.

Lemma same_elems_length h h' : same_elems h h' → length (vec_ h') = length (vec_ h).
Proof. intros [H _]. by rewrite H. Qed.

Lemma ids_ok_inj h i j x y :
  ids_ok h → vec_ h !! i = Some x → vec_ h !! j = Some y → GetID x = GetID y → i = j.
Proof. intros H Hi Hj E. apply H in Hi, Hj. rewrite E in Hi. congruence. Qed.

Lemma vec_at_Some (v : list T) i x : v !! i = Some x → vec_at v i = Ok x.
Proof. intros H. unfold vec_at. by rewrite H. Qed.

(** ** Swapping two nodes *)

Definition swapped (v : list T) (i j : nat) (a b : T) : list T := <[j := a]> (<[i := b]> v).

Lemma swapped_lookup v i j a b k :
  (i < length v)%nat → (j < length v)%nat → i ≠ j →
  swapped v i j a b !! k =
    if decide (k = j) then Some a else if decide (k = i) then Some b else v !! k.
Proof.
  intros Hi Hj Hne. unfold swapped. destruct (decide (k = j)) as [->|Hkj].
  - apply list_lookup_insert_eq. by rewrite length_insert.
  - rewrite list_lookup_insert_ne by done. destruct (decide (k = i)) as [->|Hki].
    + by apply list_lookup_insert_eq.
    + by apply list_lookup_insert_ne.
Qed.

(** Swapping two distinct positions succeeds and repairs the index. *)
Lemma swap_nodes_spec h i j a b :
  ids_ok h → vec_ h !! i = Some a → vec_ h !! j = Some b → i ≠ j →
  ∃ h', swap_nodes GetID h i j = Ok h' ∧ vec_ h' = swapped (vec_ h) i j a b
    ∧ ids_ok h' ∧ same_elems h h'.
Proof.
  intros Hok Hi Hj Hne.
  pose proof (lookup_lt_Some _ _ _ Hi) as Li. pose proof (lookup_lt_Some _ _ _ Hj) as Lj.
  pose proof (swapped_lookup (vec_ h) i j a b) as Hsw.
  assert (Hid : GetID a ≠ GetID b) by (intros E; apply Hne; by eapply ids_ok_inj).
  unfold swap_nodes. rewrite (vec_at_Some _ _ _ Hi), (vec_at_Some _ _ _ Hj). cbn [mbind res_bind].
  fold (swapped (vec_ h) i j a b).
  rewrite (vec_at_Some _ i b), (vec_at_Some _ j a)
    by (rewrite Hsw by done; do 2 try case_decide; congruence).
  cbn [mbind res_bind]. eexists; split; [done|]. split; [done|].
  unfold swap_idx, idx_at. rewrite (Hok _ _ Hi), (Hok _ _ Hj). cbn [default].
  split.
  - intros k x Hk. cbn [vec_ idx_] in *. rewrite Hsw in Hk by done.
    destruct (decide (k = j)) as [->|]; [|destruct (decide (k = i)) as [->|]].
    + simplify_eq. rewrite lookup_insert_ne by done. by rewrite lookup_insert_eq.
    + simplify_eq. by rewrite lookup_insert_eq.
    + assert (GetID b ≠ GetID x) by (intros E; apply n; symmetry; by eapply ids_ok_inj).
      assert (GetID a ≠ GetID x) by (intros E; apply n0; symmetry; by eapply ids_ok_inj).
      rewrite !lookup_insert_ne by done. by apply Hok.
  - split; cbn [vec_ idx_]; [by apply Permutation_insert_swap|].
    rewrite !dom_insert_L. apply Hok, elem_of_dom_2 in Hi. apply Hok, elem_of_dom_2 in Hj.
    set_solver.
Qed.

(** ** Memory safety and termination of the two loops *)

Lemma lookup_vec_lt (v : list T) i : (i < length v)%nat → ∃ x, v !! i = Some x.
Proof. intros H. apply lookup_lt_is_Some in H as [x ?]. eauto. Qed.

Lemma parent_lt i : (0 < i)%nat → (parent i < i)%nat.
Proof. intros H. unfold heap_parent. apply Nat.Div0.div_lt_upper_bound. lia. Qed.

Lemma HeapUp_loop_safe fuel h cur :
  ids_ok h → (cur < length (vec_ h))%nat → (cur < fuel)%nat →
  ∃ h', HeapUp_loop comp GetID fuel h cur = Ok h' ∧ ids_ok h' ∧ same_elems h h'.
Proof.
  revert h cur; induction fuel as [|fuel IH]; intros h cur Hok Hc Hf; [lia|].
  cbn [HeapUp_loop]. case_if; [|eauto using same_elems_refl].
  pose proof (parent_lt cur ltac:(done)) as Hp.
  destruct (lookup_vec_lt (vec_ h) (parent cur)) as [p Ep]; [lia|].
  destruct (lookup_vec_lt (vec_ h) cur) as [c Ec]; [lia|].
  rewrite (vec_at_Some _ _ _ Ep), (vec_at_Some _ _ _ Ec). cbn [mbind res_bind].
  assert (∃ h1, (if comp p c then swap_nodes GetID h (parent cur) cur else Ok h) = Ok h1
    ∧ ids_ok h1 ∧ same_elems h h1) as (h1 & -> & Hok1 & Hs1).
  { destruct (comp p c); [|eauto using same_elems_refl].
    destruct (swap_nodes_spec h (parent cur) cur p c) as (h1&?&?&?&?); [done..|lia|]. eauto. }
  cbn [mbind res_bind]. pose proof (same_elems_length _ _ Hs1).
  destruct (IH h1 (parent cur)) as (h2 & -> & Hok2 & Hs2); [done|lia|lia|].
  eauto using same_elems_trans.
Qed.

Lemma HeapUp_safe h cur :
  ids_ok h → (cur < length (vec_ h))%nat →
  ∃ h', HeapUp comp GetID h cur = Ok h' ∧ ids_ok h' ∧ same_elems h h'.
Proof. intros Hok Hc. apply HeapUp_loop_safe; [done|done|lia]. Qed.

Lemma HeapDown_loop_safe fuel total h cur :
  ids_ok h → length (vec_ h) = total → (total < fuel + cur)%nat → (0 < fuel)%nat →
  ∃ h', HeapDown_loop comp GetID fuel total h cur = Ok h' ∧ ids_ok h' ∧ same_elems h h'.
Proof.
  revert h cur; induction fuel as [|fuel IH]; intros h cur Hok Ht Hf Hf0; [lia|].
  cbn [HeapDown_loop]. case_if; [|eauto using same_elems_refl].
  destruct (lookup_vec_lt (vec_ h) cur) as [vc Ec]; [lia|].
  destruct (lookup_vec_lt (vec_ h) (cur * 2 + 1)) as [v1 E1]; [lia|].
  assert (Hstep : ∀ c vc', vec_ h !! c = Some vc' → (cur < c < total)%nat →
    ∃ h', (h1 ← swap_nodes GetID h c cur; HeapDown_loop comp GetID fuel total h1 c) = Ok h'
      ∧ ids_ok h' ∧ same_elems h h').
  { intros c vc' Hc Hlt.
    destruct (swap_nodes_spec h c cur vc' vc) as (h1 & -> & _ & Hok1 & Hs1); [done..|lia|].
    cbn [mbind res_bind]. pose proof (same_elems_length _ _ Hs1).
    destruct (IH h1 c) as (h2 & -> & Hok2 & Hs2); [done|lia|lia|lia|].
    eauto using same_elems_trans. }
  case_if.
  - destruct (lookup_vec_lt (vec_ h) (cur * 2 + 2)) as [v2 E2]; [lia|].
    rewrite (vec_at_Some _ _ _ E1), (vec_at_Some _ _ _ E2), (vec_at_Some _ _ _ Ec).
    cbn [mbind res_bind].
    destruct (comp v1 v2), (comp v1 vc), (comp v2 vc); eauto using same_elems_refl;
      eapply Hstep; eauto; lia.
  - rewrite (vec_at_Some _ _ _ E1), (vec_at_Some _ _ _ Ec). cbn [mbind res_bind].
    destruct (comp vc v1); [|eauto using same_elems_refl].
    destruct (swap_nodes_spec h cur (cur * 2 + 1) vc v1) as (h1&?&?&?&?); [done..|lia|]. eauto.
Qed.

Lemma HeapDown_safe h cur :
  ids_ok h → ∃ h', HeapDown comp GetID h cur = Ok h' ∧ ids_ok h' ∧ same_elems h h'.
Proof. intros Hok. apply HeapDown_loop_safe; [done|done|lia|lia]. Qed.

(** ** Order *)

Context `{!GreaterComp comp}.

Lemma parent_children i k : (0 < i)%nat → parent i = k ↔ i = (k * 2 + 1)%nat ∨ i = (k * 2 + 2)%nat.
Proof.
  intros Hi. unfold heap_parent.
  pose proof (Nat.div_mod_eq (i - 1) 2). pose proof (Nat.mod_upper_bound (i - 1) 2 ltac:(lia)).
  split; [intros <-; lia | intros [->| ->]; lia].
Qed.

Lemma grand_ok_ordered v k : ordered v → grand_ok v k.
Proof.
  intros Ho i x p Hk Hi Hp Hx Hpp.
  destruct (lookup_vec_lt v k) as [y Hy].
  { pose proof (lookup_lt_Some _ _ _ Hx). pose proof (parent_lt i Hi). lia. }
  apply comp_trans with y; [by eapply (Ho k)|]. eapply (Ho i); [done..|]. by rewrite Hp.
Qed.

Lemma ordered_up_except v k : ordered v → up_except v k.
Proof. intros Ho. split; [intros; by apply Ho | by apply grand_ok_ordered]. Qed.

Lemma ordered_down_except v k : ordered v → down_except v k.
Proof. intros Ho. split; [intros; by apply Ho | by apply grand_ok_ordered]. Qed.

Lemma up_except_ordered v k : up_except v k → edge_ok v k → ordered v.
Proof. intros [Hu _] He i Hi. destruct (decide (i = k)) as [->|]; auto. Qed.

Lemma up_except_root v : up_except v 0 → ordered v.
Proof. intros [Hu _] i Hi. apply Hu; lia. Qed.

(** Moving a smaller element over its parent moves the exception up. *)
Lemma up_except_swap v k p c :
  (0 < k)%nat → up_except v k → v !! parent k = Some p → v !! k = Some c → comp p c = true →
  up_except (swapped v (parent k) k p c) (parent k).
Proof.
  intros Hk [Hu Hg] Hp Hc Hpc. pose proof (parent_lt k Hk) as Hlt.
  pose proof (lookup_lt_Some _ _ _ Hc) as Lk.
  assert (Hsw : ∀ j, swapped v (parent k) k p c !! j =
    if decide (j = k) then Some p else if decide (j = parent k) then Some c else v !! j)
    by (intros; apply swapped_lookup; lia).
  assert (Hcp := comp_asym _ _ Hpc).
  split.
  - intros i Hi Hne x q Hx Hq. rewrite Hsw in Hx, Hq.
    destruct (decide (i = k)) as [->|Hik].
    { rewrite decide_False, decide_True in Hq by lia. by simplify_eq. }
    rewrite decide_False in Hx by done.
    destruct (decide (parent i = k)) as [Hpi|Hpi]; [simplify_eq; by eapply Hg|].
    destruct (decide (parent i = parent k)) as [Hpp|Hpp].
    { simplify_eq. apply comp_trans with p; [done|]. eapply (Hu i); [done..|]. by rewrite Hpp. }
    by eapply (Hu i).
  - intros i x q Hpk Hi Hpi Hx Hq. rewrite Hsw in Hx, Hq.
    pose proof (parent_lt _ Hpk). pose proof (parent_lt _ Hi).
    rewrite !decide_False in Hq by lia. rewrite (decide_False (P := i = parent k)) in Hx by lia.
    assert (Hqp : comp q p = false) by (eapply (Hu (parent k)); [done|lia|done..]).
    destruct (decide (i = k)) as [->|Hik]; [by simplify_eq|].
    apply comp_trans with p; [done|]. eapply (Hu i); [done..|]. by rewrite Hpi.
Qed.

Lemma HeapUp_loop_ordered fuel h cur h' :
  ids_ok h → (cur < length (vec_ h))%nat → up_except (vec_ h) cur →
  HeapUp_loop comp GetID fuel h cur = Ok h' → ordered (vec_ h').
Proof.
  revert h cur; induction fuel as [|fuel IH]; intros h cur Hok Hc Hu H; [done|].
  cbn [HeapUp_loop] in H. revert H. case_if; intros H.
  2: { inv_res. apply up_except_root. by replace 0%nat with cur by lia. }
  pose proof (parent_lt cur ltac:(done)) as Hp.
  destruct (lookup_vec_lt (vec_ h) (parent cur)) as [p Ep]; [lia|].
  destruct (lookup_vec_lt (vec_ h) cur) as [c Ec]; [lia|].
  rewrite (vec_at_Some _ _ _ Ep), (vec_at_Some _ _ _ Ec) in H. cbn [mbind res_bind] in H.
  destruct (comp p c) eqn:Hpc.
  - destruct (swap_nodes_spec h (parent cur) cur p c) as (h1 & E1 & Hv1 & Hok1 & Hs1); [done..|lia|].
    rewrite E1 in H. cbn [mbind res_bind] in H. pose proof (same_elems_length _ _ Hs1).
    apply (IH h1 (parent cur)); [done|lia| |done]. rewrite Hv1. by apply up_except_swap.
  - apply (IH h (parent cur)); [done|lia| |done]. apply ordered_up_except.
    apply up_except_ordered with cur; [done|]. intros ????. by simplify_eq.
Qed.

Lemma HeapUp_ordered h cur h' :
  ids_ok h → (cur < length (vec_ h))%nat → up_except (vec_ h) cur →
  HeapUp comp GetID h cur = Ok h' → ordered (vec_ h').
Proof. apply HeapUp_loop_ordered. Qed.

(** Where the path to the root is in order nothing moves. *)
Lemma HeapUp_id h cur :
  (cur < length (vec_ h))%nat → (∀ i, (0 < i <= cur)%nat → edge_ok (vec_ h) i) →
  HeapUp comp GetID h cur = Ok h.
Proof.
  unfold HeapUp. assert (Hf : (cur < S cur)%nat) by lia. revert Hf.
  generalize (S cur); intros fuel.
  revert cur; induction fuel as [|fuel IH]; intros cur Hf Hc He; [lia|].
  cbn [HeapUp_loop]. case_if; [|done].
  pose proof (parent_lt cur ltac:(done)) as Hp.
  destruct (lookup_vec_lt (vec_ h) (parent cur)) as [p Ep]; [lia|].
  destruct (lookup_vec_lt (vec_ h) cur) as [c Ec]; [lia|].
  rewrite (vec_at_Some _ _ _ Ep), (vec_at_Some _ _ _ Ec). cbn [mbind res_bind].
  rewrite (He cur) by (done || lia). cbn [mbind res_bind]. apply IH; [lia|lia|].
  intros i Hi. apply He. lia.
Qed.

(** Moving the smaller child over its parent moves the exception down. *)
Lemma down_except_swap v k m vm vk :
  down_except v k → (0 < m)%nat → parent m = k → v !! m = Some vm → v !! k = Some vk →
  comp vm vk = false →
  (∀ i x, (0 < i)%nat → i ≠ m → parent i = k → v !! i = Some x → comp vm x = false) →
  down_except (swapped v m k vm vk) m.
Proof.
  intros [Hd Hg] Hm Hpm Em Ek Hle Hsib. pose proof (parent_lt m Hm) as Hlt. rewrite Hpm in Hlt.
  pose proof (lookup_lt_Some _ _ _ Em) as Lm.
  assert (Hsw : ∀ j, swapped v m k vm vk !! j =
    if decide (j = k) then Some vm else if decide (j = m) then Some vk else v !! j)
    by (intros; apply swapped_lookup; lia).
  split.
  - intros i Hi Hne x q Hx Hq. rewrite Hsw in Hx, Hq.
    rewrite (decide_False (P := parent i = m)) in Hq by done.
    destruct (decide (i = k)) as [->|Hik].
    { pose proof (parent_lt k Hi). rewrite decide_False in Hq by lia. simplify_eq. by eapply (Hg m). }
    destruct (decide (i = m)) as [->|Him].
    { rewrite decide_True in Hq by done. by simplify_eq. }
    destruct (decide (parent i = k)) as [Hpi|Hpi]; [simplify_eq; by eapply Hsib|].
    by eapply (Hd i).
  - intros i x q _ Hi Hpi Hx Hq. rewrite Hsw in Hx, Hq. rewrite Hpm, decide_True in Hq by done.
    pose proof (parent_lt i Hi). rewrite !decide_False in Hx by lia. injection Hq as <-.
    eapply (Hd i); [done|lia|done|by rewrite Hpi].
Qed.

(** An element not greater than its children closes the exception. *)
Lemma down_except_ordered v k :
  down_except v k → (∀ i, (0 < i)%nat → parent i = k → edge_ok v i) → ordered v.
Proof. intros [Hd _] He i Hi. destruct (decide (parent i = k)); auto. Qed.

(** It does when it is smaller than an element below which all its children lie. *)
Lemma down_except_stay v k vm vc :
  down_except v k → v !! k = Some vc → comp vm vc = true →
  (∀ i x, (0 < i)%nat → parent i = k → v !! i = Some x → comp vm x = false) → ordered v.
Proof.
  intros Hd Hc Hgt Hall. apply down_except_ordered with k; [done|].
  intros i Hi Hp x q Hx Hq. rewrite Hp, Hc in Hq. injection Hq as <-.
  apply comp_trans with vm; [by apply comp_asym | by eapply Hall].
Qed.

(** A position without children closes it too. *)
Lemma down_except_leaf v k : down_except v k → (length v <= k * 2 + 1)%nat → ordered v.
Proof.
  intros Hd Hl. apply down_except_ordered with k; [done|].
  intros i Hi Hp x q Hx. apply parent_children in Hp; [|done]. apply lookup_lt_Some in Hx. lia.
Qed.

(** The last internal node may have one child only. *)
Lemma down_except_one_child v k vc v1 :
  down_except v k → length v = (k * 2 + 2)%nat → v !! k = Some vc → v !! (k * 2 + 1)%nat = Some v1 →
  ordered (if comp vc v1 then swapped v k (k * 2 + 1) vc v1 else v).
Proof.
  intros Hd Hl Ec E1.
  assert (Hch : ∀ i x, (0 < i)%nat → parent i = k → v !! i = Some x → i = (k * 2 + 1)%nat ∧ x = v1).
  { intros i x Hi Hp Hx. pose proof (lookup_lt_Some _ _ _ Hx).
    apply parent_children in Hp as [->| ->]; [simplify_eq; auto|lia|done]. }
  destruct (comp vc v1) eqn:Hv.
  - assert (E : swapped v k (k * 2 + 1) vc v1 = swapped v (k * 2 + 1) k v1 vc)
      by (unfold swapped; apply list_insert_insert_ne; lia).
    rewrite E. apply down_except_leaf with (k * 2 + 1)%nat;
      [|unfold swapped; rewrite !length_insert; lia].
    apply down_except_swap; [done|lia|apply parent_children; lia|done..|by apply comp_asym|].
    intros i x Hi Hne Hp Hx. destruct (Hch i x Hi Hp Hx). lia.
  - apply down_except_ordered with k; [done|].
    intros i Hi Hp x q Hx Hq. rewrite Hp in Hq. destruct (Hch i x Hi Hp Hx). by simplify_eq.
Qed.

Lemma comp_irrefl x : comp x x = false.
Proof. destruct (comp x x) eqn:E; [|done]. by rewrite (comp_asym x x E) in E. Qed.

Lemma HeapDown_loop_ordered fuel total h cur h' :
  ids_ok h → length (vec_ h) = total → down_except (vec_ h) cur →
  HeapDown_loop comp GetID fuel total h cur = Ok h' → ordered (vec_ h').
Proof.
  revert h cur; induction fuel as [|fuel IH]; intros h cur Hok Ht Hd H; [done|].
  cbn [HeapDown_loop] in H. revert H. case_if; intros H;
    [|inv_res; apply down_except_leaf with cur; [done|lia]].
  destruct (lookup_vec_lt (vec_ h) cur) as [vc Ec]; [lia|].
  destruct (lookup_vec_lt (vec_ h) (cur * 2 + 1)) as [v1 E1]; [lia|].
  revert H. case_if; intros H.
  - destruct (lookup_vec_lt (vec_ h) (cur * 2 + 2)) as [v2 E2]; [lia|].
    rewrite (vec_at_Some _ _ _ E1), (vec_at_Some _ _ _ E2), (vec_at_Some _ _ _ Ec) in H.
    cbn [mbind res_bind] in H.
    (* either child, when it is not greater than the other, is the one to compare with *)
    assert (Hpick : ∀ m vm, (m = cur * 2 + 1 ∨ m = cur * 2 + 2)%nat → vec_ h !! m = Some vm →
      comp vm v1 = false → comp vm v2 = false →
      (if comp vm vc then Ok h
       else h1 ← swap_nodes GetID h m cur; HeapDown_loop comp GetID fuel total h1 m) = Ok h' →
      ordered (vec_ h')).
    { intros m vm Hm Em Hm1 Hm2 Hk.
      assert (Hch : ∀ i x, (0 < i)%nat → parent i = cur → vec_ h !! i = Some x → comp vm x = false).
      { intros i x Hi Hp Hx. apply parent_children in Hp as [->| ->]; [..|done]; by simplify_eq. }
      destruct (comp vm vc) eqn:Hv; [inv_res; by apply (down_except_stay _ cur vm vc)|].
      destruct (swap_nodes_spec h m cur vm vc) as (h1 & Es & Hv1 & Hok1 & Hs1); [done..|lia|].
      rewrite Es in Hk. cbn [mbind res_bind] in Hk.
      apply (IH h1 m); [done|by rewrite (same_elems_length _ _ Hs1)| |done].
      rewrite Hv1. apply down_except_swap; [done|lia|apply parent_children; lia|done..|].
      intros i x Hi _ Hp Hx. by apply (Hch i). }
    destruct (comp v1 v2) eqn:H12.
    + apply (Hpick (cur * 2 + 2)%nat v2); auto using comp_asym, comp_irrefl.
    + apply (Hpick (cur * 2 + 1)%nat v1); auto using comp_irrefl.
  - rewrite (vec_at_Some _ _ _ E1), (vec_at_Some _ _ _ Ec) in H. cbn [mbind res_bind] in H.
    pose proof (down_except_one_child (vec_ h) cur vc v1 Hd ltac:(lia) Ec E1) as Ho.
    destruct (comp vc v1); [|by inv_res].
    destruct (swap_nodes_spec h cur (cur * 2 + 1) vc v1) as (h1 & Es & Hv1 & _); [done..|lia|].
    rewrite Es in H. inv_res. by rewrite Hv1.
Qed.

Lemma HeapDown_ordered h cur h' :
  ids_ok h → down_except (vec_ h) cur → HeapDown comp GetID h cur = Ok h' → ordered (vec_ h').
Proof. intros Hok. by apply HeapDown_loop_ordered. Qed.

(** [HeapUp] then [HeapDown] repairs any damage at one position. *)
Lemma HeapUp_HeapDown_ordered h k :
  ids_ok h → (k < length (vec_ h))%nat → mid_except (vec_ h) k →
  ∃ h', (h1 ← HeapUp comp GetID h k; HeapDown comp GetID h1 k) = Ok h'
    ∧ ids_ok h' ∧ ordered (vec_ h') ∧ same_elems h h'.
Proof.
  intros Hok Hk [Hm Hg].
  assert (∃ h1, HeapUp comp GetID h k = Ok h1 ∧ ids_ok h1 ∧ same_elems h h1 ∧ down_except (vec_ h1) k)
    as (h1 & E1 & Hok1 & Hs1 & Hd1).
  { destruct (lookup_vec_lt (vec_ h) k Hk) as [x Ex].
    destruct (decide (0 < k)%nat) as [Hk0|Hk0].
    - pose proof (parent_lt k Hk0). destruct (lookup_vec_lt (vec_ h) (parent k)) as [p Ep]; [lia|].
      destruct (comp p x) eqn:Hpx.
      + destruct (HeapUp_safe h k Hok Hk) as (h1 & E1 & Hok1 & Hs1). exists h1. split_and!; [done..|].
        apply ordered_down_except. apply (HeapUp_ordered h k); [done..| |done]. split; [|done].
        intros i Hi Hne y q Hy Hq. destruct (decide (parent i = k)) as [Hp|]; [|by eapply (Hm i)].
        rewrite Hp in Hq. simplify_eq. apply comp_trans with p; [by apply comp_asym | by eapply (Hg i)].
      + assert (Hd : down_except (vec_ h) k).
        { split; [|done]. intros i Hi Hp. destruct (decide (i = k)) as [->|]; [|by apply Hm].
          intros ????. by simplify_eq. }
        exists h. split_and!; [|done|apply same_elems_refl|done].
        apply HeapUp_id; [done|]. intros i Hi. apply Hd; [lia|]. pose proof (parent_lt i). lia.
    - assert (k = 0%nat) as -> by lia. exists h. split_and!; [|done|apply same_elems_refl|].
      + apply HeapUp_id; [done|]. lia.
      + split; [|done]. intros i Hi Hp. apply Hm; lia || done. }
  rewrite E1. cbn [mbind res_bind].
  destruct (HeapDown_safe h1 k Hok1) as (h2 & E2 & Hok2 & Hs2). exists h2.
  split_and!; [done..| |];
    [exact (HeapDown_ordered h1 k h2 Hok1 Hd1 E2) | by eapply same_elems_trans].
Qed.

(** ** The operations *)

(** The front of an ordered heap is a minimum. *)
Lemma ordered_front v x : ordered v → v !! 0%nat = Some x → ∀ y, y ∈ v → comp x y = false.
Proof.
  intros Ho Hx y [i Hi]%list_elem_of_lookup. revert y Hi.
  induction (lt_wf i) as [i _ IH]; intros y Hy. destruct (decide (i = 0)%nat) as [->|].
  - simplify_eq. apply comp_irrefl.
  - pose proof (parent_lt i ltac:(lia)). pose proof (lookup_lt_Some _ _ _ Hy).
    destruct (lookup_vec_lt v (parent i)) as [p Hp]; [lia|].
    apply comp_trans with p; [by apply (IH (parent i)) | by eapply (Ho i); [lia|..]].
Qed.

Lemma ids_ok_write h k x :
  ids_ok h → idx_ h !! GetID x = Some k → (k < length (vec_ h))%nat →
  ids_ok (mkHeap (<[k := x]> (vec_ h)) (idx_ h)).
Proof.
  intros Hok Hx Hk i y Hy. cbn [vec_ idx_] in *. destruct (decide (i = k)) as [->|].
  - rewrite list_lookup_insert_eq in Hy by done. by simplify_eq.
  - rewrite list_lookup_insert_ne in Hy by done. by apply Hok.
Qed.

(** The position a hint makes [InsertOrUpdate] repair. *)
Definition hint_ok (v : list T) (k : nat) (hint : Z) : Prop :=
  (hint < 0 → up_except v k) ∧ (0 < hint → down_except v k) ∧ (hint = 0 → mid_except v k).

Lemma InsertOrUpdate_update h id val hint k :
  ids_ok h → GetID val = id → idx_ h !! id = Some k → (k < length (vec_ h))%nat →
  ∃ h', InsertOrUpdate comp GetID h id val hint = Ok h' ∧ ids_ok h'
    ∧ vec_ h' ≡ₚ <[k := val]> (vec_ h) ∧ dom (idx_ h') = dom (idx_ h)
    ∧ (hint_ok (<[k := val]> (vec_ h)) k hint → ordered (vec_ h')).
Proof.
  intros Hok Hid Hk Hlt. subst id. unfold InsertOrUpdate. rewrite Hk.
  rewrite (proj2 (Nat.ltb_lt _ _) Hlt).
  set (h1 := mkHeap (<[k := val]> (vec_ h)) (idx_ h)).
  assert (Hok1 : ids_ok h1) by (by apply ids_ok_write).
  assert (Hk1 : (k < length (vec_ h1))%nat) by (unfold h1; cbn [vec_]; by rewrite length_insert).
  unfold hint_ok. destruct (Z.ltb_spec hint 0); [|destruct (Z.ltb_spec 0 hint)].
  - destruct (HeapUp_safe h1 k Hok1 Hk1) as (h2 & E2 & Hok2 & Hp2 & Hd2). exists h2.
    split_and!; try done. intros [Hu _]. by apply (HeapUp_ordered h1 k h2 Hok1 Hk1 (Hu H)).
  - destruct (HeapDown_safe h1 k Hok1) as (h2 & E2 & Hok2 & Hp2 & Hd2). exists h2.
    split_and!; try done. intros (_ & Hu & _). by apply (HeapDown_ordered h1 k h2 Hok1 (Hu H0)).
  - destruct (HeapUp_safe h1 k Hok1 Hk1) as (h2 & E2 & Hok2 & Hs2). rewrite E2. cbn [mbind res_bind].
    destruct (HeapDown_safe h2 k Hok2) as (h3 & E3 & Hok3 & Hs3). exists h3.
    destruct (same_elems_trans _ _ _ Hs2 Hs3). split_and!; try done. intros (_ & _ & Hm).
    destruct (HeapUp_HeapDown_ordered h1 k Hok1 Hk1) as (h4 & E4 & _ & Ho & _); [apply Hm; lia|].
    rewrite E2 in E4. cbn [mbind res_bind] in E4. assert (h3 = h4) as -> by congruence. done.
Qed.

Lemma InsertOrUpdate_insert h id val hint :
  ids_ok h → ordered (vec_ h) → GetID val = id → idx_ h !! id = None →
  ∃ h', InsertOrUpdate comp GetID h id val hint = Ok h' ∧ ids_ok h' ∧ ordered (vec_ h')
    ∧ vec_ h' ≡ₚ val :: vec_ h ∧ dom (idx_ h') = {[id]} ∪ dom (idx_ h).
Proof.
  intros Hok Ho Hid Hn. subst id. unfold InsertOrUpdate. rewrite Hn.
  rewrite length_app. cbn [length]. replace (length (vec_ h) + 1 - 1)%nat with (length (vec_ h)) by lia.
  set (h1 := mkHeap (vec_ h ++ [val]) (<[GetID val := length (vec_ h)]> (idx_ h))).
  assert (Hl1 : length (vec_ h1) = S (length (vec_ h)))
    by (unfold h1; cbn [vec_]; rewrite length_app; cbn [length]; lia).
  assert (Hok1 : ids_ok h1).
  { intros i y Hy. unfold h1 in *. cbn [vec_ idx_] in *.
    apply lookup_app_Some in Hy as [Hy|[Hge Hy]].
    - rewrite lookup_insert_ne; [by apply Hok|]. intros E. apply Hok in Hy. rewrite <- E in Hy. congruence.
    - apply list_lookup_singleton_Some in Hy as [Hi <-]. rewrite lookup_insert_eq. f_equal. lia. }
  destruct (HeapUp_safe h1 (length (vec_ h)) Hok1) as (h2 & E2 & Hok2 & Hp2 & Hd2); [lia|].
  exists h2. split_and!; [done|done| | |].
  - apply (HeapUp_ordered h1 (length (vec_ h)) h2); [done|lia| |done]. split.
    + intros i Hi Hne x p Hx Hp. pose proof (lookup_lt_Some _ _ _ Hx). pose proof (parent_lt i Hi).
      unfold h1 in Hx, Hp. cbn [vec_] in Hx, Hp. rewrite lookup_app_l in Hx, Hp by lia. by eapply (Ho i).
    + intros i x p _ Hi Hpi Hx. pose proof (lookup_lt_Some _ _ _ Hx). pose proof (parent_lt i Hi). lia.
  - rewrite Hp2. unfold h1. cbn [vec_]. by rewrite Permutation_app_comm.
  - rewrite Hd2. unfold h1. cbn [idx_]. apply dom_insert_L.
Qed.

(** ** Removal: the last element takes the place of the removed one *)

Definition removed (v : list T) (k : nat) (back : T) : list T := pop_back (<[k := back]> v).

Lemma length_removed v k back : length (removed v k back) = (length v - 1)%nat.
Proof. unfold removed, pop_back. rewrite length_take, !length_insert. lia. Qed.

Lemma removed_lookup v k back i :
  (k < length v)%nat →
  removed v k back !! i =
    if decide (i < length v - 1)%nat then (if decide (i = k) then Some back else v !! i) else None.
Proof.
  intros Hk. unfold removed, pop_back. rewrite length_insert.
  destruct (decide (i < length v - 1)%nat).
  - rewrite lookup_take_lt by done. destruct (decide (i = k)) as [->|].
    + by apply list_lookup_insert_eq.
    + by apply list_lookup_insert_ne.
  - apply lookup_take_ge. lia.
Qed.

Lemma removed_Permutation v k x back :
  v !! k = Some x → v !! (length v - 1)%nat = Some back → v ≡ₚ x :: removed v k back.
Proof.
  intros Hk Hb. pose proof (lookup_lt_Some _ _ _ Hk) as Lk.
  assert (Hv : v = take (length v - 1) v ++ [back]).
  { rewrite <- (take_drop_middle _ _ _ Hb) at 1. rewrite drop_ge by lia. done. }
  unfold removed, pop_back. rewrite length_insert.
  destruct (decide (k = length v - 1)%nat) as [->|Hne].
  - simplify_eq. rewrite list_insert_id by done. rewrite Hv at 1. by rewrite Permutation_app_comm.
  - rewrite take_insert_lt by lia. set (w := take (length v - 1) v) in *.
    assert (Hw : w !! k = Some x) by (unfold w; rewrite lookup_take_lt by lia; done).
    rewrite Hv. rewrite <- (take_drop_middle _ _ _ Hw) at 1.
    rewrite (insert_take_drop _ _ _ (lookup_lt_Some _ _ _ Hw)).
    rewrite (Permutation_app_comm _ [back]). cbn [app]. rewrite <- !Permutation_middle.
    apply Permutation_swap.
Qed.

(** The order survives except around the refilled position. *)
Lemma removed_mid_except v k back :
  ordered v → (k < length v - 1)%nat → mid_except (removed v k back) k.
Proof.
  intros Ho Hk. assert (Hl : (k < length v)%nat) by lia. split.
  - intros i Hi Hne Hp x p Hx Hpp. rewrite removed_lookup in Hx, Hpp by done.
    repeat case_decide; try done. by eapply (Ho i).
  - intros i x p Hk0 Hi Hpi Hx Hpp. pose proof (parent_lt i Hi). pose proof (parent_lt k Hk0).
    rewrite removed_lookup in Hx, Hpp by done.
    repeat case_decide; try done; try lia. by eapply (grand_ok_ordered v k Ho i).
Qed.

Lemma removed_ordered_last v back :
  ordered v → ordered (removed v (length v - 1) back).
Proof.
  intros Ho. destruct (decide (length v = 0)%nat) as [Hz|].
  { intros i Hi x p Hx. apply lookup_lt_Some in Hx. rewrite length_removed in Hx. lia. }
  intros i Hi x p Hx Hp. pose proof (parent_lt i Hi). rewrite removed_lookup in Hx, Hp by lia.
  repeat case_decide; try done; try lia. by eapply (Ho i).
Qed.

Lemma ids_ok_removed h k x back m :
  ids_ok h → vec_ h !! k = Some x → vec_ h !! (length (vec_ h) - 1)%nat = Some back →
  (k < length (vec_ h) - 1)%nat → m = <[GetID back := k]> (delete (GetID x) (idx_ h)) →
  ids_ok (mkHeap (removed (vec_ h) k back) m).
Proof.
  intros Hok Hk Hb Hlt -> i y Hy. cbn [vec_ idx_] in *. rewrite removed_lookup in Hy by lia.
  destruct (decide (i < _)%nat); [|done]. destruct (decide (i = k)) as [->|].
  - simplify_eq. by rewrite lookup_insert_eq.
  - assert (GetID back ≠ GetID y) by (intros E; pose proof (ids_ok_inj _ _ _ _ _ Hok Hb Hy E); lia).
    assert (GetID x ≠ GetID y) by (intros E; pose proof (ids_ok_inj _ _ _ _ _ Hok Hk Hy E); lia).
    rewrite lookup_insert_ne, lookup_delete_ne by done. by apply Hok.
Qed.

Lemma dom_removed h k x back :
  ids_ok h → vec_ h !! k = Some x → vec_ h !! (length (vec_ h) - 1)%nat = Some back →
  (k < length (vec_ h) - 1)%nat →
  dom (<[GetID back := k]> (delete (GetID x) (idx_ h))) = dom (idx_ h) ∖ {[GetID x]}.
Proof.
  intros Hok Hk Hb Hlt. rewrite dom_insert_L, dom_delete_L.
  assert (GetID back ≠ GetID x) by (intros E; pose proof (ids_ok_inj _ _ _ _ _ Hok Hb Hk E); lia).
  apply Hok, elem_of_dom_2 in Hb. set_solver.
Qed.

Lemma Remove_spec h x v :
  ids_ok h → ordered (vec_ h) → vec_ h = x :: v →
  ∃ h', Remove comp GetID h = Ok h' ∧ ids_ok h' ∧ ordered (vec_ h')
    ∧ vec_ h ≡ₚ x :: vec_ h' ∧ dom (idx_ h') = dom (idx_ h) ∖ {[GetID x]}.
Proof.
  intros Hok Ho Hv. assert (H0 : vec_ h !! 0%nat = Some x) by (by rewrite Hv).
  assert (Hlen : length (vec_ h) = S (length v)) by (by rewrite Hv).
  destruct (lookup_vec_lt (vec_ h) (length (vec_ h) - 1)) as [back Hb]; [lia|].
  unfold Remove. destruct (vec_ h) as [|y w] eqn:Ev; [done|]. injection Hv as -> ->.
  rewrite <- Ev in *. rewrite (vec_at_Some _ _ _ Hb). cbn [mbind res_bind].
  rewrite (vec_at_Some _ 0 back) by (apply list_lookup_insert_eq; lia). cbn [mbind res_bind].
  rewrite length_insert. fold (removed (vec_ h) 0 back). cbn [vec_]. rewrite length_removed.
  pose proof (removed_Permutation _ _ _ _ H0 Hb) as Hperm.
  destruct (Nat.ltb_spec 1 (length (vec_ h))).
  - rewrite (proj2 (Nat.ltb_lt _ _)) by lia.
    set (h1 := mkHeap (removed (vec_ h) 0 back) (<[GetID back := 0%nat]> (delete (GetID x) (idx_ h)))).
    assert (Hok1 : ids_ok h1) by (eapply ids_ok_removed; done || lia).
    destruct (HeapDown_safe h1 0 Hok1) as (h2 & E2 & Hok2 & Hp2 & Hd2). exists h2.
    split_and!; [done|done| | |].
    + apply (HeapDown_ordered h1 0 h2 Hok1); [|done].
      destruct (removed_mid_except (vec_ h) 0 back Ho) as [Hm Hg]; [lia|]. split; [|done].
      intros i Hi Hp. apply Hm; lia || done.
    + by rewrite Hp2.
    + rewrite Hd2. apply dom_removed; done || lia.
  - rewrite (proj2 (Nat.ltb_ge _ _)) by lia. eexists. split; [done|]. cbn [vec_ idx_].
    assert (Hnil : length (removed (vec_ h) 0 back) = 0%nat) by (rewrite length_removed; lia).
    apply nil_length_inv in Hnil. rewrite Hnil in *.
    split_and!; [by intros ??| by intros ?? ?? | done | apply dom_delete_L].
Qed.

(** [AnyRemove] takes out the element; its index entry survives when it was the last of
    several elements. *)
Lemma AnyRemove_spec h k x id :
  ids_ok h → ordered (vec_ h) → vec_ h !! k = Some x → GetID x = id →
  ∃ h', AnyRemove comp GetID h id = Ok h' ∧ ids_ok h' ∧ ordered (vec_ h')
    ∧ vec_ h ≡ₚ x :: vec_ h'
    ∧ if decide (S k = length (vec_ h) ∧ k ≠ 0%nat) then idx_ h' = idx_ h
      else dom (idx_ h') = dom (idx_ h) ∖ {[id]}.
Proof.
  intros Hok Ho Hk Hid. subst id. pose proof (lookup_lt_Some _ _ _ Hk) as Lk.
  destruct (lookup_vec_lt (vec_ h) (length (vec_ h) - 1)) as [back Hb]; [lia|].
  unfold AnyRemove. rewrite (Hok _ _ Hk). rewrite (proj2 (Nat.eqb_neq _ _)) by lia.
  rewrite (vec_at_Some _ _ _ Hb), (vec_at_Some _ _ _ Hk). cbn [mbind res_bind].
  rewrite length_insert. rewrite (vec_at_Some _ (length (vec_ h) - 1) back).
  2: { rewrite list_lookup_insert. destruct (decide _) as [[]|]; done. }
  cbn [mbind res_bind vec_]. fold (removed (vec_ h) k back). rewrite length_removed.
  pose proof (removed_Permutation _ _ _ _ Hk Hb) as Hperm.
  destruct (decide (S k = length (vec_ h))) as [Hlast|Hlast].
  - rewrite (proj2 (Nat.ltb_ge k _)) by lia. eexists. split; [done|]. cbn [vec_ idx_].
    assert (k = length (vec_ h) - 1)%nat as Ek by lia. rewrite <- Ek, Hk in Hb. injection Hb as <-.
    split_and!; [|rewrite Ek; by apply removed_ordered_last|done|].
    + intros i y Hy. cbn [vec_ idx_] in *. rewrite removed_lookup in Hy by done.
      destruct (decide (i < _)%nat); [|done]. rewrite decide_False in Hy by lia.
      assert (GetID x ≠ GetID y) by (intros E; pose proof (ids_ok_inj _ _ _ _ _ Hok Hk Hy E); lia).
      destruct (1 <? _)%nat; [rewrite lookup_insert_ne by done|];
        rewrite lookup_delete_ne by done; by apply Hok.
    + destruct (decide (_ ∧ _)) as [[_ Hk0]|Hn].
      * rewrite (proj2 (Nat.ltb_lt _ _)) by lia. rewrite insert_delete_eq. apply insert_id. by apply Hok.
      * rewrite (proj2 (Nat.ltb_ge _ _)) by (destruct k; [lia|]; exfalso; apply Hn; done).
        apply dom_delete_L.
  - rewrite (proj2 (Nat.ltb_lt k _)) by lia. rewrite (proj2 (Nat.ltb_lt 1 _)) by lia.
    set (h1 := mkHeap (removed (vec_ h) k back) (<[GetID back := k]> (delete (GetID x) (idx_ h)))).
    assert (Hok1 : ids_ok h1) by (eapply ids_ok_removed; done || lia).
    destruct (HeapUp_HeapDown_ordered h1 k Hok1) as (h2 & E2 & Hok2 & Ho2 & Hp2 & Hd2).
    { unfold h1. cbn [vec_]. rewrite length_removed. lia. }
    { apply removed_mid_except; [done|lia]. }
    exists h2. rewrite E2. split_and!; [done|done|done|by rewrite Hp2|].
    rewrite decide_False by tauto. rewrite Hd2. apply dom_removed; done || lia.
Qed.

(** Overwriting one element damages the order around it only. *)
Lemma write_mid_except v k old val :
  ordered v → v !! k = Some old → mid_except (<[k := val]> v) k.
Proof.
  intros Ho Hk. split.
  - intros i Hi Hne Hp x p Hx Hpp. rewrite list_lookup_insert_ne in Hx, Hpp by done. by eapply (Ho i).
  - intros i x p Hk0 Hi Hpi Hx Hpp. pose proof (parent_lt i Hi). pose proof (parent_lt k Hk0).
    rewrite list_lookup_insert_ne in Hx, Hpp by lia. by eapply (grand_ok_ordered v k Ho i).
Qed.

Lemma mid_up_except v k val :
  mid_except v k → v !! k = Some val →
  (∀ i x, (0 < i)%nat → parent i = k → v !! i = Some x → comp val x = false) → up_except v k.
Proof.
  intros [Hm Hg] Hk Hch. split; [|done]. intros i Hi Hne x p Hx Hp.
  destruct (decide (parent i = k)) as [Hpi|]; [|by eapply (Hm i)].
  rewrite Hpi in Hp. simplify_eq. by eapply Hch.
Qed.

Lemma mid_down_except v k val :
  mid_except v k → v !! k = Some val →
  (∀ p, (0 < k)%nat → v !! parent k = Some p → comp p val = false) → down_except v k.
Proof.
  intros [Hm Hg] Hk Hp. split; [|done]. intros i Hi Hne x p Hx Hpp.
  destruct (decide (i = k)) as [->|]; [|by eapply (Hm i)]. simplify_eq. by apply Hp.
Qed.

(** A hint that tells the direction of the change is safe to follow. *)
Lemma write_hint_ok v k old val hint :
  ordered v → v !! k = Some old →
  (hint < 0 → comp val old = false) → (0 < hint → comp old val = false) →
  hint_ok (<[k := val]> v) k hint.
Proof.
  intros Ho Hk Hneg Hpos. pose proof (write_mid_except v k old val Ho Hk) as Hmid.
  assert (Hkv : <[k := val]> v !! k = Some val)
    by (apply list_lookup_insert_eq; by eapply lookup_lt_Some).
  split; [|split; [|done]]; intros Hh.
  - apply mid_up_except with val; [done..|]. intros i x Hi Hp Hx. pose proof (parent_lt i Hi).
    rewrite list_lookup_insert_ne in Hx by lia. apply comp_trans with old; [auto|].
    eapply (Ho i); [done..|by rewrite Hp].
  - apply mid_down_except with val; [done..|]. intros p Hk0 Hp. pose proof (parent_lt k Hk0).
    rewrite list_lookup_insert_ne in Hp by lia. apply comp_trans with old; [|auto]. by eapply (Ho k).
Qed.

Definition heap_inv (h : heap) : Prop := ids_ok h ∧ ordered (vec_ h).

(** Popping until the heap is empty, as a client of [Get] and [Remove] does. *)
Fixpoint drain (fuel : nat) (h : heap) : res (list T) :=
  match fuel with
  | O => UB no_progress
  | S fuel' =>
      if Empty h then Ok []
      else x ← Get h; h' ← Remove comp GetID h; l ← drain fuel' h'; Ok (x :: l)
  end.

Lemma drain_spec fuel h :
  heap_inv h → (length (vec_ h) < fuel)%nat →
  ∃ l, drain fuel h = Ok l ∧ l ≡ₚ vec_ h ∧ StronglySorted (λ x y, comp x y = false) l.
Proof.
  revert h; induction fuel as [|fuel IH]; intros h [Hok Ho] Hf; [lia|].
  cbn [drain]. unfold Empty, Get. destruct (vec_ h) as [|x v] eqn:Ev.
  { exists []. repeat constructor. }
  cbn [length Nat.eqb mbind res_bind].
  destruct (Remove_spec h x v) as (h1 & -> & Hok1 & Ho1 & Hp & _); [done|by rewrite Ev|done|].
  cbn [mbind res_bind]. assert (length (vec_ h1) = length v)
    by (apply Permutation_length in Hp; rewrite Ev in Hp; cbn [length] in Hp; lia).
  destruct (IH h1) as (l & -> & Hl & Hs); [by split|cbn [length] in Hf; lia|].
  cbn [mbind res_bind]. exists (x :: l). split; [done|]. split; [by rewrite Hl, <- Hp, Ev|].
  constructor; [done|]. apply List.Forall_forall. intros y Hy%list_elem_of_In.
  apply (ordered_front (vec_ h)); [by rewrite Ev|by rewrite Ev|]. rewrite Hp, <- Hl.
  by apply list_elem_of_further.
Qed.
End facts.

(** ** The results *)

(** C11. From a heap with the invariants, every operation succeeds, keeps the invariants
    and has the expected contents: insertion of a new id adds the element, an update
    replaces the element of that id (in either direction the hint may announce),
    [Remove] takes out the front and [AnyRemove] the element with the id. *)
Theorem heap_operations_correct {T} (comp : T → T → bool) (GetID : T → Z) `{!GreaterComp comp}
    (h : MinHeapImpl T) :
  heap_inv comp GetID h →
  (∀ val hint, idx_ h !! GetID val = None →
     ∃ h', InsertOrUpdate comp GetID h (GetID val) val hint = Ok h' ∧ heap_inv comp GetID h'
       ∧ vec_ h' ≡ₚ val :: vec_ h) ∧
  (∀ k old val hint, vec_ h !! k = Some old → GetID val = GetID old →
     (hint < 0 → comp val old = false) → (0 < hint → comp old val = false) →
     ∃ h', InsertOrUpdate comp GetID h (GetID val) val hint = Ok h' ∧ heap_inv comp GetID h'
       ∧ vec_ h' ≡ₚ <[k := val]> (vec_ h)) ∧
  (∀ x v, vec_ h = x :: v →
     ∃ h', Remove comp GetID h = Ok h' ∧ heap_inv comp GetID h' ∧ vec_ h ≡ₚ x :: vec_ h') ∧
  (∀ x, x ∈ vec_ h →
     ∃ h', AnyRemove comp GetID h (GetID x) = Ok h' ∧ heap_inv comp GetID h' ∧ vec_ h ≡ₚ x :: vec_ h').
Proof.
  intros [Hok Ho]. split_and!.
  - intros val hint Hn.
    destruct (InsertOrUpdate_insert comp GetID h _ val hint Hok Ho eq_refl Hn) as (h'&?&?&?&?&_).
    exists h'. by split_and!.
  - intros k old val hint Hk Hid Hneg Hpos.
    destruct (InsertOrUpdate_update comp GetID h (GetID val) val hint k) as (h'&?&?&?&_&Hh);
      [done|done|rewrite Hid; by apply Hok|by eapply lookup_lt_Some|].
    exists h'. split_and!; [done| |done]. split; [done|]. by eapply Hh, write_hint_ok.
  - intros x v Hv. destruct (Remove_spec comp GetID h x v Hok Ho Hv) as (h'&?&?&?&?&_).
    exists h'. by split_and!.
  - intros x [k Hk]%list_elem_of_lookup.
    destruct (AnyRemove_spec comp GetID h k x _ Hok Ho Hk eq_refl) as (h'&?&?&?&?&_).
    exists h'. by split_and!.
Qed.

(** Popping all elements of a heap with the invariants ends and yields its elements
    in ascending order; in particular [Get] is a minimum. *)
Theorem heap_drain_sorted {T} (comp : T → T → bool) (GetID : T → Z) `{!GreaterComp comp}
    (h : MinHeapImpl T) :
  heap_inv comp GetID h →
  ∃ l, drain comp GetID (S (Size h)) h = Ok l ∧ l ≡ₚ vec_ h
    ∧ StronglySorted (λ x y, comp x y = false) l.
Proof. intros Hinv. apply drain_spec; [done|done|unfold Size; lia]. Qed.

(** [AnyRemove] of the last element of a heap of two or more re-creates the index
    entry it has just erased: the entry points one past the end of [vec_], and a later
    [InsertOrUpdate] with that id writes out of bounds. *)
Theorem AnyRemove_last_stale_index {T} (comp : T → T → bool) (GetID : T → Z) `{!GreaterComp comp}
    (h : MinHeapImpl T) (v : list T) (x : T) :
  heap_inv comp GetID h → vec_ h = v ++ [x] → v ≠ [] →
  ∃ h', AnyRemove comp GetID h (GetID x) = Ok h'
    ∧ length (vec_ h') = length v ∧ x ∉ vec_ h'
    ∧ idx_ h' !! GetID x = Some (length v)
    ∧ ∀ val hint, InsertOrUpdate comp GetID h' (GetID x) val hint = UB out_of_bounds.
Proof.
  intros [Hok Ho] Hv Hne.
  assert (Hk : vec_ h !! length v = Some x) by (rewrite Hv; by apply list_lookup_middle).
  destruct (AnyRemove_spec comp GetID h (length v) x _ Hok Ho Hk eq_refl) as (h' & E & Hok' & _ & Hp & Hidx).
  rewrite decide_True in Hidx
    by (rewrite Hv, length_app; cbn [length]; split; [lia|by intros ?%nil_length_inv]).
  assert (Hl : length (vec_ h') = length v).
  { apply Permutation_length in Hp. rewrite Hv, length_app in Hp. cbn [length] in Hp. lia. }
  assert (Hst : idx_ h' !! GetID x = Some (length v)) by (rewrite Hidx; by apply Hok).
  exists h'. split_and!; try done.
  - intros [i Hi]%list_elem_of_lookup. pose proof (Hok' _ _ Hi) as Hi'. rewrite Hst in Hi'.
    injection Hi' as <-. apply lookup_lt_Some in Hi. lia.
  - intros val hint. unfold InsertOrUpdate. rewrite Hst, Hl.
    by rewrite (proj2 (Nat.ltb_ge _ _)) by lia.
Qed.

(** *** Instances of the results on a three-element heap of (id, load) pairs *)

Definition pair_comp (x y : Z * Z) : bool := y.2 <? x.2.

#[export] Instance pair_comp_greater : GreaterComp pair_comp.
Proof. split; unfold pair_comp; intros; decide_bool; apply Z.ltb_ge; lia. Qed.

Definition demo_heap : MinHeapImpl (Z * Z) :=
  mkHeap [(7, 5); (8, 9); (9, 6)] {[7 := 0%nat; 8 := 1%nat; 9 := 2%nat]}.

Lemma demo_heap_inv : heap_inv pair_comp fst demo_heap.
Proof.
  split.
  - intros [|[|[|i]]] x H; simplify_eq/=; reflexivity || by destruct i.
  - intros [|[|[|i]]] Hi x p H; [lia|..|by destruct i]; simplify_eq/=; intros; by simplify_eq/=.
Qed.

Lemma heap_operations_correct_witness :
  heap_inv pair_comp fst demo_heap ∧
  ∃ h', InsertOrUpdate pair_comp fst demo_heap 8 (8, 1) (-8) = Ok h'
    ∧ heap_inv pair_comp fst h' ∧ vec_ h' = [(8, 1); (7, 5); (9, 6)].
Proof.
  split; [apply demo_heap_inv|].
  destruct (heap_operations_correct pair_comp fst demo_heap demo_heap_inv) as (_ & Hup & _ & _).
  destruct (Hup 1%nat (8, 9) (8, 1) (-8)) as (h' & E & Hinv & _); [done|done|done|done|].
  exists h'. split_and!; [done|done|]. vm_compute in E. by injection E as <-.
Defined.

Lemma heap_drain_sorted_witness :
  ∃ l, drain pair_comp fst 4 demo_heap = Ok l ∧ l = [(7, 5); (9, 6); (8, 9)]
    ∧ StronglySorted (λ x y, pair_comp x y = false) l.
Proof.
  destruct (heap_drain_sorted pair_comp fst demo_heap demo_heap_inv) as (l & E & _ & Hs).
  exists l. split_and!; [exact E| |done]. vm_compute in E. by injection E as <-.
Defined.

Lemma AnyRemove_last_stale_index_witness :
  ∃ h', AnyRemove pair_comp fst demo_heap 9 = Ok h' ∧ idx_ h' !! 9 = Some 2%nat
    ∧ InsertOrUpdate pair_comp fst h' 9 (9, 6) 0 = UB out_of_bounds.
Proof.
  destruct (AnyRemove_last_stale_index pair_comp fst demo_heap [(7, 5); (8, 9)] (9, 6))
    as (h' & E & _ & _ & Hidx & Hub); [apply demo_heap_inv|done|done|].
  exists h'. split_and!; [exact E | exact Hidx | apply Hub].
Defined.
