(* ===== verification/LoadBalancer.v ===== *)
(** * The load balancer (src/src/status/load_balancer.cpp, load_balancer.hpp)

    [hm_] owns one heap-allocated [ServerInfo] per server id; the min-heap holds raw
    pointers to the same objects and compares them through memory.  The model keeps the
    aliasing: [mem_] is the store of live objects, [hm_] and the heap hold addresses, and
    a load is changed in place before the heap is told about it.  Fresh addresses come
    from the counter [brk_]; dereferencing an address that is not live is undefined
    behaviour.  Readings of [GetTimestampMs] are arguments: one value for an operation
    that reads the clock once, a stream for an operation that reads it in a loop.  The
    iteration order of the unordered map is an argument too. *)

From S2P Require Import Prelude MinHeap.

Definition SERVER_TIMEOUT : Z := 40 * 1000.

Record ServerInfo := mkInfo { si_id : Z; si_addr : string; si_load : Z; si_last_ts : Z }.

#[global] Instance ServerInfo_eq_dec : EqDecision ServerInfo.
Proof. solve_decision. Defined.

#[global] Instance ServerInfo_inhabited : Inhabited ServerInfo := populate (mkInfo 0 "" 0 0).

Definition GetID (mem : gmap nat ServerInfo) (p : nat) : Z := si_id (mem !!! p).

Definition SrvInfoComp (mem : gmap nat ServerInfo) (lhs rhs : nat) : bool :=
  si_load (mem !!! lhs) >? si_load (mem !!! rhs).

Record LoadBalancer := mkLB {
  min_heap_ : MinHeapImpl nat;
  hm_ : gmap Z nat;
  mem_ : gmap nat ServerInfo;
  brk_ : nat
}.

Definition LoadBalancer_init : LoadBalancer := mkLB MinHeap_empty ∅ ∅ 0.

(** [static_cast<int>(a) - static_cast<int>(b)] *)
Definition int_sub (a b : Z) : res Z :=
  let d := i32 a - i32 b in
  if (- 2 ^ 31 <=? d) && (d <? 2 ^ 31) then Ok d else UB signed_overflow.

(** [*p] *)
Definition deref (mem : gmap nat ServerInfo) (p : nat) : res ServerInfo :=
  match mem !! p with Some si => Ok si | None => UB null_deref end.

(** The heap calls made by the balancer: the comparator and [GetID] read the store. *)
Definition heap_upsert (mem : gmap nat ServerInfo) (h : MinHeapImpl nat) (id : Z) (p : nat) (hint : Z) :
    res (MinHeapImpl nat) :=
  InsertOrUpdate (SrvInfoComp mem) (GetID mem) h id p hint.

(** [hm_.erase(id)]: the entry goes and the object it owns is freed *)
Definition hm_erase (lb : LoadBalancer) (id : Z) : LoadBalancer :=
  match hm_ lb !! id with
  | Some p => mkLB (min_heap_ lb) (delete id (hm_ lb)) (delete p (mem_ lb)) (brk_ lb)
  | None => lb
  end.

Definition with_heap (lb : LoadBalancer) (h : MinHeapImpl nat) : LoadBalancer :=
  mkLB h (hm_ lb) (mem_ lb) (brk_ lb).

Definition UpdateServerLoad (lb : LoadBalancer) (now id load : Z) : res (LoadBalancer * bool) :=
  match hm_ lb !! id with
  | None => Ok (lb, false)
  | Some p =>
      si ← deref (mem_ lb) p;
      let prev_load := si_load si in
      let mem := <[p := mkInfo (si_id si) (si_addr si) load now]> (mem_ lb) in
      hint ← int_sub load prev_load;
      h ← heap_upsert mem (min_heap_ lb) id p hint;
      Ok (mkLB h (hm_ lb) mem (brk_ lb), true)
  end.

Definition RegisterServerInfo (lb : LoadBalancer) (now id : Z) (addr : string) (load : Z) :
    res (LoadBalancer * bool) :=
  match hm_ lb !! id with
  | None =>
      let p := brk_ lb in
      let mem := <[p := mkInfo id addr load now]> (mem_ lb) in
      h ← heap_upsert mem (min_heap_ lb) id p 0;
      Ok (mkLB h (<[id := p]> (hm_ lb)) mem (S p), true)
  | Some p =>
      si ← deref (mem_ lb) p;
      let prev_load := si_load si in
      let mem := <[p := mkInfo (si_id si) addr load now]> (mem_ lb) in
      hint ← int_sub load prev_load;
      h ← heap_upsert mem (min_heap_ lb) id p hint;
      Ok (mkLB h (hm_ lb) mem (brk_ lb), true)
  end.

Definition RemoveServer (lb : LoadBalancer) (id : Z) : res (LoadBalancer * bool) :=
  match hm_ lb !! id with
  | None => Ok (lb, false)
  | Some _ =>
      h ← AnyRemove (SrvInfoComp (mem_ lb)) (GetID (mem_ lb)) (min_heap_ lb) id;
      Ok (hm_erase (with_heap lb h) id, true)
  end.

(** [GetTimestampMs() - si->last_ts >= SERVER_TIMEOUT], in [uint64_t] *)
Definition expired (now : Z) (si : ServerInfo) : bool :=
  SERVER_TIMEOUT <=? u64 (now - si_last_ts si).

Fixpoint GetMinimal_loop (fuel : nat) (clk : nat → Z) (n : nat) (lb : LoadBalancer) (updated : bool) :
    res (LoadBalancer * option ServerInfo * bool) :=
  match fuel with
  | O => UB no_progress
  | S fuel' =>
      if Empty (min_heap_ lb) then Ok (lb, None, updated)
      else
        p ← Get (min_heap_ lb);
        si ← deref (mem_ lb) p;
        if u64 (clk n - si_last_ts si) <? SERVER_TIMEOUT then Ok (lb, Some si, updated)
        else
          h ← Remove (SrvInfoComp (mem_ lb)) (GetID (mem_ lb)) (min_heap_ lb);
          GetMinimal_loop fuel' clk (S n) (hm_erase (with_heap lb h) (si_id si)) true
  end.

Definition GetMinimalLoadServerInfo (lb : LoadBalancer) (clk : nat → Z) :
    res (LoadBalancer * option ServerInfo * bool) :=
  GetMinimal_loop (S (Size (min_heap_ lb))) clk 0 lb false.

(** [*item.second] of the entry the iterator stands on *)
Definition hm_value (lb : LoadBalancer) (id : Z) : res ServerInfo :=
  match hm_ lb !! id with
  | Some p => deref (mem_ lb) p
  | None => UB out_of_bounds
  end.

Fixpoint CopyServerInfoList (lb : LoadBalancer) (order : list Z) : res (list ServerInfo) :=
  match order with
  | [] => Ok []
  | id :: order' =>
      si ← hm_value lb id;
      out ← CopyServerInfoList lb order';
      Ok (si :: out)
  end.

Fixpoint CheckTTL_loop (order : list Z) (clk : nat → Z) (n : nat) (lb : LoadBalancer) (removed : Z) :
    res (LoadBalancer * Z) :=
  match order with
  | [] => Ok (lb, removed)
  | id :: order' =>
      si ← hm_value lb id;
      if expired (clk n) si then
        h ← AnyRemove (SrvInfoComp (mem_ lb)) (GetID (mem_ lb)) (min_heap_ lb) (si_id si);
        CheckTTL_loop order' clk (S n) (hm_erase (with_heap lb h) id) (u32 (removed + 1))
      else CheckTTL_loop order' clk (S n) lb removed
  end.

Definition CheckTTL (lb : LoadBalancer) (order : list Z) (clk : nat → Z) : res (LoadBalancer * Z) :=
  CheckTTL_loop order clk 0 lb 0.

(** ** Runs of operations *)

Inductive lb_op :=
  | OUpdate (now id load : Z)
  | ORegister (now id : Z) (addr : string) (load : Z)
  | ORemove (id : Z)
  | OGetMinimal (clk : nat → Z)
  | OCheckTTL (order : list Z) (clk : nat → Z).

Definition run_op (lb : LoadBalancer) (op : lb_op) : res LoadBalancer :=
  match op with
  | OUpdate now id load => r ← UpdateServerLoad lb now id load; Ok r.1
  | ORegister now id addr load => r ← RegisterServerInfo lb now id addr load; Ok r.1
  | ORemove id => r ← RemoveServer lb id; Ok r.1
  | OGetMinimal clk => r ← GetMinimalLoadServerInfo lb clk; Ok r.1.1
  | OCheckTTL order clk => r ← CheckTTL lb order clk; Ok r.1
  end.

Fixpoint run_ops (lb : LoadBalancer) (ops : list lb_op) : res LoadBalancer :=
  match ops with
  | [] => Ok lb
  | op :: ops' => lb' ← run_op lb op; run_ops lb' ops'
  end.

(** The scenario of the repository's test: three servers, the least loaded is returned. *)
Example GetMinimal_test :
  (lb ← run_ops LoadBalancer_init
     [ORegister 0 1 "a" 10; ORegister 0 2 "b" 20; ORegister 0 3 "c" 30; OUpdate 5 1 25];
   r ← GetMinimalLoadServerInfo lb (λ _, 6);
   Ok (r.1.2, r.2)) = Ok (Some (mkInfo 2 "b" 20 0), false).
Proof. vm_compute. reflexivity. Qed.
