(* ===== verification/LoadBalancerFacts.v ===== *)
(** * Correctness of the load balancer

    [abs] reads a balancer as a finite map from server ids to server descriptions.  Under
    the invariant [lb_inv] every operation returns and acts on that map as its
    specification says; runs of operations refine runs of the specification.  The index
    entries that [AnyRemove] leaves behind ([stale]) are what a run has to keep away from:
    the last theorems show what registering such an id does. *)

From S2P Require Import Prelude MinHeap MinHeapFacts LoadBalancer.

(** ** Heap order through a function

    The heap holds pointers and compares what they point to. *)
Section through.
Context {A B : Type} (f : A → B) (comp : B → B → bool).

Abbreviation compf := (λ x y : A, comp (f x) (f y)).

Lemma edge_ok_fmap v i : edge_ok compf v i ↔ edge_ok comp (f <$> v) i.
Proof.
  split; intros H x p Hx Hp.
  - rewrite list_lookup_fmap in Hx, Hp.
    apply fmap_Some in Hx as (x' & Hx & ->), Hp as (p' & Hp & ->). by apply H.
  - by apply H; rewrite list_lookup_fmap, ?Hx, ?Hp.
Qed.

Lemma grand_ok_fmap v k : grand_ok compf v k ↔ grand_ok comp (f <$> v) k.
Proof.
  split; intros H i x p Hk Hi Hpi Hx Hp.
  - rewrite list_lookup_fmap in Hx, Hp.
    apply fmap_Some in Hx as (x' & Hx & ->), Hp as (p' & Hp & ->). by apply (H i).
  - by apply (H i); rewrite ?list_lookup_fmap, ?Hx, ?Hp.
Qed.

Lemma ordered_fmap v : ordered compf v ↔ ordered comp (f <$> v).
Proof. unfold ordered. by setoid_rewrite edge_ok_fmap. Qed.

Lemma hint_ok_fmap v k hint : hint_ok compf v k hint ↔ hint_ok comp (f <$> v) k hint.
Proof.
  unfold hint_ok, up_except, down_except, mid_except.
  setoid_rewrite edge_ok_fmap. by setoid_rewrite grand_ok_fmap.
Qed.
End through.

#[global] Instance Zgtb_comp : GreaterComp Z.gtb.
Proof. split; intros *; rewrite ?Z.gtb_ltb; intros; decide_bool; apply Z.ltb_ge; lia. Qed.

#[global] Instance SrvInfoComp_comp mem : GreaterComp (SrvInfoComp mem).
Proof.
  split; unfold SrvInfoComp; intros *; [apply comp_asym | apply comp_trans].
Qed.

(** ** The invariant *)

Definition loads (mem : gmap nat ServerInfo) (v : list nat) : list Z :=
  (λ p, si_load (mem !!! p)) <$> v.

Definition abs (lb : LoadBalancer) : gmap Z ServerInfo := (λ p, mem_ lb !!! p) <$> hm_ lb.

(** Loads for which the conversion to [int] is exact. *)
Definition load_ok (load : Z) : Prop := 0 <= load < 2 ^ 31.

#[global] Instance load_ok_dec load : Decision (load_ok load).
Proof. unfold load_ok. apply _. Defined.

Record lb_inv (lb : LoadBalancer) : Prop := {
  inv_ids : ids_ok (GetID (mem_ lb)) (min_heap_ lb);
  inv_ord : ordered Z.gtb (loads (mem_ lb) (vec_ (min_heap_ lb)));
  inv_vec : ∀ p, p ∈ vec_ (min_heap_ lb) ↔ ∃ id, hm_ lb !! id = Some p;
  inv_mem : ∀ id p, hm_ lb !! id = Some p →
    ∃ si, mem_ lb !! p = Some si ∧ si_id si = id ∧ load_ok (si_load si);
  inv_brk : ∀ p, is_Some (mem_ lb !! p) → (p < brk_ lb)%nat
}.

(** Ids whose index entry outlived the server. *)
Definition stale (lb : LoadBalancer) : gset Z := dom (idx_ (min_heap_ lb)) ∖ dom (hm_ lb).

Lemma lb_inv_init : lb_inv LoadBalancer_init.
Proof.
  split; try done.
  - intros p; split; [by intros ?%elem_of_nil | by intros [id ?]].
  - by intros p [si ?].
Qed.

Section inv.
Context (lb : LoadBalancer) (Hinv : lb_inv lb).

Lemma hm_inj id id' p : hm_ lb !! id = Some p → hm_ lb !! id' = Some p → id = id'.
Proof.
  intros H1 H2. destruct (inv_mem _ Hinv _ _ H1) as (si & E & <- & _).
  destruct (inv_mem _ Hinv _ _ H2) as (si' & E' & <- & _). congruence.
Qed.

Lemma abs_lookup id si :
  abs lb !! id = Some si ↔ ∃ p, hm_ lb !! id = Some p ∧ mem_ lb !! p = Some si.
Proof.
  unfold abs. rewrite lookup_fmap, fmap_Some. apply exist_proper; intros p.
  split; intros [Hp E]; (split; [done|]); destruct (inv_mem _ Hinv _ _ Hp) as (si' & E' & _).
  - rewrite lookup_total_alt, E' in E. by subst.
  - by rewrite lookup_total_alt, E.
Qed.

Lemma abs_id id si : abs lb !! id = Some si → si_id si = id.
Proof.
  intros (p & Hp & E)%abs_lookup. destruct (inv_mem _ Hinv _ _ Hp) as (? & ? & <- & _). congruence.
Qed.

Lemma abs_None id : abs lb !! id = None ↔ hm_ lb !! id = None.
Proof. unfold abs. by rewrite lookup_fmap, fmap_None. Qed.

(** The object of a server sits in the heap, at the position its index entry names. *)
Lemma hm_position id p :
  hm_ lb !! id = Some p → ∃ k, vec_ (min_heap_ lb) !! k = Some p ∧ GetID (mem_ lb) p = id
    ∧ idx_ (min_heap_ lb) !! id = Some k.
Proof.
  intros Hp. destruct (inv_mem _ Hinv _ _ Hp) as (si & E & Hid & _).
  assert (p ∈ vec_ (min_heap_ lb)) as [k Hk]%list_elem_of_lookup by (apply (inv_vec _ Hinv); eauto).
  assert (Hg : GetID (mem_ lb) p = id) by (unfold GetID; by rewrite lookup_total_alt, E).
  exists k. repeat split; [done..|]. rewrite <- Hg. by apply (inv_ids _ Hinv).
Qed.

Lemma vec_NoDup : NoDup (vec_ (min_heap_ lb)).
Proof.
  apply NoDup_alt. intros i j p Hi Hj. by eapply (ids_ok_inj (GetID (mem_ lb)) _ i j); [apply Hinv|..].
Qed.

(** The elements of the heap are live objects of registered servers. *)
Lemma vec_live p :
  p ∈ vec_ (min_heap_ lb) →
  ∃ si, mem_ lb !! p = Some si ∧ hm_ lb !! si_id si = Some p ∧ load_ok (si_load si).
Proof.
  intros [id Hid]%(inv_vec _ Hinv). destruct (inv_mem _ Hinv _ _ Hid) as (si & ? & <- & ?). eauto.
Qed.
End inv.

Lemma dom_abs lb : dom (abs lb) = dom (hm_ lb).
Proof. apply dom_fmap_L. Qed.

Lemma ids_ok_ext {T} (g g' : T → Z) h :
  (∀ x, x ∈ vec_ h → g' x = g x) → ids_ok g h → ids_ok g' h.
Proof.
  intros Hext Hok i x Hx. rewrite Hext by (by eapply list_elem_of_lookup_2). by apply Hok.
Qed.

Lemma ordered_loads mem v : ordered (SrvInfoComp mem) v ↔ ordered Z.gtb (loads mem v).
Proof. apply (ordered_fmap (λ p, si_load (mem !!! p)) Z.gtb). Qed.

Lemma loads_ext mem mem' v :
  (∀ p, p ∈ v → mem' !! p = mem !! p) → loads mem' v = loads mem v.
Proof.
  intros H. unfold loads. apply list_fmap_ext. intros i p Hp%list_elem_of_lookup_2.
  by rewrite !lookup_total_alt, H.
Qed.

(** Writing one object changes the loads at its position only. *)
Lemma loads_write mem p si v k :
  NoDup v → v !! k = Some p →
  loads (<[p := si]> mem) v = <[k := si_load si]> (loads mem v).
Proof.
  intros Hnd Hk. apply list_eq. intros i. unfold loads. rewrite list_lookup_fmap.
  pose proof (lookup_lt_Some _ _ _ Hk) as Lk.
  destruct (decide (i = k)) as [->|Hne].
  - rewrite list_lookup_insert_eq by (by rewrite length_fmap). rewrite Hk. simpl.
    by rewrite lookup_total_insert_eq.
  - rewrite list_lookup_insert_ne, list_lookup_fmap by done. destruct (v !! i) as [q|] eqn:Hq; [|done].
    simpl. rewrite lookup_total_insert_ne; [done|]. intros ->. by eapply Hne, NoDup_lookup.
Qed.

(** ** Updating, adding and removing one object *)

Lemma int_sub_load a b : load_ok a → load_ok b → int_sub a b = Ok (a - b).
Proof.
  intros [] []. unfold int_sub. rewrite !i32_small by done.
  rewrite (proj2 (Z.leb_le _ _)), (proj2 (Z.ltb_lt _ _)) by lia. done.
Qed.

Lemma GetID_write mem p si si' q :
  mem !! p = Some si → si_id si' = si_id si → GetID (<[p := si']> mem) q = GetID mem q.
Proof.
  intros E Hid. unfold GetID. rewrite !lookup_total_alt. destruct (decide (q = p)) as [->|].
  - rewrite lookup_insert_eq, E. done.
  - by rewrite lookup_insert_ne.
Qed.

Lemma upsert_existing lb id p si si' hint :
  lb_inv lb → hm_ lb !! id = Some p → mem_ lb !! p = Some si →
  si_id si' = id → load_ok (si_load si') → hint = si_load si' - si_load si →
  ∃ h, heap_upsert (<[p := si']> (mem_ lb)) (min_heap_ lb) id p hint = Ok h
    ∧ lb_inv (mkLB h (hm_ lb) (<[p := si']> (mem_ lb)) (brk_ lb))
    ∧ dom (idx_ h) = dom (idx_ (min_heap_ lb)).
Proof.
  intros Hinv Hp Hsi Hid Hl Hh. destruct (hm_position lb Hinv id p Hp) as (k & Hk & Hgid & Hidx).
  assert (Hsid : si_id si = id) by (unfold GetID in Hgid; by rewrite lookup_total_alt, Hsi in Hgid).
  set (mem := <[p := si']> (mem_ lb)).
  assert (Hg : ∀ q, GetID mem q = GetID (mem_ lb) q) by (intros q; apply (GetID_write _ _ si); congruence).
  destruct (InsertOrUpdate_update (SrvInfoComp mem) (GetID mem) (min_heap_ lb) id p hint k)
    as (h & E & Hok & Hperm & Hdom & Hord); [| |done|by eapply lookup_lt_Some|].
  { eapply ids_ok_ext; [|apply Hinv]. intros q _. apply Hg. }
  { by rewrite Hg. }
  rewrite list_insert_id in Hperm, Hord by done.
  exists h. split_and!; [done| |done]. split; cbn [mem_ hm_ min_heap_ brk_]; [done| | | |]; unfold mem in *.
  - apply ordered_loads, Hord.
    apply (hint_ok_fmap (λ q, si_load (<[p := si']> (mem_ lb) !!! q)) Z.gtb).
    fold (loads (<[p := si']> (mem_ lb)) (vec_ (min_heap_ lb))).
    rewrite (loads_write _ _ _ _ k) by (done || by apply vec_NoDup).
    apply (write_hint_ok Z.gtb _ k (si_load si)); [apply Hinv| |rewrite Z.gtb_ltb, Z.ltb_ge; lia..].
    unfold loads. rewrite list_lookup_fmap, Hk. simpl. by rewrite lookup_total_alt, Hsi.
  - intros q. rewrite Hperm. apply (inv_vec _ Hinv).
  - intros id' q Hq. destruct (decide (q = p)) as [->|].
    + exists si'. rewrite lookup_insert_eq. split_and!; [done| |done]. rewrite Hid. by eapply hm_inj.
    + rewrite lookup_insert_ne by done. by apply (inv_mem _ Hinv).
  - intros q Hq. apply (inv_brk _ Hinv). destruct (decide (q = p)) as [->|]; [by rewrite Hsi|].
    by rewrite lookup_insert_ne in Hq.
Qed.

Lemma abs_write lb id p si' h :
  lb_inv lb → hm_ lb !! id = Some p →
  abs (mkLB h (hm_ lb) (<[p := si']> (mem_ lb)) (brk_ lb)) = <[id := si']> (abs lb).
Proof.
  intros Hinv Hp. apply map_eq. intros id'. unfold abs. cbn [mem_ hm_].
  rewrite lookup_fmap. destruct (decide (id' = id)) as [->|].
  - rewrite Hp, lookup_insert_eq. simpl. by rewrite lookup_total_insert_eq.
  - rewrite lookup_insert_ne, lookup_fmap by done.
    destruct (hm_ lb !! id') as [q|] eqn:Hq; [|done]. simpl. rewrite lookup_total_insert_ne; [done|].
    intros ->. by eapply hm_inj in Hp.
Qed.

Lemma upsert_new lb id si' :
  lb_inv lb → hm_ lb !! id = None → id ∉ stale lb → si_id si' = id → load_ok (si_load si') →
  ∃ h, heap_upsert (<[brk_ lb := si']> (mem_ lb)) (min_heap_ lb) id (brk_ lb) 0 = Ok h
    ∧ let lb' := mkLB h (<[id := brk_ lb]> (hm_ lb)) (<[brk_ lb := si']> (mem_ lb)) (S (brk_ lb)) in
      lb_inv lb' ∧ abs lb' = <[id := si']> (abs lb) ∧ stale lb' = stale lb.
Proof.
  intros Hinv Hn Hst Hid Hl. set (p := brk_ lb). set (mem := <[p := si']> (mem_ lb)).
  assert (Hfresh : mem_ lb !! p = None).
  { destruct (mem_ lb !! p) eqn:E; [|done]. exfalso.
    pose proof (inv_brk _ Hinv p ltac:(by rewrite E)). unfold p in *. lia. }
  assert (Hold : ∀ q, q ∈ vec_ (min_heap_ lb) → mem !! q = mem_ lb !! q).
  { intros q (si & E & _)%(vec_live lb Hinv). unfold mem. rewrite lookup_insert_ne; [done|congruence]. }
  destruct (InsertOrUpdate_insert (SrvInfoComp mem) (GetID mem) (min_heap_ lb) id p 0)
    as (h & E & Hok & Hord & Hperm & Hdom).
  { eapply ids_ok_ext; [|apply Hinv]. intros q Hq. unfold GetID. by rewrite !lookup_total_alt, Hold. }
  { apply ordered_loads. rewrite (loads_ext (mem_ lb)) by done. apply Hinv. }
  { unfold GetID, mem. by rewrite lookup_total_insert_eq. }
  { apply not_elem_of_dom. unfold stale in Hst. apply not_elem_of_dom in Hn. set_solver. }
  exists h. split; [done|]. cbn zeta. split_and!; [split|..]; cbn [mem_ hm_ min_heap_ brk_]; unfold mem in *.
  - done.
  - by apply ordered_loads.
  - intros q. rewrite Hperm, elem_of_cons, (inv_vec _ Hinv). split.
    + intros [->|[id' Hid']]; [exists id; apply lookup_insert_eq|].
      exists id'. rewrite lookup_insert_ne; [done|congruence].
    + intros [id' Hid']. destruct (decide (id' = id)) as [->|].
      * rewrite lookup_insert_eq in Hid'. left. congruence.
      * rewrite lookup_insert_ne in Hid' by done. eauto.
  - intros id' q Hq. destruct (decide (id' = id)) as [->|].
    + rewrite lookup_insert_eq in Hq. injection Hq as <-. exists si'. by rewrite lookup_insert_eq.
    + rewrite lookup_insert_ne in Hq by done. destruct (inv_mem _ Hinv _ _ Hq) as (si & Esi & ?).
      exists si. rewrite lookup_insert_ne; [done|]. unfold p in *. congruence.
  - intros q Hq. destruct (decide (q = p)) as [->|]; [unfold p; lia|].
    rewrite lookup_insert_ne in Hq by done. pose proof (inv_brk _ Hinv q Hq). lia.
  - apply map_eq. intros id'. unfold abs. cbn [mem_ hm_]. rewrite lookup_fmap.
    destruct (decide (id' = id)) as [->|]; [rewrite !lookup_insert_eq; simpl; by rewrite lookup_total_insert_eq|].
    rewrite !lookup_insert_ne, lookup_fmap by done. destruct (hm_ lb !! id') as [q|] eqn:Hq; [|done].
    destruct (inv_mem _ Hinv _ _ Hq) as (si & Esi & _). simpl. rewrite lookup_total_insert_ne; [done|].
    unfold p in *. congruence.
  - unfold stale in *. cbn [min_heap_ hm_]. rewrite Hdom, dom_insert_L. apply not_elem_of_dom in Hn. set_solver.
Qed.

Lemma erase_inv lb id p h :
  lb_inv lb → hm_ lb !! id = Some p → ids_ok (GetID (mem_ lb)) h →
  ordered (SrvInfoComp (mem_ lb)) (vec_ h) → vec_ (min_heap_ lb) ≡ₚ p :: vec_ h →
  let lb' := hm_erase (with_heap lb h) id in
  lb_inv lb' ∧ abs lb' = delete id (abs lb) ∧ min_heap_ lb' = h ∧ hm_ lb' = delete id (hm_ lb).
Proof.
  intros Hinv Hp Hok Hord Hperm. unfold hm_erase, with_heap. cbn [hm_]. rewrite Hp. cbn zeta.
  assert (Hnp : p ∉ vec_ h).
  { pose proof (vec_NoDup lb Hinv) as Hnd. rewrite Hperm in Hnd. by inversion Hnd. }
  assert (Hold : ∀ q, q ∈ vec_ h → delete p (mem_ lb) !! q = mem_ lb !! q).
  { intros q Hq. rewrite lookup_delete_ne; [done|]. by intros ->. }
  split_and!; [split|..]; cbn [mem_ hm_ min_heap_ brk_]; [| | | | |..|done|done].
  - eapply ids_ok_ext; [|exact Hok]. intros q Hq. unfold GetID. by rewrite !lookup_total_alt, Hold.
  - rewrite (loads_ext (mem_ lb)) by done. by apply ordered_loads.
  - intros q. split.
    + intros Hq. assert (q ∈ vec_ (min_heap_ lb)) as [id' Hid']%(inv_vec _ Hinv)
        by (rewrite Hperm; apply elem_of_cons; by right).
      exists id'. rewrite lookup_delete_ne; [done|]. intros <-. by simplify_eq.
    + intros [id' [Hne Hid']%lookup_delete_Some].
      assert (q ∈ vec_ (min_heap_ lb)) as Hq by (apply (inv_vec _ Hinv); eauto).
      rewrite Hperm, elem_of_cons in Hq. destruct Hq as [->|]; [|done].
      by destruct Hne; eapply hm_inj.
  - intros id' q [Hne Hq]%lookup_delete_Some. destruct (inv_mem _ Hinv _ _ Hq) as (si & E & ?).
    exists si. rewrite lookup_delete_ne; [done|]. intros <-. by destruct Hne; eapply hm_inj.
  - intros q [si [_ Hq]%lookup_delete_Some]. apply (inv_brk _ Hinv). by rewrite Hq.
  - apply map_eq. intros id'. unfold abs. cbn [mem_ hm_]. rewrite lookup_fmap.
    destruct (decide (id' = id)) as [->|]; [by rewrite !lookup_delete_eq|].
    rewrite !lookup_delete_ne, lookup_fmap by done. destruct (hm_ lb !! id') as [q|] eqn:Hq; [|done].
    simpl. rewrite !lookup_total_alt, lookup_delete_ne; [done|]. intros <-. by eapply hm_inj in Hq.
Qed.

(** ** The specification: a finite map of servers *)

Definition spec_update (m : gmap Z ServerInfo) (now id load : Z) : gmap Z ServerInfo * bool :=
  match m !! id with
  | None => (m, false)
  | Some si => (<[id := mkInfo id (si_addr si) load now]> m, true)
  end.

Definition spec_register (m : gmap Z ServerInfo) (now id : Z) (addr : string) (load : Z) :
    gmap Z ServerInfo * bool :=
  (<[id := mkInfo id addr load now]> m, true).

Definition spec_remove (m : gmap Z ServerInfo) (id : Z) : gmap Z ServerInfo * bool :=
  (delete id m, bool_decide (is_Some (m !! id))).

Lemma UpdateServerLoad_refines lb now id load :
  lb_inv lb → load_ok load →
  ∃ lb', UpdateServerLoad lb now id load = Ok (lb', (spec_update (abs lb) now id load).2)
    ∧ lb_inv lb' ∧ abs lb' = (spec_update (abs lb) now id load).1 ∧ stale lb' = stale lb.
Proof.
  intros Hinv Hl. unfold UpdateServerLoad, spec_update. destruct (hm_ lb !! id) as [p|] eqn:Hp.
  - destruct (inv_mem _ Hinv _ _ Hp) as (si & E & Hid & Hlsi).
    rewrite (proj2 (abs_lookup lb Hinv id si)) by eauto. unfold deref. rewrite E. cbn [mbind res_bind].
    rewrite int_sub_load by done. cbn [mbind res_bind].
    destruct (upsert_existing lb id p si (mkInfo (si_id si) (si_addr si) load now) (load - si_load si))
      as (h & -> & Hinv' & Hdom); [done..|]. cbn [mbind res_bind].
    eexists. split; [done|]. split_and!; [done| |unfold stale; cbn [min_heap_ hm_]; by rewrite Hdom].
    by rewrite (abs_write lb id), Hid.
  - rewrite (proj2 (abs_None lb id)) by done. by exists lb.
Qed.

Lemma RegisterServerInfo_refines lb now id addr load :
  lb_inv lb → load_ok load → id ∉ stale lb →
  ∃ lb', RegisterServerInfo lb now id addr load = Ok (lb', (spec_register (abs lb) now id addr load).2)
    ∧ lb_inv lb' ∧ abs lb' = (spec_register (abs lb) now id addr load).1 ∧ stale lb' = stale lb.
Proof.
  intros Hinv Hl Hst. unfold RegisterServerInfo, spec_register. destruct (hm_ lb !! id) as [p|] eqn:Hp.
  - destruct (inv_mem _ Hinv _ _ Hp) as (si & E & Hid & Hlsi). unfold deref. rewrite E. cbn [mbind res_bind].
    rewrite int_sub_load by done. cbn [mbind res_bind].
    destruct (upsert_existing lb id p si (mkInfo (si_id si) addr load now) (load - si_load si))
      as (h & -> & Hinv' & Hdom); [done..|]. cbn [mbind res_bind].
    eexists. split; [done|]. split_and!; [done| |unfold stale; cbn [min_heap_ hm_]; by rewrite Hdom].
    by rewrite (abs_write lb id), Hid.
  - destruct (upsert_new lb id (mkInfo id addr load now)) as (h & -> & Hinv' & Habs & Hs); [done..|].
    cbn [mbind res_bind]. eauto.
Qed.

Lemma AnyRemove_lb lb id p :
  lb_inv lb → hm_ lb !! id = Some p →
  ∃ h, AnyRemove (SrvInfoComp (mem_ lb)) (GetID (mem_ lb)) (min_heap_ lb) id = Ok h
    ∧ let lb' := hm_erase (with_heap lb h) id in
      lb_inv lb' ∧ abs lb' = delete id (abs lb) ∧ stale lb' ⊆ {[id]} ∪ stale lb
      ∧ hm_ lb' = delete id (hm_ lb).
Proof.
  intros Hinv Hp. destruct (hm_position lb Hinv id p Hp) as (k & Hk & Hgid & Hidx).
  destruct (AnyRemove_spec (SrvInfoComp (mem_ lb)) (GetID (mem_ lb)) (min_heap_ lb) k p id)
    as (h & E & Hok & Hord & Hperm & Hdom); [apply Hinv|by apply ordered_loads, Hinv|done..|].
  exists h. split; [done|]. cbn zeta.
  destruct (erase_inv lb id p h) as (? & ? & Hh & Hhm); [done..|]. split_and!; [done..| |done].
  assert (Hsub : dom (idx_ h) ⊆ dom (idx_ (min_heap_ lb))).
  { case_decide; rewrite Hdom; [done | apply subseteq_difference_l, reflexivity]. }
  unfold stale. rewrite Hh, Hhm, dom_delete_L. clear -Hsub. intros x Hx.
  destruct (decide (x = id)); set_solver.
Qed.

Lemma RemoveServer_refines lb id :
  lb_inv lb →
  ∃ lb', RemoveServer lb id = Ok (lb', (spec_remove (abs lb) id).2)
    ∧ lb_inv lb' ∧ abs lb' = (spec_remove (abs lb) id).1
    ∧ stale lb' ⊆ (dom (abs lb) ∖ dom (abs lb')) ∪ stale lb.
Proof.
  intros Hinv. unfold RemoveServer, spec_remove. destruct (hm_ lb !! id) as [p|] eqn:Hp.
  - destruct (AnyRemove_lb lb id p Hinv Hp) as (h & -> & Hinv' & Habs & Hst & _). cbn [mbind res_bind].
    eexists. split; [|split_and!; [done..|]].
    + rewrite bool_decide_true; [done|]. unfold abs. by rewrite lookup_fmap, Hp.
    + rewrite Habs, dom_delete_L, dom_abs. apply elem_of_dom_2 in Hp. set_solver.
  - exists lb. apply abs_None in Hp. cbn [fst snd]. rewrite bool_decide_false by (rewrite Hp; by intros []).
    rewrite delete_id by done. split_and!; [done..|]. set_solver.
Qed.

(** ** Operations with a loop *)

Lemma expired_ltb now si :
  (u64 (now - si_last_ts si) <? SERVER_TIMEOUT) = negb (expired now si).
Proof. unfold expired. by rewrite Z.leb_antisym, negb_involutive. Qed.

(** What a query may return on the servers [m] that are left. *)
Definition min_result (clk : nat → Z) (m : gmap Z ServerInfo) (r : option ServerInfo) : Prop :=
  match r with
  | Some si => m !! si_id si = Some si ∧ (∃ i, expired (clk i) si = false)
      ∧ ∀ id si', m !! id = Some si' → si_load si <= si_load si'
  | None => m = ∅
  end.

(** [m'] is [m] without some servers that had expired. *)
Definition purged (clk : nat → Z) (m m' : gmap Z ServerInfo) : Prop :=
  m' ⊆ m ∧ ∀ id si, m !! id = Some si → m' !! id = None → ∃ i, expired (clk i) si = true.

Lemma abs_empty lb : lb_inv lb → vec_ (min_heap_ lb) = [] → abs lb = ∅.
Proof.
  intros Hinv Hv. apply map_empty. intros id. apply abs_None.
  destruct (hm_ lb !! id) as [p|] eqn:Hp; [|done].
  assert (p ∈ vec_ (min_heap_ lb)) as Hin by (apply (inv_vec _ Hinv); eauto).
  rewrite Hv in Hin. by apply elem_of_nil in Hin.
Qed.

(** The front of the heap is a server of minimal load. *)
Lemma front_minimal lb p v si :
  lb_inv lb → vec_ (min_heap_ lb) = p :: v → mem_ lb !! p = Some si →
  ∀ id si', abs lb !! id = Some si' → si_load si <= si_load si'.
Proof.
  intros Hinv Hv E id si' (q & Hq & E')%abs_lookup; [|done].
  assert (Hle : SrvInfoComp (mem_ lb) p q = false).
  { apply (ordered_front (SrvInfoComp (mem_ lb)) (vec_ (min_heap_ lb))).
    - by apply ordered_loads, Hinv.
    - by rewrite Hv.
    - apply (inv_vec _ Hinv). eauto. }
  unfold SrvInfoComp in Hle. rewrite !lookup_total_alt, E, E' in Hle. cbn in Hle.
  rewrite Z.gtb_ltb in Hle. by apply Z.ltb_ge in Hle.
Qed.

Lemma Remove_lb lb p v si :
  lb_inv lb → vec_ (min_heap_ lb) = p :: v → mem_ lb !! p = Some si →
  ∃ h, Remove (SrvInfoComp (mem_ lb)) (GetID (mem_ lb)) (min_heap_ lb) = Ok h
    ∧ length (vec_ h) = length v
    ∧ let lb' := hm_erase (with_heap lb h) (si_id si) in
      lb_inv lb' ∧ abs lb' = delete (si_id si) (abs lb) ∧ stale lb' = stale lb ∧ min_heap_ lb' = h.
Proof.
  intros Hinv Hv E.
  destruct (vec_live lb Hinv p) as (si' & E' & Hp & _); [rewrite Hv; apply elem_of_cons; by left|].
  simplify_eq.
  destruct (Remove_spec (SrvInfoComp (mem_ lb)) (GetID (mem_ lb)) (min_heap_ lb) p v)
    as (h & Er & Hok & Hord & Hperm & Hdom); [apply Hinv|by apply ordered_loads, Hinv|done|].
  exists h. split; [done|]. split; [by rewrite Hv in Hperm; apply Permutation_length in Hperm; simpl in Hperm; lia|].
  cbn zeta. destruct (erase_inv lb (si_id si) p h) as (? & ? & Hh & Hhm); [done..|]. split_and!; [done..| |done].
  unfold stale. rewrite Hh, Hhm, Hdom, dom_delete_L.
  replace (GetID (mem_ lb) p) with (si_id si) by (unfold GetID; by rewrite lookup_total_alt, E).
  apply elem_of_dom_2 in Hp. clear -Hp. apply set_eq. intros x. destruct (decide (x = si_id si)); set_solver.
Qed.

Lemma GetMinimal_loop_spec fuel clk n lb b :
  lb_inv lb → (length (vec_ (min_heap_ lb)) < fuel)%nat →
  ∃ lb' r upd, GetMinimal_loop fuel clk n lb b = Ok (lb', r, upd) ∧ lb_inv lb' ∧ stale lb' = stale lb
    ∧ purged clk (abs lb) (abs lb') ∧ upd = b || bool_decide (abs lb' ≠ abs lb)
    ∧ min_result clk (abs lb') r.
Proof.
  revert n lb b; induction fuel as [|fuel IH]; intros n lb b Hinv Hf; [lia|].
  assert (Hrefl : purged clk (abs lb) (abs lb)) by (split; [done|intros; congruence]).
  assert (Hb : b = b || bool_decide (abs lb ≠ abs lb))
    by (by rewrite bool_decide_false by auto; rewrite orb_false_r).
  cbn [GetMinimal_loop]. unfold Empty, Get. destruct (vec_ (min_heap_ lb)) as [|p v] eqn:Hv.
  { exists lb, None, b. split_and!; [done..|]. by apply abs_empty. }
  cbn [length Nat.eqb mbind res_bind].
  destruct (vec_live lb Hinv p) as (si & E & Hp & Hl); [rewrite Hv; apply elem_of_cons; by left|].
  assert (Ha : abs lb !! si_id si = Some si) by (apply abs_lookup; eauto).
  unfold deref. rewrite E. cbn [mbind res_bind]. rewrite expired_ltb.
  destruct (expired (clk n) si) eqn:Hexp; cbn [negb].
  - destruct (Remove_lb lb p v si Hinv Hv E) as (h & -> & Hlen & Hinv1 & Habs1 & Hst1 & Hh1).
    cbn [mbind res_bind].
    destruct (IH (S n) (hm_erase (with_heap lb h) (si_id si)) true Hinv1)
      as (lb' & r & upd & -> & Hinv' & Hst' & [Hsub Hex] & Hupd & Hmin).
    { rewrite Hh1, Hlen. simpl in Hf. lia. }
    rewrite Habs1 in Hsub, Hex, Hupd. exists lb', r, upd. split_and!; [done|done|congruence| | |done].
    + split; [etrans; [exact Hsub|apply delete_subseteq]|]. intros id si0 H0 Hn.
      destruct (decide (id = si_id si)) as [->|]; [exists n; congruence|].
      eapply Hex; [|exact Hn]. by rewrite lookup_delete_ne.
    + rewrite Hupd. cbn [orb]. symmetry. rewrite bool_decide_true; [apply orb_true_r|]. intros Heq.
      rewrite Heq in Hsub. pose proof (lookup_weaken _ _ _ _ Ha Hsub) as Hd.
      by rewrite lookup_delete_eq in Hd.
  - exists lb, (Some si), b. split_and!; [done..|]. split_and!; [done|eauto|]. by eapply front_minimal.
Qed.

Lemma hm_value_abs lb id si : lb_inv lb → abs lb !! id = Some si → hm_value lb id = Ok si.
Proof.
  intros Hinv (p & Hp & E)%abs_lookup; [|done]. unfold hm_value, deref. by rewrite Hp, E.
Qed.

Lemma CheckTTL_loop_spec order clk n lb removed :
  lb_inv lb → NoDup order → (∀ id, id ∈ order → is_Some (abs lb !! id)) →
  0 <= removed → removed + Z.of_nat (length order) < 2 ^ 32 →
  ∃ lb' r, CheckTTL_loop order clk n lb removed = Ok (lb', r) ∧ lb_inv lb'
    ∧ r = removed + (Z.of_nat (size (abs lb)) - Z.of_nat (size (abs lb')))
    ∧ (∀ id, id ∉ order → abs lb' !! id = abs lb !! id)
    ∧ (∀ i id si, order !! i = Some id → abs lb !! id = Some si →
         abs lb' !! id = if expired (clk (n + i)%nat) si then None else Some si)
    ∧ stale lb' ⊆ list_to_set order ∪ stale lb.
Proof.
  revert n lb removed; induction order as [|id order IH]; intros n lb removed Hinv Hnd Hdom H0 Hlen.
  { exists lb, removed. split_and!; [done|done|lia|done|done|set_solver]. }
  inversion_clear Hnd as [|? ? Hnotin Hnd']. cbn [CheckTTL_loop length] in *.
  destruct (Hdom id) as [si Hsi]; [apply elem_of_cons; by left|].
  rewrite (hm_value_abs lb id si) by done. cbn [mbind res_bind].
  assert (Htl : ∀ m : gmap Z ServerInfo, (∀ id', id' ≠ id → m !! id' = abs lb !! id') →
    ∀ id', id' ∈ order → is_Some (m !! id')).
  { intros m Hm id' Hid'. rewrite Hm by (by intros ->). apply Hdom, elem_of_cons. by right. }
  assert (Hne : ∀ i id', order !! i = Some id' → id' ≠ id)
    by (intros i id' Hi%list_elem_of_lookup_2 ->; done).
  destruct (expired (clk n) si) eqn:Hexp.
  - pose proof (abs_id lb Hinv id si Hsi) as Hid. rewrite Hid.
    apply abs_lookup in Hsi as (p & Hp & Ep); [|done].
    destruct (AnyRemove_lb lb id p Hinv Hp) as (h & -> & Hinv1 & Habs1 & Hst1 & _). cbn [mbind res_bind].
    assert (Hsi : abs lb !! id = Some si) by (apply abs_lookup; eauto).
    rewrite u32_id by (unfold is_u32; lia).
    destruct (IH (S n) (hm_erase (with_heap lb h) id) (removed + 1)) as (lb' & r & -> & Hinv' & Hr & Hout & Hin & Hst');
      [done|done| |lia|lia|].
    { apply Htl. intros id' ?. by rewrite Habs1, lookup_delete_ne. }
    rewrite Habs1 in Hr, Hout, Hin.
    exists lb', r. split_and!; [done|done| | | |].
    + rewrite Hr. rewrite map_size_delete_Some by (by rewrite Hsi).
      assert (size (abs lb) ≠ 0%nat) by (intros Hz%map_size_empty_iff; rewrite Hz in Hsi; done). lia.
    + intros id' Hid'. rewrite Hout by (intros ?; by destruct Hid'; apply elem_of_cons; right).
      rewrite lookup_delete_ne; [done|]. intros ->. by destruct Hid'; apply elem_of_cons; left.
    + intros [|i] id' si' Hi Hs; simpl in Hi.
      * simplify_eq. rewrite Nat.add_0_r, Hexp, Hout by done. apply lookup_delete_eq.
      * rewrite (Hin i id' si'), Nat.add_succ_comm; [done|done|]. rewrite lookup_delete_ne; [done|].
        intros <-. by eapply Hne.
    + clear -Hst' Hst1. intros x Hx%Hst'. set_solver.
  - destruct (IH (S n) lb removed) as (lb' & r & -> & Hinv' & Hr & Hout & Hin & Hst');
      [done|done|by apply Htl|lia|lia|].
    exists lb', r. split_and!; [done|done|done| | |].
    + intros id' Hid'. apply Hout. intros ?. by destruct Hid'; apply elem_of_cons; right.
    + intros [|i] id' si' Hi Hs; simpl in Hi.
      * simplify_eq. by rewrite Nat.add_0_r, Hexp, Hout.
      * by rewrite (Hin i id' si'), Nat.add_succ_comm.
    + clear -Hst'. set_solver.
Qed.

Lemma CopyServerInfoList_Ok lb order :
  lb_inv lb → (∀ id, id ∈ order → is_Some (abs lb !! id)) →
  CopyServerInfoList lb order = Ok ((λ id, abs lb !!! id) <$> order).
Proof.
  intros Hinv. induction order as [|id order IH]; intros Hdom; [done|]. cbn [CopyServerInfoList].
  destruct (Hdom id) as [si Hsi]; [apply elem_of_cons; by left|].
  rewrite (hm_value_abs lb id si) by done. cbn [mbind res_bind].
  rewrite IH by (intros; apply Hdom, elem_of_cons; by right). cbn [mbind res_bind]. simpl.
  by rewrite (lookup_total_correct _ _ _ Hsi).
Qed.

(** ** Runs *)

(** The specification of one operation on the map of servers. *)
Inductive spec_step (m : gmap Z ServerInfo) : lb_op → gmap Z ServerInfo → Prop :=
  | spec_OUpdate now id load : spec_step m (OUpdate now id load) (spec_update m now id load).1
  | spec_ORegister now id addr load :
      spec_step m (ORegister now id addr load) (spec_register m now id addr load).1
  | spec_ORemove id : spec_step m (ORemove id) (spec_remove m id).1
  | spec_OGetMinimal clk m' : purged clk m m' → spec_step m (OGetMinimal clk) m'
  | spec_OCheckTTL order clk m' :
      (∀ i id si, order !! i = Some id → m !! id = Some si →
         m' !! id = if expired (clk i) si then None else Some si) →
      dom m' ⊆ dom m → spec_step m (OCheckTTL order clk) m'.

(** The iteration order of a map is an enumeration of its keys. *)
Definition enumerates (order : list Z) (m : gmap Z ServerInfo) : Prop := order ≡ₚ (map_to_list m).*1.

(** Operations a run may perform when the ids of [T] were removed before: loads fit an
    [int], an id of [T] is not registered again, iterations enumerate the map. *)
Definition allowed (m : gmap Z ServerInfo) (T : gset Z) (op : lb_op) : Prop :=
  match op with
  | OUpdate _ _ load => load_ok load
  | ORegister _ id _ load => load_ok load ∧ (id ∈ dom m ∨ id ∉ T)
  | ORemove _ | OGetMinimal _ => True
  | OCheckTTL order _ => enumerates order m ∧ Z.of_nat (size m) < 2 ^ 32
  end.

(** What an operation adds to the removed ids: [Remove] of the heap leaves no index entry. *)
Definition tombs (T : gset Z) (op : lb_op) (m m' : gmap Z ServerInfo) : gset Z :=
  match op with
  | ORemove _ | OCheckTTL _ _ => (dom m ∖ dom m') ∪ T
  | _ => T
  end.

Inductive lb_reach : LoadBalancer → gset Z → Prop :=
  | reach_init : lb_reach LoadBalancer_init ∅
  | reach_step lb T op lb' :
      lb_reach lb T → allowed (abs lb) T op → run_op lb op = Ok lb' →
      lb_reach lb' (tombs T op (abs lb) (abs lb')).

Lemma enumerates_spec order m :
  enumerates order m → NoDup order ∧ (∀ id, id ∈ order ↔ is_Some (m !! id)) ∧ length order = size m.
Proof.
  intros He. unfold enumerates in He. split_and!.
  - rewrite He. apply NoDup_fst_map_to_list.
  - intros id. rewrite He, list_elem_of_fmap. split.
    + intros ([k si] & -> & Hk%elem_of_map_to_list). eauto.
    + intros [si Hsi]. exists (id, si). split; [done|]. by apply elem_of_map_to_list.
  - by rewrite He, length_fmap, length_map_to_list.
Qed.

Lemma CheckTTL_spec lb order clk :
  lb_inv lb → enumerates order (abs lb) → Z.of_nat (size (abs lb)) < 2 ^ 32 →
  ∃ lb' r, CheckTTL lb order clk = Ok (lb', r) ∧ lb_inv lb'
    ∧ r = Z.of_nat (size (abs lb)) - Z.of_nat (size (abs lb'))
    ∧ dom (abs lb') ⊆ dom (abs lb)
    ∧ (∀ i id si, order !! i = Some id → abs lb !! id = Some si →
         abs lb' !! id = if expired (clk i) si then None else Some si)
    ∧ stale lb' ⊆ (dom (abs lb) ∖ dom (abs lb')) ∪ stale lb.
Proof.
  intros Hinv (Hnd & Hin & Hlen)%enumerates_spec Hsz.
  destruct (CheckTTL_loop_spec order clk 0 lb 0) as (lb' & r & E & Hinv' & Hr & Hout & Hp & Hst);
    [done|done|intros id; apply Hin|lia|rewrite Hlen; lia|].
  exists lb', r. split_and!; [done|done|lia| |done|].
  - intros id Hid. apply elem_of_dom. apply elem_of_dom in Hid. apply Hin.
    destruct (decide (id ∈ order)) as [|Hn]; [done|]. rewrite Hout in Hid by done. by apply Hin.
  - intros id Hid. destruct (decide (id ∈ stale lb)) as [|Hns]; [set_solver|].
    apply elem_of_union_l, elem_of_difference. split.
    + apply elem_of_dom, Hin. apply Hst, elem_of_union in Hid as [?%elem_of_list_to_set|]; done.
    + rewrite dom_abs. unfold stale in Hid. set_solver.
Qed.

Lemma run_op_refines lb T op :
  lb_inv lb → stale lb ⊆ T → allowed (abs lb) T op →
  ∃ lb', run_op lb op = Ok lb' ∧ lb_inv lb' ∧ spec_step (abs lb) op (abs lb')
    ∧ stale lb' ⊆ tombs T op (abs lb) (abs lb').
Proof.
  intros Hinv HT Hal. destruct op as [now id load|now id addr load|id|clk|order clk];
    cbn [run_op allowed tombs] in *.
  - destruct (UpdateServerLoad_refines lb now id load Hinv Hal) as (lb' & -> & Hinv' & Habs & Hst).
    exists lb'. rewrite Habs, Hst. split_and!; [done..|constructor|done].
  - destruct Hal as [Hl Hid].
    destruct (RegisterServerInfo_refines lb now id addr load Hinv Hl) as (lb' & -> & Hinv' & Habs & Hst).
    { rewrite dom_abs in Hid. unfold stale in *. set_solver. }
    exists lb'. rewrite Habs, Hst. split_and!; [done..|constructor|done].
  - destruct (RemoveServer_refines lb id Hinv) as (lb' & -> & Hinv' & Habs & Hst).
    exists lb'. split_and!; [done..|rewrite Habs; constructor|].
    set_solver.
  - destruct (GetMinimal_loop_spec (S (Size (min_heap_ lb))) clk 0 lb false)
      as (lb' & r & upd & E & Hinv' & Hst & Hpur & _ & _); [done|unfold Size; lia|].
    unfold GetMinimalLoadServerInfo. rewrite E. exists lb'. rewrite Hst. split_and!; [done..|by constructor|done].
  - destruct Hal as [He Hsz]. destruct (CheckTTL_spec lb order clk Hinv He Hsz)
      as (lb' & r & -> & Hinv' & _ & Hdom & Hp & Hst).
    exists lb'. split_and!; [done..|by constructor|set_solver].
Qed.

Lemma lb_reach_inv lb T : lb_reach lb T → lb_inv lb ∧ stale lb ⊆ T.
Proof.
  induction 1 as [|lb T op lb' _ [Hinv HT] Hal Hrun]; [split; [apply lb_inv_init|set_solver]|].
  destruct (run_op_refines lb T op Hinv HT Hal) as (lb'' & E & ? & _ & ?). rewrite Hrun in E.
  by simplify_eq.
Qed.

(** A run of allowed operations is a path of [lb_reach]. *)
Lemma lb_reach_next lb T op :
  lb_reach lb T → allowed (abs lb) T op →
  ∃ lb', run_op lb op = Ok lb' ∧ lb_reach lb' (tombs T op (abs lb) (abs lb')).
Proof.
  intros Hr Hal. destruct (lb_reach_inv _ _ Hr) as [Hinv HT].
  destruct (run_op_refines lb T op Hinv HT Hal) as (lb' & E & _). eauto using reach_step.
Qed.

(** ** Theorems *)

(** C3. Refinement: from the empty balancer, every operation of a run that stays within
    [allowed] returns (no undefined behaviour, no exception, every loop ends), keeps the
    invariant, and changes the map of servers exactly as the map specification says. *)
Theorem balancer_refines_map lb T op :
  lb_reach lb T → allowed (abs lb) T op →
  ∃ lb', run_op lb op = Ok lb' ∧ lb_inv lb' ∧ spec_step (abs lb) op (abs lb').
Proof.
  intros [Hinv HT]%lb_reach_inv Hal.
  destruct (run_op_refines lb T op Hinv HT Hal) as (lb' & ? & ? & ? & _). eauto.
Qed.

(** A balancer with three servers, reached by registrations. *)
Definition demo_ops : list lb_op :=
  [ORegister 0 1 "a" 10; ORegister 0 2 "b" 20; ORegister 5 3 "c" 15].

Definition demo_lb : LoadBalancer :=
  match run_ops LoadBalancer_init demo_ops with Ok lb => lb | _ => LoadBalancer_init end.

(** Registrations alone leave no index entry behind. *)
Lemma lb_reach_registers ops lb lb' :
  Forall (λ op, match op with ORegister _ _ _ load => load_ok load | _ => False end) ops →
  lb_reach lb ∅ → run_ops lb ops = Ok lb' → lb_reach lb' ∅.
Proof.
  intros Hops. revert lb. induction Hops as [|op ops Hop _ IH]; intros lb Hr E; cbn [run_ops] in E; inv_res; [done|].
  destruct op as [|now id addr load| | |]; try done.
  eapply IH, Hk. apply (reach_step lb ∅ (ORegister now id addr load) _ Hr); [|done].
  split; [done|right; set_solver].
Qed.

Lemma demo_reach : lb_reach demo_lb ∅.
Proof.
  apply (lb_reach_registers demo_ops LoadBalancer_init); [|constructor|vm_compute; reflexivity].
  unfold demo_ops. do 3 (constructor; [done|]). constructor.
Qed.

Lemma balancer_refines_map_witness :
  ∃ lb', run_op demo_lb (OUpdate 7 1 30) = Ok lb' ∧ lb_inv lb'
    ∧ spec_step (abs demo_lb) (OUpdate 7 1 30) (abs lb').
Proof. apply (balancer_refines_map demo_lb ∅); [apply demo_reach | done]. Defined.

(** The three operations on one server return what they promise: [UpdateServerLoad]
    and [RemoveServer] say whether the server is known, [RegisterServerInfo] is always
    [true], and the description read back afterwards is the one written. *)
Theorem balancer_returns lb T now id addr load :
  lb_reach lb T → load_ok load →
  (∃ lb', UpdateServerLoad lb now id load = Ok (lb', bool_decide (id ∈ dom (abs lb)))
     ∧ abs lb' !! id = (λ si, mkInfo id (si_addr si) load now) <$> abs lb !! id) ∧
  (id ∉ T →
     ∃ lb', RegisterServerInfo lb now id addr load = Ok (lb', true)
       ∧ abs lb' !! id = Some (mkInfo id addr load now)) ∧
  (∃ lb', RemoveServer lb id = Ok (lb', bool_decide (id ∈ dom (abs lb))) ∧ abs lb' !! id = None).
Proof.
  intros [Hinv HT]%lb_reach_inv Hl. split_and!.
  - destruct (UpdateServerLoad_refines lb now id load Hinv Hl) as (lb' & -> & _ & Habs & _).
    exists lb'. rewrite Habs. unfold spec_update. destruct (abs lb !! id) as [si|] eqn:E; cbn [fst snd].
    + rewrite bool_decide_true by (by eapply elem_of_dom_2). by rewrite lookup_insert_eq.
    + rewrite bool_decide_false by (by apply not_elem_of_dom). by rewrite E.
  - intros Hid. destruct (RegisterServerInfo_refines lb now id addr load Hinv Hl) as (lb' & -> & _ & Habs & _);
      [set_solver|].
    exists lb'. rewrite Habs. unfold spec_register. cbn [fst snd]. by rewrite lookup_insert_eq.
  - destruct (RemoveServer_refines lb id Hinv) as (lb' & -> & _ & Habs & _).
    exists lb'. rewrite Habs. cbn [spec_remove fst snd]. rewrite lookup_delete_eq. split; [|done].
    do 2 f_equal. apply bool_decide_ext. by rewrite elem_of_dom.
Qed.

Lemma balancer_returns_witness :
  (∃ lb', UpdateServerLoad demo_lb 9 2 1 = Ok (lb', bool_decide (2 ∈ dom (abs demo_lb)))
     ∧ abs lb' !! 2 = (λ si, mkInfo 2 (si_addr si) 1 9) <$> abs demo_lb !! 2) ∧
  (2 ∉ (∅ : gset Z) →
     ∃ lb', RegisterServerInfo demo_lb 9 2 "b2" 1 = Ok (lb', true)
       ∧ abs lb' !! 2 = Some (mkInfo 2 "b2" 1 9)) ∧
  (∃ lb', RemoveServer demo_lb 2 = Ok (lb', bool_decide (2 ∈ dom (abs demo_lb))) ∧ abs lb' !! 2 = None).
Proof. apply (balancer_returns demo_lb ∅ 9 2 "b2" 1); [apply demo_reach | done]. Defined.

(** C15. [GetMinimalLoadServerInfo] terminates; the server it returns is registered, had not
    expired when it was read, and no server left has a smaller load; it returns none only
    if no server is left; it drops only expired servers, and [updated] says exactly
    whether it dropped one. *)
Theorem GetMinimalLoadServerInfo_correct lb T clk :
  lb_reach lb T →
  ∃ lb' r updated, GetMinimalLoadServerInfo lb clk = Ok (lb', r, updated)
    ∧ purged clk (abs lb) (abs lb')
    ∧ min_result clk (abs lb') r
    ∧ updated = bool_decide (abs lb' ≠ abs lb).
Proof.
  intros [Hinv _]%lb_reach_inv.
  destruct (GetMinimal_loop_spec (S (Size (min_heap_ lb))) clk 0 lb false)
    as (lb' & r & upd & E & _ & _ & Hp & Hu & Hm); [done|unfold Size; lia|].
  exists lb', r, upd. by split_and!.
Qed.

Lemma GetMinimalLoadServerInfo_correct_witness :
  ∃ lb' r updated, GetMinimalLoadServerInfo demo_lb (λ _, 40003) = Ok (lb', r, updated)
    ∧ purged (λ _, 40003) (abs demo_lb) (abs lb')
    ∧ min_result (λ _, 40003) (abs lb') r
    ∧ updated = bool_decide (abs lb' ≠ abs demo_lb).
Proof. apply (GetMinimalLoadServerInfo_correct demo_lb ∅), demo_reach. Defined.

(** [CheckTTL] terminates, removes exactly the servers that had expired at the clock
    reading made for them, keeps the others unchanged, and returns how many it removed. *)
Theorem CheckTTL_correct lb T order clk :
  lb_reach lb T → enumerates order (abs lb) → Z.of_nat (size (abs lb)) < 2 ^ 32 →
  ∃ lb' removed, CheckTTL lb order clk = Ok (lb', removed)
    ∧ (∀ i id si, order !! i = Some id → abs lb !! id = Some si →
         abs lb' !! id = if expired (clk i) si then None else Some si)
    ∧ dom (abs lb') ⊆ dom (abs lb)
    ∧ removed = Z.of_nat (size (abs lb)) - Z.of_nat (size (abs lb')).
Proof.
  intros [Hinv _]%lb_reach_inv He Hsz.
  destruct (CheckTTL_spec lb order clk Hinv He Hsz) as (lb' & r & E & _ & Hr & Hd & Hp & _).
  exists lb', r. by split_and!.
Qed.

Lemma CheckTTL_correct_witness :
  ∃ lb' removed, CheckTTL demo_lb [3; 2; 1] (λ _, 40002) = Ok (lb', removed)
    ∧ (∀ i id si, [3; 2; 1] !! i = Some id → abs demo_lb !! id = Some si →
         abs lb' !! id = if expired 40002 si then None else Some si)
    ∧ dom (abs lb') ⊆ dom (abs demo_lb)
    ∧ removed = Z.of_nat (size (abs demo_lb)) - Z.of_nat (size (abs lb')).
Proof.
  apply (CheckTTL_correct demo_lb ∅ [3; 2; 1] (λ _, 40002)); [apply demo_reach| |by vm_compute].
  unfold enumerates. apply (bool_decide_unpack _). vm_compute. exact I.
Defined.

(** The index entry that [AnyRemove] leaves for the last heap element makes the next
    registration of that id undefined: with at least two servers registered, removing the
    one in the last heap slot succeeds, and registering it again writes [vec_] out of
    bounds. *)
Theorem reregister_last_removed_UB lb T p id :
  lb_reach lb T → hm_ lb !! id = Some p → (2 <= length (vec_ (min_heap_ lb)))%nat →
  vec_ (min_heap_ lb) !! (length (vec_ (min_heap_ lb)) - 1)%nat = Some p →
  ∃ lb', RemoveServer lb id = Ok (lb', true)
    ∧ ∀ now addr load, RegisterServerInfo lb' now id addr load = UB out_of_bounds.
Proof.
  intros [Hinv _]%lb_reach_inv Hp Hlen Hlast.
  destruct (hm_position lb Hinv id p Hp) as (k & Hk & Hgid & Hidx).
  assert (Hkl : k = (length (vec_ (min_heap_ lb)) - 1)%nat)
    by (eapply (ids_ok_inj (GetID (mem_ lb))); [apply Hinv|done..]).
  destruct (AnyRemove_spec (SrvInfoComp (mem_ lb)) (GetID (mem_ lb)) (min_heap_ lb) k p id)
    as (h & E & Hok & Hord & Hperm & Hdom); [apply Hinv|by apply ordered_loads, Hinv|done..|].
  rewrite decide_True in Hdom by lia. unfold RemoveServer. rewrite Hp, E. cbn [mbind res_bind].
  eexists. split; [done|]. intros now addr load. unfold hm_erase, with_heap. cbn [hm_]. rewrite Hp.
  unfold RegisterServerInfo, heap_upsert, InsertOrUpdate. cbn [hm_ min_heap_]. rewrite lookup_delete_eq, Hdom, Hidx.
  apply Permutation_length in Hperm. cbn [length] in Hperm.
  rewrite (proj2 (Nat.ltb_ge _ _)); [done|lia].
Qed.

Lemma reregister_last_removed_UB_witness :
  ∃ lb', RemoveServer demo_lb 3 = Ok (lb', true)
    ∧ ∀ now addr load, RegisterServerInfo lb' now 3 addr load = UB out_of_bounds.
Proof.
  apply (reregister_last_removed_UB demo_lb ∅ 2 3); [apply demo_reach|reflexivity|vm_compute; lia|reflexivity].
Defined.

(** Loads from 2^31 on reverse the hint, since both loads are converted to [int] before
    they are subtracted: after server 1 grows from 10 to 3,000,000,000 it still sits at
    the top of the heap and is returned although server 2 has load 20. *)
Theorem large_load_misplaced :
  ∃ lb, run_ops LoadBalancer_init
      [ORegister 0 1 "a" 10; ORegister 0 2 "b" 20; OUpdate 1 1 3000000000] = Ok lb
    ∧ abs lb !! 2 = Some (mkInfo 2 "b" 20 0)
    ∧ GetMinimalLoadServerInfo lb (λ _, 2) = Ok (lb, Some (mkInfo 1 "a" 3000000000 1), false).
Proof. eexists. split; [vm_compute; reflexivity|]. split; vm_compute; reflexivity. Qed.
