(* ===== verification/Clock.v ===== *)
(** * The monotonic clock in milliseconds (src/src/include/utils/util_func.hpp)

    [GetTimestampMs] reads [CLOCK_MONOTONIC]; the reading is an argument.  The theorem says
    what the 64-bit difference of two readings, which decides whether a server has expired,
    means in real time. *)

From S2P Require Import Prelude MinHeap LoadBalancer.

Record timespec := mkTimespec { tv_sec : Z; tv_nsec : Z }.

(** [tv_nsec / 1000000] is a division of [long]s; the sum and the product are [uint64_t] *)
Definition GetTimestampMs (ts : timespec) : Z :=
  u64 (u64 (u64 (tv_sec ts) * 1000) + u64 (Z.quot (tv_nsec ts) 1000000)).

(** What the kernel returns, for the first 2^50 seconds after boot *)
Definition timespec_ok (ts : timespec) : Prop := 0 <= tv_sec ts < 2 ^ 50 ∧ 0 <= tv_nsec ts < 1000000000.

Definition nanos (ts : timespec) : Z := tv_sec ts * 1000000000 + tv_nsec ts.

Lemma GetTimestampMs_floor ts :
  timespec_ok ts → GetTimestampMs ts = nanos ts / 1000000 ∧ is_u64 (GetTimestampMs ts).
Proof.
  intros [Hs Hn]. unfold GetTimestampMs, nanos. rewrite Z.quot_div_nonneg by lia.
  assert (Hq : 0 <= tv_nsec ts / 1000000 < 1000)
    by (split; [apply Z.div_pos|apply Z.div_lt_upper_bound]; lia).
  rewrite (u64_id (tv_sec ts)) by (unfold is_u64; lia). rewrite (u64_id (tv_sec ts * 1000)) by (unfold is_u64; lia).
  rewrite (u64_id (tv_nsec ts / 1000000)) by (unfold is_u64; lia). rewrite u64_id by (unfold is_u64; lia).
  replace (tv_sec ts * 1000000000 + tv_nsec ts) with (tv_nsec ts + (tv_sec ts * 1000) * 1000000) by lia.
  rewrite Z.div_add by lia. unfold is_u64. lia.
Qed.

(** The time of life of a server in real time: a server last heard of at [t1] is taken for
    expired at [t2 >= t1] once 40 s have passed, and is not while a millisecond is missing
    from that; the subtraction of the two readings never wraps. *)
Theorem expiry_in_real_time t1 t2 si :
  timespec_ok t1 → timespec_ok t2 → nanos t1 <= nanos t2 → si_last_ts si = GetTimestampMs t1 →
  (SERVER_TIMEOUT * 1000000 <= nanos t2 - nanos t1 → expired (GetTimestampMs t2) si = true)
  ∧ (nanos t2 - nanos t1 <= (SERVER_TIMEOUT - 1) * 1000000 → expired (GetTimestampMs t2) si = false).
Proof.
  intros H1 H2 Hle Hsi. destruct (GetTimestampMs_floor t1 H1) as [E1 B1]. destruct (GetTimestampMs_floor t2 H2) as [E2 B2].
  unfold expired. rewrite Hsi. unfold is_u64 in *.
  pose proof (Z.div_le_mono _ _ 1000000 ltac:(lia) Hle). rewrite u64_id by (unfold is_u64; lia). rewrite E1, E2.
  pose proof (Z_div_mod_eq_full (nanos t1) 1000000). pose proof (Z.mod_pos_bound (nanos t1) 1000000 ltac:(lia)).
  pose proof (Z_div_mod_eq_full (nanos t2) 1000000). pose proof (Z.mod_pos_bound (nanos t2) 1000000 ltac:(lia)).
  split; intros H'; [apply Z.leb_le|apply Z.leb_gt]; lia.
Qed.

Lemma expiry_in_real_time_witness :
  expired (GetTimestampMs (mkTimespec 50 7)) (mkInfo 1 "a" 0 (GetTimestampMs (mkTimespec 10 7))) = true.
Proof.
  apply (expiry_in_real_time (mkTimespec 10 7) (mkTimespec 50 7) (mkInfo 1 "a" 0 (GetTimestampMs (mkTimespec 10 7))));
    [split; cbn; lia|split; cbn; lia|unfold nanos; cbn; lia|reflexivity|vm_compute; discriminate].
Defined.
