(* ===== verification/Random.v ===== *)
(** * Random numbers (src/src/include/utils/util_func.hpp)

    [RandomUInt64Generator] keeps a [std::random_device], a [std::mt19937] seeded from it and a
    distribution in static variables.  The engine is written out from its definition in the
    C++ standard; the standard leaves the algorithm of [uniform_int_distribution] open, so
    that the distribution is an argument, with what is specified of it.  The distribution of
    libstdc++ over the full range is an instance. *)

From S2P Require Import Prelude.

(** ** [std::mt19937] *)

Definition mt_n : nat := 624.
Definition mt_m : nat := 397.

(** The last 624 words of the sequence, oldest first *)
Abbreviation mt19937 := (list Z) (only parsing).

(** The seeding recurrence, from word [i] on *)
Fixpoint seed_words (fuel : nat) (i x : Z) : list Z :=
  match fuel with
  | O => []
  | S fuel' => x :: seed_words fuel' (i + 1) (u32 (1812433253 * Z.lxor x (Z.shiftr x 30) + (i + 1)))
  end.

Definition mt_seed (value : Z) : mt19937 := seed_words mt_n 0 (u32 value).

(** The next word of the sequence *)
Definition mt_word (x0 x1 xm : Z) : Z :=
  let y := Z.lor (Z.land x0 0x80000000) (Z.land x1 0x7FFFFFFF) in
  Z.lxor xm (Z.lxor (Z.shiftr y 1) (if Z.testbit y 0 then 0x9908B0DF else 0)).

Definition temper (x : Z) : Z :=
  let z := Z.lxor x (Z.land (Z.shiftr x 11) 0xFFFFFFFF) in
  let z := Z.lxor z (Z.land (u32 (Z.shiftl z 7)) 0x9D2C5680) in
  let z := Z.lxor z (Z.land (u32 (Z.shiftl z 15)) 0xEFC60000) in
  Z.lxor z (Z.shiftr z 18).

(** [mt()]: the window moves by one word, which is tempered *)
Definition mt_next (mt : mt19937) : Z * mt19937 :=
  match mt with
  | x0 :: rest =>
      let x := mt_word x0 (default 0 (rest !! 0%nat)) (default 0 (mt !! mt_m)) in
      (temper x, rest ++ [x])
  | [] => (0, [])
  end.

Fixpoint mt_discard (k : nat) (mt : mt19937) : mt19937 :=
  match k with O => mt | S k' => mt_discard k' (mt_next mt).2 end.

(** The value the standard requires of the ten-thousandth number of the default engine *)
Example mt_ten_thousandth : (mt_next (mt_discard 9999 (mt_seed 5489))).1 = 4123659995.
Proof. vm_compute. reflexivity. Qed.

(** ** [RandomUInt64Generator] *)

(** [dist(0, UINT64_MAX)]: a number of the range, and the engine moved on *)
Class Dist64 := {
  dist : mt19937 → Z * mt19937;
  dist_range mt : length mt = mt_n → Forall is_u32 mt → is_u64 (dist mt).1;
  dist_engine mt : ∃ k, (dist mt).2 = mt_discard k mt
}.

Section random.
Context `{!Dist64}.

(** The statics are made by the first call, which alone reads [rd()]; [mt] is their engine *)
Definition RandomUInt64Generator (rd : Z) (mt : option mt19937) : Z * option mt19937 :=
  let r := dist (match mt with Some mt => mt | None => mt_seed rd end) in
  (r.1, Some r.2).

(** Calls with the readings the device would give *)
Fixpoint random_calls (rds : list Z) (mt : option mt19937) : list Z :=
  match rds with
  | [] => []
  | rd :: rds' => let r := RandomUInt64Generator rd mt in r.1 :: random_calls rds' r.2
  end.
End random.

(** ** Lemmas *)

Lemma u32_lxor x y : is_u32 x → is_u32 y → is_u32 (Z.lxor x y).
Proof.
  unfold is_u32. intros Hx Hy. assert (0 <= Z.lxor x y) by (apply Z.lxor_nonneg; lia). split; [done|].
  destruct (Z.eq_dec (Z.lxor x y) 0) as [->|]; [done|]. apply Z.log2_lt_pow2; [lia|].
  pose proof (Z.log2_lxor x y ltac:(lia) ltac:(lia)).
  assert (∀ v, 0 <= v < 2 ^ 32 → Z.log2 v < 32).
  { intros v Hv. destruct (Z.eq_dec v 0) as [->|]; [done|]. apply Z.log2_lt_pow2; lia. }
  pose proof (H1 x Hx). pose proof (H1 y Hy). lia.
Qed.

Lemma u32_land x m : 0 <= m < 2 ^ 32 → is_u32 (Z.land x m).
Proof.
  intros Hm. replace m with (Z.land m (2 ^ 32 - 1)) by (rewrite land_ones_mod by lia; by rewrite Z.mod_small).
  rewrite Z.land_assoc, land_ones_mod by lia. apply Z.mod_pos_bound. lia.
Qed.

Lemma u32_shiftr x n : is_u32 x → 0 <= n → is_u32 (Z.shiftr x n).
Proof.
  unfold is_u32. intros Hx Hn. rewrite Z.shiftr_div_pow2 by lia.
  assert (0 < 2 ^ n) by lia. split; [apply Z.div_pos; lia|]. apply Z.div_lt_upper_bound; [lia|]. nia.
Qed.

Lemma u32_lor_halves x y : is_u32 (Z.lor (Z.land x 0x80000000) (Z.land y 0x7FFFFFFF)).
Proof.
  rewrite <- Z.lxor_lor; [apply u32_lxor; apply u32_land; lia|].
  rewrite <- Z.land_assoc, (Z.land_comm y), (Z.land_assoc 0x80000000). cbn [Z.land]. apply Z.land_0_r.
Qed.

#[export] Hint Resolve u32_lxor u32_land u32_shiftr u32_lor_halves u32_bound : chat.

Lemma mt_word_u32 x0 x1 xm : is_u32 xm → is_u32 (mt_word x0 x1 xm).
Proof.
  intros Hx. unfold mt_word. apply u32_lxor; [done|]. apply u32_lxor; [apply u32_shiftr; [|lia]; apply u32_lor_halves|].
  by case_if.
Qed.

Lemma temper_u32 x : is_u32 x → is_u32 (temper x).
Proof.
  intros Hx. unfold temper. cbv zeta.
  repeat first [apply u32_lxor | apply u32_land; lia | apply u32_shiftr; [|lia] | done].
Qed.

(** An engine *)
Definition mt_ok (mt : mt19937) : Prop := length mt = mt_n ∧ Forall is_u32 mt.

Lemma seed_words_ok fuel : ∀ i x, is_u32 x → length (seed_words fuel i x) = fuel ∧ Forall is_u32 (seed_words fuel i x).
Proof.
  induction fuel as [|fuel IH]; intros i x Hx; cbn [seed_words length]; [by split|].
  destruct (IH (i + 1) (u32 (1812433253 * Z.lxor x (Z.shiftr x 30) + (i + 1))) (u32_bound _)) as [-> Hf].
  split; [done|]. by constructor.
Qed.

Lemma mt_seed_ok value : mt_ok (mt_seed value).
Proof. apply seed_words_ok, u32_bound. Qed.

Lemma mt_next_ok mt : mt_ok mt → is_u32 (mt_next mt).1 ∧ mt_ok (mt_next mt).2.
Proof.
  intros [Hl Hf]. destruct mt as [|x0 rest]; [done|]. unfold mt_next. cbv zeta. cbn [fst snd].
  assert (Hx : is_u32 (mt_word x0 (default 0 (rest !! 0%nat)) (default 0 ((x0 :: rest) !! mt_m)))).
  { apply mt_word_u32. destruct ((x0 :: rest) !! mt_m) eqn:E; [|done]. by eapply Forall_lookup_1. }
  split; [by apply temper_u32|]. inversion_clear Hf as [|?? ? Hr]. split.
  - rewrite length_app. cbn [length] in *. unfold mt_n in *. lia.
  - apply Forall_app; split; [done|]. by apply Forall_singleton.
Qed.

Lemma mt_discard_ok k : ∀ mt, mt_ok mt → mt_ok (mt_discard k mt).
Proof. induction k as [|k IH]; intros mt Hm; [done|]. apply IH, mt_next_ok, Hm. Qed.

(** ** The distribution of libstdc++: for this range, two numbers of the engine, the high word
       first *)

Definition two_words (mt : mt19937) : Z * mt19937 :=
  let hi := mt_next mt in
  let lo := mt_next hi.2 in
  (u64 (hi.1 * 2 ^ 32 + lo.1), lo.2).

#[export] Program Instance libstdcpp_dist : Dist64 := { dist := two_words }.
Next Obligation. intros mt _ _. apply u64_bound. Qed.
Next Obligation. intros mt. by exists 2%nat. Qed.

Lemma random_calls_next `{!Dist64} rds : ∀ rds' mt,
  mt_ok mt → length rds = length rds' →
  random_calls rds (Some mt) = random_calls rds' (Some mt) ∧ Forall is_u64 (random_calls rds (Some mt)).
Proof.
  induction rds as [|rd rds IH]; intros [|rd' rds'] mt Hm Hl; try done.
  cbn [random_calls RandomUInt64Generator fst snd]. destruct (dist_engine mt) as [k Ek].
  destruct (IH rds' (dist mt).2) as [E Hf]; [rewrite Ek; by apply mt_discard_ok|by injection Hl|].
  split; [by rewrite E|]. constructor; [|done]. by destruct Hm; apply dist_range.
Qed.

(** ** Theorems *)

(** The random numbers: every call gives a 64-bit number, for whatever distribution, and from
    the first call on the sequence depends on nothing but the 32 bits that seeded the engine:
    further readings of the device are not used. *)
Theorem random_numbers_seeded `{!Dist64} rd rds rds' :
  length rds = length rds' →
  random_calls (rd :: rds) None = random_calls (u32 rd :: rds') None
  ∧ Forall is_u64 (random_calls (rd :: rds) None).
Proof.
  intros Hl. assert (Hseed : mt_seed (u32 rd) = mt_seed rd) by (unfold mt_seed; by rewrite (u32_id _ (u32_bound rd))).
  cbn [random_calls RandomUInt64Generator fst snd]. rewrite Hseed. destruct (dist_engine (mt_seed rd)) as [k Ek].
  destruct (random_calls_next rds rds' (dist (mt_seed rd)).2) as [E Hf];
    [rewrite Ek; apply mt_discard_ok, mt_seed_ok|done|].
  split; [by rewrite E|]. constructor; [|done]. destruct (mt_seed_ok rd). by apply dist_range.
Qed.

Lemma random_numbers_seeded_witness :
  random_calls [5489; 1; 2] None = random_calls [u32 5489; 7; 8] None ∧ Forall is_u64 (random_calls [5489; 1; 2] None).
Proof. apply (random_numbers_seeded 5489 [1; 2] [7; 8]). reflexivity. Defined.

(** The first number of the default seed *)
Example random_first : random_calls [5489] None = [3499211612 * 2 ^ 32 + 581869302].
Proof. vm_compute. reflexivity. Qed.
