(* ===== verification/Decimal.v ===== *)
(** * Numbers and bytes as strings

    What the components use of the C++ string library: [std::to_string] of an unsigned
    integer, [std::stoull], [std::stoul] and [std::stoi] (leading white space, an optional
    sign, the longest run of digits, the exceptions and ranges of the standard), and the
    reading of a byte block as a string.  [unsigned long] is 64 bits wide (LP64). *)

From S2P Require Import Prelude.
From Stdlib Require Import Ascii.

Definition char_code (c : ascii) : Z := Z.of_N (N_of_ascii c).

Definition char_of (x : Z) : ascii := ascii_of_N (Z.to_N x).

(** ** [std::to_string] *)

Definition digit_char (d : Z) : ascii := char_of (48 + d).

Fixpoint dec_digits (fuel : nat) (x : Z) (s : string) : string :=
  match fuel with
  | O => s
  | S fuel' =>
      let s' := String (digit_char (x mod 10)) s in
      if x <? 10 then s' else dec_digits fuel' (x / 10) s'
  end.

(** 20 digits hold every [uint64_t]. *)
Definition to_string (x : Z) : string := dec_digits 20 x "".

(** ** [std::stoull] and its relatives *)

Definition is_space (c : ascii) : bool :=
  (char_code c =? 32) || ((9 <=? char_code c) && (char_code c <=? 13)).

Definition digit_val (c : ascii) : option Z :=
  if (48 <=? char_code c) && (char_code c <=? 57) then Some (char_code c - 48) else None.

Fixpoint skip_space (s : string) : string :=
  match s with
  | String c s' => if is_space c then skip_space s' else s
  | EmptyString => s
  end.

Fixpoint scan_digits (s : string) (acc : Z) : Z :=
  match s with
  | String c s' => match digit_val c with Some d => scan_digits s' (10 * acc + d) | None => acc end
  | EmptyString => acc
  end.

(** The unsigned number at the head of [s], if there is a digit. *)
Definition scan_number (s : string) : option Z :=
  match s with
  | String c _ => match digit_val c with Some _ => Some (scan_digits s 0) | None => None end
  | EmptyString => None
  end.

(** Sign and magnitude, as [strtoull] and [strtol] read them in base 10. *)
Definition scan_signed (s : string) : option (bool * Z) :=
  match skip_space s with
  | String "-" s' => pair true <$> scan_number s'
  | String "+" s' => pair false <$> scan_number s'
  | s' => pair false <$> scan_number s'
  end.

Definition stoull (s : string) : res Z :=
  match scan_signed s with
  | None => Throw (invalid_argument "stoull")
  | Some (neg, n) =>
      if n <? 2 ^ 64 then Ok (if neg : bool then u64 (- n) else n)
      else Throw (out_of_range "stoull")
  end.

Definition stoul (s : string) : res Z :=
  match scan_signed s with
  | None => Throw (invalid_argument "stoul")
  | Some (neg, n) =>
      if n <? 2 ^ 64 then Ok (if neg : bool then u64 (- n) else n)
      else Throw (out_of_range "stoul")
  end.

Definition stoi (s : string) : res Z :=
  match scan_signed s with
  | None => Throw (invalid_argument "stoi")
  | Some (neg, n) =>
      let v := if neg : bool then - n else n in
      if (- 2 ^ 31 <=? v) && (v <? 2 ^ 31) then Ok v else Throw (out_of_range "stoi")
  end.

(** ** Blocks of bytes as strings *)

Fixpoint string_of_bytes (l : list Z) : string :=
  match l with
  | [] => ""
  | b :: l' => String (char_of b) (string_of_bytes l')
  end.

Fixpoint bytes_of_string (s : string) : list Z :=
  match s with
  | EmptyString => []
  | String c s' => char_code c :: bytes_of_string s'
  end.

(** ** Lemmas *)

Lemma char_code_of x : is_byte x → char_code (char_of x) = x.
Proof.
  intros [H0 H1]. unfold char_code, char_of. rewrite N_ascii_embedding; lia.
Qed.

Lemma char_of_code c : char_of (char_code c) = c.
Proof. unfold char_code, char_of. by rewrite N2Z.id, ascii_N_embedding. Qed.

Lemma char_code_byte c : is_byte (char_code c).
Proof. unfold is_byte, char_code. pose proof (N_ascii_bounded c). lia. Qed.

Lemma bytes_of_string_of_bytes l : Forall is_byte l → bytes_of_string (string_of_bytes l) = l.
Proof.
  induction 1 as [|b l Hb _ IH]; [done|]. cbn [string_of_bytes bytes_of_string].
  by rewrite char_code_of, IH.
Qed.

Lemma string_of_bytes_of_string s : string_of_bytes (bytes_of_string s) = s.
Proof. induction s as [|c s IH]; [done|]. cbn [bytes_of_string string_of_bytes]. by rewrite char_of_code, IH. Qed.

Lemma bytes_of_string_byte s : Forall is_byte (bytes_of_string s).
Proof. induction s; constructor; auto using char_code_byte. Qed.

Lemma bytes_of_string_app s t : bytes_of_string (s +:+ t) = bytes_of_string s ++ bytes_of_string t.
Proof. induction s as [|c s IH]; [done|]. exact (f_equal (cons (char_code c)) IH). Qed.

Lemma digit_char_val d : 0 <= d < 10 → digit_val (digit_char d) = Some d.
Proof.
  intros Hd. unfold digit_val, digit_char. rewrite char_code_of by (unfold is_byte; lia).
  rewrite (proj2 (Z.leb_le _ _)), (proj2 (Z.leb_le _ _)) by lia. cbn [andb]. f_equal. lia.
Qed.

Lemma scan_dec_digits fuel x s :
  0 <= x < 10 ^ Z.of_nat fuel → scan_digits (dec_digits fuel x s) 0 = scan_digits s x.
Proof.
  revert x s; induction fuel as [|fuel IH]; intros x s Hx.
  { change (10 ^ Z.of_nat 0) with 1 in Hx. cbn. by replace x with 0 by lia. }
  rewrite Nat2Z.inj_succ, Z.pow_succ_r in Hx by lia. cbn [dec_digits].
  pose proof (Z.mod_pos_bound x 10 ltac:(lia)) as Hm. case_if.
  - cbn [scan_digits]. rewrite digit_char_val by done. rewrite Z.mod_small by lia. done.
  - rewrite IH by (split; [apply Z.div_pos | apply Z.div_lt_upper_bound]; lia).
    cbn [scan_digits]. rewrite digit_char_val by done. f_equal. pose proof (Z_div_mod_eq_full x 10). lia.
Qed.

(** A printed number starts with a digit: no space, no sign. *)
Lemma dec_digits_head fuel x s :
  0 <= x → ∃ d s', 0 <= d < 10 ∧ dec_digits (S fuel) x s = String (digit_char d) s'.
Proof.
  revert x s; induction fuel as [|fuel IH]; intros x s Hx;
    pose proof (Z.mod_pos_bound x 10 ltac:(lia)) as Hm; cbn [dec_digits]; case_if; eauto.
  apply IH. by apply Z.div_pos; [|lia].
Qed.

Lemma scan_signed_digit c s d :
  digit_val c = Some d → scan_signed (String c s) = Some (false, scan_digits (String c s) 0).
Proof.
  intros Hd. transitivity (pair false <$> scan_number (String c s)).
  - destruct c as [[] [] [] [] [] [] [] []]; first [discriminate Hd | reflexivity].
  - unfold scan_number. by rewrite Hd.
Qed.

Lemma scan_signed_to_string x : is_u64 x → scan_signed (to_string x) = Some (false, x).
Proof.
  intros Hx. unfold is_u64 in Hx. unfold to_string.
  destruct (dec_digits_head 19 x "") as (d & s' & Hd & E); [lia|].
  rewrite E, (scan_signed_digit _ _ d) by (by apply digit_char_val).
  rewrite <- E, scan_dec_digits; [done|]. change (10 ^ Z.of_nat 20) with 100000000000000000000. lia.
Qed.

Lemma stoull_to_string x : is_u64 x → stoull (to_string x) = Ok x.
Proof.
  intros Hx. unfold stoull. rewrite scan_signed_to_string by done. unfold is_u64 in Hx.
  by rewrite (proj2 (Z.ltb_lt _ _)) by lia.
Qed.

Lemma to_string_inj x y : is_u64 x → is_u64 y → to_string x = to_string y → x = y.
Proof.
  intros Hx Hy E. pose proof (stoull_to_string x Hx) as H. rewrite E, stoull_to_string in H by done.
  by injection H.
Qed.
