(* ===== verification/CppString.v ===== *)
(** * What the components use of [std::string] and [std::string_view]

    Searching for a character, [substr] with its exception, the concatenation laws the
    parsers of the gateway and of the client rely on, and [std::to_string] of an [int].
    [npos] is [None] for a search result and any length past the end for a count. *)

From S2P Require Import Prelude Decimal.
From Stdlib Require Import Ascii.

Fixpoint str_take (n : nat) (s : string) : string :=
  match n, s with
  | S n', String c s' => String c (str_take n' s')
  | _, _ => ""
  end.

Fixpoint str_drop (n : nat) (s : string) : string :=
  match n, s with
  | S n', String _ s' => str_drop n' s'
  | _, _ => s
  end.

(** [s.find(c)] *)
Fixpoint find_char (c : ascii) (s : string) : option nat :=
  match s with
  | EmptyString => None
  | String d s' => if decide (d = c) then Some 0%nat else S <$> find_char c s'
  end.

(** [s.find(c, pos)] *)
Definition find_from (c : ascii) (s : string) (pos : nat) : option nat :=
  Nat.add pos <$> find_char c (str_drop pos s).

(** [s.substr(pos, n)] *)
Definition substr (s : string) (pos n : nat) : res string :=
  if (pos <=? String.length s)%nat then Ok (str_take n (str_drop pos s))
  else Throw (out_of_range "basic_string_view::substr").

(** [std::to_string(int)] *)
Definition to_string_int (x : Z) : string :=
  if x <? 0 then "-" +:+ to_string (- x) else to_string x.

(** All characters satisfy [P]. *)
Fixpoint str_forall (P : ascii → Prop) (s : string) : Prop :=
  match s with
  | EmptyString => True
  | String c s' => P c ∧ str_forall P s'
  end.

(** The character does not occur. *)
Fixpoint no_char (c : ascii) (s : string) : Prop :=
  match s with
  | EmptyString => True
  | String d s' => d ≠ c ∧ no_char c s'
  end.

#[global] Instance no_char_dec c s : Decision (no_char c s).
Proof. induction s; simpl; apply _. Defined.

(** ** Lemmas *)

Lemma str_app_cons c s t : String c s +:+ t = String c (s +:+ t).
Proof. done. Qed.

Lemma str_app_nil s : "" +:+ s = s.
Proof. done. Qed.

Lemma str_app_nil_r s : s +:+ "" = s.
Proof. induction s as [|c s IH]; [done|]. by rewrite str_app_cons, IH. Qed.

Lemma str_app_assoc s t u : (s +:+ t) +:+ u = s +:+ (t +:+ u).
Proof. induction s as [|c s IH]; [done|]. by rewrite !str_app_cons, IH. Qed.

Lemma str_length_app s t : String.length (s +:+ t) = (String.length s + String.length t)%nat.
Proof. induction s as [|c s IH]; [done|]. rewrite str_app_cons. cbn. by rewrite IH. Qed.

Lemma str_drop_app s t : str_drop (String.length s) (s +:+ t) = t.
Proof. induction s as [|c s IH]; [by destruct t|]. exact IH. Qed.

Lemma str_drop_0 s : str_drop 0 s = s.
Proof. by destruct s. Qed.

Lemma str_drop_app_add s t n : str_drop (String.length s + n) (s +:+ t) = str_drop n t.
Proof. induction s as [|c s IH]; [done|]. exact IH. Qed.

Lemma str_take_app s t : str_take (String.length s) (s +:+ t) = s.
Proof. induction s as [|c s IH]; [by destruct t|]. rewrite str_app_cons. cbn. by rewrite IH. Qed.

Lemma str_take_ge n s : (String.length s <= n)%nat → str_take n s = s.
Proof.
  revert n; induction s as [|c s IH]; intros [|n] H; try done; cbn in *; [lia|].
  rewrite IH; [done|lia].
Qed.

Lemma find_char_cons c d s :
  find_char c (String d s) = if decide (d = c) then Some 0%nat else S <$> find_char c s.
Proof. done. Qed.

Lemma find_char_app c s t : no_char c s → find_char c (s +:+ String c t) = Some (String.length s).
Proof.
  induction s as [|d s IH]; intros H.
  - rewrite str_app_nil, find_char_cons. by destruct (decide (c = c)).
  - destruct H as [Hd H]. rewrite str_app_cons, find_char_cons, IH by done. by destruct (decide (d = c)).
Qed.

Lemma find_char_None c s : no_char c s → find_char c s = None.
Proof.
  induction s as [|d s IH]; [done|]. intros [Hd H].
  rewrite find_char_cons, IH by done. by destruct (decide (d = c)).
Qed.

Lemma find_from_app c s t u :
  no_char c t →
  find_from c (s +:+ (t +:+ String c u)) (String.length s) = Some (String.length s + String.length t)%nat.
Proof. intros H. unfold find_from. by rewrite str_drop_app, find_char_app. Qed.

Lemma substr_app s t u :
  substr (s +:+ (t +:+ u)) (String.length s) (String.length t) = Ok t.
Proof.
  unfold substr. rewrite (proj2 (Nat.leb_le _ _)) by (rewrite str_length_app; lia).
  by rewrite str_drop_app, str_take_app.
Qed.

(** A rest taken with a length that reaches the end, such as [npos]. *)
Lemma substr_rest s t n :
  (String.length t <= n)%nat → substr (s +:+ t) (String.length s) n = Ok t.
Proof.
  intros H. unfold substr. rewrite (proj2 (Nat.leb_le _ _)) by (rewrite str_length_app; lia).
  by rewrite str_drop_app, str_take_ge.
Qed.

Lemma bytes_of_string_length s : length (bytes_of_string s) = String.length s.
Proof. induction s as [|c s IH]; [done|]. cbn. by rewrite IH. Qed.

(** ** Decimal numbers *)

Lemma no_char_dec_digits c fuel x s :
  (∀ d, 0 <= d < 10 → digit_char d ≠ c) → 0 <= x → no_char c s → no_char c (dec_digits fuel x s).
Proof.
  intros Hc. revert x s; induction fuel as [|fuel IH]; intros x s Hx Hs; [done|]. cbn [dec_digits].
  pose proof (Z.mod_pos_bound x 10 ltac:(lia)) as Hm.
  case_if; [|apply IH; [apply Z.div_pos; lia|]]; split; auto.
Qed.

(** A printed number has no character that is not a digit. *)
Lemma no_char_to_string c x :
  digit_val c = None → 0 <= x → no_char c (to_string x).
Proof.
  intros Hc Hx. apply no_char_dec_digits; [|done|done].
  intros d Hd <-. by rewrite digit_char_val in Hc.
Qed.

Lemma stoi_to_string x : 0 <= x < 2 ^ 31 → stoi (to_string x) = Ok x.
Proof.
  intros Hx. unfold stoi. rewrite scan_signed_to_string by (unfold is_u64; lia). cbn zeta.
  by rewrite (proj2 (Z.leb_le _ _)), (proj2 (Z.ltb_lt _ _)) by lia.
Qed.
