(* ===== verification/Security.v ===== *)
(** * Password hashing (src/src/http/dbm/security.cpp)

    A stored password is [iterations & hex(key) & hex(salt)].  The key derivation of OpenSSL
    and the hexadecimal coding of Boost are arguments ([Crypto]); what the code relies on is
    [CryptoLaws].  [rnd] is the outcome of [RAND_bytes]: the bytes, or [None] when it reports
    a failure.  The call stands inside an [assert]: with [NDEBUG] it is not made and the
    buffer keeps the bytes it had. *)

From S2P Require Import Prelude Decimal CppString.
From Stdlib Require Import Ascii.

Class Crypto := {
  (* PKCS5_PBKDF2_HMAC with SHA-512: password, salt, iterations, length of the key;
     [None] when it returns 0 and leaves the output alone *)
  pbkdf2 : list Z → list Z → Z → nat → option (list Z);
  hex : list Z → string;               (* boost::algorithm::hex *)
  unhex : string → res (list Z)        (* boost::algorithm::unhex *)
}.

Class CryptoLaws (C : Crypto) := {
  pbkdf2_succeeds code salt iter n : 1 <= iter → ∃ key, pbkdf2 code salt iter n = Some key
    ∧ length key = n ∧ Forall is_byte key;
  unhex_hex bs : Forall is_byte bs → unhex (hex bs) = Ok bs;
  hex_digits bs c : digit_val c = None → (∀ d, d ∈ ["A"; "B"; "C"; "D"; "E"; "F"]%char → c ≠ d) →
    Forall is_byte bs → no_char c (hex bs)
}.

Definition SALT_SIZE : nat := 16.

Definition KEY_SIZE : nat := 64.

(** The separator *)
Definition amp : ascii := "&"%char.

Section security.
Context `{C : Crypto}.

(** [assert(RAND_bytes(buf, n) == 1)] on a buffer that holds [old] *)
Definition rand_buffer (ndebug : bool) (rnd : option (list Z)) (old : list Z) : res (list Z) :=
  if ndebug then Ok old
  else match rnd with Some bs => Ok bs | None => UB aborted end.

Definition Bin2Hex (bin : list Z) : string := hex bin.

Definition Hex2Bin (s : string) : res (list Z) := unhex s.

(** [junk] are the indeterminate bytes of the two local arrays. *)
Definition HashPassword (ndebug : bool) (rnd : option (list Z)) (junk : nat → list Z)
    (code : string) (iter : Z) : res string :=
  salt ← rand_buffer ndebug rnd (junk SALT_SIZE);
  let derived_key := default (junk KEY_SIZE) (pbkdf2 (bytes_of_string code) salt iter KEY_SIZE) in
  Ok (to_string_int iter +:+ ("&" +:+ (Bin2Hex derived_key +:+ ("&" +:+ Bin2Hex salt)))).

(** The key computed for a candidate, into a vector of zeros *)
Definition rederive (code : string) (salt : list Z) (iter : Z) (n : nat) : list Z :=
  default (replicate n 0) (pbkdf2 (bytes_of_string code) salt iter n).

Definition Verify (code stored_hash : string) : res bool :=
  let pos1 := find_from amp stored_hash 0 in
  let pos2 := find_from amp stored_hash (match pos1 with Some p => S p | None => 0 end) in
  match pos1, pos2 with
  | Some pos1, Some pos2 =>
      iter_s ← substr stored_hash 0 pos1;
      iter ← stoi iter_s;
      key_hex ← substr stored_hash (S pos1) (pos2 - pos1 - 1);
      salt_hex ← substr stored_hash (S pos2) (String.length stored_hash);
      salt ← Hex2Bin salt_hex;
      stored_key ← Hex2Bin key_hex;
      let derived_key := rederive code salt iter (length stored_key) in
      Ok (bool_decide (derived_key = stored_key))
  | _, _ => Ok false
  end.

(** ** Lemmas *)

(** What [Verify] reads out of a hash whose three parts are well separated. *)
Lemma Verify_parts code a k s :
  no_char amp a → no_char amp k →
  Verify code (a +:+ ("&" +:+ (k +:+ ("&" +:+ s)))) =
    (iter ← stoi a; salt ← Hex2Bin s; stored_key ← Hex2Bin k;
     Ok (bool_decide (rederive code salt iter (length stored_key) = stored_key))).
Proof.
  intros Ha Hk. set (h := a +:+ _). unfold Verify.
  assert (E1 : find_from amp h 0 = Some (String.length a)) by (exact (find_from_app amp "" a _ Ha)).
  assert (Eh : h = (a +:+ "&") +:+ (k +:+ String amp s)) by (unfold h; by rewrite str_app_assoc).
  assert (El : S (String.length a) = String.length (a +:+ "&")) by (rewrite str_length_app; cbn; lia).
  rewrite E1. cbn zeta. rewrite El.
  assert (E2 : find_from amp h (String.length (a +:+ "&")) = Some (String.length (a +:+ "&") + String.length k)%nat)
    by (rewrite Eh; by apply find_from_app).
  rewrite E2.
  assert (S0 : substr h 0 (String.length a) = Ok a) by (exact (substr_app "" a _)).
  assert (S1 : substr h (String.length (a +:+ "&")) (String.length k) = Ok k) by (rewrite Eh; apply substr_app).
  assert (S2 : substr h (S (String.length (a +:+ "&") + String.length k)) (String.length h) = Ok s).
  { rewrite Eh. replace (k +:+ String amp s) with ((k +:+ "&") +:+ s) by (by rewrite str_app_assoc).
    rewrite <- str_app_assoc.
    replace (S (String.length (a +:+ "&") + String.length k)) with (String.length ((a +:+ "&") +:+ (k +:+ "&")))
      by (rewrite !str_length_app; cbn; lia).
    apply substr_rest. rewrite (str_length_app _ s). lia. }
  rewrite S0, (bind_Ok _ _ a) by done. destruct (stoi a) as [iter| |]; [|done..].
  replace (String.length (a +:+ "&") + String.length k - String.length a - 1)%nat with (String.length k)
    by (rewrite <- El; lia).
  cbn [mbind res_bind]. by rewrite S1, S2.
Qed.

Lemma amp_not_digit : digit_val amp = None.
Proof. done. Qed.

Lemma hex_no_amp `{!CryptoLaws C} bs : Forall is_byte bs → no_char amp (hex bs).
Proof.
  apply hex_digits; [done|]. clear. intros d Hd <-.
  by apply (bool_decide_eq_false_1 (amp ∈ ["A"; "B"; "C"; "D"; "E"; "F"]%char)).
Qed.

(** The hash written for a password, and what [Verify] makes of it. *)
Lemma HashPassword_Ok `{!CryptoLaws C} salt junk code iter :
  Forall is_byte salt → 1 <= iter < 2 ^ 31 →
  ∃ h key, HashPassword false (Some salt) junk code iter = Ok h
    ∧ pbkdf2 (bytes_of_string code) salt iter KEY_SIZE = Some key
    ∧ ∀ code', Verify code' h =
        Ok (bool_decide (pbkdf2 (bytes_of_string code') salt iter KEY_SIZE = Some key)).
Proof.
  intros Hs Hi. destruct (pbkdf2_succeeds (bytes_of_string code) salt iter KEY_SIZE) as (key & Hk & Hl & Hb); [lia|].
  eexists _, key. split; [|split; [done|]].
  { unfold HashPassword. cbn [rand_buffer mbind res_bind]. rewrite Hk. reflexivity. }
  intros code'. cbn [from_option id]. unfold Bin2Hex, to_string_int. rewrite (proj2 (Z.ltb_ge _ _)) by lia.
  rewrite Verify_parts by (first [apply no_char_to_string; [done|lia] | by apply hex_no_amp]).
  rewrite stoi_to_string by lia. unfold Hex2Bin. rewrite !unhex_hex by done. cbn [mbind res_bind].
  rewrite Hl. unfold rederive.
  destruct (pbkdf2_succeeds (bytes_of_string code') salt iter KEY_SIZE) as (key' & Hk' & _); [lia|].
  rewrite Hk'. cbn [from_option id]. f_equal. apply bool_decide_ext. split; [by intros ->|by intros [=]].
Qed.

(** A stored hash with an empty key accepts every password. *)
Lemma Verify_empty_key `{!CryptoLaws C} code salt iter :
  Forall is_byte salt → hex [] = "" → 1 <= iter < 2 ^ 31 →
  Verify code (to_string iter +:+ ("&" +:+ ("" +:+ ("&" +:+ hex salt)))) = Ok true.
Proof.
  intros Hs He Hi. rewrite Verify_parts by (first [apply no_char_to_string; [done|lia] | done]).
  rewrite stoi_to_string by lia. unfold Hex2Bin. rewrite <- He, !unhex_hex by done. cbn [mbind res_bind length].
  unfold rederive. destruct (pbkdf2_succeeds (bytes_of_string code) salt iter 0) as (key & -> & Hl & _); [lia|].
  apply nil_length_inv in Hl as ->. done.
Qed.
End security.

(** ** A concrete coding and key derivation, for witnesses *)

Definition hex_digit (d : Z) : ascii := if d <? 10 then digit_char d else char_of (55 + d).

Fixpoint hex_upper (bs : list Z) : string :=
  match bs with
  | [] => ""
  | b :: bs' => String (hex_digit (b / 16)) (String (hex_digit (b mod 16)) (hex_upper bs'))
  end.

Definition hex_val (c : ascii) : option Z :=
  match digit_val c with
  | Some d => Some d
  | None =>
      let x := char_code c in
      if (65 <=? x) && (x <=? 70) then Some (x - 55)
      else if (97 <=? x) && (x <=? 102) then Some (x - 87) else None
  end.

Fixpoint unhex_pairs (s : string) : res (list Z) :=
  match s with
  | EmptyString => Ok []
  | String a (String b s') =>
      match hex_val a, hex_val b with
      | Some x, Some y => bs ← unhex_pairs s'; Ok (16 * x + y :: bs)
      | _, _ => Throw (runtime_error "non_hex_input")
      end
  | String _ EmptyString => Throw (runtime_error "not_enough_input")
  end.

(** Every byte of the key depends on all of the password and the salt. *)
Definition sum_kdf (code salt : list Z) (iter : Z) (n : nat) : option (list Z) :=
  if 1 <=? iter then
    Some (map (λ i, (foldr (λ b a, b + 7 * a) iter (code ++ salt) + Z.of_nat i) mod 256) (seq 0 n))
  else None.

#[export] Instance demo_crypto : Crypto := {
  pbkdf2 := sum_kdf; hex := hex_upper; unhex := unhex_pairs
}.

Lemma hex_digit_val d : 0 <= d < 16 → hex_val (hex_digit d) = Some d.
Proof.
  intros Hd. unfold hex_digit. case_if.
  - unfold hex_val. by rewrite digit_char_val by lia.
  - assert (d = 10 ∨ d = 11 ∨ d = 12 ∨ d = 13 ∨ d = 14 ∨ d = 15) as Hc by lia.
    destruct_or! Hc; by subst d.
Qed.

Lemma unhex_hex_upper bs : Forall is_byte bs → unhex_pairs (hex_upper bs) = Ok bs.
Proof.
  induction 1 as [|b bs Hb _ IH]; [done|]. unfold is_byte in Hb. cbn [hex_upper unhex_pairs].
  rewrite !hex_digit_val by (first [by apply Z.mod_pos_bound | split; [apply Z.div_pos|apply Z.div_lt_upper_bound]; lia]).
  rewrite IH. cbn [mbind res_bind]. do 2 f_equal. pose proof (Z_div_mod_eq_full b 16). lia.
Qed.

Lemma hex_upper_no_char bs c :
  digit_val c = None → (∀ d, d ∈ ["A"; "B"; "C"; "D"; "E"; "F"]%char → c ≠ d) → Forall is_byte bs →
  no_char c (hex_upper bs).
Proof.
  intros Hc Hd. assert (Hx : ∀ d, 0 <= d < 16 → hex_digit d ≠ c).
  { intros d Hr <-. unfold hex_digit in *. destruct (Z.ltb_spec d 10).
    - by rewrite digit_char_val in Hc by lia.
    - assert (d = 10 ∨ d = 11 ∨ d = 12 ∨ d = 13 ∨ d = 14 ∨ d = 15) as Hv by lia.
      destruct_or! Hv; subst d; eapply Hd; try reflexivity; set_solver. }
  induction 1 as [|b bs Hb _ IH]; [done|]. unfold is_byte in Hb. split; [|split; [|exact IH]]; apply Hx;
    first [by apply Z.mod_pos_bound | split; [apply Z.div_pos|apply Z.div_lt_upper_bound]; lia].
Qed.

#[export] Instance demo_crypto_laws : CryptoLaws demo_crypto.
Proof.
  split.
  - intros code salt iter n Hi. cbn [pbkdf2 demo_crypto]. unfold sum_kdf. rewrite (proj2 (Z.leb_le _ _)) by lia.
    eexists. split; [done|]. rewrite length_map, length_seq. split; [done|].
    apply List.Forall_forall. intros x (i & <- & _)%in_map_iff. by apply Z.mod_pos_bound.
  - exact unhex_hex_upper.
  - intros bs c. apply hex_upper_no_char.
Qed.

(** C23. Storing a password and checking it agree: with a salt from [RAND_bytes] and any
    positive iteration count the password itself is accepted, and another one exactly when
    the key derivation gives it the same key. *)
Theorem password_roundtrip `{C : Crypto, !CryptoLaws C} salt junk code iter :
  Forall is_byte salt → 1 <= iter < 2 ^ 31 →
  ∃ h, HashPassword false (Some salt) junk code iter = Ok h
    ∧ Verify code h = Ok true
    ∧ ∀ code', Verify code' h = Ok true ↔
        pbkdf2 (bytes_of_string code') salt iter KEY_SIZE = pbkdf2 (bytes_of_string code) salt iter KEY_SIZE.
Proof.
  intros Hs Hi. destruct (HashPassword_Ok salt junk code iter Hs Hi) as (h & key & Hh & Hk & Hv).
  exists h. split; [done|]. rewrite Hk. split.
  - rewrite Hv. by rewrite bool_decide_eq_true_2.
  - intros code'. rewrite Hv. split; [intros [= H]; by apply bool_decide_eq_true_1 in H|].
    intros H. by rewrite bool_decide_eq_true_2.
Qed.

Lemma password_roundtrip_witness :
  ∃ h, HashPassword false (Some [1; 2; 255]) (λ _, []) "secret" 200000 = Ok h
    ∧ Verify "secret" h = Ok true
    ∧ ∀ code', Verify code' h = Ok true ↔
        pbkdf2 (bytes_of_string code') [1; 2; 255] 200000 KEY_SIZE = pbkdf2 (bytes_of_string "secret") [1; 2; 255] 200000 KEY_SIZE.
Proof.
  apply (password_roundtrip [1; 2; 255] (λ _, []) "secret" 200000); [|lia].
  repeat constructor; done.
Defined.

(** The check is not vacuous on the concrete coding. *)
Example verify_demo :
  (h ← HashPassword false (Some [1; 2; 255]) (λ _, []) "secret" 200000;
   a ← Verify "secret" h; b ← Verify "Secret" h; Ok (a, b)) = Ok (true, false).
Proof. vm_compute. reflexivity. Qed.
