(* ===== verification/Dbm.v ===== *)
(** * The gateway's database connections and their pool
      (src/src/http/dbm/dbconn.cpp, dbconn.hpp, gateway_dbm.cpp, gateway_dbm.hpp)

    [DBM] is the pool with the [DBConn] objects it shares: [cells] holds them by address, and
    [conns_] and [free_queue_] hold addresses, as the source holds shared pointers.  The MySQL
    client library and the server behind it are the argument [D] with the operations of
    [MySql]; an operation names the connection by the address of its [DBConn].  A call of
    [GetIdleConn] that would sleep on the condition variable is the result [GWait]; threads
    that sleep and wake are the subject of [DbmPool]. *)

From S2P Require Import Prelude Decimal CppString Security.

(** The return codes *)
Definition GATEWAY_SUCCESS : Z := 0.
Definition GATEWAY_USER_NOT_EXIST : Z := -1.
Definition GATEWAY_VERIFY_FAILED : Z := -2.
Definition GATEWAY_REG_ALREADY_EXIST : Z := -3.
Definition GATEWAY_REG_UID_ALREADY_EXIST : Z := -4.
Definition GATEWAY_UNKNOWN_ERROR : Z := -100.
Definition GATEWAY_CONNECTION_ERROR : Z := -101.
Definition GATEWAY_MYSQL_SERVER_ERROR : Z := -102.

(** ** The MySQL client library *)

Inductive field := FStr (s : string) | FU64 (x : Z) | FI64 (x : Z).

Record results := mkResults { rows : list (list field); has_value : bool }.

(** What a [DBConn] is given: the handshake parameters and the (well-formed) address *)
Record ConnParams := mkParams {
  username_ : string; password_ : string; db_name_ : string; mysql_addr_ : string; mysql_port_ : Z }.

Class MySql (D : Type) := {
  my_connect : D → nat → ConnParams → D * bool;              (* the error code is set *)
  my_prepare : D → nat → string → D * option Z;              (* None: throws *)
  my_close_statement : D → nat → Z → D * bool;               (* true: throws *)
  my_close : D → nat → D * bool;                             (* the error code is set *)
  my_execute : D → nat → Z → list field → D * option results (* None: the error code is set *)
}.

(** [rows().at(i).at(j)] and the typed reads of a field *)
Definition field_at (r : results) (i j : nat) : res field :=
  match rows r !! i with
  | Some row => match row !! j with Some f => Ok f | None => Throw (out_of_range "row_view::at") end
  | None => Throw (out_of_range "rows_view::at")
  end.

Definition get_string (f : field) : res string :=
  match f with FStr s => Ok s | _ => Throw (runtime_error "bad_field_access") end.

Definition get_uint64 (f : field) : res Z :=
  match f with FU64 x => Ok x | _ => Throw (runtime_error "bad_field_access") end.

Definition get_int64 (f : field) : res Z :=
  match f with FI64 x => Ok x | _ => Throw (runtime_error "bad_field_access") end.

Definition LOGIN_SQL : string := "SELECT uid, passcode FROM tbl_user WHERE username = ?".
Definition EXIST_SQL : string := "SELECT COUNT(*) FROM tbl_user WHERE username = ?".
Definition REGISTER_SQL : string := "INSERT INTO tbl_user (uid, username, passcode) VALUES (?, ?, ?)".

(** ** State *)

(** A default statement has handle 0. *)
Record DBConn := mkDBConn {
  valid_ : bool;
  login_check_stmt_ : Z;
  register_stmt_ : Z;
  exist_check_stmt_ : Z
}.

Definition DBConn_new : DBConn := mkDBConn false 0 0 0.

Record DBM (D : Type) := mkDBM {
  conns_ : list nat;
  free_queue_ : list nat;
  pool_size_ : Z;
  pool_max_cap_ : Z;
  running_ : bool;
  params_ : ConnParams;
  cells : gmap nat DBConn;
  next_cell : nat;
  mysql : D
}.
Arguments mkDBM {D}.
Arguments conns_ {D} _.
Arguments free_queue_ {D} _.
Arguments pool_size_ {D} _.
Arguments pool_max_cap_ {D} _.
Arguments running_ {D} _.
Arguments params_ {D} _.
Arguments cells {D} _.
Arguments next_cell {D} _.
Arguments mysql {D} _.

Definition DBM_new {D} (ps : ConnParams) (d : D) : DBM D := mkDBM [] [] 0 0 false ps ∅ 0 d.

Section setters.
Context {D : Type} (m : DBM D).

Definition set_conns x : DBM D :=
  mkDBM x (free_queue_ m) (pool_size_ m) (pool_max_cap_ m) (running_ m) (params_ m) (cells m) (next_cell m) (mysql m).
Definition set_free x : DBM D :=
  mkDBM (conns_ m) x (pool_size_ m) (pool_max_cap_ m) (running_ m) (params_ m) (cells m) (next_cell m) (mysql m).
Definition set_pool (size cap : Z) (run : bool) : DBM D :=
  mkDBM (conns_ m) (free_queue_ m) size cap run (params_ m) (cells m) (next_cell m) (mysql m).
Definition set_cells x : DBM D :=
  mkDBM (conns_ m) (free_queue_ m) (pool_size_ m) (pool_max_cap_ m) (running_ m) (params_ m) x (next_cell m) (mysql m).
Definition set_mysql x : DBM D :=
  mkDBM (conns_ m) (free_queue_ m) (pool_size_ m) (pool_max_cap_ m) (running_ m) (params_ m) (cells m) (next_cell m) x.

(** [std::make_shared<DBConn>(...)] *)
Definition alloc_conn : DBM D :=
  mkDBM (conns_ m) (free_queue_ m) (pool_size_ m) (pool_max_cap_ m) (running_ m) (params_ m)
    (<[next_cell m := DBConn_new]> (cells m)) (S (next_cell m)) (mysql m).
End setters.

Section dbm.
Context {D : Type} `{!MySql D}.

Abbreviation M := (st (DBM D)).
Open Scope cpp_scope.

Definition get_conn (p : nat) : M DBConn := λ m,
  match cells m !! p with Some c => (m, Ok c) | None => (m, UB null_deref) end.

Definition put_conn (p : nat) (c : DBConn) : M unit := st_mod (λ m, set_cells m (<[p := c]> (cells m))).

Definition set_valid (p : nat) (b : bool) : M unit :=
  c <- get_conn p ;;
  put_conn p (mkDBConn b (login_check_stmt_ c) (register_stmt_ c) (exist_check_stmt_ c)).

(** A call of the library *)
Definition my_call {A} (f : D → D * A) : M A := λ m,
  let '(d, a) := f (mysql m) in (set_mysql m d, Ok a).

(** ** [DBConn]: connecting and closing *)

(** The statements of the [try] block; the first exception ends it *)
Fixpoint close_statements (p : nat) (stmts : list Z) : M unit :=
  match stmts with
  | [] => st_ret tt
  | s :: stmts' =>
      throws <- my_call (λ d, my_close_statement d p s) ;;
      if throws : bool then st_ret tt else close_statements p stmts'
  end.

(** The result is the error code, set or not *)
Definition CloseImpl (p : nat) : M bool :=
  c <- get_conn p ;;
  close_statements p [login_check_stmt_ c; register_stmt_ c; exist_check_stmt_ c] ;;
  err <- my_call (λ d, my_close d p) ;;
  set_valid p false ;;
  st_ret err.

(** [bool Close()] *)
Definition Close (p : nat) : M bool :=
  c <- get_conn p ;;
  if valid_ c then err <- CloseImpl p ;; st_ret (negb err) else st_ret true.

(** The [try] block of [ReconnectImpl]: [false] when preparing a statement threw *)
Definition InitStmt (p : nat) : M bool :=
  login <- my_call (λ d, my_prepare d p LOGIN_SQL) ;;
  match login with
  | None => st_ret false
  | Some login =>
      c <- get_conn p ;;
      put_conn p (mkDBConn (valid_ c) login (register_stmt_ c) (exist_check_stmt_ c)) ;;
      stmt <- my_call (λ d, my_prepare d p EXIST_SQL) ;;
      match stmt with
      | None => st_ret false
      | Some stmt =>
          c <- get_conn p ;;
          put_conn p (mkDBConn (valid_ c) (login_check_stmt_ c) (register_stmt_ c) stmt) ;;
          reg <- my_call (λ d, my_prepare d p REGISTER_SQL) ;;
          match reg with
          | None => st_ret false
          | Some reg =>
              c <- get_conn p ;;
              put_conn p (mkDBConn (valid_ c) (login_check_stmt_ c) reg (exist_check_stmt_ c)) ;;
              st_ret true
          end
      end
  end.

(** The result is the error code, set or not *)
Definition ReconnectImpl (p : nat) : M bool :=
  c <- get_conn p ;;
  (if valid_ c then Close p ;; st_ret tt else st_ret tt) ;;
  ps <- st_get params_ ;;
  err <- my_call (λ d, my_connect d p ps) ;;
  if err : bool then set_valid p false ;; st_ret true
  else
    ok <- InitStmt p ;;
    (if ok : bool then st_ret tt else Close p ;; st_ret tt) ;;
    set_valid p true ;;
    st_ret false.

(** [bool Connect(...)] *)
Definition Connect (p : nat) : M bool := err <- ReconnectImpl p ;; st_ret (negb err).

(** ** [DBConn]: queries *)

Context `{!Crypto} (ndebug : bool) (junk : nat → list Z).

(** The pair is the return code and the [uid] out-parameter, [uid0] before the call *)
Definition conn_VerifyUserInfo (p : nat) (username passcode : string) (uid0 : Z) : M (Z * Z) :=
  c <- get_conn p ;;
  ret <- my_call (λ d, my_execute d p (login_check_stmt_ c) [FStr username]) ;;
  match ret with
  | None => st_ret (GATEWAY_MYSQL_SERVER_ERROR, uid0)
  | Some ret =>
      match rows ret with
      | [] => st_ret (GATEWAY_USER_NOT_EXIST, uid0)
      | _ =>
          correct_code_hash <- st_res (f ← field_at ret 0 1; get_string f) ;;
          get_uid <- st_res (f ← field_at ret 0 0; get_uint64 f) ;;
          mat <- st_res (Verify passcode correct_code_hash) ;;
          if mat : bool then st_ret (GATEWAY_SUCCESS, get_uid) else st_ret (GATEWAY_VERIFY_FAILED, uid0)
      end
  end.

(** [rnd] is what [RAND_bytes] gives for the salt *)
Definition conn_RegisterNew (rnd : option (list Z)) (p : nat) (username passcode : string) (uid : Z) : M Z :=
  c <- get_conn p ;;
  ret <- my_call (λ d, my_execute d p (exist_check_stmt_ c) [FStr username]) ;;
  match ret with
  | None => st_ret GATEWAY_MYSQL_SERVER_ERROR
  | Some ret =>
      count <- st_res (f ← field_at ret 0 0; get_int64 f) ;;
      if 0 <? count then st_ret GATEWAY_REG_ALREADY_EXIST
      else
        code_hash <- st_res (HashPassword ndebug rnd junk passcode 200000) ;;
        ret <- my_call (λ d, my_execute d p (register_stmt_ c) [FU64 uid; FStr username; FStr code_hash]) ;;
        match ret with
        | None => st_ret GATEWAY_MYSQL_SERVER_ERROR
        | Some ret => if has_value ret then st_ret GATEWAY_SUCCESS else st_ret GATEWAY_UNKNOWN_ERROR
        end
  end.

(** ** [DBM]: the pool *)

Fixpoint close_all (ps : list nat) : M unit :=
  match ps with
  | [] => st_ret tt
  | p :: ps' => Close p ;; close_all ps'
  end.

(** The first loop of [Start]; [false] when a connection failed and all were closed *)
Fixpoint start_conns (n : nat) : M bool :=
  match n with
  | O => st_ret true
  | S n' =>
      p <- st_get next_cell ;;
      st_mod alloc_conn ;;
      st_mod (λ m, set_conns m (conns_ m ++ [p])) ;;
      ok <- Connect p ;;
      if ok : bool then start_conns n'
      else
        ps <- st_get conns_ ;;
        close_all ps ;;
        st_mod (λ m, set_conns m []) ;;
        st_ret false
  end.

Definition Start (conns max_conn : Z) : M bool :=
  run <- st_get running_ ;;
  if run : bool then st_ret false
  else if max_conn <? conns then st_ret false
  else
    ok <- start_conns (Z.to_nat conns) ;;
    if ok : bool then
      st_mod (λ m, set_pool m conns max_conn true) ;;
      st_mod (λ m, set_free m (free_queue_ m ++ conns_ m)) ;;
      st_ret true
    else st_ret false.

(** Waking the sleepers is the caller's step of [DbmPool] *)
Definition Stop : M bool :=
  run <- st_get running_ ;;
  if run : bool then
    ps <- st_get conns_ ;;
    close_all ps ;;
    st_mod (λ m, set_conns m []) ;;
    st_mod (λ m, set_pool m 0 0 false) ;;
    st_ret true
  else st_ret false.

Definition CreateConn : M (option nat) :=
  p <- st_get next_cell ;;
  st_mod alloc_conn ;;
  ok <- Connect p ;;
  if ok : bool then
    st_mod (λ m, set_conns m (conns_ m ++ [p])) ;;
    st_mod (λ m, set_pool m (u32 (pool_size_ m + 1)) (pool_max_cap_ m) (running_ m)) ;;
    st_ret (Some p)
  else st_ret None.

(** What a pass of [GetIdleConn] under the latch comes to *)
Inductive got := GConn (p : nat) | GNull | GWait.

(** The code behind the loop *)
Definition take_idle : M got :=
  run <- st_get running_ ;;
  if negb run then st_ret GNull
  else
    q <- st_get free_queue_ ;;
    match q with
    | [] => st_res (UB out_of_bounds)
    | p :: q' => st_mod (λ m, set_free m q') ;; st_ret (GConn p)
    end.

(** The loop and what follows it, from taking the latch to releasing it *)
Fixpoint get_idle_loop (fuel : nat) : M got :=
  match fuel with
  | O => st_res (UB no_progress)
  | S fuel' =>
      q <- st_get free_queue_ ;;
      run <- st_get running_ ;;
      match q, run with
      | [], true =>
          room <- st_get (λ m, u32 (pool_size_ m + 1) <=? pool_max_cap_ m) ;;
          if room : bool then
            c <- CreateConn ;;
            match c with
            | Some p => st_mod (λ m, set_free m (free_queue_ m ++ [p])) ;; get_idle_loop fuel'
            | None => st_ret GNull
            end
          else st_ret GWait
      | _, _ => take_idle
      end
  end.

(** Two rounds are enough: a round that goes on has filled the queue. *)
Definition GetIdleConn : M got := get_idle_loop 2.

(** The push of [ReturnIdleConn]; [true] when it calls [notify_one] *)
Definition ReturnIdleConn (p : nat) : M bool :=
  wake <- st_get (λ m, match free_queue_ m with [] => true | _ => false end) ;;
  st_mod (λ m, set_free m (free_queue_ m ++ [p])) ;;
  st_ret wake.

(** The two requests by a thread that does not have to wait; [None] when it does *)
Definition VerifyUserInfo (username passcode : string) (uid0 : Z) : M (option (Z * Z)) :=
  g <- GetIdleConn ;;
  match g with
  | GWait => st_ret None
  | GNull => st_ret (Some (GATEWAY_UNKNOWN_ERROR, uid0))
  | GConn p => ret <- conn_VerifyUserInfo p username passcode uid0 ;; ReturnIdleConn p ;; st_ret (Some ret)
  end.

Definition RegisterNew (rnd : option (list Z)) (username passcode : string) (uid : Z) : M (option Z) :=
  g <- GetIdleConn ;;
  match g with
  | GWait => st_ret None
  | GNull => st_ret (Some GATEWAY_UNKNOWN_ERROR)
  | GConn p => ret <- conn_RegisterNew rnd p username passcode uid ;; ReturnIdleConn p ;; st_ret (Some ret)
  end.
End dbm.
