(* ===== verification/DbmPool.v ===== *)
(** * The connection pool under concurrent use
      (src/src/http/dbm/gateway_dbm.cpp, gateway_dbm.hpp)

    The threads of the gateway share one [DBM].  A region under [latch_] is one step; a thread
    is idle, asleep on the condition variable, woken but not yet running, or using a
    connection.  [notify_one] wakes some sleeping thread if there is one, [notify_all] all of
    them, and a sleeping thread may also wake by itself.

    [Start] and [Stop] do not take [latch_], so they are single steps only while no other
    thread is in a call of the pool: the runs have them between the calls ([calls_done]).  The
    gateway starts the pool before it accepts and never stops it.  What an overlapping [Stop]
    does is [DbmFacts.unlatched_stop_shares]. *)

From S2P Require Import Prelude Decimal CppString Security Dbm.

(** ** What operations on one connection leave alone *)

Definition pool_view {D} (m : DBM D) :=
  (conns_ m, free_queue_ m, pool_size_ m, pool_max_cap_ m, running_ m, params_ m, next_cell m).

Section calm.
Context {D : Type} `{!MySql D, !Crypto}.

(** The program returns, touches no connection but [p], and leaves the pool's members. *)
Definition calm {A} (p : nat) (prog : st (DBM D) A) : Prop := ∀ m,
  is_Some (cells m !! p) →
  ∃ a m', prog m = (m', Ok a) ∧ is_Some (cells m' !! p)
    ∧ (∀ q, q ≠ p → cells m' !! q = cells m !! q) ∧ pool_view m' = pool_view m.

Lemma calm_ret {A} p (a : A) : calm p (st_ret a).
Proof. intros m Hp. by exists a, m. Qed.

Lemma calm_get {A} p (f : DBM D → A) : calm p (st_get f).
Proof. intros m Hp. by exists (f m), m. Qed.

Lemma calm_bind {A B} p (prog : st (DBM D) A) (k : A → st (DBM D) B) :
  calm p prog → (∀ a, calm p (k a)) → calm p (st_bind prog k).
Proof.
  intros H1 H2 m Hp. destruct (H1 m Hp) as (a & m1 & E1 & Hp1 & Hq1 & Hv1).
  destruct (H2 a m1 Hp1) as (b & m2 & E2 & Hp2 & Hq2 & Hv2).
  exists b, m2. rewrite (st_bind_Ok _ _ m m1 a E1). split_and!; [done|done| |congruence].
  intros q Hq. by rewrite Hq2, Hq1.
Qed.

Lemma calm_get_conn p : calm p (get_conn p).
Proof. intros m [c Hc]. exists c, m. unfold get_conn. by rewrite Hc. Qed.

Lemma calm_put_conn p c : calm p (put_conn (D := D) p c).
Proof.
  intros m Hp. eexists tt, _. split; [reflexivity|]. cbn. rewrite lookup_insert_eq. split_and!; [done| |done].
  intros q Hq. by rewrite lookup_insert_ne.
Qed.

Lemma calm_call {A} p (f : D → D * A) : calm p (my_call f).
Proof.
  intros m Hp. unfold my_call. destruct (f (mysql m)) as [d a]. by exists a, (set_mysql m d).
Qed.

Create HintDb calm.
Hint Resolve calm_ret calm_get calm_get_conn calm_put_conn calm_call : calm.

(** Walks through a program, splitting on the values it tests. *)
Ltac calm_step :=
  repeat first
    [ progress auto with calm
    | apply calm_bind; [|intros ?]
    | match goal with |- calm _ (match ?x with _ => _ end) => destruct x end ].

Lemma calm_set_valid p b : calm p (set_valid p b).
Proof. unfold set_valid. calm_step. Qed.
Hint Resolve calm_set_valid : calm.

Lemma calm_close_statements p l : calm p (close_statements p l).
Proof. induction l; cbn [close_statements]; calm_step. Qed.
Hint Resolve calm_close_statements : calm.

Lemma calm_CloseImpl p : calm p (CloseImpl p).
Proof. unfold CloseImpl. calm_step. Qed.
Hint Resolve calm_CloseImpl : calm.

Lemma calm_Close p : calm p (Close p).
Proof. unfold Close. calm_step. Qed.
Hint Resolve calm_Close : calm.

Lemma calm_InitStmt p : calm p (InitStmt p).
Proof. unfold InitStmt. calm_step. Qed.
Hint Resolve calm_InitStmt : calm.

Lemma calm_Connect p : calm p (Connect p).
Proof. unfold Connect, ReconnectImpl. calm_step. Qed.

(** A closed connection is not valid. *)
Lemma Close_invalid p m m' a c :
  Close p m = (m', Ok a) → cells m' !! p = Some c → valid_ c = false.
Proof.
  unfold Close, st_bind, get_conn. destruct (cells m !! p) as [c0|] eqn:E0; [|done].
  destruct (valid_ c0) eqn:Ev.
  - unfold CloseImpl, st_bind, get_conn. rewrite E0.
    set (l := [_; _; _]). destruct (close_statements p l m) as [m1 [u| |]] eqn:E1; [|done..].
    unfold my_call. destruct (my_close (mysql m1) p) as [d e].
    unfold set_valid, st_bind, get_conn. destruct (cells (set_mysql m1 d) !! p) as [c1|]; [|done].
    intros Hm Hc. injection Hm as <- _. cbn in Hc. rewrite lookup_insert_eq in Hc. by injection Hc as <-.
  - intros Hm Hc. injection Hm as <- _. rewrite E0 in Hc. by injection Hc as <-.
Qed.

Lemma pool_view_eq (m m' : DBM D) :
  pool_view m' = pool_view m →
  conns_ m' = conns_ m ∧ free_queue_ m' = free_queue_ m ∧ pool_size_ m' = pool_size_ m
  ∧ pool_max_cap_ m' = pool_max_cap_ m ∧ running_ m' = running_ m ∧ params_ m' = params_ m ∧ next_cell m' = next_cell m.
Proof. unfold pool_view. intros Hm. by simplify_eq. Qed.

(** The same cells exist. *)
Definition same_dom (m m' : DBM D) : Prop := ∀ q, is_Some (cells m' !! q) ↔ is_Some (cells m !! q).

Lemma close_all_spec ps m :
  Forall (λ p, is_Some (cells m !! p)) ps →
  ∃ m', close_all ps m = (m', Ok tt) ∧ same_dom m m' ∧ pool_view m' = pool_view m
    ∧ (∀ q, q ∉ ps → cells m' !! q = cells m !! q)
    ∧ (∀ q c, q ∈ ps → cells m' !! q = Some c → valid_ c = false).
Proof.
  revert m; induction ps as [|p ps IH]; intros m Hps.
  { exists m. split_and!; try done. intros q c []%elem_of_nil. }
  inversion_clear Hps as [|?? Hp Hps']. cbn [close_all].
  destruct (calm_Close p m Hp) as (b & m1 & E1 & Hp1 & Hq1 & Hv1).
  destruct (IH m1) as (m2 & E2 & Hd2 & Hv2 & Ho2 & Hc2).
  { revert Hps'. apply List.Forall_impl. intros q Hq. destruct (decide (q = p)) as [->|Hne]; [done|]. by rewrite Hq1. }
  exists m2. rewrite (st_bind_Ok _ _ m m1 b E1). split_and!; [done| |congruence| |].
  - intros q. etransitivity; [apply Hd2|]. destruct (decide (q = p)) as [->|Hne]; [done|]. by rewrite Hq1.
  - intros q [Hne Hq]%not_elem_of_cons. by rewrite Ho2, Hq1.
  - intros q c Hin Hc. destruct (decide (q ∈ ps)) as [|Hn]; [by eapply Hc2|].
    apply elem_of_cons in Hin as [->|]; [|done]. rewrite Ho2 in Hc by done. by eapply Close_invalid.
Qed.

(** ** Creating connections *)

(** [m'] has the queue and the counters of [m], keeps its cells, and has changed none of the
    older ones but those of [conns_ m]. *)
Definition grows (m m' : DBM D) : Prop :=
  free_queue_ m' = free_queue_ m ∧ pool_size_ m' = pool_size_ m ∧ pool_max_cap_ m' = pool_max_cap_ m
  ∧ running_ m' = running_ m ∧ (next_cell m <= next_cell m')%nat
  ∧ (∀ q, is_Some (cells m !! q) → is_Some (cells m' !! q))
  ∧ (∀ q, (q < next_cell m)%nat → q ∉ conns_ m → cells m' !! q = cells m !! q).

(** [make_shared<DBConn>] followed by [Connect] *)
Lemma alloc_Connect m :
  ∃ ok m', Connect (next_cell m) (alloc_conn m) = (m', Ok ok)
    ∧ pool_view m' = pool_view (alloc_conn m)
    ∧ is_Some (cells m' !! next_cell m)
    ∧ (∀ q, q ≠ next_cell m → cells m' !! q = cells m !! q).
Proof.
  destruct (calm_Connect (next_cell m) (alloc_conn m)) as (ok & m' & E & Hp & Hq & Hv).
  { cbn. by rewrite lookup_insert_eq. }
  exists ok, m'. split_and!; [done..|]. intros q Hne. rewrite Hq by done. cbn. by rewrite lookup_insert_ne.
Qed.

Lemma CreateConn_spec m :
  ∃ r m', CreateConn m = (m', Ok r)
    ∧ next_cell m' = S (next_cell m) ∧ free_queue_ m' = free_queue_ m ∧ pool_max_cap_ m' = pool_max_cap_ m
    ∧ running_ m' = running_ m ∧ is_Some (cells m' !! next_cell m)
    ∧ (∀ q, q ≠ next_cell m → cells m' !! q = cells m !! q)
    ∧ match r with
      | Some p => p = next_cell m ∧ conns_ m' = conns_ m ++ [p] ∧ pool_size_ m' = u32 (pool_size_ m + 1)
      | None => conns_ m' = conns_ m ∧ pool_size_ m' = pool_size_ m
      end.
Proof.
  destruct (alloc_Connect m) as (ok & m1 & E & Hv & Hp & Hq).
  apply pool_view_eq in Hv as (Hc & Hf & Hs & Hm & Hr & _ & Hn). unfold CreateConn.
  rewrite (st_bind_Ok _ _ m m (next_cell m)) by done. rewrite (st_bind_Ok _ _ m (alloc_conn m) tt) by done.
  rewrite (st_bind_Ok _ _ _ m1 ok) by done. destruct ok.
  - eexists (Some (next_cell m)), _. split; [reflexivity|]. cbn. rewrite Hc, Hs. by split_and!.
  - exists None, m1. by split_and!.
Qed.

Lemma start_conns_spec n m :
  (∀ p, p ∈ conns_ m → is_Some (cells m !! p)) →
  ∃ ok m', start_conns n m = (m', Ok ok) ∧ grows m m'
    ∧ if ok : bool then conns_ m' = conns_ m ++ seq (next_cell m) n ∧ next_cell m' = (next_cell m + n)%nat
        ∧ ∀ p, p ∈ conns_ m' → is_Some (cells m' !! p)
      else conns_ m' = [].
Proof.
  revert m; induction n as [|n IH]; intros m Hcs.
  { exists true, m. split_and!; [done|by repeat split|by rewrite app_nil_r|cbn; lia|done]. }
  cbn [start_conns]. set (p := next_cell m). set (m0 := set_conns (alloc_conn m) (conns_ m ++ [p])).
  rewrite (st_bind_Ok _ _ m m p) by done. rewrite (st_bind_Ok _ _ m (alloc_conn m) tt) by done.
  rewrite (st_bind_Ok _ _ (alloc_conn m) m0 tt) by done.
  destruct (calm_Connect p m0) as (ok & m1 & E & Hp & Hq & Hv); [cbn; by rewrite lookup_insert_eq|].
  apply pool_view_eq in Hv as (Hc & Hf & Hs & Hm & Hr & Hpar & Hn). cbn in Hc, Hf, Hs, Hm, Hr, Hpar, Hn.
  rewrite (st_bind_Ok _ _ m0 m1 ok) by done.
  assert (Hold : ∀ q, q ≠ p → cells m1 !! q = cells m !! q).
  { intros q Hne. rewrite Hq by done. cbn. by rewrite lookup_insert_ne. }
  assert (Hsome : ∀ q, is_Some (cells m !! q) → is_Some (cells m1 !! q)).
  { intros q Hs'. destruct (decide (q = p)) as [->|Hne]; [done|]. by rewrite Hold. }
  assert (Hcs1 : ∀ q, q ∈ conns_ m1 → is_Some (cells m1 !! q)).
  { intros q. rewrite Hc. intros [Hin| ->%list_elem_of_singleton]%elem_of_app; [|done]. by apply Hsome, Hcs. }
  destruct ok.
  - destruct (IH m1 Hcs1) as (ok & m2 & E2 & (G1 & G2 & G3 & G4 & G5 & G6 & G7) & Hrest).
    exists ok, m2. split; [done|]. split.
    + repeat split; try congruence; [rewrite Hn in G5; lia|auto|].
      intros q Hlt Hni. rewrite G7; [apply Hold; unfold p; lia|rewrite Hn; lia|].
      rewrite Hc. intros [Hin| ->%list_elem_of_singleton]%elem_of_app; [done|unfold p in Hlt; lia].
    + destruct ok; [|done]. destruct Hrest as (R1 & R2 & R3). rewrite R1, R2, Hc, Hn. cbn [seq].
      rewrite <- app_assoc. split_and!; [done|lia|]. intros q Hin. apply R3.
      rewrite R1, Hc, Hn. rewrite <- app_assoc. exact Hin.
  - rewrite (st_bind_Ok _ _ m1 m1 (conns_ m1)) by done.
    destruct (close_all_spec (conns_ m1) m1) as (m2 & E2 & Hd2 & Hv2 & Ho2 & _); [by apply List.Forall_forall; intros q ?%list_elem_of_In; apply Hcs1|].
    apply pool_view_eq in Hv2 as (Hc2 & Hf2 & Hs2 & Hm2 & Hr2 & _ & Hn2).
    rewrite (st_bind_Ok _ _ m1 m2 tt) by done.
    exists false, (set_conns m2 []). split; [reflexivity|]. split; [|done]. repeat split; cbn; try congruence; [lia| |].
    + intros q Hq'. apply Hd2. auto.
    + intros q Hlt Hni. rewrite Ho2; [apply Hold; unfold p; lia|].
      rewrite Hc. intros [Hin| ->%list_elem_of_singleton]%elem_of_app; [done|unfold p in Hlt; lia].
Qed.
End calm.

(** ** One call of [GetIdleConn] *)

Section idle.
Context {D : Type} `{!MySql D, !Crypto}.

(** What a call under the latch does: takes the front of the queue, makes a connection and
    takes it, gives up (the pool is stopped, or a new connection could not be made), or finds
    the pool exhausted. *)
Definition idle_outcome (m : DBM D) (g : got) (m' : DBM D) : Prop :=
  match g with
  | GConn p =>
      running_ m = true ∧
      ((∃ q, free_queue_ m = p :: q ∧ m' = set_free m q)
       ∨ (free_queue_ m = [] ∧ p = next_cell m ∧ free_queue_ m' = [] ∧ conns_ m' = conns_ m ++ [p]
          ∧ u32 (pool_size_ m + 1) <= pool_max_cap_ m ∧ pool_size_ m' = u32 (pool_size_ m + 1)
          ∧ pool_max_cap_ m' = pool_max_cap_ m ∧ running_ m' = true ∧ next_cell m' = S p
          ∧ is_Some (cells m' !! p) ∧ ∀ q, q ≠ p → cells m' !! q = cells m !! q))
  | GNull =>
      (running_ m = false ∧ m' = m)
      ∨ (running_ m = true ∧ free_queue_ m' = free_queue_ m ∧ conns_ m' = conns_ m ∧ pool_size_ m' = pool_size_ m
         ∧ pool_max_cap_ m' = pool_max_cap_ m ∧ running_ m' = true ∧ next_cell m' = S (next_cell m)
         ∧ ∀ q, is_Some (cells m !! q) → is_Some (cells m' !! q))
  | GWait => running_ m = true ∧ free_queue_ m = [] ∧ pool_max_cap_ m < u32 (pool_size_ m + 1) ∧ m' = m
  end.

Lemma take_idle_spec (m : DBM D) :
  (running_ m = true → free_queue_ m ≠ []) →
  take_idle m = match free_queue_ m with
                | p :: q => if running_ m then (set_free m q, Ok (GConn p)) else (m, Ok GNull)
                | [] => (m, Ok GNull)
                end.
Proof.
  intros Hne. unfold take_idle. rewrite (st_bind_Ok _ _ m m (running_ m)) by done.
  destruct (running_ m); cbn [negb]; [|by destruct (free_queue_ m)].
  rewrite (st_bind_Ok _ _ m m (free_queue_ m)) by done. destruct (free_queue_ m); [by destruct Hne|done].
Qed.

Lemma GetIdleConn_spec (m : DBM D) : ∃ g m', GetIdleConn m = (m', Ok g) ∧ idle_outcome m g m'.
Proof.
  unfold GetIdleConn. cbn [get_idle_loop]. rewrite (st_bind_Ok _ _ m m (free_queue_ m)) by done.
  rewrite (st_bind_Ok _ _ m m (running_ m)) by done.
  destruct (free_queue_ m) as [|p q] eqn:Ef.
  - destruct (running_ m) eqn:Er.
    + rewrite (st_bind_Ok _ _ m m (u32 (pool_size_ m + 1) <=? pool_max_cap_ m)) by done.
      destruct (Z.leb_spec (u32 (pool_size_ m + 1)) (pool_max_cap_ m)) as [Hle|Hgt].
      * destruct (CreateConn_spec m) as (r & m1 & E & Hn & Hf & Hm & Hr & Hp & Hq & Hc).
        rewrite (st_bind_Ok _ _ m m1 r) by done. destruct r as [p|].
        -- destruct Hc as (-> & Hc & Hs). set (p := next_cell m) in *.
           set (m2 := set_free m1 (free_queue_ m1 ++ [p])).
           rewrite (st_bind_Ok _ _ m1 m2 tt) by done. rewrite (st_bind_Ok _ _ m2 m2 (free_queue_ m2)) by done.
           rewrite (st_bind_Ok _ _ m2 m2 true) by (unfold st_get; cbn; by rewrite Hr, Er).
           assert (E2 : free_queue_ m2 = [p]) by (cbn; by rewrite Hf, Ef). rewrite E2.
           exists (GConn p), (set_free m2 []). rewrite take_idle_spec by (by rewrite E2). rewrite E2.
           assert (running_ m2 = true) as -> by (cbn; by rewrite Hr, Er). split; [done|]. cbn.
           split; [done|]. right. split_and!; try done. by rewrite Hr, Er.
        -- exists GNull, m1. split; [done|]. cbn. right. destruct Hc as [Hc Hs]. split_and!; try congruence.
           intros q Hq'. destruct (decide (q = next_cell m)) as [->|Hne]; [done|]. by rewrite Hq.
      * exists GWait, m. by split_and!.
    + exists GNull, m. rewrite take_idle_spec by (by rewrite Er). rewrite Ef. split; [done|]. by left.
  - assert (take_idle m = if running_ m then (set_free m q, Ok (GConn p)) else (m, Ok GNull)) as E.
    { rewrite take_idle_spec by (by rewrite Ef). by rewrite Ef. }
    destruct (running_ m) eqn:Er; rewrite E.
    + exists (GConn p), (set_free m q). split; [done|]. cbn. eauto.
    + exists GNull, m. split; [done|]. by left.
Qed.
End idle.

(** ** Threads *)

Inductive tstate := TIdle | TWaiting | TWoken | TUsing (p : nat).

#[global] Instance tstate_eq_dec : EqDecision tstate.
Proof. solve_decision. Defined.

Record pool (D : Type) := mkPool { dbm : DBM D; threads : list tstate }.
Arguments mkPool {D}.
Arguments dbm {D} _.
Arguments threads {D} _.

Definition conn_of (t : tstate) : option nat := match t with TUsing p => Some p | _ => None end.

(** The connections in use *)
Definition used (ts : list tstate) : list nat := omap conn_of ts.

Definition after_got (g : got) : tstate :=
  match g with GConn p => TUsing p | GNull => TIdle | GWait => TWaiting end.

(** [notify_all] *)
Definition wake_all (ts : list tstate) : list tstate :=
  map (λ t, match t with TWaiting => TWoken | _ => t end) ts.

(** No thread is in a call of the pool *)
Definition calls_done (ts : list tstate) : bool := forallb (λ t, bool_decide (t = TIdle)) ts.

Section pool.
Context {D : Type} `{!MySql D, !Crypto} (ndebug : bool) (junk : nat → list Z).

Inductive pool_step : pool D → pool D → Prop :=
  | step_start m ts conns max_conn m' b :
      calls_done ts = true →
      0 <= conns < 2 ^ 32 → 0 <= max_conn < 2 ^ 32 - 1 → Start conns max_conn m = (m', Ok b) →
      pool_step (mkPool m ts) (mkPool m' ts)
  | step_stop m ts m' b :
      calls_done ts = true →
      Stop m = (m', Ok b) → pool_step (mkPool m ts) (mkPool m' (if b : bool then wake_all ts else ts))
  | step_get m ts i m' g :                       (* a call, or the loop after a wait *)
      ts !! i = Some TIdle ∨ ts !! i = Some TWoken → GetIdleConn m = (m', Ok g) →
      pool_step (mkPool m ts) (mkPool m' (<[i := after_got g]> ts))
  | step_verify m ts i p name pass uid0 m' r :
      ts !! i = Some (TUsing p) → conn_VerifyUserInfo p name pass uid0 m = (m', Ok r) →
      pool_step (mkPool m ts) (mkPool m' ts)
  | step_register m ts i p rnd name pass uid m' r :
      ts !! i = Some (TUsing p) → conn_RegisterNew ndebug junk rnd p name pass uid m = (m', Ok r) →
      pool_step (mkPool m ts) (mkPool m' ts)
  | step_return m ts i p m' wake :               (* nobody to notify *)
      ts !! i = Some (TUsing p) → ReturnIdleConn p m = (m', Ok wake) → wake = false ∨ TWaiting ∉ ts →
      pool_step (mkPool m ts) (mkPool m' (<[i := TIdle]> ts))
  | step_return_wake m ts i p j m' :             (* [notify_one] *)
      ts !! i = Some (TUsing p) → ReturnIdleConn p m = (m', Ok true) → ts !! j = Some TWaiting →
      pool_step (mkPool m ts) (mkPool m' (<[j := TWoken]> (<[i := TIdle]> ts)))
  | step_spurious m ts j :
      ts !! j = Some TWaiting → pool_step (mkPool m ts) (mkPool m (<[j := TWoken]> ts)).

(** Runs of [n] threads from a fresh pool *)
Inductive pool_reach (ps : ConnParams) (d : D) (n : nat) : pool D → Prop :=
  | reach_init : pool_reach ps d n (mkPool (DBM_new ps d) (replicate n TIdle))
  | reach_step P P' : pool_reach ps d n P → pool_step P P' → pool_reach ps d n P'.

(** ** The invariant *)

(** The connections that are free or in use are distinct and exist; those of [conns_] too;
    a stopped pool owns none; a running one counts them and stays within its limit. *)
Definition pool_inv (P : pool D) : Prop :=
  let m := dbm P in
  let held := free_queue_ m ++ used (threads P) in
  NoDup held ∧ NoDup (conns_ m)
  ∧ (∀ p, p ∈ held ∨ p ∈ conns_ m → (p < next_cell m)%nat ∧ is_Some (cells m !! p))
  ∧ (running_ m = false → conns_ m = [])
  ∧ (running_ m = true → pool_size_ m = Z.of_nat (length (conns_ m))
       ∧ pool_size_ m <= pool_max_cap_ m < 2 ^ 32 - 1).

Lemma used_insert ts i t0 :
  ts !! i = Some t0 →
  ∃ rest, used ts ≡ₚ option_list (conn_of t0) ++ rest
    ∧ ∀ t, used (<[i := t]> ts) ≡ₚ option_list (conn_of t) ++ rest.
Proof.
  intros Hi. pose proof (lookup_lt_Some _ _ _ Hi) as Hlt.
  assert (Hmid : ∀ t a b, used (a ++ t :: b) ≡ₚ option_list (conn_of t) ++ (used a ++ used b)).
  { intros t a b. unfold used. rewrite omap_app. cbn.
    destruct (conn_of t); cbn; [|done]. by rewrite <- Permutation_middle. }
  exists (used (take i ts) ++ used (drop (S i) ts)). split.
  - rewrite <- (take_drop_middle ts i t0 Hi) at 1. apply Hmid.
  - intros t. rewrite insert_take_drop by done. apply Hmid.
Qed.

(** Threads that use no connection may change their state. *)
Lemma used_insert_none ts i t0 t :
  ts !! i = Some t0 → conn_of t0 = None → conn_of t = None → used (<[i := t]> ts) ≡ₚ used ts.
Proof.
  intros Hi H0 H1. destruct (used_insert ts i t0 Hi) as (rest & E & E'). by rewrite E, (E' t), H0, H1.
Qed.

Lemma used_wake_all ts : used (wake_all ts) = used ts.
Proof.
  unfold used, wake_all. induction ts as [|t ts IH]; [done|]. cbn. rewrite IH. by destruct t.
Qed.

(** The invariant depends on the multiset of connections held. *)
Lemma pool_inv_perm m ts m' ts' :
  pool_inv (mkPool m ts) →
  free_queue_ m' ++ used ts' ≡ₚ free_queue_ m ++ used ts →
  conns_ m' = conns_ m → running_ m' = running_ m → pool_size_ m' = pool_size_ m →
  pool_max_cap_ m' = pool_max_cap_ m → (next_cell m <= next_cell m')%nat →
  (∀ q, is_Some (cells m !! q) → is_Some (cells m' !! q)) →
  pool_inv (mkPool m' ts').
Proof.
  intros (I1 & I2 & I3 & I4 & I5) Hp Hc Hr Hs Hm Hn Hx. unfold pool_inv. cbn [dbm threads] in *.
  rewrite Hc, Hr, Hs, Hm, Hp. split_and!; [done|done| |done|done].
  intros p Hin. rewrite Hp in Hin. destruct (I3 p Hin). split; [lia|auto].
Qed.

(** The same when one new connection is held. *)
Lemma pool_inv_fresh m ts m' ts' p :
  pool_inv (mkPool m ts) → p = next_cell m → running_ m = true → running_ m' = true →
  free_queue_ m' ++ used ts' ≡ₚ p :: (free_queue_ m ++ used ts) →
  conns_ m' = conns_ m ++ [p] → u32 (pool_size_ m + 1) <= pool_max_cap_ m →
  pool_size_ m' = u32 (pool_size_ m + 1) → pool_max_cap_ m' = pool_max_cap_ m → next_cell m' = S p →
  is_Some (cells m' !! p) → (∀ q, q ≠ p → cells m' !! q = cells m !! q) →
  pool_inv (mkPool m' ts').
Proof.
  intros (I1 & I2 & I3 & I4 & I5) -> Hr Hr' Hp Hc Hle Hs Hm Hn Hx Hq. unfold pool_inv. cbn [dbm threads] in *.
  assert (Hnew : ∀ q, q = next_cell m ∨ (q ∈ free_queue_ m ++ used ts ∨ q ∈ conns_ m) →
            (q < next_cell m')%nat ∧ is_Some (cells m' !! q)).
  { intros q [->|Hin]; [split; [lia|done]|]. destruct (I3 q Hin) as [Hlt Hsome].
    rewrite Hq by lia. split; [lia|done]. }
  assert (Hout : (next_cell m ∉ free_queue_ m ++ used ts) ∧ next_cell m ∉ conns_ m).
  { split; intros Hin; [destruct (I3 (next_cell m) (or_introl Hin))|destruct (I3 (next_cell m) (or_intror Hin))]; lia. }
  rewrite Hc, Hp, Hr', Hs, Hm. destruct (I5 Hr) as [Hsz Hcap]. split_and!.
  - constructor; [by destruct Hout|done].
  - rewrite <- Permutation_cons_append. constructor; [by destruct Hout|done].
  - intros q Hin. apply Hnew. rewrite Hp in Hin. set_solver.
  - done.
  - intros _. rewrite length_app. cbn. rewrite u32_id in * by (unfold is_u32; lia). split; lia.
Qed.

(** ** Starting and stopping *)

Lemma Start_cases (m : DBM D) conns max_conn :
  conns_ m = [] → 0 <= conns →
  ∃ b m', Start conns max_conn m = (m', Ok b)
    ∧ if b : bool then
        running_ m = false ∧ conns <= max_conn ∧ running_ m' = true ∧ pool_size_ m' = conns ∧ pool_max_cap_ m' = max_conn
        ∧ conns_ m' = seq (next_cell m) (Z.to_nat conns) ∧ free_queue_ m' = free_queue_ m ++ conns_ m'
        ∧ next_cell m' = (next_cell m + Z.to_nat conns)%nat
        ∧ (∀ p, is_Some (cells m !! p) ∨ p ∈ conns_ m' → is_Some (cells m' !! p))
        ∧ (∀ p, (p < next_cell m)%nat → cells m' !! p = cells m !! p)
      else m' = m ∨ (grows m m' ∧ conns_ m' = []).
Proof.
  intros Hc H0. unfold Start. rewrite (st_bind_Ok _ _ m m (running_ m)) by done.
  destruct (running_ m) eqn:Er; [by exists false, m; auto|].
  destruct (Z.ltb_spec max_conn conns); [by exists false, m; auto|].
  destruct (start_conns_spec (Z.to_nat conns) m) as (ok & m1 & E & G & Hrest); [rewrite Hc; by intros p ?%elem_of_nil|].
  rewrite (st_bind_Ok _ _ m m1 ok) by done. destruct ok; [|by exists false, m1; auto].
  destruct G as (G1 & G2 & G3 & G4 & G5 & G6 & G7), Hrest as (R1 & R2 & R3). rewrite Hc in R1, G7. cbn [app] in R1.
  eexists true, _. split; [reflexivity|]. cbn. rewrite G1, R1, R2. split_and!; try done.
  - intros p [Hp|Hp]; [by apply G6|apply R3; by rewrite R1].
  - intros p Hlt. apply G7; [done|]. by intros ?%elem_of_nil.
Qed.

(** [Start] on a running pool does nothing. *)
Lemma Start_running (m : DBM D) conns max_conn : running_ m = true → Start conns max_conn m = (m, Ok false).
Proof. intros Hr. unfold Start, st_bind, st_get. by rewrite Hr. Qed.

Lemma Start_inv m ts conns max_conn m' b :
  0 <= conns < 2 ^ 32 → 0 <= max_conn < 2 ^ 32 - 1 → Start conns max_conn m = (m', Ok b) →
  pool_inv (mkPool m ts) → pool_inv (mkPool m' ts).
Proof.
  intros Hcb Hmb E I. destruct (running_ m) eqn:Er.
  { rewrite Start_running in E by done. by injection E as <- _. }
  pose proof I as (I1 & I2 & I3 & I4 & I5). cbn [dbm threads] in *.
  destruct (Start_cases m conns max_conn) as (b' & m1 & E' & Hs); [auto|lia|].
  rewrite E in E'. injection E' as <- <-. destruct b.
  - destruct Hs as (_ & Hle & Hr & Hsz & Hcap & Hcs & Hf & Hn & Hx & _). unfold pool_inv. cbn [dbm threads].
    assert (Hold : ∀ p, p ∈ free_queue_ m ++ used ts → (p < next_cell m)%nat ∧ is_Some (cells m !! p)) by auto.
    rewrite Hr, Hsz, Hcap. split_and!.
    + rewrite Hf, <- app_assoc, (Permutation_app_comm (conns_ m')), app_assoc.
      apply list.NoDup_app. split_and!; [done| |rewrite Hcs; apply NoDup_seq].
      intros p Hp. rewrite Hcs, elem_of_seq. destruct (Hold p Hp). lia.
    + rewrite Hcs. apply NoDup_seq.
    + rewrite Hf. intros p Hp.
      assert (p ∈ free_queue_ m ++ used ts ∨ p ∈ conns_ m') as [Hp'|Hp'] by set_solver.
      * destruct (Hold p Hp'). split; [lia|auto].
      * split; [rewrite Hcs, elem_of_seq in Hp'; lia|auto].
    + done.
    + intros _. rewrite Hcs, length_seq. lia.
  - destruct Hs as [->|[(G1 & G2 & G3 & G4 & G5 & G6 & G7) Hcs]]; [done|].
    eapply (pool_inv_perm m ts); [done|by rewrite G1|rewrite Hcs; symmetry; auto|done..].
Qed.

Lemma Stop_cases (m : DBM D) :
  (∀ p, p ∈ conns_ m → is_Some (cells m !! p)) →
  ∃ b m', Stop m = (m', Ok b)
    ∧ if b : bool then
        running_ m = true ∧ running_ m' = false ∧ conns_ m' = [] ∧ free_queue_ m' = free_queue_ m
        ∧ next_cell m' = next_cell m ∧ same_dom m m'
        ∧ (∀ p c, p ∈ conns_ m → cells m' !! p = Some c → valid_ c = false)
      else m' = m.
Proof.
  intros Hcs. unfold Stop. rewrite (st_bind_Ok _ _ m m (running_ m)) by done.
  destruct (running_ m) eqn:Er; [|by exists false, m].
  rewrite (st_bind_Ok _ _ m m (conns_ m)) by done.
  destruct (close_all_spec (conns_ m) m) as (m1 & E & Hd & Hv & _ & Hc).
  { apply List.Forall_forall. intros p Hp%list_elem_of_In. auto. }
  apply pool_view_eq in Hv as (Hcv & Hf & _ & _ & _ & _ & Hn).
  rewrite (st_bind_Ok _ _ m m1 tt) by done. eexists true, _. split; [reflexivity|]. by split_and!.
Qed.

Lemma Stop_inv m ts m' b :
  Stop m = (m', Ok b) → pool_inv (mkPool m ts) → pool_inv (mkPool m' (if b : bool then wake_all ts else ts)).
Proof.
  intros E (I1 & I2 & I3 & I4 & I5). cbn [dbm threads] in *.
  destruct (Stop_cases m) as (b' & m1 & E' & Hs); [intros p Hp; by apply I3; right|].
  rewrite E in E'. injection E' as <- <-. destruct b; [|by subst].
  destruct Hs as (_ & Hr & Hcs & Hf & Hn & Hd & _). unfold pool_inv. cbn [dbm threads].
  rewrite used_wake_all, Hf, Hr, Hcs, Hn. split_and!; [done|constructor| |done|done].
  intros p [Hp|Hp%elem_of_nil]; [|done]. destruct (I3 p (or_introl Hp)). split; [done|]. by apply Hd.
Qed.

(** ** Queries and returns *)

Lemma conn_VerifyUserInfo_view p name pass uid0 (m m' : DBM D) r :
  conn_VerifyUserInfo p name pass uid0 m = (m', r) → ∃ d, m' = set_mysql m d.
Proof.
  assert (Hm : ∃ d, m = set_mysql m d) by (exists (mysql m); by destruct m).
  unfold conn_VerifyUserInfo, st_bind, get_conn. destruct (cells m !! p); [|intros [= <- _]; done].
  unfold my_call. destruct (my_execute _ _ _ _) as [d1 [rs|]]; [|intros [= <- _]; eauto].
  unfold st_res. destruct (rows rs); [intros [= <- _]; eauto|].
  repeat (let x := match goal with |- context [match ?x with Ok _ => _ | _ => _ end] => x end in
          destruct x as [?|?|?]; [|intros [= <- _]; eauto..]).
  case_match; intros [= <- _]; eauto.
Qed.

Lemma conn_RegisterNew_view rnd p name pass uid (m m' : DBM D) r :
  conn_RegisterNew ndebug junk rnd p name pass uid m = (m', r) → ∃ d, m' = set_mysql m d.
Proof.
  assert (Hm : ∃ d, m = set_mysql m d) by (exists (mysql m); by destruct m).
  unfold conn_RegisterNew, st_bind, get_conn. destruct (cells m !! p); [|intros [= <- _]; done].
  unfold my_call. destruct (my_execute _ _ _ _) as [d1 [rs|]]; [|intros [= <- _]; eauto].
  unfold st_res. destruct (mbind _ (field_at rs 0 0)) as [n| |]; [|intros [= <- _]; eauto..].
  case_match; [intros [= <- _]; eauto|].
  destruct (HashPassword _ _ _ _ _) as [h| |]; [|intros [= <- _]; eauto..].
  cbn [mysql set_mysql]. destruct (my_execute d1 _ _ _) as [d2 [rs2|]]; [|intros [= <- _]; by exists d2].
  case_match; intros [= <- _]; by exists d2.
Qed.

Lemma query_inv m ts d : pool_inv (mkPool m ts) → pool_inv (mkPool (set_mysql m d) ts).
Proof. intros I. by eapply (pool_inv_perm m ts). Qed.

(** Giving a connection back and putting the thread in a state without one. *)
Lemma return_inv m ts i p ts' :
  ts !! i = Some (TUsing p) → used ts' ≡ₚ used (<[i := TIdle]> ts) →
  pool_inv (mkPool m ts) → pool_inv (mkPool (set_free m (free_queue_ m ++ [p])) ts').
Proof.
  intros Hi Hts I. apply (pool_inv_perm m ts); [done|cbn|done..].
  destruct (used_insert ts i _ Hi) as (rest & E & E'). rewrite Hts, (E' TIdle), E. cbn.
  rewrite <- app_assoc. done.
Qed.

Lemma get_inv m ts i m' g :
  ts !! i = Some TIdle ∨ ts !! i = Some TWoken → GetIdleConn m = (m', Ok g) →
  pool_inv (mkPool m ts) → pool_inv (mkPool m' (<[i := after_got g]> ts)).
Proof.
  intros Hi E I. destruct (GetIdleConn_spec m) as (g' & m1 & E' & Ho). rewrite E in E'. injection E' as <- <-.
  assert (∃ t0, ts !! i = Some t0 ∧ conn_of t0 = None) as (t0 & Ht0 & Hn0) by (destruct Hi; eauto).
  destruct (used_insert ts i t0 Ht0) as (rest & Hu & Hu'). rewrite Hn0 in Hu. cbn in Hu.
  destruct g as [p| |]; cbn in Ho; cbn [after_got].
  - destruct Ho as [Hr [(q & Hf & ->)|(Hf & Hp & Hf' & Hc & Hle & Hs & Hm & Hr' & Hn & Hx & Hq)]].
    + apply (pool_inv_perm m ts); [done|cbn|done..]. rewrite (Hu' (TUsing p)), Hf, Hu. cbn.
      symmetry. apply Permutation_middle.
    + apply (pool_inv_fresh m ts m' _ p); try done. rewrite Hf', Hf, (Hu' (TUsing p)), Hu. done.
  - destruct Ho as [[_ ->]|(Hr & Hf & Hc & Hs & Hm & Hr' & Hn & Hx)].
    + apply (pool_inv_perm m ts); try done. by rewrite (Hu' TIdle), Hu.
    + apply (pool_inv_perm m ts); try done; [by rewrite Hf, (Hu' TIdle), Hu|congruence|rewrite Hn; lia].
  - destruct Ho as (_ & _ & _ & ->). apply (pool_inv_perm m ts); try done. by rewrite (Hu' TWaiting), Hu.
Qed.

Lemma pool_step_inv P P' : pool_step P P' → pool_inv P → pool_inv P'.
Proof.
  intros Hs. destruct Hs; intros I.
  - by eapply Start_inv.
  - by eapply Stop_inv.
  - by eapply get_inv.
  - apply conn_VerifyUserInfo_view in H1 as [d ->]. by apply query_inv.
  - apply conn_RegisterNew_view in H1 as [d ->]. by apply query_inv.
  - injection H1 as <- _. by eapply return_inv.
  - injection H1 as <- _. eapply return_inv; [done| |done].
    eapply (used_insert_none _ _ TWaiting); [|done|done]. rewrite list_lookup_insert_ne; [done|]. intros ->. congruence.
  - eapply (pool_inv_perm m ts); [done|cbn|done..]. by erewrite used_insert_none.
Qed.

Lemma pool_reach_inv ps d n P : pool_reach ps d n P → pool_inv P.
Proof.
  induction 1; [|by eapply pool_step_inv].
  assert (E : used (replicate n TIdle) = []) by (by induction n).
  unfold pool_inv. cbn [dbm threads]. rewrite E. cbn.
  split_and!; [constructor|constructor| |done|done]. intros p [Hp|Hp]; by apply elem_of_nil in Hp.
Qed.

(** Steps on a state given as a whole *)
Lemma reach_get ps d n P i m' g P' :
  pool_reach ps d n P → threads P !! i = Some TIdle ∨ threads P !! i = Some TWoken →
  GetIdleConn (dbm P) = (m', Ok g) → P' = mkPool m' (<[i := after_got g]> (threads P)) →
  pool_reach ps d n P'.
Proof.
  intros HP Hi Hg ->. eapply reach_step; [done|]. destruct P as [m ts]. by eapply step_get.
Qed.
End pool.
