(* ===== verification/DbmFacts.v ===== *)
(** * Correctness of the gateway's user store
      (src/src/http/dbm/gateway_dbm.cpp, dbconn.cpp)

    [MySqlLaws] states what the code relies on of a healthy MySQL server: the three prepared
    statements read and extend the table [tbl_user], keyed by user name.  The schema is not
    part of the repository: whether the table also has a unique key on [uid], whose violation
    makes an INSERT fail, is a field of the class.  Under it the pool refines a table of
    users; the other theorems hold for any library. *)

From S2P Require Import Prelude Decimal CppString Security Dbm DbmPool.

(** A user: id and stored hash *)
Abbreviation users := (gmap string (Z * string)).

(** The user id is in use *)
Definition uid_taken {X} (u : gmap string (Z * X)) (uid : Z) : bool :=
  existsb (λ r : string * (Z * X), r.2.1 =? uid) (map_to_list u).

Lemma uid_taken_spec {X} (u : gmap string (Z * X)) uid :
  uid_taken u uid = true ↔ ∃ name x, u !! name = Some (uid, x).
Proof.
  unfold uid_taken. rewrite existsb_exists. split.
  - intros ([name [id x]] & Hin & Heq%Z.eqb_eq). cbn in Heq. subst id. exists name, x.
    by apply elem_of_map_to_list, list_elem_of_In.
  - intros (name & x & H). exists (name, (uid, x)). split; [|by apply Z.eqb_eq].
    by apply list_elem_of_In, elem_of_map_to_list.
Qed.

(** No id belongs to two names *)
Definition uids_distinct {X} (u : gmap string (Z * X)) : Prop :=
  ∀ n1 n2 uid x1 x2, u !! n1 = Some (uid, x1) → u !! n2 = Some (uid, x2) → n1 = n2.

Lemma uids_distinct_insert {X} (u : gmap string (Z * X)) name uid x :
  uids_distinct u → uid_taken u uid = false → uids_distinct (<[name := (uid, x)]> u).
Proof.
  intros Hd Hf. assert (Hn : ∀ n y, u !! n ≠ Some (uid, y)).
  { intros n y Hy. assert (uid_taken u uid = true); [|congruence]. apply uid_taken_spec. eauto. }
  intros n1 n2 id x1 x2. destruct (decide (n1 = name)) as [->|Hn1], (decide (n2 = name)) as [->|Hn2];
    rewrite ?lookup_insert_eq, ?lookup_insert_ne by done; [done| | |by apply Hd].
  - intros [= <- _] H. by destruct (Hn _ _ H).
  - intros H [= <- _]. by destruct (Hn _ _ H).
Qed.

Class MySqlLaws (D : Type) `{!MySql D} := {
  my_users : D → users;
  my_stmt : D → nat → Z → string → Prop;     (* the statement is prepared on the connection *)
  my_login d p s name : my_stmt d p s LOGIN_SQL →
    ∃ d', my_execute d p s [FStr name] =
      (d', Some (mkResults (match my_users d !! name with
                            | Some (uid, h) => [[FU64 uid; FStr h]]
                            | None => []
                            end) true))
    ∧ my_users d' = my_users d ∧ ∀ q t sql, my_stmt d q t sql → my_stmt d' q t sql;
  my_exist d p s name : my_stmt d p s EXIST_SQL →
    ∃ d', my_execute d p s [FStr name] =
      (d', Some (mkResults [[FI64 (match my_users d !! name with Some _ => 1 | None => 0 end)]] true))
    ∧ my_users d' = my_users d ∧ ∀ q t sql, my_stmt d q t sql → my_stmt d' q t sql;
  my_uid_key : bool;                         (* tbl_user has a unique key on uid *)
  my_register d p s uid name h : my_stmt d p s REGISTER_SQL → my_users d !! name = None →
    my_uid_key && uid_taken (my_users d) uid = false →
    ∃ d', my_execute d p s [FU64 uid; FStr name; FStr h] = (d', Some (mkResults [] true))
    ∧ my_users d' = <[name := (uid, h)]> (my_users d) ∧ ∀ q t sql, my_stmt d q t sql → my_stmt d' q t sql;
  my_register_duplicate d p s uid name h : my_stmt d p s REGISTER_SQL → my_users d !! name = None →
    my_uid_key && uid_taken (my_users d) uid = true →
    ∃ d', my_execute d p s [FU64 uid; FStr name; FStr h] = (d', None)
    ∧ my_users d' = my_users d ∧ ∀ q t sql, my_stmt d q t sql → my_stmt d' q t sql
}.

(** ** The specification: a table of users *)

Definition spec_register (key : bool) (u : users) (name h : string) (uid : Z) : users * Z :=
  match u !! name with
  | Some _ => (u, GATEWAY_REG_ALREADY_EXIST)
  | None => if key && uid_taken u uid then (u, GATEWAY_MYSQL_SERVER_ERROR)
            else (<[name := (uid, h)]> u, GATEWAY_SUCCESS)
  end.

Definition spec_verify `{!Crypto} (u : users) (name pass : string) (uid0 : Z) : res (Z * Z) :=
  match u !! name with
  | None => Ok (GATEWAY_USER_NOT_EXIST, uid0)
  | Some (uid, h) =>
      ok ← Verify pass h;
      Ok (if ok : bool then (GATEWAY_SUCCESS, uid) else (GATEWAY_VERIFY_FAILED, uid0))
  end.

(** A registered user: id, salt and password *)
Abbreviation accounts := (gmap string (Z * (list Z * string))).

Section refinement.
Context {D : Type} `{!MySql D, !MySqlLaws D, !Crypto} (junk : nat → list Z).

Definition users_of (m : DBM D) : users := my_users (mysql m).

(** The three statements of a connection are prepared. *)
Definition conn_ready (m : DBM D) (p : nat) : Prop :=
  ∃ c, cells m !! p = Some c ∧ my_stmt (mysql m) p (login_check_stmt_ c) LOGIN_SQL
    ∧ my_stmt (mysql m) p (exist_check_stmt_ c) EXIST_SQL
    ∧ my_stmt (mysql m) p (register_stmt_ c) REGISTER_SQL.

(** A running pool with a free connection, all of them ready. *)
Definition ready (m : DBM D) : Prop :=
  running_ m = true ∧ free_queue_ m ≠ [] ∧ ∀ p, p ∈ free_queue_ m → conn_ready m p.

(** Using the front connection and giving it back. *)
Lemma ready_cycle (m : DBM D) p q d :
  ready m → free_queue_ m = p :: q →
  (∀ r t sql, my_stmt (mysql m) r t sql → my_stmt d r t sql) →
  ready (set_free (set_mysql (set_free m q) d) (q ++ [p])).
Proof.
  intros (Hr & _ & Hc) Hf Hs. split_and!; [done|by destruct q|]. cbn.
  intros r Hin. assert (Hr' : r ∈ free_queue_ m) by (rewrite Hf; clear -Hin; set_solver).
  destruct (Hc r Hr') as (c & Hcell & H1 & H2 & H3).
  exists c. cbn. by split_and!; eauto.
Qed.

Lemma GetIdleConn_ready (m : DBM D) p q :
  running_ m = true → free_queue_ m = p :: q → GetIdleConn m = (set_free m q, Ok (GConn p)).
Proof.
  intros Hr Hf. destruct (GetIdleConn_spec m) as (g & m' & E & Ho). rewrite E.
  destruct g as [p'| |]; cbn in Ho; [|exfalso..].
  - destruct Ho as [_ [(q' & Hf' & ->)|(Hf' & _)]]; rewrite Hf in Hf'; [by simplify_eq|done].
  - destruct Ho as [[? _]|Ho]; [congruence|].
    unfold GetIdleConn in E. cbn [get_idle_loop] in E.
    rewrite (st_bind_Ok _ _ m m (p :: q)) in E by (unfold st_get; by rewrite Hf).
    rewrite (st_bind_Ok _ _ m m (running_ m)) in E by done.
    assert (Ht : take_idle m = (m', Ok GNull)) by (destruct (running_ m); exact E).
    rewrite take_idle_spec in Ht by (by rewrite Hf). by rewrite Hf, Hr in Ht.
  - destruct Ho as (_ & Hf' & _). congruence.
Qed.

Lemma get_conn_Ok (m : DBM D) p c : cells m !! p = Some c → get_conn p m = (m, Ok c).
Proof. intros Hp. unfold get_conn. by rewrite Hp. Qed.

Lemma my_call_Ok {A} (m : DBM D) (f : D → D * A) d a : f (mysql m) = (d, a) → my_call f m = (set_mysql m d, Ok a).
Proof. intros Hf. unfold my_call. by rewrite Hf. Qed.

Lemma VerifyUserInfo_spec (m : DBM D) name pass uid0 :
  ready m →
  ∃ m', VerifyUserInfo name pass uid0 m = (m', Some <$> spec_verify (users_of m) name pass uid0)
    ∧ users_of m' = users_of m
    ∧ (is_ok (spec_verify (users_of m) name pass uid0) → ready m').
Proof.
  intros Hrdy. pose proof Hrdy as (Hr & Hne & Hc). destruct (free_queue_ m) as [|p q] eqn:Hf; [done|].
  destruct (Hc p) as (c & Hcell & Hl & _); [apply elem_of_cons; by left|].
  destruct (my_login (mysql m) p (login_check_stmt_ c) name Hl) as (d & Hex & Hu & Hs).
  pose proof (ready_cycle m p q d Hrdy Hf Hs) as Hcycle. set (m0 := set_free m q). set (m1 := set_mysql m0 d).
  unfold VerifyUserInfo. rewrite (st_bind_Ok _ _ m m0 (GConn p)) by (by apply GetIdleConn_ready).
  unfold users_of. unfold spec_verify. set (rs := mkResults _ true) in Hex.
  assert (Hq : ∀ k : DBConn → option results → st (DBM D) (Z * Z),
    st_bind (get_conn p) (λ c, st_bind (my_call (λ d, my_execute d p (login_check_stmt_ c) [FStr name])) (k c)) m0
    = k c (Some rs) m1).
  { intros k. rewrite (st_bind_Ok _ _ m0 m0 c) by (by apply get_conn_Ok).
    by rewrite (st_bind_Ok _ _ m0 m1 (Some rs)) by (by apply my_call_Ok). }
  unfold conn_VerifyUserInfo, st_bind at 1. rewrite Hq. subst rs.
  destruct (my_users (mysql m) !! name) as [[uid h]|]; cbn [rows].
  - unfold st_bind, st_res. cbn.
    destruct (Verify pass h) as [[]|e|w]; cbn;
      first [ by exists m1; split_and!; [..|intros []]
            | eexists; split_and!; [reflexivity|exact Hu|intros _; exact Hcycle] ].
  - eexists. split_and!; [reflexivity|exact Hu|intros _; exact Hcycle].
Qed.

Lemma RegisterNew_spec (m : DBM D) salt name pass h uid :
  ready m → HashPassword false (Some salt) junk pass 200000 = Ok h →
  ∃ m', RegisterNew false junk (Some salt) name pass uid m =
          (m', Ok (Some (spec_register my_uid_key (users_of m) name h uid).2))
    ∧ users_of m' = (spec_register my_uid_key (users_of m) name h uid).1 ∧ ready m'.
Proof.
  intros Hrdy Hh. pose proof Hrdy as (Hr & Hne & Hc). destruct (free_queue_ m) as [|p q] eqn:Hf; [done|].
  destruct (Hc p) as (c & Hcell & _ & Hl & Hreg); [apply elem_of_cons; by left|].
  destruct (my_exist (mysql m) p (exist_check_stmt_ c) name Hl) as (d & Hex & Hu & Hs).
  set (m0 := set_free m q). set (m1 := set_mysql m0 d). unfold users_of.
  unfold RegisterNew. rewrite (st_bind_Ok _ _ m m0 (GConn p)) by (by apply GetIdleConn_ready).
  set (rs := mkResults _ true) in Hex.
  assert (Hq : ∀ k : DBConn → option results → st (DBM D) Z,
    st_bind (get_conn p) (λ c, st_bind (my_call (λ d, my_execute d p (exist_check_stmt_ c) [FStr name])) (k c)) m0
    = k c (Some rs) m1).
  { intros k. rewrite (st_bind_Ok _ _ m0 m0 c) by (by apply get_conn_Ok).
    by rewrite (st_bind_Ok _ _ m0 m1 (Some rs)) by (by apply my_call_Ok). }
  unfold conn_RegisterNew, st_bind at 1. rewrite Hq. subst rs. unfold spec_register.
  destruct (my_users (mysql m) !! name) as [[uid' h']|] eqn:Eu.
  - eexists. split_and!; [reflexivity|exact Hu|exact (ready_cycle m p q d Hrdy Hf Hs)].
  - rewrite (st_bind_Ok _ _ m1 m1 0) by done. change (0 <? 0) with false. cbn iota.
    rewrite (st_bind_Ok _ _ m1 m1 h) by (unfold st_res; by rewrite Hh).
    destruct (my_uid_key && uid_taken (my_users (mysql m)) uid) eqn:Ek.
    { destruct (my_register_duplicate d p (register_stmt_ c) uid name h) as (d2 & Hex2 & Hu2 & Hs2); [auto|by rewrite Hu|by rewrite Hu|].
      rewrite (st_bind_Ok _ _ m1 (set_mysql m1 d2) None) by (by apply my_call_Ok).
      eexists. split_and!; [reflexivity|cbn; by rewrite Hu2, Hu|]. apply (ready_cycle m p q d2 Hrdy Hf). auto. }
    destruct (my_register d p (register_stmt_ c) uid name h) as (d2 & Hex2 & Hu2 & Hs2); [auto|by rewrite Hu|by rewrite Hu|].
    rewrite (st_bind_Ok _ _ m1 (set_mysql m1 d2) (Some (mkResults [] true))) by (by apply my_call_Ok).
    eexists. split_and!; [reflexivity|cbn; by rewrite Hu2, Hu|].
    apply (ready_cycle m p q d2 Hrdy Hf). auto.
Qed.

(** ** The pool as a user store *)

Inductive request :=
  | QRegister (salt : list Z) (name pass : string) (uid : Z)
  | QVerify (name pass : string) (uid0 : Z).

Inductive reply := RegisterReply (code : Z) | VerifyReply (code uid : Z).

(** The contract: names are taken once; an id in use is refused when the table has a unique
    key on it ([key]); and a login succeeds with a password that has the key of the
    registered one. *)
Definition account_step (key : bool) (a : accounts) (q : request) : accounts * reply :=
  match q with
  | QRegister salt name pass uid =>
      match a !! name with
      | Some _ => (a, RegisterReply GATEWAY_REG_ALREADY_EXIST)
      | None => if key && uid_taken a uid then (a, RegisterReply GATEWAY_MYSQL_SERVER_ERROR)
                else (<[name := (uid, (salt, pass))]> a, RegisterReply GATEWAY_SUCCESS)
      end
  | QVerify name pass uid0 =>
      match a !! name with
      | None => (a, VerifyReply GATEWAY_USER_NOT_EXIST uid0)
      | Some (uid, (salt, pass')) =>
          if decide (pbkdf2 (bytes_of_string pass) salt 200000 KEY_SIZE = pbkdf2 (bytes_of_string pass') salt 200000 KEY_SIZE)
          then (a, VerifyReply GATEWAY_SUCCESS uid)
          else (a, VerifyReply GATEWAY_VERIFY_FAILED uid0)
      end
  end.

(** The same request on the pool *)
Definition pool_request (q : request) : st (DBM D) (option reply) :=
  match q with
  | QRegister salt name pass uid =>
      st_bind (RegisterNew false junk (Some salt) name pass uid) (λ r : option Z, st_ret (RegisterReply <$> r))
  | QVerify name pass uid0 =>
      st_bind (VerifyUserInfo name pass uid0)
        (λ r : option (Z * Z), st_ret ((λ x : Z * Z, VerifyReply x.1 x.2) <$> r))
  end.

Fixpoint pool_requests (qs : list request) : st (DBM D) (list (option reply)) :=
  match qs with
  | [] => st_ret []
  | q :: qs' => st_bind (pool_request q) (λ r, st_bind (pool_requests qs') (λ rs, st_ret (r :: rs)))
  end.

Fixpoint account_steps (key : bool) (a : accounts) (qs : list request) : accounts * list reply :=
  match qs with
  | [] => (a, [])
  | q :: qs' =>
      let '(a1, r) := account_step key a q in
      let '(a2, rs) := account_steps key a1 qs' in (a2, r :: rs)
  end.

(** With the key, no id is given to two accounts. *)
Lemma account_steps_distinct qs : ∀ a, uids_distinct a → uids_distinct (account_steps true a qs).1.
Proof.
  induction qs as [|q qs IH]; intros a Ha; [done|]. cbn [account_steps].
  assert (H1 : uids_distinct (account_step true a q).1).
  { destruct q as [salt name pass uid|name pass uid0]; cbn; destruct (a !! name) as [[? []]|]; try done; [|by case_decide].
    destruct (uid_taken a uid) eqn:E; [done|]. by apply uids_distinct_insert. }
  destruct (account_step true a q) as [a1 r]. specialize (IH a1 H1). by destruct (account_steps true a1 qs).
Qed.

Definition salt_ok (q : request) : Prop :=
  match q with QRegister salt _ _ _ => Forall is_byte salt | QVerify _ _ _ => True end.

(** The table holds a hash of each account's password. *)
Definition implements (m : DBM D) (a : accounts) : Prop :=
  ready m ∧ dom (users_of m) = dom a
  ∧ ∀ name uid salt pass, a !! name = Some (uid, (salt, pass)) →
      Forall is_byte salt ∧ ∃ h, users_of m !! name = Some (uid, h)
        ∧ HashPassword false (Some salt) junk pass 200000 = Ok h.

Context `{!CryptoLaws _}.

Lemma implements_step (m : DBM D) a q :
  implements m a → salt_ok q →
  ∃ m', pool_request q m = (m', Ok (Some (account_step my_uid_key a q).2)) ∧ implements m' (account_step my_uid_key a q).1.
Proof.
  intros (Hrdy & Hdom & Ha) Hq.
  assert (Hnone : ∀ name, a !! name = None → users_of m !! name = None).
  { intros name Hn. apply not_elem_of_dom. rewrite Hdom. by apply not_elem_of_dom. }
  assert (Htaken : ∀ uid, uid_taken (users_of m) uid = uid_taken a uid).
  { intros uid. apply eq_true_iff_eq. rewrite !uid_taken_spec. split.
    - intros (name & h & Hh). destruct (a !! name) as [[uid' [salt pass]]|] eqn:En.
      + destruct (Ha _ _ _ _ En) as (_ & h' & Hl & _). assert (uid' = uid) as -> by congruence. eauto.
      + by rewrite (Hnone name En) in Hh.
    - intros (name & [salt pass] & En). destruct (Ha _ _ _ _ En) as (_ & h & Hl & _). eauto. }
  destruct q as [salt name pass uid|name pass uid0]; cbn [pool_request account_step].
  - destruct (HashPassword_Ok salt junk pass 200000 Hq ltac:(lia)) as (h & key & Hh & _ & _).
    destruct (RegisterNew_spec m salt name pass h uid Hrdy Hh) as (m' & E & Hu & Hr').
    exists m'. rewrite (st_bind_Ok _ _ _ _ _ E). unfold spec_register in *. destruct (a !! name) as [[uid' [salt' pass']]|] eqn:En.
    + destruct (Ha _ _ _ _ En) as (_ & h' & Hl & _). rewrite Hl in *. split; [done|]. cbn in Hu |- *.
      split_and!; [done|by rewrite Hu|]. by rewrite Hu.
    + rewrite (Hnone name En), Htaken in *. destruct (my_uid_key && uid_taken a uid).
      { split; [done|]. cbn in Hu |- *. split_and!; [done|by rewrite Hu|by rewrite Hu]. }
      split; [done|]. cbn in Hu |- *.
      split_and!; [done|rewrite Hu; by rewrite !dom_insert_L, Hdom|]. rewrite Hu.
      intros name' uid' salt' pass'. destruct (decide (name' = name)) as [->|Hne].
      * rewrite !lookup_insert_eq. intros [= <- <- <-]. eauto.
      * rewrite !lookup_insert_ne by done. apply Ha.
  - destruct (VerifyUserInfo_spec m name pass uid0 Hrdy) as (m' & E & Hu & Hr'). exists m'.
    unfold spec_verify in *. destruct (a !! name) as [[uid [salt pass']]|] eqn:En.
    + destruct (Ha _ _ _ _ En) as (Hs & h & Hl & Hh). rewrite Hl in *.
      destruct (HashPassword_Ok salt junk pass' 200000 Hs ltac:(lia)) as (h' & key & Hh' & Hk & Hv).
      assert (h' = h) as -> by congruence. rewrite Hv in *. cbn [mbind res_bind fmap res_fmap] in *.
      rewrite (st_bind_Ok _ _ _ _ _ E).
      assert (Hi : implements m' a) by (split_and!; [apply Hr'; by eexists|by rewrite Hu|by rewrite Hu]).
      rewrite Hk. destruct (decide (pbkdf2 (bytes_of_string pass) salt 200000 KEY_SIZE = Some key)) as [Hp|Hp].
      * by rewrite bool_decide_eq_true_2.
      * by rewrite bool_decide_eq_false_2.
    + rewrite (Hnone name En) in *. cbn in E. rewrite (st_bind_Ok _ _ _ _ _ E). split; [done|].
      split_and!; [apply Hr'; by eexists|by rewrite Hu|by rewrite Hu].
Qed.

(** A login on the pool, decided by the accounts *)
Lemma implements_verify (m : DBM D) a name pass uid0 :
  implements m a →
  ∃ m' c u, VerifyUserInfo name pass uid0 m = (m', Ok (Some (c, u)))
    ∧ account_step true a (QVerify name pass uid0) = (a, VerifyReply c u) ∧ implements m' a.
Proof.
  intros Hi. destruct (implements_step m a (QVerify name pass uid0) Hi I) as (m' & E & Hi').
  change (account_step my_uid_key a (QVerify name pass uid0)) with (account_step true a (QVerify name pass uid0)) in *.
  assert (Hfst : (account_step true a (QVerify name pass uid0)).1 = a).
  { cbn. destruct (a !! name) as [[? []]|]; [|done]. by case_decide. }
  rewrite Hfst in Hi'.
  destruct (account_step true a (QVerify name pass uid0)) as [a' r]. cbn [fst snd pool_request] in *. unfold st_bind in E.
  destruct (VerifyUserInfo name pass uid0 m) as [m1 [[[c u]|]| |]]; try discriminate E.
  injection E as <- E. exists m1, c, u. split_and!; [done| |done]. cbn in E. congruence.
Qed.

Lemma implements_steps qs : ∀ (m : DBM D) a,
  implements m a → Forall salt_ok qs →
  ∃ m', pool_requests qs m = (m', Ok (Some <$> (account_steps my_uid_key a qs).2)) ∧ implements m' (account_steps my_uid_key a qs).1.
Proof.
  induction qs as [|q qs IH]; intros m a Hi Hq; [by exists m|].
  inversion_clear Hq as [|?? Hq1 Hq2]. destruct (implements_step m a q Hi Hq1) as (m1 & E1 & H1).
  cbn [pool_requests account_steps]. destruct (account_step my_uid_key a q) as [a1 r]. cbn [fst snd] in *.
  destruct (IH m1 a1 H1 Hq2) as (m2 & E2 & H2). destruct (account_steps my_uid_key a1 qs) as [a2 rs]. cbn [fst snd] in *.
  exists m2. rewrite (st_bind_Ok _ _ m m1 (Some r)) by done. by rewrite (st_bind_Ok _ _ m1 m2 (Some <$> rs)) by done.
Qed.
End refinement.

(** The codes of a registration, with any library *)
Lemma conn_RegisterNew_codes {D} `{!MySql D, !Crypto} ndebug junk rnd p name pass uid (m m' : DBM D) c :
  conn_RegisterNew ndebug junk rnd p name pass uid m = (m', Ok c) → c ≠ GATEWAY_REG_UID_ALREADY_EXIST.
Proof.
  intros E. unfold conn_RegisterNew in E. apply st_bind_inv in E as (m1 & conn & _ & E).
  apply st_bind_inv in E as (m2 & [ret|] & _ & E); [|by injection E as _ <-].
  apply st_bind_inv in E as (m3 & count & _ & E). destruct (0 <? count); [by injection E as _ <-|].
  apply st_bind_inv in E as (m4 & h & _ & E). apply st_bind_inv in E as (m5 & [ret'|] & _ & E); [|by injection E as _ <-].
  destruct (has_value ret'); by injection E as _ <-.
Qed.

(** ** A concrete server, for witnesses: a table and the three statements by number *)

Record demo_db := mkDemoDb { table : users; refuse_prepare : bool }.

Definition demo_execute (d : demo_db) (stmt : Z) (args : list field) : demo_db * option results :=
  match args with
  | [FStr name] =>
      if stmt =? 1 then
        (d, Some (mkResults (match table d !! name with Some (uid, h) => [[FU64 uid; FStr h]] | None => [] end) true))
      else if stmt =? 2 then
        (d, Some (mkResults [[FI64 (match table d !! name with Some _ => 1 | None => 0 end)]] true))
      else (d, None)
  | [FU64 uid; FStr name; FStr h] =>
      if (stmt =? 3) && bool_decide (table d !! name = None) && negb (uid_taken (table d) uid)
      then (mkDemoDb (<[name := (uid, h)]> (table d)) (refuse_prepare d), Some (mkResults [] true))
      else (d, None)
  | _ => (d, None)
  end.

Definition demo_stmt (sql : string) : Z :=
  if bool_decide (sql = LOGIN_SQL) then 1 else if bool_decide (sql = EXIST_SQL) then 2 else 3.

#[export] Instance demo_mysql : MySql demo_db := {
  my_connect d _ _ := (d, false);
  my_prepare d _ sql := (d, if refuse_prepare d then None else Some (demo_stmt sql));
  my_close_statement d _ _ := (d, false);
  my_close d _ := (d, false);
  my_execute d _ := demo_execute d
}.

#[export] Program Instance demo_mysql_laws : MySqlLaws demo_db := {
  my_users := table;
  my_stmt _ _ s sql := s = demo_stmt sql;
  my_uid_key := true
}.
Next Obligation. intros d p s name ->. by exists d. Qed.
Next Obligation. intros d p s name ->. by exists d. Qed.
Next Obligation.
  intros d p s uid name h -> Hn Hf. exists (mkDemoDb (<[name := (uid, h)]> (table d)) (refuse_prepare d)).
  split; [|done]. cbn [my_execute demo_mysql andb] in *. unfold demo_execute. by rewrite bool_decide_eq_true_2, Hf.
Qed.
Next Obligation.
  intros d p s uid name h -> Hn Hf. exists d.
  split; [|done]. cbn [my_execute demo_mysql andb] in *. unfold demo_execute. by rewrite bool_decide_eq_true_2, Hf.
Qed.

Definition demo_params : ConnParams := mkParams "root" "pw" "chat" "10.0.0.7" 3306.

(** A pool of one started connection *)
Definition demo_dbm (u : users) : DBM demo_db := (Start 1 1 (DBM_new demo_params (mkDemoDb u false))).1.

(** C6. The pool refines a table of accounts: for every sequence of registrations and logins
    served by a ready pool, each call returns exactly the code the contract gives (success
    once per name, then "already exists"; login success with the account's user id for a
    password with the same derived key, and the two failures otherwise), and the pool stays
    ready.  The interface says that a user id is not to be given twice: where the table has a
    unique key on it, a registration with an id in use is refused, with the code of a server
    error, and no two accounts ever share an id; where it has none, the id is stored twice
    ([uid_code_never_returned]). *)
Theorem user_store_refines {D} `{!MySql D, !MySqlLaws D, C : Crypto, !CryptoLaws C} junk (m : DBM D) a qs :
  implements junk m a → Forall salt_ok qs →
  ∃ m', pool_requests junk qs m = (m', Ok (Some <$> (account_steps my_uid_key a qs).2))
    ∧ implements junk m' (account_steps my_uid_key a qs).1
    ∧ (my_uid_key = true → uids_distinct a → uids_distinct (account_steps my_uid_key a qs).1).
Proof.
  intros Hi Hq. destruct (implements_steps junk qs m a Hi Hq) as (m' & E & Hi'). exists m'.
  split_and!; [done..|]. intros ->. apply account_steps_distinct.
Qed.

Lemma user_store_refines_witness :
  let qs := [QVerify "bob" "pw" 9; QRegister [1; 2] "bob" "pw" 77; QRegister [3] "bob" "x" 78; QRegister [4] "eve" "y" 77;
             QVerify "bob" "pw" 9; QVerify "bob" "wp" 9] in
  let key := my_uid_key (D := demo_db) in
  (account_steps key ∅ qs).2
    = [VerifyReply (-1) 9; RegisterReply 0; RegisterReply (-3); RegisterReply (-102); VerifyReply 0 77; VerifyReply (-2) 9]
  ∧ ∃ m', pool_requests (λ _, []) qs (demo_dbm ∅) = (m', Ok (Some <$> (account_steps key ∅ qs).2))
    ∧ implements (λ _, []) m' (account_steps key ∅ qs).1
    ∧ (key = true → uids_distinct (∅ : accounts) → uids_distinct (account_steps key ∅ qs).1).
Proof.
  cbn zeta. split; [vm_compute; reflexivity|].
  apply (user_store_refines (λ _, []) (demo_dbm ∅) ∅
    [QVerify "bob" "pw" 9; QRegister [1; 2] "bob" "pw" 77; QRegister [3] "bob" "x" 78; QRegister [4] "eve" "y" 77;
     QVerify "bob" "pw" 9; QVerify "bob" "wp" 9]).
  - split; [|split; [reflexivity|intros name uid salt pass H; by rewrite lookup_empty in H]].
    split_and!; [reflexivity|done|]. intros p Hp. exists (mkDBConn true 1 3 2).
    apply list_elem_of_singleton in Hp as ->. by split_and!.
  - repeat constructor; done.
Defined.

(** The documented code for a user id in use does not occur: with any library, [RegisterNew]
    never answers [GATEWAY_REG_UID_ALREADY_EXIST].  On a healthy server, a new name with an id
    in use gets the code of a server error when the table has a unique key on the id, and
    otherwise success, with two names for one id from then on. *)
Theorem uid_code_never_returned {D} `{!MySql D, !MySqlLaws D, C : Crypto, !CryptoLaws C} junk (m : DBM D) salt name pass uid :
  (∀ rnd m' c, RegisterNew false junk rnd name pass uid m = (m', Ok (Some c)) → c ≠ GATEWAY_REG_UID_ALREADY_EXIST)
  ∧ (ready m → Forall is_byte salt → users_of m !! name = None → uid_taken (users_of m) uid = true →
     ∃ m' c, RegisterNew false junk (Some salt) name pass uid m = (m', Ok (Some c))
       ∧ if my_uid_key then c = GATEWAY_MYSQL_SERVER_ERROR ∧ users_of m' = users_of m
         else c = GATEWAY_SUCCESS ∧ ¬ uids_distinct (users_of m')).
Proof.
  split.
  - intros rnd m' c E. unfold RegisterNew in E. apply st_bind_inv in E as (m1 & [p| |] & _ & E); [|by injection E as _ <-|done].
    apply st_bind_inv in E as (m2 & c' & E2 & E). apply st_bind_inv in E as (m3 & ? & _ & E).
    injection E as _ <-. by eapply conn_RegisterNew_codes.
  - intros Hr Hs Hn Ht. destruct (HashPassword_Ok salt junk pass 200000 Hs ltac:(lia)) as (h & key & Hh & _ & _).
    destruct (RegisterNew_spec junk m salt name pass h uid Hr Hh) as (m' & E & Hu & _). eexists _, _. split; [exact E|].
    unfold spec_register in *. rewrite Hn, Ht, andb_true_r in *. destruct my_uid_key; [done|]. split; [done|].
    apply uid_taken_spec in Ht as (name' & h' & Hl). rewrite Hu. intros Hd.
    assert (Hne : name' ≠ name) by congruence.
    apply Hne, (Hd _ _ uid h' h); cbn; [by rewrite lookup_insert_ne by done|by rewrite lookup_insert_eq].
Qed.

Lemma uid_code_never_returned_witness :
  let m := demo_dbm {["bob" := (77, "h")]} in
  (∀ rnd m' c, RegisterNew false (λ _, []) rnd "eve" "pw" 77 m = (m', Ok (Some c)) → c ≠ GATEWAY_REG_UID_ALREADY_EXIST)
  ∧ ∃ m' c, RegisterNew false (λ _, []) (Some [3]) "eve" "pw" 77 m = (m', Ok (Some c))
       ∧ c = GATEWAY_MYSQL_SERVER_ERROR ∧ users_of m' = users_of m.
Proof.
  cbn zeta. destruct (uid_code_never_returned (λ _, []) (demo_dbm {["bob" := (77, "h")]}) [3] "eve" "pw" 77) as [H1 H2].
  split; [exact H1|]. apply H2.
  - split_and!; [reflexivity|done|]. intros p Hp. exists (mkDBConn true 1 3 2).
    apply list_elem_of_singleton in Hp as ->. by split_and!.
  - repeat constructor; done.
  - reflexivity.
  - reflexivity.
Defined.

(** C16. In every interleaving of any number of threads, with starts and stops of the pool
    between the calls, no connection is used by two threads at once or lies in the free queue
    while it is in use, and a running pool counts its connections and never exceeds its
    limit.  [Start] and [Stop] do not take the latch: a [Stop] during a call breaks this
    ([unlatched_stop_shares]). *)
Theorem pool_exclusive {D} `{!MySql D, !Crypto} ndebug junk ps (d : D) n (P : pool D) :
  pool_reach ndebug junk ps d n P →
  (∀ i j p, threads P !! i = Some (TUsing p) → threads P !! j = Some (TUsing p) → i = j)
  ∧ (∀ i p, threads P !! i = Some (TUsing p) → p ∉ free_queue_ (dbm P))
  ∧ (running_ (dbm P) = true →
      pool_size_ (dbm P) = Z.of_nat (length (conns_ (dbm P))) ∧ pool_size_ (dbm P) <= pool_max_cap_ (dbm P)).
Proof.
  intros Hreach. destruct (pool_reach_inv ndebug junk ps d n P Hreach) as (I1 & _ & _ & _ & I5).
  apply list.NoDup_app in I1 as (_ & Hdisj & Hnd). split_and!.
  - intros i j p Hi Hj. destruct (decide (i = j)) as [|Hne]; [done|]. exfalso.
    destruct (used_insert (threads P) i _ Hi) as (rest & E & E'). specialize (E' TIdle).
    rewrite E in Hnd. cbn in Hnd. inversion_clear Hnd as [|?? Hout _].
    apply Hout. cbn in E'. rewrite <- E'. unfold used. apply list_elem_of_omap. exists (TUsing p).
    split; [|done]. apply list_elem_of_lookup. exists j. by rewrite list_lookup_insert_ne.
  - intros i p Hi Hin. apply (Hdisj p Hin). unfold used. apply list_elem_of_omap. exists (TUsing p).
    split; [|done]. apply list_elem_of_lookup. eauto.
  - intros Hr. destruct (I5 Hr). split; [done|lia].
Qed.

(** The pool of the witnesses: two connections, several threads *)
Definition demo_pool (ts : list tstate) : pool demo_db :=
  mkPool (Start 2 2 (DBM_new demo_params (mkDemoDb ∅ false))).1 ts.

Lemma demo_pool_reach n :
  pool_reach false (λ _, []) demo_params (mkDemoDb ∅ false) n (demo_pool (replicate n TIdle)).
Proof.
  eapply reach_step; [apply reach_init|]. eapply (step_start _ _ _ _ 2 2); [|done|done|vm_compute; reflexivity].
  unfold calls_done. by induction n.
Qed.

Lemma pool_exclusive_witness :
  let P := mkPool (set_free (dbm (demo_pool [])) []) [TUsing 0; TUsing 1; TIdle] in
  (∀ i j p, threads P !! i = Some (TUsing p) → threads P !! j = Some (TUsing p) → i = j)
  ∧ (∀ i p, threads P !! i = Some (TUsing p) → p ∉ free_queue_ (dbm P))
  ∧ (running_ (dbm P) = true →
      pool_size_ (dbm P) = Z.of_nat (length (conns_ (dbm P))) ∧ pool_size_ (dbm P) <= pool_max_cap_ (dbm P)).
Proof.
  apply (pool_exclusive false (λ _, []) demo_params (mkDemoDb ∅ false) 3).
  eapply (reach_get _ _ _ _ _ _ 1 _ (GConn 1));
    [eapply (reach_get _ _ _ _ _ (demo_pool _) 0 _ (GConn 0)); [apply (demo_pool_reach 3)|by left|vm_compute; reflexivity|reflexivity]
    |by left|vm_compute; reflexivity|vm_compute; reflexivity].
Defined.

(** [CreateConn] up to the end of [Connect], and behind it *)
Definition create_connect {D} `{!MySql D} : st (DBM D) (option nat) :=
  (p <- st_get next_cell ;;
   st_mod alloc_conn ;;
   ok <- Connect p ;;
   st_ret (if ok : bool then Some p else None))%cpp.

Definition create_register {D} (p : nat) : st (DBM D) unit :=
  (st_mod (λ m, set_conns m (conns_ m ++ [p])) ;;
   st_mod (λ m, set_pool m (u32 (pool_size_ m + 1)) (pool_max_cap_ m) (running_ m)))%cpp.

Lemma CreateConn_cut {D} `{!MySql D} (m : DBM D) :
  CreateConn m = (c <- create_connect ;;
    match c with
    | Some p => create_register p ;; st_ret (Some p)
    | None => st_ret None
    end)%cpp m.
Proof.
  unfold CreateConn, create_connect, create_register, st_bind, st_get, st_mod.
  by destruct (Connect (next_cell m) (alloc_conn m)) as [m1 [[]| |]].
Qed.

(** What a thread in [GetIdleConn] does behind [CreateConn] when it finds the pool stopped *)
Definition create_finish {D} (p : nat) : st (DBM D) got :=
  (create_register p ;; st_mod (λ m, set_free m (free_queue_ m ++ [p])) ;; take_idle)%cpp.

(** A [Stop] that does not wait for the latch: a thread has the only connection, another makes
    one, and while it connects, with the latch held, the pool is stopped.  The new connection
    is registered afterwards with a pool that is not running; after the next [Start] the pool
    has more connections than it counts and than its limit allows, that connection is in the
    free queue twice, and two threads are given it at the same time. *)
Theorem unlatched_stop_shares :
  let prog : st (DBM demo_db) (got * got * got) :=
    (Start 1 2 ;; GetIdleConn ;;
     c <- create_connect ;;
     Stop ;;
     r <- create_finish (default 0%nat c) ;;
     Start 1 1 ;;
     g1 <- GetIdleConn ;; g2 <- GetIdleConn ;; st_ret (r, g1, g2))%cpp in
  ∃ m, prog (DBM_new demo_params (mkDemoDb ∅ false)) = (m, Ok (GNull, GConn 1, GConn 1))
    ∧ running_ m = true ∧ length (conns_ m) = 2%nat ∧ pool_size_ m = 1 ∧ pool_max_cap_ m = 1.
Proof. cbn zeta. eexists. split; [vm_compute; reflexivity|]. by vm_compute. Qed.

(** A wake-up can be lost: there is a run in which every connection is back in the queue,
    no thread is using one or has been woken, and a thread still sleeps for a connection.
    Two threads wait; two connections come back before the first waiter runs, and the second
    return finds the queue not empty and notifies nobody. *)
Theorem pool_lost_wakeup :
  ∃ P, pool_reach false (λ _, []) demo_params (mkDemoDb ∅ false) 4 P
    ∧ threads P = [TIdle; TIdle; TIdle; TWaiting]
    ∧ running_ (dbm P) = true ∧ free_queue_ (dbm P) ≡ₚ conns_ (dbm P) ∧ length (conns_ (dbm P)) = 2%nat.
Proof.
  eexists. split; [|].
  - do 8 (eapply reach_step; revgoals; [shelve|]). apply demo_pool_reach. Unshelve. all: revgoals.
    + eapply (step_get _ _ _ _ 0 _ (GConn 0)); [by left|vm_compute; reflexivity].
    + eapply (step_get _ _ _ _ 1 _ (GConn 1)); [by left|vm_compute; reflexivity].
    + eapply (step_get _ _ _ _ 2 _ GWait); [by left|vm_compute; reflexivity].
    + eapply (step_get _ _ _ _ 3 _ GWait); [by left|vm_compute; reflexivity].
    + eapply (step_return_wake _ _ _ _ 0 0 2); vm_compute; reflexivity.
    + eapply (step_return _ _ _ _ 1 1 _ false); [vm_compute; reflexivity|vm_compute; reflexivity|by left].
    + eapply (step_get _ _ _ _ 2 _ (GConn 0)); [by right|vm_compute; reflexivity].
    + eapply (step_return _ _ _ _ 2 0 _ false); [vm_compute; reflexivity|vm_compute; reflexivity|by left].
  - vm_compute. split_and!; [done|done|apply perm_swap|done].
Qed.

(** Stopping and starting the pool again serves dead connections: [Stop] closes them but
    leaves them in the free queue, so the first request after the next successful [Start] is
    given a connection that is closed and no longer the pool's. *)
Theorem restart_serves_closed {D} `{!MySql D, !Crypto} ndebug junk ps (d : D) n (P : pool D) p q conns max_conn m1 m2 :
  pool_reach ndebug junk ps d n P → p ∈ conns_ (dbm P) → free_queue_ (dbm P) = p :: q → 0 <= conns →
  Stop (dbm P) = (m1, Ok true) → Start conns max_conn m1 = (m2, Ok true) →
  ∃ m3 c, GetIdleConn m2 = (m3, Ok (GConn p)) ∧ cells m3 !! p = Some c ∧ valid_ c = false ∧ p ∉ conns_ m3.
Proof.
  intros Hreach Hp Hf H0 Hstop Hstart.
  destruct (pool_reach_inv ndebug junk ps d n P Hreach) as (_ & _ & I3 & _).
  destruct (Stop_cases (dbm P)) as (b & m1' & E1 & S1); [intros r Hr; by apply I3; right|].
  rewrite Hstop in E1. injection E1 as <- <-. destruct S1 as (_ & Hr1 & Hc1 & Hf1 & Hn1 & Hd1 & Hv1).
  destruct (Start_cases m1 conns max_conn Hc1 H0) as (b & m2' & E2 & S2).
  rewrite Hstart in E2. injection E2 as <- <-.
  destruct S2 as (_ & _ & Hr2 & _ & _ & Hc2 & Hf2 & Hn2 & _ & Hcell2).
  destruct (I3 p (or_intror Hp)) as [Hlt Hsome].
  assert (Hq : free_queue_ m2 = p :: (q ++ conns_ m2)) by (by rewrite Hf2, Hf1, Hf).
  rewrite (GetIdleConn_ready m2 p _ Hr2 Hq).
  destruct (proj2 (Hd1 p) Hsome) as [c Hc].
  eexists _, c. split; [done|]. cbn. rewrite Hcell2 by (rewrite Hn1; lia). split_and!; [done|by eapply Hv1|].
  rewrite Hc2, elem_of_seq, Hn1. lia.
Qed.

Lemma restart_serves_closed_witness :
  let m1 := (Stop (dbm (demo_pool []))).1 in
  ∃ m3 c, GetIdleConn (Start 1 1 m1).1 = (m3, Ok (GConn 0)) ∧ cells m3 !! 0%nat = Some c
    ∧ valid_ c = false ∧ 0%nat ∉ conns_ m3.
Proof.
  cbn zeta. eapply (restart_serves_closed false (λ _, []) demo_params (mkDemoDb ∅ false) 0 (demo_pool []) 0%nat [1%nat] 1 1).
  - exact (demo_pool_reach 0).
  - apply elem_of_cons. by left.
  - reflexivity.
  - done.
  - vm_compute. reflexivity.
  - vm_compute. reflexivity.
Defined.

(** A connection whose statements cannot be prepared is reported as connected: [Connect]
    returns [true], the connection is marked valid, its statements are the default ones, and
    nothing was asked to close it ([Close] does nothing while [valid_] is false). *)
Theorem failed_prepare_connects {D} `{!MySql D} (m : DBM D) p d1 d2 :
  cells m !! p = Some DBConn_new → my_connect (mysql m) p (params_ m) = (d1, false) →
  my_prepare d1 p LOGIN_SQL = (d2, None) →
  Connect p m = (set_cells (set_mysql m d2) (<[p := mkDBConn true 0 0 0]> (cells m)), Ok true).
Proof.
  intros Hp Hc Hprep. set (m1 := set_mysql m d1). set (m2 := set_mysql m d2).
  assert (Hinit : InitStmt p m1 = (m2, Ok false)).
  { unfold InitStmt. by rewrite (st_bind_Ok _ _ m1 m2 None) by (exact (my_call_Ok m1 _ d2 None Hprep)). }
  assert (Hclose : Close p m2 = (m2, Ok true)).
  { unfold Close. by rewrite (st_bind_Ok _ _ m2 m2 DBConn_new) by (by apply get_conn_Ok). }
  set (mf := set_cells m2 _). unfold Connect. rewrite (st_bind_Ok _ _ m mf false); [done|]. unfold ReconnectImpl.
  rewrite (st_bind_Ok _ _ m m DBConn_new) by (by apply get_conn_Ok). cbn [valid_ DBConn_new].
  rewrite (st_bind_Ok _ _ m m tt) by done. rewrite (st_bind_Ok _ _ m m (params_ m)) by done.
  rewrite (st_bind_Ok _ _ m m1 false) by (by apply my_call_Ok). cbn iota.
  rewrite (st_bind_Ok _ _ m1 m2 false) by done. cbn iota.
  rewrite (st_bind_Ok _ _ m2 m2 tt) by (by rewrite (st_bind_Ok _ _ m2 m2 true)).
  rewrite (st_bind_Ok _ _ m2 mf tt); [done|].
  unfold set_valid. by rewrite (st_bind_Ok _ _ m2 m2 DBConn_new) by (by apply get_conn_Ok).
Qed.

Lemma failed_prepare_connects_witness :
  let m := alloc_conn (DBM_new demo_params (mkDemoDb ∅ true)) in
  Connect 0 m = (set_cells (set_mysql m (mkDemoDb ∅ true)) (<[0%nat := mkDBConn true 0 0 0]> (cells m)), Ok true).
Proof. cbn zeta. by eapply failed_prepare_connects. Defined.
