(* ===== verification/RedisBase.v ===== *)
(** * The Redis handle shared by all services
      (src/src/common/redis/base_redis_mgr.cpp, base_redis_mgr.hpp)

    [BaseRedisMgr] owns at most one connection.  The client library is outside the
    repository: opening a connection is the argument [open], which may throw, and
    [RegisterScript] is the virtual hook of the derived class.  A call that throws keeps
    the state it reached, so operations return the new state beside the outcome. *)

From S2P Require Import Prelude.

Record BaseRedisMgr (Conn : Type) := mkMgr { redis_ : option Conn }.
Arguments mkMgr {Conn} redis_.
Arguments redis_ {Conn} _.

Section base.
Context {Conn Opts : Type}.

Definition GetRedis (m : BaseRedisMgr Conn) : res Conn :=
  match redis_ m with
  | None => Throw (runtime_error "Redis connection not initialized")
  | Some c => Ok c
  end.

Definition IsConnected (m : BaseRedisMgr Conn) : bool := bool_decide (is_Some (redis_ m)).

(** Both overloads of [ConnectTo] have this body; [Opts] is the URL or the pair of option
    records. *)
Definition ConnectTo (open : Opts → res Conn) (RegisterScript : BaseRedisMgr Conn → res (BaseRedisMgr Conn))
    (m : BaseRedisMgr Conn) (opts : Opts) : BaseRedisMgr Conn * res unit :=
  let m := mkMgr None in
  match open opts with
  | Ok c =>
      let m := mkMgr (Some c) in
      match RegisterScript m with
      | Ok m => (m, Ok tt)
      | Throw e => (mkMgr None, Throw e)
      | UB w => (m, UB w)
      end
  | Throw e => (m, Throw e)
  | UB w => (m, UB w)
  end.

(** Move construction: the handle goes to the new object. *)
Definition move_from (rhs : BaseRedisMgr Conn) : BaseRedisMgr Conn * BaseRedisMgr Conn :=
  (mkMgr (redis_ rhs), mkMgr None).

(** Move assignment; [same] when both sides are one object *)
Definition move_assign (same : bool) (lhs rhs : BaseRedisMgr Conn) : BaseRedisMgr Conn * BaseRedisMgr Conn :=
  if same then (lhs, rhs) else move_from rhs.

(** The hook of the base class, which the backend keeps *)
Definition RegisterScript_base (m : BaseRedisMgr Conn) : res (BaseRedisMgr Conn) := Ok m.

(** The override of the status service. *)
Definition RegisterScript_checked (m : BaseRedisMgr Conn) : res (BaseRedisMgr Conn) :=
  if IsConnected m then Ok m else Throw (runtime_error "Redis connection not initialized").

Lemma ConnectTo_Throw open reg m opts m' e :
  ConnectTo open reg m opts = (m', Throw e) → redis_ m' = None.
Proof.
  unfold ConnectTo. destruct (open opts) as [c| |]; [destruct (reg _)|..]; intros H; by simplify_eq.
Qed.

Lemma ConnectTo_Ok open reg m opts m' :
  ConnectTo open reg m opts = (m', Ok tt) → ∃ c, open opts = Ok c ∧ reg (mkMgr (Some c)) = Ok m'.
Proof.
  unfold ConnectTo. destruct (open opts) as [c| |]; [destruct (reg _) eqn:E|..]; intros H; simplify_eq. eauto.
Qed.
End base.

(** [ConnectTo] never leaves a half-made handle: with the script hook that only checks
    the connection, it returns exactly when the library opened a connection, and then the
    object is connected to it; when it throws, the exception is the library's and any
    earlier connection is gone, so every later use of the handle throws. *)
Theorem ConnectTo_all_or_nothing {Conn Opts} (open : Opts → res Conn) (m : BaseRedisMgr Conn) opts :
  (∀ w, open opts ≠ UB w) →
  let r := ConnectTo open RegisterScript_checked m opts in
  match open opts with
  | Ok c => r.2 = Ok tt ∧ GetRedis r.1 = Ok c
  | Throw e => r.2 = Throw e ∧ GetRedis r.1 = Throw (runtime_error "Redis connection not initialized")
  | UB _ => False
  end.
Proof.
  intros Hub. cbn zeta. unfold ConnectTo. destruct (open opts) as [c|e|w]; [done|done|].
  by destruct (Hub w).
Qed.

Lemma ConnectTo_all_or_nothing_witness :
  let open := λ n : nat, if (n =? 0)%nat then Throw (runtime_error "refused") else Ok n in
  let r := ConnectTo open RegisterScript_checked (mkMgr (Some 1%nat)) 0%nat in
  match open 0%nat with
  | Ok c => r.2 = Ok tt ∧ GetRedis r.1 = Ok c
  | Throw e => r.2 = Throw e ∧ GetRedis r.1 = Throw (runtime_error "Redis connection not initialized")
  | UB _ => False
  end.
Proof.
  apply (ConnectTo_all_or_nothing (λ n : nat, if (n =? 0)%nat then Throw (runtime_error "refused") else Ok n)
    (mkMgr (Some 1%nat)) 0%nat). done.
Defined.

(** Moving a handle, by construction or by assignment, never gives a connection two owners
    and, unless an object is moved onto itself, leaves the source unusable. *)
Theorem move_single_owner {Conn} (same : bool) (lhs rhs : BaseRedisMgr Conn) :
  (same = true → lhs = rhs) →
  let '(lhs', rhs') := move_assign same lhs rhs in
  redis_ lhs' = redis_ rhs
  ∧ (same = false → GetRedis rhs' = Throw (runtime_error "Redis connection not initialized"))
  ∧ (same = true → lhs' = rhs').
Proof. destruct same; cbn; [intros ->; done|done]. Qed.

Lemma move_single_owner_witness :
  let '(lhs', rhs') := move_assign false (mkMgr None) (mkMgr (Some 1%nat)) in
  redis_ lhs' = Some 1%nat
  ∧ (false = false → GetRedis rhs' = Throw (runtime_error "Redis connection not initialized"))
  ∧ (false = true → lhs' = rhs').
Proof. apply (move_single_owner false (mkMgr None) (mkMgr (Some 1%nat))). done. Defined.
