(* ===== verification/RedisLock.v ===== *)
(** * A lock in Redis (src/src/include/common/redis/redis_lock.hpp)

    [AcquireTempLock] sets a key that must not exist, with a time to live; [ReleaseTempLock]
    deletes it by a script if it still holds the caller's mark.  The header is not included
    by any program of the repository, and the clock function it calls ([get_timestamp_ms]) is
    not declared there: the random number and the reading are arguments.  The script is
    written out as the commands it runs; [script_hash] is the function's static variable. *)

From S2P Require Import Prelude Decimal CppString.

Class LockRedis (Rd : Type) := {
  lk_set_nx : Rd → string → string → Z → res (Rd * bool);   (* SET key value PX ms NX *)
  lk_get : Rd → string → res (option string);
  lk_del : Rd → string → res (Rd * Z);
  lk_script_load : Rd → string → res (Rd * string);
  lk_has_script : Rd → string → bool                        (* EVALSHA finds the script *)
}.

Section lock.
Context {Rd : Type} `{!LockRedis Rd}.
Open Scope cpp_scope.

Definition lock_key (lock_name : string) : string := "tmplock:" +:+ lock_name.

Definition lock_mark (random timestamp : Z) : string := to_string random +:+ to_string timestamp.

(** The state is the static [script_hash] and Redis; the result is empty on failure *)
Definition AcquireTempLock (lock_name : string) (random timestamp lock_timeout_ms : Z) : st (string * Rd) string := λ s,
  let lock_info := lock_mark random timestamp in
  match lk_set_nx s.2 (lock_key lock_name) lock_info lock_timeout_ms with
  | Ok (rd, ans) => ((s.1, rd), Ok (if ans : bool then lock_info else ""))
  | Throw e => (s, Throw e)
  | UB w => (s, UB w)
  end.

Definition release_text : string :=
  let nl := String (char_of 10) "" in
  "if redis.call('get', KEYS[1]) == ARGV[1] then" +:+ nl +:+
  "    return redis.call('del', KEYS[1])" +:+ nl +:+
  "else" +:+ nl +:+
  "    return 0" +:+ nl +:+
  "end".

(** The script, run at once by the server *)
Definition release_script (rd : Rd) (key info : string) : res (Rd * Z) :=
  v ← lk_get rd key;
  if bool_decide (v = Some info) then lk_del rd key else Ok (rd, 0).

Definition evalsha (rd : Rd) (hash key info : string) : res (Rd * Z) :=
  if lk_has_script rd hash then release_script rd key info else Throw (runtime_error "NOSCRIPT").

Definition ReleaseTempLock (lock_name lock_info : string) : st (string * Rd) bool :=
  hash <- st_get fst ;;
  (if bool_decide (hash = "") then
     rd <- st_get snd ;;
     r <- st_res (lk_script_load rd release_text) ;;
     st_mod (λ _, (r.2, r.1))
   else st_ret tt) ;;
  s <- st_get id ;;
  r <- st_res (evalsha s.2 s.1 (lock_key lock_name) lock_info) ;;
  st_mod (λ s, (s.1, r.1)) ;;
  st_ret (negb (r.2 =? 0)).
End lock.

(** ** What the functions rely on of Redis *)

Class LockLaws (Rd : Type) `{!LockRedis Rd} := {
  lk_value : Rd → string → option string;
  lk_expire : Rd → string → Rd;                               (* the time to live is over *)
  law_set_nx rd k v ms : ∃ rd', lk_set_nx rd k v ms = Ok (rd', bool_decide (lk_value rd k = None))
    ∧ (∀ k', lk_value rd' k' = if decide (k' = k ∧ lk_value rd k = None) then Some v else lk_value rd k')
    ∧ ∀ h, lk_has_script rd h = true → lk_has_script rd' h = true;
  law_lk_get rd k : lk_get rd k = Ok (lk_value rd k);
  law_lk_del rd k : is_Some (lk_value rd k) → ∃ rd', lk_del rd k = Ok (rd', 1)
    ∧ (∀ k', lk_value rd' k' = if decide (k' = k) then None else lk_value rd k')
    ∧ ∀ h, lk_has_script rd h = true → lk_has_script rd' h = true;
  law_script_load rd text : ∃ rd' h, lk_script_load rd text = Ok (rd', h) ∧ h ≠ "" ∧ lk_has_script rd' h = true
    ∧ (∀ k, lk_value rd' k = lk_value rd k);
  law_expire rd k : (∀ k', lk_value (lk_expire rd k) k' = if decide (k' = k) then None else lk_value rd k')
    ∧ ∀ h, lk_has_script rd h = true → lk_has_script (lk_expire rd k) h = true
}.

(** ** The specification: who holds which lock *)

Inductive lock_ev :=
  | LkAcquire (name : string) (random timestamp ms : Z)
  | LkRelease (name info : string)
  | LkExpire (name : string).

Abbreviation holders := (gmap string string).

(** The new table and whether the call succeeded *)
Definition lock_spec (t : holders) (e : lock_ev) : holders * bool :=
  match e with
  | LkAcquire name r ts _ =>
      match t !! name with Some _ => (t, false) | None => (<[name := lock_mark r ts]> t, true) end
  | LkRelease name info => if bool_decide (t !! name = Some info) then (delete name t, true) else (t, false)
  | LkExpire name => (delete name t, true)
  end.

Section refinement.
Context {Rd : Type} `{!LockRedis Rd, !LockLaws Rd}.

Definition lock_run (e : lock_ev) : st (string * Rd) bool :=
  match e with
  | LkAcquire name r ts ms => st_bind (AcquireTempLock name r ts ms) (λ x, st_ret (negb (bool_decide (x = ""))))
  | LkRelease name info => ReleaseTempLock name info
  | LkExpire name => st_bind (st_mod (λ s, (s.1, lk_expire s.2 (lock_key name)))) (λ _, st_ret true)
  end.

(** The keys of the locks hold the table, and the static hash names a loaded script. *)
Definition lock_rel (s : string * Rd) (t : holders) : Prop :=
  (∀ name, lk_value s.2 (lock_key name) = t !! name) ∧ (s.1 = "" ∨ lk_has_script s.2 s.1 = true).

Lemma lock_key_inj a b : lock_key a = lock_key b → a = b.
Proof. unfold lock_key. intros [=]. done. Qed.

Lemma lock_mark_nonempty r ts : is_u64 ts → lock_mark r ts ≠ "".
Proof.
  intros Hts E. pose proof (stoull_to_string ts Hts) as H. unfold lock_mark in E.
  destruct (to_string r); [|done]. rewrite str_app_nil in E. by rewrite E in H.
Qed.

Definition ev_ok (e : lock_ev) : Prop := match e with LkAcquire _ _ ts _ => is_u64 ts | _ => True end.

Lemma acquire_refines s t name r ts ms :
  lock_rel s t → is_u64 ts →
  ∃ s', lock_run (LkAcquire name r ts ms) s = (s', Ok (lock_spec t (LkAcquire name r ts ms)).2)
    ∧ lock_rel s' (lock_spec t (LkAcquire name r ts ms)).1.
Proof.
  intros [Hv Hh] Hts. cbn [lock_run lock_spec]. unfold st_bind, AcquireTempLock.
  destruct (law_set_nx s.2 (lock_key name) (lock_mark r ts) ms) as (rd' & E & Hval & Hscr). rewrite E. clear E.
  assert (Hh' : s.1 = "" ∨ lk_has_script rd' s.1 = true) by (destruct Hh as [|Hh]; [by left|right; by apply Hscr]).
  pose proof (Hv name) as Hn. exists (s.1, rd'). destruct (t !! name) as [h|] eqn:Et.
  - rewrite (bool_decide_eq_false_2 (lk_value s.2 (lock_key name) = None)) by congruence. split; [done|]. split; [|done].
    intros n'. cbn. rewrite Hval, decide_False by (intros [_ ?]; congruence). apply Hv.
  - rewrite (bool_decide_eq_true_2 (lk_value s.2 (lock_key name) = None)) by done. cbn. rewrite bool_decide_eq_false_2 by (by apply lock_mark_nonempty).
    split; [done|]. split; [|done].
    intros n'. cbn. rewrite Hval. destruct (decide (n' = name)) as [->|Hne].
    + by rewrite decide_True, lookup_insert_eq.
    + rewrite decide_False, lookup_insert_ne by (done || by intros [?%lock_key_inj _]). apply Hv.
Qed.

(** The script on a server that has it *)
Lemma release_script_refines (rd : Rd) hash t name info :
  (∀ n, lk_value rd (lock_key n) = t !! n) → lk_has_script rd hash = true →
  ∃ rd' n, evalsha rd hash (lock_key name) info = Ok (rd', n)
    ∧ negb (n =? 0) = (lock_spec t (LkRelease name info)).2 ∧ lk_has_script rd' hash = true
    ∧ ∀ n, lk_value rd' (lock_key n) = (lock_spec t (LkRelease name info)).1 !! n.
Proof.
  intros Hv Hh. unfold evalsha, release_script. rewrite Hh, law_lk_get, Hv. cbn [mbind res_bind lock_spec].
  case_bool_decide as Ht; [|by exists rd, 0].
  destruct (law_lk_del rd (lock_key name)) as (rd' & E & Hval & Hscr); [rewrite Hv; eauto|].
  exists rd', 1. split_and!; [done|done|by apply Hscr|]. intros n. cbn. rewrite Hval. destruct (decide (n = name)) as [->|Hne].
  - by rewrite decide_True, lookup_delete_eq.
  - rewrite decide_False, lookup_delete_ne by (done || by intros ?%lock_key_inj). apply Hv.
Qed.

Lemma release_refines s t name info :
  lock_rel s t →
  ∃ s', lock_run (LkRelease name info) s = (s', Ok (lock_spec t (LkRelease name info)).2)
    ∧ lock_rel s' (lock_spec t (LkRelease name info)).1.
Proof.
  intros [Hv Hh]. destruct s as [hash rd]. cbn [fst snd] in *. cbn [lock_run]. unfold ReleaseTempLock.
  rewrite (st_bind_Ok _ _ _ (hash, rd) hash) by done.
  assert (Hload : ∃ h1 rd1, (if bool_decide (hash = "") then
       st_bind (st_get snd) (λ rd, st_bind (st_res (lk_script_load rd release_text)) (λ r, st_mod (λ _ : string * Rd, (r.2, r.1))))
     else st_ret tt) (hash, rd) = ((h1, rd1), Ok tt) ∧ lk_has_script rd1 h1 = true ∧ ∀ n, lk_value rd1 (lock_key n) = t !! n).
  { case_bool_decide as Hhash.
    - destruct (law_script_load rd release_text) as (rd1 & h1 & E & _ & Hs & Hval). exists h1, rd1.
      unfold st_bind, st_get, st_res, st_mod. cbn. rewrite E. split_and!; [done|done|]. intros n. by rewrite Hval.
    - exists hash, rd. destruct Hh; [done|]. by split_and!. }
  destruct Hload as (h1 & rd1 & E1 & Hs1 & Hv1). rewrite (st_bind_Ok _ _ _ _ _ E1).
  rewrite (st_bind_Ok _ _ _ (h1, rd1) (h1, rd1)) by done. cbn [fst snd].
  destruct (release_script_refines rd1 h1 t name info Hv1 Hs1) as (rd2 & n & E2 & Hn & Hs2 & Hv2).
  rewrite (st_bind_Ok _ _ _ (h1, rd1) (rd2, n)) by (unfold st_res; by rewrite E2).
  exists (h1, rd2). rewrite <- Hn. split; [done|]. split; [done|by right].
Qed.

Lemma lock_run_refines s t e :
  lock_rel s t → ev_ok e →
  ∃ s', lock_run e s = (s', Ok (lock_spec t e).2) ∧ lock_rel s' (lock_spec t e).1.
Proof.
  intros Hr He. destruct e as [name r ts ms|name info|name]; [by apply acquire_refines|by apply release_refines|].
  destruct Hr as [Hv Hh]. eexists. split; [reflexivity|]. destruct (law_expire s.2 (lock_key name)) as [Hval Hscr]. split.
  - intros n'. cbn. rewrite Hval. destruct (decide (n' = name)) as [->|Hne]; [by rewrite decide_True, lookup_delete_eq|].
    rewrite decide_False, lookup_delete_ne by (done || by intros ?%lock_key_inj). apply Hv.
  - destruct Hh as [|Hh]; [by left|right; by apply Hscr].
Qed.

Fixpoint lock_runs (es : list lock_ev) : st (string * Rd) (list bool) :=
  match es with
  | [] => st_ret []
  | e :: es' => st_bind (lock_run e) (λ b, st_bind (lock_runs es') (λ bs, st_ret (b :: bs)))
  end.

Fixpoint lock_specs (t : holders) (es : list lock_ev) : holders * list bool :=
  match es with
  | [] => (t, [])
  | e :: es' => let '(t1, b) := lock_spec t e in let '(t2, bs) := lock_specs t1 es' in (t2, b :: bs)
  end.
End refinement.

(** ** Theorems *)

(** The lock refines a table of holders: for every sequence of acquisitions, releases and
    expiries, each call returns exactly what the table says: an acquisition succeeds when
    nobody holds the lock, a release when the lock holds the caller's mark, and a failing
    call changes nothing. *)
Theorem lock_refines_table {Rd} `{!LockRedis Rd, !LockLaws Rd} (s : string * Rd) t es :
  lock_rel s t → Forall ev_ok es →
  ∃ s', lock_runs es s = (s', Ok (lock_specs t es).2) ∧ lock_rel s' (lock_specs t es).1.
Proof.
  revert s t; induction es as [|e es IH]; intros s t Hr Hes; [by exists s|].
  inversion_clear Hes as [|?? He Hes']. destruct (lock_run_refines s t e Hr He) as (s1 & E1 & H1).
  cbn [lock_runs lock_specs]. destruct (lock_spec t e) as [t1 b]. cbn [fst snd] in *.
  destruct (IH s1 t1 H1 Hes') as (s2 & E2 & H2). destruct (lock_specs t1 es) as [t2 bs]. cbn [fst snd] in *.
  exists s2. rewrite (st_bind_Ok _ _ s s1 b) by done. by rewrite (st_bind_Ok _ _ s1 s2 bs) by done.
Qed.

(** A Redis of strings and scripts, for the witness *)
Definition demo_lock_rd : Type := gmap string string * list string.

#[export] Instance demo_lock : LockRedis demo_lock_rd := {
  lk_set_nx rd k v _ := match rd.1 !! k with Some _ => Ok (rd, false) | None => Ok ((<[k := v]> rd.1, rd.2), true) end;
  lk_get rd k := Ok (rd.1 !! k);
  lk_del rd k := Ok ((delete k rd.1, rd.2), match rd.1 !! k with Some _ => 1 | None => 0 end);
  lk_script_load rd text := Ok ((rd.1, "sha" :: rd.2), "sha");
  lk_has_script rd h := bool_decide (h ∈ rd.2)
}.

#[export] Program Instance demo_lock_laws : LockLaws demo_lock_rd := {
  lk_value rd k := rd.1 !! k;
  lk_expire rd k := (delete k rd.1, rd.2)
}.
Next Obligation.
  intros rd k v ms. cbn. destruct (rd.1 !! k) as [x|] eqn:E.
  - exists rd. split; [done|]. split; [|done]. intros k'. by rewrite decide_False by (by intros [_ ?]).
  - eexists. split; [reflexivity|]. split; [|done]. intros k'. cbn.
    destruct (decide (k' = k)) as [->|Hne]; [by rewrite decide_True, lookup_insert_eq|].
    by rewrite decide_False, lookup_insert_ne by (done || by intros [? _]).
Qed.
Next Obligation. done. Qed.
Next Obligation.
  intros rd k [x E]. cbn. rewrite E. eexists. split; [reflexivity|]. split; [|done]. intros k'. cbn.
  destruct (decide (k' = k)) as [->|Hne]; [by rewrite lookup_delete_eq|by rewrite lookup_delete_ne].
Qed.
Next Obligation.
  intros rd text. cbn. eexists _, _. split; [reflexivity|]. split_and!; [done| |done]. rewrite bool_decide_eq_true_2; set_solver.
Qed.
Next Obligation.
  intros rd k. cbn. split; [|done]. intros k'.
  destruct (decide (k' = k)) as [->|Hne]; [by rewrite lookup_delete_eq|by rewrite lookup_delete_ne].
Qed.

Lemma lock_refines_table_witness :
  let es := [LkAcquire "a" 5 10 100; LkAcquire "a" 6 11 100; LkExpire "a"; LkAcquire "a" 6 12 100; LkRelease "a" (lock_mark 5 10)] in
  (lock_specs ∅ es).2 = [true; false; true; true; false] ∧
  ∃ s', lock_runs es ("", (∅, []) : demo_lock_rd) = (s', Ok (lock_specs ∅ es).2) ∧ lock_rel s' (lock_specs ∅ es).1.
Proof.
  cbn zeta. split; [vm_compute; reflexivity|].
  apply lock_refines_table; [by split; [|left]|repeat constructor; done].
Defined.
