(* ===== verification/StatusService.v ===== *)
(** * The status service: RPC handlers, list upload, worker thread
      (src/src/include/status/status_service_impl.hpp, src/src/status/status_uploader.cpp,
       src/src/status/redis/status_redis.cpp)

    The handlers run on the balancer and the uploader's request flag.  The uploader is a
    thread beside the handlers: its regions that hold [mtx_] are single steps of the
    transition system, its unlocked region is one step per call it makes, and the calls of
    other threads happen in between.  Redis is the argument [Rd] with its two commands. *)

From S2P Require Import Prelude Decimal MinHeap LoadBalancer LoadBalancerFacts RedisBase.

(** ** Messages of the RPC interface (proto3: absent fields are zero) *)

Inductive StatusCode := OK | UNKNOWN | NOT_FOUND | UNIMPLEMENTED.

Record Status := mkStatus { code : StatusCode; message : string }.

Definition Status_OK : Status := mkStatus OK "".

Record GeneralResp := mkGeneralResp { ret : Z }.

Record ServerAddrResp := mkServerAddrResp { addr_ret : Z; server_id : Z; server_addr : string }.

Record ServerItem := mkServerItem { item_id : Z; item_addr : string; item_load : Z; item_last_ts : Z }.

Record ServerItemListResp := mkServerItemListResp { list_ret : Z; servers : list ServerItem }.

(** ** The uploader object *)

Inductive worker_pc :=
  | WStart                                  (* the thread has not taken the lock yet *)
  | WWait                                   (* asleep in cv_.wait_for *)
  | WWoken                                  (* notified in cv_.wait_for, to take the lock again *)
  | WUnlocked                               (* after lock.unlock(), before CheckTTL *)
  | WChecked                                (* before CopyServerInfoList *)
  | WCopied (serv_list : gmap string string) (* before UpdateServerList *)
  | WUploaded (ret : bool)                  (* before the test of ret *)
  | WRelock                                 (* before lock.lock() *)
  | WStopped                                (* the worker function returned *)
  | WThrew (e : exn).                       (* it threw *)

Record TimedUploader := mkUploader {
  running_ : bool;
  pending_ : bool;
  err_count_ : Z;
  worker_ : worker_pc;
  balancer_ : LoadBalancer
}.

Definition err_count_max_ : Z := 3.

Definition set_pending (u : TimedUploader) (b : bool) : TimedUploader :=
  mkUploader (running_ u) b (err_count_ u) (worker_ u) (balancer_ u).

Definition set_worker (u : TimedUploader) (pc : worker_pc) : TimedUploader :=
  mkUploader (running_ u) (pending_ u) (err_count_ u) pc (balancer_ u).

Definition set_balancer (u : TimedUploader) (lb : LoadBalancer) : TimedUploader :=
  mkUploader (running_ u) (pending_ u) (err_count_ u) (worker_ u) lb.

Definition Start (lb : LoadBalancer) : TimedUploader := mkUploader true false 0 WStart lb.

(** [cv_.notify_one()] and [cv_.notify_all()]: the worker is the only thread that waits on
    [cv_], and a notification that finds it elsewhere has no effect. *)
Definition cv_notify (u : TimedUploader) : TimedUploader :=
  match worker_ u with WWait => set_worker u WWoken | _ => u end.

(** [Stop] up to the join of the worker *)
Definition Stop (u : TimedUploader) : TimedUploader :=
  cv_notify (mkUploader false (pending_ u) (err_count_ u) (worker_ u) (balancer_ u)).

Definition UpdateNow (u : TimedUploader) : TimedUploader := cv_notify (set_pending u true).

(** ** The handlers *)

Definition ReportServerLoad (u : TimedUploader) (now srv load : Z) :
    res (TimedUploader * GeneralResp * Status) :=
  r ← UpdateServerLoad (balancer_ u) now srv load;
  let u := set_balancer u r.1 in
  if r.2 : bool then Ok (u, mkGeneralResp 0, Status_OK)
  else Ok (u, mkGeneralResp 1, mkStatus NOT_FOUND "Couldn't found server with that ID.").

Definition CheckUserOnline (u : TimedUploader) : res (TimedUploader * GeneralResp * Status) :=
  Ok (u, mkGeneralResp 0, mkStatus UNIMPLEMENTED "CheckUserOnline not implemented yet.").

Definition CheckMinimalLoadServer (u : TimedUploader) (clk : nat → Z) :
    res (TimedUploader * ServerAddrResp * Status) :=
  r ← GetMinimalLoadServerInfo (balancer_ u) clk;
  let '(lb, si, updated) := r in
  let u := set_balancer u lb in
  match si with
  | None => Ok (u, mkServerAddrResp 1 0 "", mkStatus NOT_FOUND "No server currently available.")
  | Some si =>
      let u := if updated : bool then UpdateNow u else u in
      Ok (u, mkServerAddrResp 0 (si_id si) (si_addr si), Status_OK)
  end.

Definition RegisterServer (u : TimedUploader) (now id : Z) (addr : string) (load : Z) :
    res (TimedUploader * GeneralResp * Status) :=
  r ← RegisterServerInfo (balancer_ u) now id addr load;
  let u := set_balancer u r.1 in
  if r.2 : bool then Ok (UpdateNow u, mkGeneralResp 0, Status_OK)
  else Ok (u, mkGeneralResp 1, mkStatus UNKNOWN "Unknown error in register.").

Definition KickOnlineUser (u : TimedUploader) : res (TimedUploader * GeneralResp * Status) :=
  Ok (u, mkGeneralResp 0, mkStatus UNIMPLEMENTED "KickOnlineUser not implemented yet.").

Definition DumpServerList (u : TimedUploader) (order : list Z) :
    res (TimedUploader * ServerItemListResp * Status) :=
  out ← CopyServerInfoList (balancer_ u) order;
  Ok (u, mkServerItemListResp 0
           ((λ si, mkServerItem (si_id si) (si_addr si) (si_load si) (si_last_ts si)) <$> out),
      Status_OK).

(** ** Uploading the list *)

(** [serv_list.emplace(to_string(item.id), item.addr)]: an existing key is kept *)
Definition emplace_server (m : gmap string string) (si : ServerInfo) : gmap string string :=
  match m !! to_string (si_id si) with
  | Some _ => m
  | None => <[to_string (si_id si) := si_addr si]> m
  end.

Definition serv_list_of (out : list ServerInfo) : gmap string string := foldl emplace_server ∅ out.

Section upload.
Context {Rd : Type}.
Context (ping : Rd → res string).
Context (hsetex : Rd → string → gmap string string → Z → res (Rd * Z)).

(** Status [RedisMgr::UpdateServerList]; the connection is the manager's *)
Definition UpdateServerList (m : BaseRedisMgr Rd) (serv_list : gmap string string) :
    res (BaseRedisMgr Rd * bool) :=
  rd ← GetRedis m;
  if decide (serv_list = ∅) then
    pong ← ping rd;
    Ok (m, negb (bool_decide (pong = "")))
  else
    r ← hsetex rd "server_list" serv_list 40000;
    Ok (mkMgr (Some r.1), negb (r.2 =? 0)).

(** What runs with the lock held from the head of the outer loop to the next release:
    into the wait, or out of the critical section, or out of the loop. *)
Definition loop_head (u : TimedUploader) : TimedUploader :=
  if running_ u then
    if pending_ u then set_worker u WUnlocked else set_worker u WWait
  else set_worker u WStopped.

(** The test of [ret] after an upload *)
Definition after_upload (u : TimedUploader) (ret : bool) : TimedUploader :=
  if ret then mkUploader (running_ u) false 0 WRelock (balancer_ u)
  else
    let e := u32 (err_count_ u + 1) in
    if err_count_max_ <? e then
      mkUploader (running_ u) (pending_ u) e
        (WThrew (runtime_error "Failed to upload status to server. Check connection!")) (balancer_ u)
    else mkUploader (running_ u) (pending_ u) e WRelock (balancer_ u).

Inductive event :=
  | ELock                                     (* the worker takes the lock *)
  | EWake (timeout : bool)                    (* wait_for returns with the lock *)
  | ECheckTTL (order : list Z) (clk : nat → Z)
  | ECopy (order : list Z)
  | EUpload
  | EDone
  | EUpdateNow                                (* other threads *)
  | EStop
  | EBalancer (op : lb_op).

(** One step; [None] where the event is not possible.  The pair carries Redis. *)
Definition ustep (s : TimedUploader * BaseRedisMgr Rd) (e : event) :
    option (res (TimedUploader * BaseRedisMgr Rd)) :=
  let '(u, m) := s in
  match e, worker_ u with
  | ELock, (WStart | WRelock) => Some (Ok (loop_head u, m))
  | EWake timeout, (WWait | WWoken) =>        (* time-out or spurious; notified *)
      Some (Ok (loop_head (if timeout : bool then set_pending u true else u), m))
  | ECheckTTL order clk, WUnlocked =>
      Some (r ← CheckTTL (balancer_ u) order clk; Ok (set_worker (set_balancer u r.1) WChecked, m))
  | ECopy order, WChecked =>
      Some (out ← CopyServerInfoList (balancer_ u) order; Ok (set_worker u (WCopied (serv_list_of out)), m))
  | EUpload, WCopied serv_list =>
      Some (match UpdateServerList m serv_list with
            | Ok (m', ret) => Ok (set_worker u (WUploaded ret), m')
            | Throw e => Ok (set_worker u (WThrew e), m)
            | UB w => UB w
            end)
  | EDone, WUploaded ret => Some (Ok (after_upload u ret, m))
  | EUpdateNow, _ => Some (Ok (UpdateNow u, m))
  | EStop, _ => Some (Ok (Stop u, m))
  | EBalancer op, _ => Some (lb ← run_op (balancer_ u) op; Ok (set_balancer u lb, m))
  | _, _ => None
  end.

(** Runs of enabled steps that return. *)
Inductive usteps : TimedUploader * BaseRedisMgr Rd → list event → TimedUploader * BaseRedisMgr Rd → Prop :=
  | usteps_nil s : usteps s [] s
  | usteps_snoc s es s' e s'' : usteps s es s' → ustep s' e = Some (Ok s'') → usteps s (es ++ [e]) s''.
End upload.
