(* ===== verification/StatusServiceFacts.v ===== *)
(** * Correctness of the status service

    The handlers against the balancer's specification, the contents of an upload, what
    [UpdateNow] guarantees and when it does not, and the error budget of the worker. *)

From S2P Require Import Prelude Decimal MinHeap LoadBalancer LoadBalancerFacts RedisBase StatusService.

(** ** Contents of an upload *)

Lemma emplace_server_lookup m si k :
  emplace_server m si !! k =
    if decide (m !! k = None ∧ k = to_string (si_id si)) then Some (si_addr si) else m !! k.
Proof.
  unfold emplace_server. destruct (m !! to_string (si_id si)) eqn:E.
  - case_decide as H; [destruct H as [H ->]; congruence | done].
  - destruct (decide (k = to_string (si_id si))) as [->|Hne].
    + by rewrite lookup_insert_eq, decide_True.
    + rewrite lookup_insert_ne, decide_False by (done || by intros []). done.
Qed.

Lemma foldl_emplace_server out m k a :
  (∀ si si', si ∈ out → si' ∈ out → to_string (si_id si) = to_string (si_id si') → si = si') →
  foldl emplace_server m out !! k = Some a ↔
    m !! k = Some a ∨ (m !! k = None ∧ ∃ si, si ∈ out ∧ k = to_string (si_id si) ∧ a = si_addr si).
Proof.
  revert m; induction out as [|si out IH]; intros m Hinj; cbn [foldl].
  { split; [auto|]. intros [?|(_ & si & ?%elem_of_nil & _)]; done. }
  rewrite IH by (intros ????; apply Hinj; apply elem_of_cons; by right). clear IH.
  rewrite emplace_server_lookup. setoid_rewrite elem_of_cons. case_decide as H.
  - destruct H as [Hm Hk]. rewrite Hm. split.
    + intros [[= <-]|[? _]]; [|done]. right. split; [done|]. exists si. auto.
    + intros [?|(_ & si' & Hin & Hk' & ->)]; [done|]. left. f_equal.
      assert (si = si') as <-; [|done]. apply Hinj; [..|congruence]; apply elem_of_cons; [by left|].
      destruct Hin; auto.
  - split; (intros [?|(Hm & si' & Hin & Hk & Ha)]; [by left|right; split; [done|]]).
    + exists si'. auto.
    + exists si'. destruct Hin as [->|]; [|done]. by destruct H.
Qed.

(** ** Handlers *)

Lemma UpdateNow_pending u : pending_ (UpdateNow u) = true.
Proof. unfold UpdateNow, cv_notify. by destruct (worker_ (set_pending u true)). Qed.

Lemma UpdateNow_balancer u : balancer_ (UpdateNow u) = balancer_ u.
Proof. unfold UpdateNow, cv_notify. by destruct (worker_ (set_pending u true)). Qed.

(** The status handlers implement the service contract on every state the balancer can
    reach: registering answers OK, stores the server and requests an upload; a load report
    answers OK exactly for a known server and NOT_FOUND otherwise; the query answers OK
    with the id and address of an unexpired server of minimal load, or NOT_FOUND exactly
    when no server is left. *)
Theorem status_handlers_correct u T now id addr load clk :
  lb_reach (balancer_ u) T → load_ok load →
  (id ∉ T → ∃ u', RegisterServer u now id addr load = Ok (u', mkGeneralResp 0, Status_OK)
     ∧ pending_ u' = true
     ∧ abs (balancer_ u') = <[id := mkInfo id addr load now]> (abs (balancer_ u))) ∧
  (∃ u', ReportServerLoad u now id load =
       (if decide (id ∈ dom (abs (balancer_ u))) then Ok (u', mkGeneralResp 0, Status_OK)
        else Ok (u', mkGeneralResp 1, mkStatus NOT_FOUND "Couldn't found server with that ID."))
     ∧ abs (balancer_ u') = (spec_update (abs (balancer_ u)) now id load).1
     ∧ pending_ u' = pending_ u) ∧
  (∃ u' resp st r, CheckMinimalLoadServer u clk = Ok (u', resp, st)
     ∧ purged clk (abs (balancer_ u)) (abs (balancer_ u'))
     ∧ min_result clk (abs (balancer_ u')) r
     ∧ match r with
       | Some si => st = Status_OK ∧ resp = mkServerAddrResp 0 (si_id si) (si_addr si)
           ∧ (abs (balancer_ u') ≠ abs (balancer_ u) → pending_ u' = true)
       | None => code st = NOT_FOUND ∧ addr_ret resp = 1
       end).
Proof.
  intros [Hinv HT]%lb_reach_inv Hl. split_and!.
  - intros Hid. destruct (RegisterServerInfo_refines (balancer_ u) now id addr load Hinv Hl)
      as (lb' & E & _ & Habs & _); [set_solver|].
    unfold RegisterServer. rewrite E. eexists. rewrite UpdateNow_pending, UpdateNow_balancer. by split_and!.
  - destruct (UpdateServerLoad_refines (balancer_ u) now id load Hinv Hl) as (lb' & E & _ & Habs & _).
    unfold ReportServerLoad. rewrite E. cbn [mbind res_bind snd].
    exists (set_balancer u lb'). split_and!; [|done|done]. unfold spec_update.
    case_decide as Hd; [apply elem_of_dom in Hd as [si ->] | apply not_elem_of_dom in Hd as ->]; done.
  - destruct (GetMinimal_loop_spec (S (Size (min_heap_ (balancer_ u)))) clk 0 (balancer_ u) false)
      as (lb' & r & upd & E & _ & _ & Hp & Hu & Hm); [done|unfold Size; lia|].
    unfold CheckMinimalLoadServer, GetMinimalLoadServerInfo. rewrite E. cbn [mbind res_bind].
    destruct r as [si|].
    + eexists _, _, _, (Some si). split; [reflexivity|]. destruct upd; rewrite ?UpdateNow_pending, ?UpdateNow_balancer; split_and!; try done.
      intros Hne. cbn [orb] in Hu. by rewrite bool_decide_true in Hu.
    + eexists _, _, _, None. split; [reflexivity|]. by split_and!.
Qed.

Definition demo_uploader : TimedUploader := Start demo_lb.

Lemma status_handlers_correct_witness :
  ∃ u', RegisterServer demo_uploader 9 4 "d" 2 = Ok (u', mkGeneralResp 0, Status_OK)
     ∧ pending_ u' = true
     ∧ abs (balancer_ u') = <[4 := mkInfo 4 "d" 2 9]> (abs (balancer_ demo_uploader)).
Proof.
  apply (status_handlers_correct demo_uploader ∅ 9 4 "d" 2 (λ _, 9)); [apply demo_reach|done|set_solver].
Defined.

(** C40. The list the worker uploads is the balancer's: a field of [serv_list] is the decimal
    id of a registered server with its address, and every registered server has one. *)
Theorem serv_list_matches_balancer lb T order out k a :
  lb_reach lb T → enumerates order (abs lb) → (∀ id, id ∈ dom (abs lb) → is_u32 id) →
  CopyServerInfoList lb order = Ok out →
  serv_list_of out !! k = Some a ↔ ∃ id si, abs lb !! id = Some si ∧ k = to_string id ∧ a = si_addr si.
Proof.
  intros [Hinv _]%lb_reach_inv He Hu32 Hcopy. apply enumerates_spec in He as (_ & Hin & _).
  rewrite CopyServerInfoList_Ok in Hcopy by (done || by intros ? ?%Hin). simplify_eq.
  assert (Hout : ∀ si, si ∈ (λ id, abs lb !!! id) <$> order ↔ abs lb !! si_id si = Some si).
  { intros si. rewrite list_elem_of_fmap. split.
    - intros (id & Heq & [si0 Hsi]%Hin). rewrite (lookup_total_correct _ _ _ Hsi) in Heq. subst si0.
      by rewrite (abs_id lb Hinv id si Hsi).
    - intros Hsi. exists (si_id si). split; [by rewrite (lookup_total_correct _ _ _ Hsi)|]. apply Hin. eauto. }
  unfold serv_list_of. rewrite foldl_emplace_server.
  - rewrite lookup_empty. setoid_rewrite Hout. split.
    + intros [?|(_ & si & Hsi & -> & ->)]; [done|eauto].
    + intros (id & si & Hsi & -> & ->). right. split; [done|]. exists si.
      by rewrite (abs_id lb Hinv id si Hsi).
  - intros si si' Hsi%Hout Hsi'%Hout Heq.
    assert (H : ∀ x y, abs lb !! x = Some y → is_u64 x).
    { intros x y Hx%elem_of_dom_2%Hu32. unfold is_u32, is_u64 in *. lia. }
    apply to_string_inj in Heq; [|by eapply H..]. rewrite Heq in Hsi. congruence.
Qed.

Lemma serv_list_matches_balancer_witness :
  serv_list_of [mkInfo 3 "c" 15 5; mkInfo 1 "a" 10 0; mkInfo 2 "b" 20 0] !! "2" = Some "b" ↔
    ∃ id si, abs demo_lb !! id = Some si ∧ "2" = to_string id ∧ "b" = si_addr si.
Proof.
  apply (serv_list_matches_balancer demo_lb ∅ [3; 1; 2]).
  - apply demo_reach.
  - unfold enumerates. apply (bool_decide_unpack _). vm_compute. exact I.
  - intros id Hid. assert (Hd : id ∈ ({[1; 2; 3]} : gset Z)) by exact Hid.
    unfold is_u32. set_unfold. destruct Hd as [[->| ->]| ->]; lia.
  - vm_compute. reflexivity.
Defined.

(** ** The worker thread *)

Section worker.
Context {Rd : Type} (ping : Rd → res string).
Context (hsetex : Rd → string → gmap string string → Z → res (Rd * Z)).

Abbreviation step := (ustep ping hsetex).
Abbreviation steps := (usteps ping hsetex).
Implicit Types s : TimedUploader * BaseRedisMgr Rd.

(** The region between the copy of the list and the reset of [pending_]. *)
Definition in_window (pc : worker_pc) : bool :=
  match pc with WCopied _ | WUploaded _ => true | _ => false end.

Definition is_copy (e : event) : bool := match e with ECopy _ => true | _ => false end.

(** The steps of the worker itself. *)
Definition own_step (e : event) : bool :=
  match e with EUpdateNow | EStop | EBalancer _ => false | _ => true end.

(** The steps the worker has left, outside the window and not asleep, before it copies. *)
Definition to_copy (pc : worker_pc) : nat :=
  match pc with WStart | WWoken | WRelock => 2 | WUnlocked => 1 | _ => 0 end.

(** The worker is in its function. *)
Definition alive (pc : worker_pc) : bool :=
  match pc with WStopped | WThrew _ => false | _ => true end.

(** Splits a step by its event and program point. *)
Ltac inv_step H :=
  match type of H with
  | ustep _ _ (?u, ?m) ?e = Some (Ok _) =>
      destruct e; cbn [ustep] in H; try destruct (worker_ u) eqn:?; try discriminate H;
      injection H as H; inv_res; simplify_eq
  end.

(** A worker that has a request in hand: not in the window, not asleep. *)
Definition requested (u : TimedUploader) : Prop :=
  pending_ u = true ∧ in_window (worker_ u) = false ∧ worker_ u ≠ WWait.

Lemma requested_now u : in_window (worker_ u) = false → requested (UpdateNow u).
Proof. unfold requested, UpdateNow, cv_notify. cbn. by destruct (worker_ u) eqn:E; cbn; rewrite ?E. Qed.

Lemma step_keeps_request u m e u' m' :
  requested u → is_copy e = false → step (u, m) e = Some (Ok (u', m')) →
  requested u'
  ∧ ((if own_step e then 1 else 0) + to_copy (worker_ u') <= to_copy (worker_ u))%nat
  ∧ (running_ u' = true → alive (worker_ u) = true → alive (worker_ u') = true).
Proof.
  intros (Hp & Hw & Hn) Hc H. unfold requested.
  inv_step H; unfold loop_head, Stop, UpdateNow, cv_notify; cbn in *; rewrite ?Hp;
    repeat case_match; cbn in *; repeat split;
    repeat match goal with E : worker_ u = _ |- _ => rewrite E end; try done; try congruence; try (cbn; lia).
Qed.

(** The next step of such a worker waits for no one: it needs neither a notification nor the
    time-out. *)
Lemma request_progress u m :
  requested u → alive (worker_ u) = true → ∃ e r, own_step e = true ∧ (∀ t, e ≠ EWake t ∨ worker_ u = WWoken) ∧ step (u, m) e = Some r.
Proof.
  intros (Hp & Hw & Hn) Ha. destruct (worker_ u) eqn:E; try done.
  - exists ELock. eexists. cbn [ustep]. rewrite E. split_and!; [done|by left|done].
  - exists (EWake false). eexists. cbn [ustep]. rewrite E. split_and!; [done|by right|done].
  - exists (ECheckTTL [] (λ _, 0)). eexists. cbn [ustep]. rewrite E. split_and!; [done|by left|done].
  - exists (ECopy []). eexists. cbn [ustep]. rewrite E. split_and!; [done|by left|done].
  - exists ELock. eexists. cbn [ustep]. rewrite E. split_and!; [done|by left|done].
Qed.

(** Nothing sets [running_] again. *)
Lemma step_running_back u m e u' m' :
  step (u, m) e = Some (Ok (u', m')) → running_ u' = true → running_ u = true.
Proof.
  intros H. inv_step H; unfold loop_head, Stop, UpdateNow, after_upload, cv_notify;
    repeat case_match; simplify_eq; cbn in *; congruence.
Qed.

(** Executing a list of events. *)
Fixpoint urun s (es : list event) : option (TimedUploader * BaseRedisMgr Rd) :=
  match es with
  | [] => Some s
  | e :: es' => match step s e with Some (Ok s') => urun s' es' | _ => None end
  end.

Lemma usteps_cons s e s' es s'' :
  step s e = Some (Ok s') → steps s' es s'' → steps s (e :: es) s''.
Proof.
  intros H. induction 1 as [|s' es s1 e1 s2 _ IH H1].
  - apply (usteps_snoc _ _ s [] s); [constructor|done].
  - change (e :: es ++ [e1]) with ((e :: es) ++ [e1]). econstructor; eauto.
Qed.

Lemma urun_usteps s es s' : urun s es = Some s' → steps s es s'.
Proof.
  revert s; induction es as [|e es IH]; intros s H; cbn [urun] in H; [simplify_eq; constructor|].
  destruct (step s e) as [[s1| |]|] eqn:E; try done. eapply usteps_cons; eauto.
Qed.

Lemma usteps_keep_request u m es u' m' :
  in_window (worker_ u) = false → forallb (negb ∘ is_copy) es = true →
  steps (UpdateNow u, m) es (u', m') →
  requested u'
  ∧ (length (List.filter own_step es) + to_copy (worker_ u') <= to_copy (worker_ (UpdateNow u)))%nat
  ∧ (running_ u' = true → alive (worker_ u) = true → alive (worker_ u') = true).
Proof.
  intros Hw Hes H.
  remember (UpdateNow u, m) as s0 eqn:E0. remember (u', m') as s1 eqn:E1. revert u' m' E1 Hes.
  induction H as [s|s es [u1 m1] e s'' Hs IH Hstep]; intros u' m' E1 Hes; subst.
  - injection E1 as <- <-. split; [by apply requested_now|]. split; [done|].
    intros _. unfold UpdateNow, cv_notify. cbn. by destruct (worker_ u) eqn:E; cbn; rewrite ?E.
  - rewrite forallb_app in Hes. apply andb_prop in Hes as [Hes He]. cbn in He. rewrite andb_true_r in He.
    destruct (IH eq_refl u1 m1 eq_refl Hes) as (Hr & Hn & Ha).
    destruct (step_keeps_request u1 m1 e u' m') as (? & ? & ?); [done|by apply negb_true_iff|done|].
    split; [done|]. split.
    + rewrite List.filter_app, length_app. cbn [List.filter]. destruct (own_step e); cbn [length]; lia.
    + intros Hrun Hal. eauto using step_running_back.
Qed.

(** What one step adds to the log of upload results. *)
Definition outcome s (e : event) : list bool :=
  match e, worker_ s.1 with EDone, WUploaded r => [r] | _, _ => [] end.

Inductive upath s : list bool → TimedUploader * BaseRedisMgr Rd → Prop :=
  | upath_nil : upath s [] s
  | upath_step log s' e s'' :
      upath s log s' → step s' e = Some (Ok s'') → upath s (log ++ outcome s' e) s''.

Fixpoint ulog s (log : list bool) (es : list event) : option (list bool * (TimedUploader * BaseRedisMgr Rd)) :=
  match es with
  | [] => Some (log, s)
  | e :: es' => match step s e with Some (Ok s') => ulog s' (log ++ outcome s e) es' | _ => None end
  end.

Lemma ulog_upath s0 s log es log' s' :
  upath s0 log s → ulog s log es = Some (log', s') → upath s0 log' s'.
Proof.
  revert s log; induction es as [|e es IH]; intros s log Hp H; cbn [ulog] in H; [by simplify_eq|].
  destruct (step s e) as [[s1| |]|] eqn:E; try done. eapply IH; [by econstructor|done].
Qed.

(** The number of failed uploads since the last success. *)
Definition failures (log : list bool) : Z := foldl (λ n b, if b : bool then 0 else n + 1) 0 log.

Definition upload_limit : exn :=
  runtime_error "Failed to upload status to server. Check connection!".

Definition err_inv (log : list bool) (u : TimedUploader) : Prop :=
  err_count_ u = failures log ∧ 0 <= err_count_ u <= 4
    ∧ (err_count_ u = 4 → worker_ u = WThrew upload_limit).

Lemma err_inv_same log u u' :
  err_inv log u → err_count_ u' = err_count_ u → (err_count_ u = 4 → worker_ u' = worker_ u) →
  err_inv log u'.
Proof.
  intros (He & Hb & Ht) E Hw. unfold err_inv. rewrite E. split_and!; [done|lia|lia|].
  intros H4. rewrite Hw by done. auto.
Qed.

Lemma err_inv_notify log u : err_inv log u → err_inv log (UpdateNow u) ∧ err_inv log (Stop u).
Proof.
  intros Hinv. pose proof Hinv as (He & Hb & Ht).
  split; apply (err_inv_same log u); try done; unfold UpdateNow, Stop, cv_notify; cbn;
    destruct (worker_ u) eqn:E; cbn; rewrite ?E; try done; intros H4%Ht; done.
Qed.

Lemma err_inv_step log u m e u' m' :
  err_inv log u → step (u, m) e = Some (Ok (u', m')) → err_inv (log ++ outcome (u, m) e) u'.
Proof.
  intros Hinv H. pose proof Hinv as (He & Hb & Ht).
  unfold outcome; cbn [fst].
  inv_step H; rewrite ?app_nil_r; try (by apply err_inv_notify);
    try (assert (Hne : err_count_ u ≠ 4) by (intros H4; by specialize (Ht H4)));
    try (by apply (err_inv_same log u); [done|..]; unfold loop_head; repeat case_match; cbn; intros).
  all: try (case_match; simplify_eq; try case_match; simplify_eq;
    by apply (err_inv_same log u); [done|done|cbn; intros]).
  unfold after_upload, err_inv, failures, err_count_max_.
  rewrite foldl_app; cbn [foldl]; fold (failures log); rewrite <- He.
  rewrite ?(u32_id (err_count_ u + 1)) by (unfold is_u32; lia).
  repeat case_if; cbn; split_and!; try done; try lia.
Qed.

Lemma upath_inv lb m log u m' : upath (Start lb, m) log (u, m') → err_inv log u.
Proof.
  intros H. remember (u, m') as s eqn:Es. revert u m' Es.
  induction H as [|log [u1 m1] e s'' _ IH Hs]; intros u m' Es.
  - injection Es as <- <-. done.
  - subst s''. eapply err_inv_step; [by eapply IH|done].
Qed.
End worker.

(** C32. A request made outside the window between the copy of the list and the reset of
    [pending_] is not lost: it wakes a sleeping worker, and whatever the threads do next, until
    the worker copies the list again [pending_] stays set and the worker is not asleep; it
    makes at most two steps of its own before the copy, and while it is running and has not
    been stopped it can make its next one at once, with no notification or time-out to come. *)
Theorem update_request_not_lost {Rd} (ping : Rd → res string) hsetex u m es u' m' :
  in_window (worker_ u) = false → forallb (negb ∘ is_copy) es = true →
  usteps ping hsetex (UpdateNow u, m) es (u', m') →
  pending_ u' = true ∧ worker_ u' ≠ WWait ∧ in_window (worker_ u') = false
  ∧ (length (List.filter own_step es) <= 2)%nat
  ∧ (running_ u' = true → alive (worker_ u) = true →
     ∃ e r, own_step e = true ∧ (∀ t, e ≠ EWake t ∨ worker_ u' = WWoken)
       ∧ ustep ping hsetex (u', m') e = Some r).
Proof.
  intros Hw Hes H.
  destruct (usteps_keep_request ping hsetex u m es u' m' Hw Hes H) as (Hr & Hn & Ha).
  pose proof Hr as (?&?&?). assert (to_copy (worker_ (UpdateNow u)) <= 2)%nat by (by destruct (worker_ (UpdateNow u)); cbn; lia).
  split_and!; try done; [lia|]. intros Hrun Hal. apply request_progress; auto.
Qed.

(** Redis as a map of hashes, for concrete runs. *)
Definition map_ping (rd : gmap string (gmap string string)) : res string := Ok "PONG".

Definition map_hsetex (rd : gmap string (gmap string string)) (key : string) (fs : gmap string string) (ttl : Z) :
    res (gmap string (gmap string string) * Z) :=
  Ok (<[key := fs ∪ default ∅ (rd !! key)]> rd, 1).

Lemma update_request_not_lost_witness :
  let u' := mkUploader true true 0 WChecked LoadBalancer_init in
  pending_ u' = true ∧ worker_ u' ≠ WWait ∧ in_window (worker_ u') = false
  ∧ (length (List.filter own_step [EWake false; ECheckTTL [] (λ _, 0%Z)]) <= 2)%nat
  ∧ (running_ u' = true → alive WWait = true →
     ∃ e r, own_step e = true ∧ (∀ t, e ≠ EWake t ∨ worker_ u' = WWoken)
       ∧ ustep map_ping map_hsetex (u', mkMgr (Some ∅)) e = Some r).
Proof.
  apply (update_request_not_lost map_ping map_hsetex
    (mkUploader true false 0 WWait LoadBalancer_init) (mkMgr (Some ∅))
    [EWake false; ECheckTTL [] (λ _, 0)]
    (mkUploader true true 0 WChecked LoadBalancer_init) (mkMgr (Some ∅))); [reflexivity..|].
  apply urun_usteps. vm_compute. reflexivity.
Defined.

(** Inside the window the request is lost, because [pending_ = false] is executed after
    the upload without the lock: a server registers while an (empty) list is on its way to
    Redis, asks for an upload, and the worker goes back to sleep with [pending_] clear
    while Redis does not know the server. *)
Theorem update_request_lost_in_window :
  let s0 := (Start LoadBalancer_init, mkMgr (Some ∅)) in
  let before := [ELock; EWake true; ECheckTTL [] (λ _, 0); ECopy []] in
  let request := [EBalancer (ORegister 0 1 "10.0.0.1:1234" 0); EUpdateNow] in
  ∃ u rd, usteps map_ping map_hsetex s0 (before ++ request ++ [EUpload; EDone; ELock]) (u, mkMgr (Some rd))
    ∧ worker_ u = WWait ∧ pending_ u = false
    ∧ abs (balancer_ u) !! 1 = Some (mkInfo 1 "10.0.0.1:1234" 0 0)
    ∧ rd !! "server_list" = None.
Proof.
  cbn zeta. eexists _, _. split; [apply urun_usteps; vm_compute; reflexivity|].
  split_and!; vm_compute; reflexivity.
Qed.

(** C33. The error budget of the uploader: on every run [err_count_] is the number of uploads
    that failed since the last success, it never exceeds four, and the worker throws at
    the fourth failure in a row. *)
Theorem uploader_error_budget {Rd} (ping : Rd → res string) hsetex lb m log u m' :
  upath ping hsetex (Start lb, m) log (u, m') →
  err_count_ u = failures log ∧ failures log <= 4
    ∧ (failures log = 4 → worker_ u = WThrew upload_limit).
Proof. intros (He & Hb & Ht)%upath_inv. rewrite <- He. split_and!; [done|lia|done]. Qed.

Lemma uploader_error_budget_witness :
  let u := mkUploader true true 1 WRelock LoadBalancer_init in
  err_count_ u = failures [false] ∧ failures [false] <= 4
    ∧ (failures [false] = 4 → worker_ u = WThrew upload_limit).
Proof.
  apply (uploader_error_budget (λ _ : unit, Ok "") (λ rd _ _ _, Ok (rd, 0)) LoadBalancer_init (mkMgr (Some tt))
    [false] (mkUploader true true 1 WRelock LoadBalancer_init) (mkMgr (Some tt))).
  apply (ulog_upath _ _ _ (Start LoadBalancer_init, mkMgr (Some tt)) []
    [ELock; EWake true; ECheckTTL [] (λ _, 0); ECopy []; EUpload; EDone]); [constructor|].
  vm_compute. reflexivity.
Defined.
