(* ===== verification/StatusLife.v ===== *)
(** * Life cycle of the status server (src/src/status/status_class.cpp, status_class.hpp)

    [StatusServer] owns four objects that refer to each other by raw pointers; an object is
    known by its address, 0 is the null pointer.  [RunStatusServer] blocks in the gRPC server
    until another thread calls [StopStatusServer], so the statements of the two are single
    operations, and the return of the blocked thread is one more that can happen in between.
    Building and running the gRPC server is the library's: whether the port could be opened
    is an argument. *)

From S2P Require Import Prelude.

Record StatusRPCManager := mkRpcMgr {
  rm_redis : nat;
  rm_balancer : nat;
  rm_uploader : nat;
  rm_server_ : option bool;          (* true: shut down *)
  rm_service_ : bool
}.

Record uploader_obj := mkUploaderObj {
  up_addr : nat;
  up_redis : nat;
  up_balancer : nat;
  up_worker : bool                   (* the worker thread runs *)
}.

Record StatusServer := mkServer {
  ss_rpc_ : option StatusRPCManager;
  ss_redis_ : option nat;
  ss_balancer_ : option nat;
  ss_uploader_ : option uploader_obj;
  ss_running_ : bool;
  ss_waiting : bool;                 (* a thread is inside server_->Wait() *)
  ss_brk : nat
}.

Definition StatusServer_init : StatusServer := mkServer None None None None false false 1.

(** [p.get()] *)
Definition get_ptr (p : option nat) : nat := default 0%nat p.

Definition set_ss_rpc (s : StatusServer) m : StatusServer :=
  mkServer m (ss_redis_ s) (ss_balancer_ s) (ss_uploader_ s) (ss_running_ s) (ss_waiting s) (ss_brk s).

Definition set_ss_uploader (s : StatusServer) u : StatusServer :=
  mkServer (ss_rpc_ s) (ss_redis_ s) (ss_balancer_ s) u (ss_running_ s) (ss_waiting s) (ss_brk s).

Definition set_ss_flags (s : StatusServer) running waiting : StatusServer :=
  mkServer (ss_rpc_ s) (ss_redis_ s) (ss_balancer_ s) (ss_uploader_ s) running waiting (ss_brk s).

Inductive life_op :=
  | MakeBalancer | MakeRedis
  | ConnectRedis (r : res unit)      (* redis_mgr_->ConnectTo *)
  | MakeUploader | StartUploader
  | MakeRpc
  | SetRunning (b : bool)
  | BuildServer (ok : bool)          (* StatusRPCManager::Run, up to Wait *)
  | WaitServer
  | WaitReturns                      (* the blocked thread *)
  | ShutdownServer | ResetServer | ResetService
  | ResetRpc | StopUploader | ResetUploader | ResetRedis | ResetBalancer.

Definition with_rpc (s : StatusServer) (f : StatusRPCManager → res StatusRPCManager) : res StatusServer :=
  match ss_rpc_ s with
  | None => UB null_deref
  | Some m => m' ← f m; Ok (set_ss_rpc s (Some m'))
  end.

Definition with_uploader (s : StatusServer) (worker : bool) : res StatusServer :=
  match ss_uploader_ s with
  | None => UB null_deref
  | Some u => Ok (set_ss_uploader s (Some (mkUploaderObj (up_addr u) (up_redis u) (up_balancer u) worker)))
  end.

(** [Run]: nothing when there is a server, else the service (there must be none) and the
    server *)
Definition build_server (ok : bool) (m : StatusRPCManager) : res StatusRPCManager :=
  match rm_server_ m with
  | Some _ => Ok m
  | None =>
      if rm_service_ m then UB aborted
      else Ok (mkRpcMgr (rm_redis m) (rm_balancer m) (rm_uploader m) (if ok then Some false else None) true)
  end.

Definition set_server (server : option bool) (m : StatusRPCManager) : StatusRPCManager :=
  mkRpcMgr (rm_redis m) (rm_balancer m) (rm_uploader m) server (rm_service_ m).

Definition life_step (o : life_op) (s : StatusServer) : res StatusServer :=
  match o with
  | MakeBalancer => Ok (mkServer (ss_rpc_ s) (ss_redis_ s) (Some (ss_brk s)) (ss_uploader_ s) (ss_running_ s) (ss_waiting s) (S (ss_brk s)))
  | MakeRedis => Ok (mkServer (ss_rpc_ s) (Some (ss_brk s)) (ss_balancer_ s) (ss_uploader_ s) (ss_running_ s) (ss_waiting s) (S (ss_brk s)))
  | ConnectRedis r => _ ← r; Ok s
  | MakeUploader =>
      Ok (mkServer (ss_rpc_ s) (ss_redis_ s) (ss_balancer_ s)
           (Some (mkUploaderObj (ss_brk s) (get_ptr (ss_redis_ s)) (get_ptr (ss_balancer_ s)) false))
           (ss_running_ s) (ss_waiting s) (S (ss_brk s)))
  | StartUploader => with_uploader s true
  | MakeRpc =>
      Ok (set_ss_rpc s (Some (mkRpcMgr (get_ptr (ss_redis_ s)) (get_ptr (ss_balancer_ s))
        (get_ptr (up_addr <$> ss_uploader_ s)) None false)))
  | SetRunning b => Ok (set_ss_flags s b (ss_waiting s))
  | BuildServer ok => with_rpc s (build_server ok)
  | WaitServer =>
      match ss_rpc_ s ≫= rm_server_ with
      | None => UB null_deref
      | Some _ => Ok (set_ss_flags s (ss_running_ s) true)
      end
  | WaitReturns =>
      if bool_decide (ss_rpc_ s ≫= rm_server_ = Some true) then Ok (set_ss_flags s (ss_running_ s) false) else UB blocked
  | ShutdownServer => with_rpc s (λ m, Ok (set_server (Some true) m))
  | ResetServer => if ss_waiting s then UB null_deref else with_rpc s (λ m, Ok (set_server None m))
  | ResetService => with_rpc s (λ m, Ok (mkRpcMgr (rm_redis m) (rm_balancer m) (rm_uploader m) (rm_server_ m) false))
  | ResetRpc => Ok (set_ss_rpc s None)
  | StopUploader => with_uploader s false
  | ResetUploader => Ok (set_ss_uploader s None)
  | ResetRedis => Ok (mkServer (ss_rpc_ s) None (ss_balancer_ s) (ss_uploader_ s) (ss_running_ s) (ss_waiting s) (ss_brk s))
  | ResetBalancer => Ok (mkServer (ss_rpc_ s) (ss_redis_ s) None (ss_uploader_ s) (ss_running_ s) (ss_waiting s) (ss_brk s))
  end.

(** The statements of [RunStatusServer], and what it returns; it ends inside [Wait] *)
Definition RunStatusServer (connect : res unit) (build : bool) (s : StatusServer) : list life_op * bool :=
  if ss_running_ s then ([], false)
  else ([MakeBalancer; MakeRedis; ConnectRedis connect; MakeUploader; StartUploader; MakeRpc; SetRunning true;
         BuildServer build; WaitServer], true).

(** [StatusRPCManager::Stop] *)
Definition StatusRPCManager_Stop (m : option StatusRPCManager) : list life_op :=
  match m ≫= rm_server_ with
  | Some _ => [ShutdownServer; ResetServer; ResetService]
  | None => []
  end.

Definition StopStatusServer (s : StatusServer) : list life_op :=
  if ss_running_ s then
    StatusRPCManager_Stop (ss_rpc_ s)
    ++ [ResetRpc; StopUploader; ResetUploader; ResetRedis; ResetBalancer; SetRunning false]
  else [].

(** [~TimedUploader], at the reset of [uploader_] *)
Definition TimedUploader_dtor (u : option uploader_obj) : list life_op :=
  match u with
  | Some u => (if up_worker u then [StopUploader] else []) ++ [ResetUploader]
  | None => []
  end.

(** The members are destroyed in the reverse order of their declaration *)
Definition StatusServer_dtor (s : StatusServer) : list life_op :=
  TimedUploader_dtor (ss_uploader_ s) ++ [ResetBalancer; ResetRedis; ResetRpc].

(** The states passed through, and the last one with the outcome *)
Fixpoint life_run (os : list life_op) (s : StatusServer) : list StatusServer * (StatusServer * res unit) :=
  match os with
  | [] => ([], (s, Ok tt))
  | o :: os' =>
      match life_step o s with
      | Ok s' => let '(t, r) := life_run os' s' in (s' :: t, r)
      | Throw e => ([], (s, Throw e))
      | UB w => ([], (s, UB w))
      end
  end.

(** Calls, each made when the one before has returned or blocks; [CallStop i]: the blocked
    thread returns after [i] statements of the stop *)
Inductive life_call :=
  | CallRun (connect : res unit) (build : bool)
  | CallStop (i : nat).

Definition call_ops (c : life_call) (s : StatusServer) : list life_op :=
  match c with
  | CallRun connect build => (RunStatusServer connect build s).1
  | CallStop i =>
      let os := StopStatusServer s in
      if ss_waiting s then take i os ++ WaitReturns :: drop i os else os
  end.

(** An exception of [Run] leaves the object; its owner may go on *)
Fixpoint life (cs : list life_call) (s : StatusServer) : list StatusServer * (StatusServer * res unit) :=
  match cs with
  | [] => ([], (s, Ok tt))
  | c :: cs' =>
      let '(t, (s', r)) := life_run (call_ops c s) s in
      match r with
      | UB w => (t, (s', UB w))
      | _ => let '(t', r') := life cs' s' in (t ++ t', r')
      end
  end.

(** ** Pointers *)

(** Every pointer an existing object holds is the address of an existing object. *)
Definition pointers_ok (s : StatusServer) : Prop :=
  (∀ u, ss_uploader_ s = Some u → ss_redis_ s = Some (up_redis u) ∧ ss_balancer_ s = Some (up_balancer u)) ∧
  (∀ m, ss_rpc_ s = Some m →
     ss_redis_ s = Some (rm_redis m) ∧ ss_balancer_ s = Some (rm_balancer m)
     ∧ up_addr <$> ss_uploader_ s = Some (rm_uploader m)).

(** Between calls: nothing that points, or everything in place and serving *)
Definition idle (s : StatusServer) : Prop :=
  ss_rpc_ s = None ∧ ss_uploader_ s = None ∧ ss_running_ s = false ∧ ss_waiting s = false.

Definition serving (s : StatusServer) : Prop :=
  ∃ r b u n, s = mkServer (Some (mkRpcMgr r b u (Some false) true)) (Some r) (Some b) (Some (mkUploaderObj u r b true)) true true n.

Ltac life_cases :=
  repeat match goal with
  | |- pointers_ok _ ∧ _ => split
  | |- Forall _ (_ :: _) => apply Forall_cons_2
  | |- Forall _ [] => apply Forall_nil_2
  | |- pointers_ok _ => split; cbn; intros ? [= <-]; by cbn
  end.

Lemma run_idle s connect build :
  idle s →
  let '(t, (s', r)) := life_run (call_ops (CallRun connect build) s) s in
  Forall pointers_ok t ∧
  match r with
  | Ok _ => connect = Ok tt ∧ build = true ∧ serving s'
  | Throw e => connect = Throw e ∧ idle s'
  | UB w => connect = UB w ∨ (connect = Ok tt ∧ w = null_deref ∧ build = false)
  end.
Proof.
  destruct s as [rpc rd lb up run wait n]. intros (E1 & E2 & E3 & E4). cbn in *. subst.
  unfold call_ops, RunStatusServer. cbn [ss_running_ fst].
  destruct connect as [[]|e|w]; [destruct build|..]; cbn; (split; [life_cases|]).
  - split_and!; [done..|]. by eexists _, _, _, _.
  - by right.
  - by split.
  - by left.
Qed.

Lemma stop_serving s i :
  serving s →
  let '(t, (s', r)) := life_run (call_ops (CallStop i) s) s in
  Forall pointers_ok t ∧ r = (match i with O => UB blocked | 1%nat => Ok tt | _ => UB null_deref end)
  ∧ (i = 1%nat → idle s' ∧ ss_redis_ s' = None ∧ ss_balancer_ s' = None).
Proof.
  intros (r & b & u & n & ->). destruct i as [|[|i]]; cbn.
  - split_and!; [life_cases|done|done].
  - split_and!; [life_cases|done|done].
  - split_and!; [|done|done]. life_cases.
Qed.

Lemma life_pointers cs : ∀ s,
  idle s ∨ serving s →
  let '(t, (s', r)) := life cs s in
  Forall pointers_ok t ∧ match r with UB _ => True | _ => idle s' ∨ serving s' end.
Proof.
  induction cs as [|c cs IH]; intros s Hs; [by split|].
  cbn [life].
  assert (H : let '(t, (s', r)) := life_run (call_ops c s) s in
    Forall pointers_ok t ∧ match r with UB _ => True | _ => idle s' ∨ serving s' end).
  { destruct Hs as [Hi|Hv]; [destruct c as [connect build|i]|destruct c as [connect build|i]].
    - pose proof (run_idle s connect build Hi) as H. destruct (life_run _ s) as [t [s' [|e|]]]; intuition.
    - destruct Hi as (? & ? & Hr & Hw). cbn. unfold StopStatusServer. rewrite Hr, Hw. cbn. by split; [constructor|left].
    - pose proof Hv as (? & ? & ? & ? & ->). cbn. by split; [constructor|right].
    - pose proof (stop_serving s i Hv) as H. destruct (life_run _ s) as [t [s' r]]. destruct H as (Ht & Hr & Hi).
      split; [done|]. destruct i as [|[|]]; subst r; [done| |done]. left. by apply Hi. }
  destruct (life_run (call_ops c s) s) as [t [s' r]]. destruct H as [Ht Hr].
  destruct r as [|e|w]; [| |by split].
  all: specialize (IH s' Hr); destruct (life cs s') as [t' [s'' r']]; destruct IH as [Ht' Hr'];
    split; [by apply Forall_app|done].
Qed.

(** ** Theorems *)

(** C34. No raw pointer of the status server ever dangles: whatever sequence of starts and stops
    the owner makes, and whether or not Redis and the port are available, in every state
    passed through the uploader and the RPC manager point to the redis manager, balancer and
    uploader that exist then; between calls the server is either serving or holds no object
    that points to another. *)
Theorem status_life_safe cs :
  let '(t, (s', r)) := life cs StatusServer_init in
  Forall pointers_ok t ∧ match r with UB _ => True | _ => idle s' ∨ serving s' end.
Proof. apply life_pointers. by left. Qed.

(** How a start ends: by an exception when Redis cannot be reached, with nothing running; in
    the gRPC server when the port can be opened; and otherwise in [server_->Wait()] through
    the null pointer [BuildAndStart] returned. *)
Theorem status_start_outcomes s connect build :
  idle s → (∀ w, connect ≠ UB w) →
  let '(s', r) := (life [CallRun connect build] s).2 in
  r = Ok tt ∧ match connect with Throw _ => idle s' | _ => serving s' end
  ∨ (connect = Ok tt ∧ build = false ∧ r = UB null_deref).
Proof.
  intros Hs Hc. pose proof (run_idle s connect build Hs) as H. cbn [life].
  destruct (life_run (call_ops (CallRun connect build) s) s) as [t [s' r]]. destruct H as [_ H].
  destruct connect as [[]|e|w]; [| |by destruct (Hc w)].
  - destruct r as [[]|e|w]; cbn; [left; by destruct H as (_ & _ & ?)|by destruct H|].
    right. by destruct H as [|(_ & -> & ->)].
  - destruct r as [[]|e'|w]; cbn in *; [by destruct H|left; by destruct H|].
    by destruct H as [|(? & _)].
Qed.

Lemma status_start_outcomes_witness :
  let '(s', r) := (life [CallRun (Ok tt) false] StatusServer_init).2 in
  r = Ok tt ∧ serving s' ∨ (@Ok unit tt = Ok tt ∧ false = false ∧ r = UB null_deref).
Proof. apply (status_start_outcomes StatusServer_init (Ok tt) false); done. Defined.

(** A stop is a race: it returns, with everything released, exactly when the thread blocked in
    [server_->Wait()] has left it between [Shutdown()] and [server_.reset()]; a thread that is
    still inside then is inside an object that has been destroyed. *)
Theorem status_stop_race s i :
  serving s → (0 < i)%nat →
  ((life [CallStop i] s).2.2 = Ok tt ↔ i = 1%nat)
  ∧ ((life [CallStop i] s).2.2 = Ok tt → idle (life [CallStop i] s).2.1)
  ∧ (i ≠ 1%nat → (life [CallStop i] s).2.2 = UB null_deref).
Proof.
  intros Hs Hi. pose proof (stop_serving s i Hs) as H. cbn [life].
  destruct (life_run (call_ops (CallStop i) s) s) as [t [s' r]]. destruct H as (_ & -> & H).
  destruct i as [|[|i]]; [lia|..]; cbn.
  - split_and!; [done|intros _; by apply H|done].
  - by split_and!.
Qed.

Lemma status_stop_race_witness :
  let s := (life [CallRun (Ok tt) true] StatusServer_init).2.1 in
  ((life [CallStop 2] s).2.2 = Ok tt ↔ 2%nat = 1%nat)
  ∧ ((life [CallStop 2] s).2.2 = Ok tt → idle (life [CallStop 2] s).2.1)
  ∧ (2%nat ≠ 1%nat → (life [CallStop 2] s).2.2 = UB null_deref).
Proof. apply status_stop_race; [by eexists _, _, _, _|lia]. Defined.

(** A server is destroyed safely only when it is stopped: between calls, when it does not
    serve, the destructor passes through no dangling pointer; when it serves, the uploader and
    the balancer are destroyed while the RPC manager, whose handlers may be running, still
    points to them. *)
Theorem status_destroy_stopped s :
  idle s ∨ serving s →
  (life_run (StatusServer_dtor s) s).2.2 = Ok tt
  ∧ (Forall pointers_ok (life_run (StatusServer_dtor s) s).1 ↔ idle s).
Proof.
  intros [Hi|(r & b & u & n & ->)].
  - destruct s as [rpc rd lb up run wait n]. pose proof Hi as (E1 & E2 & E3 & E4). cbn in *. subst. cbn.
    split; [done|]. split; [done|]. intros _. life_cases.
  - cbn. split; [done|]. split; [|by intros []]. intros Hf.
    inversion_clear Hf as [|?? _ Hf1]. inversion_clear Hf1 as [|?? [_ Hp] _]. by destruct (Hp _ eq_refl) as (_ & _ & ?).
Qed.

Lemma status_destroy_stopped_witness :
  let s := (life [CallRun (Ok tt) true] StatusServer_init).2.1 in
  (life_run (StatusServer_dtor s) s).2.2 = Ok tt ∧ (Forall pointers_ok (life_run (StatusServer_dtor s) s).1 ↔ idle s).
Proof. apply status_destroy_stopped. right. by eexists _, _, _, _. Defined.
