(* ===== verification/Session.v ===== *)
(** * A client session: receiving, closing, sending
      (src/src/server/session.cpp, src/src/include/server/session.hpp)

    The callbacks of a session run one at a time (its strand); each is one function from a
    state to a state and the calls it makes on the message handler and the session manager.
    Between the test of [down_] in a callback and what follows it another thread may close
    the session: [SessionClose] cuts the callbacks and [Close] there.
    [reading_] records which asynchronous read is outstanding.  A read of [n] bytes fills
    the buffer behind [data_ + cur_pos_] with at most [n] bytes and then calls back; the
    model allows any number of them, so that it also covers a transport that delivers
    less than was asked for.  [handler_ok] and [mgr_ok] say whether the weak pointers to
    the handler and the manager can still be locked. *)

From S2P Require Import Prelude FieldOp MsgNode.

Definition INITIAL_NODE_SIZE : Z := 1024.

Inductive read_phase := RNone | RHead | RContent.

Record Session := mkSession {
  user_id_ : Z;
  verified_ : bool;
  recv_ptr_ : MsgNode;
  send_q_ : list MsgNode;
  sending_ : option MsgNode;
  down_ : bool;
  reading_ : read_phase
}.

(** Calls a session makes on the objects it knows. *)
Inductive sess_out :=
  | SPost (msg : option MsgNode)         (* handler->PostMessage(self, msg) *)
  | SRemoveSession (uid : Z)             (* mgr->RemoveSession(uid) *)
  | SRemoveTempSession.                  (* mgr->RemoveTempSession(this) *)

Inductive read_result := RData (bs : list Z) | REof | RError.

Definition set_recv (s : Session) (m : MsgNode) : Session :=
  mkSession (user_id_ s) (verified_ s) m (send_q_ s) (sending_ s) (down_ s) (reading_ s).

Definition set_reading (s : Session) (r : read_phase) : Session :=
  mkSession (user_id_ s) (verified_ s) (recv_ptr_ s) (send_q_ s) (sending_ s) (down_ s) r.

Definition set_queue (s : Session) (q : list MsgNode) (cur : option MsgNode) : Session :=
  mkSession (user_id_ s) (verified_ s) (recv_ptr_ s) q cur (down_ s) (reading_ s).

Section session.
Context (host : byte_order) (junk : nat → Z) (handler_ok mgr_ok : bool).

(** The constructor *)
Definition Session_new : Session :=
  mkSession 0 false (MsgNode_sized junk INITIAL_NODE_SIZE) [] None false RNone.

Definition GetUserId (s : Session) : Z := user_id_ s.

Definition IsVerified (s : Session) : bool := verified_ s.

Definition SetVerified (s : Session) (user_id : Z) : Session :=
  if verified_ s then s
  else mkSession user_id true (recv_ptr_ s) (send_q_ s) (sending_ s) (down_ s) (reading_ s).

(** The call of [Close] on the manager *)
Definition close_remove (s : Session) : sess_out :=
  if verified_ s then SRemoveSession (user_id_ s) else SRemoveTempSession.

(** [Close] by a thread that is not interrupted; [SessionClose] has its steps *)
Definition Close (s : Session) : Session * list sess_out :=
  if down_ s then (s, [])
  else
    (mkSession (user_id_ s) (verified_ s) (recv_ptr_ s) (send_q_ s) (sending_ s) true (reading_ s),
     (if handler_ok then [SPost None] else []) ++
     (if mgr_ok then [close_remove s] else [])).

(** [ReceiveHead()] and [ReceiveContent()] start a read *)
Definition ReceiveHead (s : Session) : Session := set_reading s RHead.

Definition ReceiveContent (s : Session) : Session := set_reading s RContent.

Definition Start (s : Session) : Session := ReceiveHead s.

(** The size of the buffer given to the outstanding read *)
Definition want (s : Session) : nat :=
  match reading_ s with
  | RNone => 0
  | RHead => Z.to_nat (u32 (HEAD_LEN - cur_pos_ (recv_ptr_ s)))
  | RContent => Z.to_nat (u32 (ctx_len_ (recv_ptr_ s) + HEAD_LEN - cur_pos_ (recv_ptr_ s)))
  end.

Definition ReceiveHandler (s : Session) : Session * list sess_out :=
  if handler_ok then
    (set_recv s (MsgNode_sized junk INITIAL_NODE_SIZE), [SPost (Some (recv_ptr_ s))])
  else Close s.

(** The bytes that arrived lie behind [data_ + cur_pos_]; [cur_pos_ += bytes_rcvd]. *)
Definition fill (m : MsgNode) (bs : list Z) : res MsgNode :=
  b ← block m;
  b ← memcpy_to b (Z.to_nat (cur_pos_ m)) bs;
  Ok (set_data m b).

Definition advance (m : MsgNode) (bs : list Z) : MsgNode :=
  set_cur_pos m (u32 (cur_pos_ m + Z.of_nat (length bs))).

(** The callback of [ReceiveHead] *)
Definition head_cb (s : Session) (r : read_result) : res (Session * list sess_out) :=
  match r with
  | REof | RError => Ok (Close (set_reading s RNone))
  | RData bs =>
      m ← fill (recv_ptr_ s) bs;
      let s := set_recv (set_reading s RNone) m in
      if down_ s then Ok (s, [])
      else
        let m := advance m bs in
        if HEAD_LEN <=? cur_pos_ m then
          r ← UpdateContentLenField host m;
          let '(content_len, m) := r in
          if MAX_CTX_LEN <? content_len then Ok (Close (set_recv s m))
          else
            m ← (if max_len_ m <? u32 (content_len + HEAD_LEN)
                 then Reallocate junk m (u32 (content_len + HEAD_LEN)) else Ok m);
            Ok (ReceiveContent (set_recv s m), [])
        else Ok (ReceiveHead (set_recv s m), [])
  end.

(** The callback of [ReceiveContent] *)
Definition content_cb (s : Session) (r : read_result) : res (Session * list sess_out) :=
  match r with
  | REof | RError => Ok (Close (set_reading s RNone))
  | RData bs =>
      m ← fill (recv_ptr_ s) bs;
      let s := set_recv (set_reading s RNone) m in
      if down_ s then Ok (s, [])
      else
        let m := advance m bs in
        let s := set_recv s m in
        if u32 (ctx_len_ m + HEAD_LEN) <=? cur_pos_ m then
          _ ← GetTagField host m;
          let '(s, out) := ReceiveHandler s in
          Ok (ReceiveHead (set_recv s (Zero (recv_ptr_ s))), out)
        else Ok (ReceiveContent s, [])
  end.

(** The completion of the outstanding read *)
Definition recv_step (s : Session) (r : read_result) : res (Session * list sess_out) :=
  match reading_ s with
  | RHead => head_cb s r
  | RContent => content_cb s r
  | RNone => Ok (s, [])
  end.

(** A transport that completes each read with the next bytes of [stream], as many as the
    next element of [sizes] allows and never more than was asked for. *)
Fixpoint deliver (sizes : list nat) (s : Session) (stream : list Z) :
    res (Session * list sess_out * list Z) :=
  match sizes with
  | [] => Ok (s, [], stream)
  | n :: sizes' =>
      let k := Nat.min n (want s) in
      r ← recv_step s (RData (take k stream));
      r' ← deliver sizes' r.1 (drop k stream);
      Ok (r'.1.1, r.2 ++ r'.1.2, r'.2)
  end.

(** ** Sending

    [Send] and [QueueSend] take [send_latch_] separately, and [QueueSend] starts the write
    behind its critical section, reading the member [sending_] again; other threads may run
    in between.  The regions are separate functions, [SendQueue] interleaves them, and
    [QueueSend] and [Send_node] are the calls of a thread that is not interrupted. *)

(** The critical section of both overloads of [Send]; the result is [start_send] *)
Definition enqueue (s : Session) (m : MsgNode) : Session * bool :=
  let start_send := match send_q_ s with [] => true | _ => false end in
  (set_queue s (send_q_ s ++ [m]) (sending_ s), start_send).

(** The critical section of [QueueSend]; [false] when it returns *)
Definition queue_pop (s : Session) : Session * bool :=
  match send_q_ s with
  | [] => (s, false)
  | m :: q => (set_queue s q (Some m), true)
  end.

(** What follows without the latch: the message that [sending_] has by then is handed to
    [async_write], behind [assert(sending_->cur_pos_ == 0)] *)
Definition queue_write (s : Session) : res MsgNode :=
  match sending_ s with
  | Some m => if cur_pos_ m =? 0 then Ok m else UB aborted
  | None => UB null_deref
  end.

(** [QueueSend] without interruption: the message now handed to [async_write], if any.  The
    assertion holds for the messages of the backend, which are new or reset
    ([SendQueue.send_queue_fifo]). *)
Definition QueueSend (s : Session) : Session * option MsgNode :=
  let '(s, go) := queue_pop s in
  (s, if go : bool then sending_ s else None).

(** The bytes of the buffer given to [async_write] *)
Definition write_bytes (m : MsgNode) : res (list Z) :=
  b ← block m;
  memcpy_from b (Z.to_nat (cur_pos_ m)) (Z.to_nat (u32 (ctx_len_ m + HEAD_LEN - cur_pos_ m))).

(** [Send(std::shared_ptr<MsgNode>)] by a thread that is not interrupted *)
Definition Send_node (s : Session) (m : MsgNode) : Session * option MsgNode :=
  let '(s, start_send) := enqueue s m in
  if start_send : bool then QueueSend s else (s, None).

(** [Send(const char*, uint32_t, uint32_t)]; the overload on [std::string] calls it *)
Definition Send (s : Session) (content : list Z) (send_len tag : Z) : res (Session * option MsgNode) :=
  m ← MsgNode_of host junk content send_len tag;
  Ok (Send_node s m).

(** The completion callback of [async_write]; [err] is its error code *)
Definition write_cb (s : Session) (err : bool) : Session * list sess_out * option MsgNode :=
  if err then (Close s, None)
  else if down_ s then (s, [], None)
  else let '(s, w) := QueueSend s in (s, [], w).
End session.
