(* ===== verification/SessionFacts.v ===== *)
(** * Correctness of a session

    Reception: whatever the sizes in which the transport delivers the bytes, the messages
    posted to the handler are exactly the frames of the stream, in order.  Closing happens
    once.  Sending: what is written is the queue in order when no write is in flight, and
    what happens when one is. *)

From S2P Require Import Prelude FieldOp MsgNode Session.

(** A message as the peer sends it: tag and content. *)
Definition msg_ok (m : Z * list Z) : Prop :=
  is_u32 m.1 ∧ Forall is_byte m.2 ∧ Z.of_nat (length m.2) <= MAX_CTX_LEN.

Definition wire (ms : list (Z * list Z)) : list Z := concat ((λ m, frame m.1 m.2) <$> ms).

(** A posted node holds the message [m]. *)
Definition node_holds (host : byte_order) (n : MsgNode) (m : Z * list Z) : Prop :=
  node_wf n ∧ GetTagField host n = Ok m.1 ∧ GetContentLen n = Z.of_nat (length m.2)
  ∧ ∃ b, data_ n = Some b ∧ take (Z.to_nat HEAD_LEN + length m.2) b = frame m.1 m.2.

#[global] Instance SPost_inj : Inj (=) (=) (SPost ∘ Some).
Proof. by intros x y [= ->]. Qed.

(** The bytes received for the message in progress. *)
Definition buffered (s : Session) : list Z :=
  take (Z.to_nat (cur_pos_ (recv_ptr_ s))) (default [] (data_ (recv_ptr_ s))).

Record rinv (s : Session) : Prop := {
  r_up : down_ s = false;
  r_wf : node_wf (recv_ptr_ s);
  r_cap : INITIAL_NODE_SIZE <= max_len_ (recv_ptr_ s);
  r_phase :
    match reading_ s with
    | RNone => False
    | RHead => cur_pos_ (recv_ptr_ s) < HEAD_LEN
    | RContent => HEAD_LEN <= cur_pos_ (recv_ptr_ s) <= HEAD_LEN + ctx_len_ (recv_ptr_ s)
        ∧ ctx_len_ (recv_ptr_ s) <= MAX_CTX_LEN
        ∧ ctx_len_ (recv_ptr_ s) + HEAD_LEN <= max_len_ (recv_ptr_ s)
        ∧ ctx_len_ (recv_ptr_ s) = be_value (take 4 (drop 4 (buffered s)))
    end
}.

Lemma rinv_data s : rinv s → ∃ b, data_ (recv_ptr_ s) = Some b ∧ Forall is_byte b
  ∧ Z.of_nat (length b) = max_len_ (recv_ptr_ s) ∧ INITIAL_NODE_SIZE <= Z.of_nat (length b).
Proof.
  intros [_ (_ & _ & _ & Hd) Hc _]. unfold INITIAL_NODE_SIZE in *. destruct (data_ (recv_ptr_ s)) as [b|].
  - exists b. destruct Hd. split_and!; try done. lia.
  - lia.
Qed.

Lemma fill_Ok m b bs :
  data_ m = Some b → 0 <= cur_pos_ m → Z.of_nat (length b) = max_len_ m →
  cur_pos_ m + Z.of_nat (length bs) <= max_len_ m →
  fill m bs = Ok (set_data m (splice b (Z.to_nat (cur_pos_ m)) bs)).
Proof.
  intros Hd H0 Hl Hlen. unfold fill, block. rewrite Hd. cbn [mbind res_bind].
  rewrite memcpy_to_Ok by lia. done.
Qed.

Lemma take_splice (b bs : list Z) off :
  (off + length bs <= length b)%nat → take (off + length bs) (splice b off bs) = take off b ++ bs.
Proof.
  intros H. unfold splice. rewrite app_assoc, take_app_length'; [done|].
  rewrite length_app, length_take. lia.
Qed.

Lemma length_buffered s : rinv s → Z.of_nat (length (buffered s)) = cur_pos_ (recv_ptr_ s).
Proof.
  intros Hr. destruct (rinv_data s Hr) as (b & Hd & _ & Hl & Hc).
  destruct Hr as [_ (_ & Hp & _) _ Hph]. unfold buffered. rewrite Hd. cbn [from_option id].
  unfold is_u32, HEAD_LEN, TAG_LEN, LENGTH_LEN, INITIAL_NODE_SIZE in *.
  rewrite length_take. destruct (reading_ s); [done|lia..].
Qed.

(** ** One completion *)

Section recv.
Context (host : byte_order) (junk : nat → Z) (handler_ok mgr_ok : bool).

Abbreviation step := (recv_step host junk handler_ok mgr_ok).

(** Receiving [bs] appends it to what is buffered. *)
Lemma receive_chunk s bs :
  rinv s → (length bs <= want s)%nat → Forall is_byte bs →
  ∃ m, fill (recv_ptr_ s) bs = Ok m ∧ node_wf (advance m bs)
    ∧ max_len_ (advance m bs) = max_len_ (recv_ptr_ s)
    ∧ ctx_len_ (advance m bs) = ctx_len_ (recv_ptr_ s)
    ∧ cur_pos_ (advance m bs) = cur_pos_ (recv_ptr_ s) + Z.of_nat (length bs)
    ∧ take (Z.to_nat (cur_pos_ (advance m bs))) (default [] (data_ (advance m bs))) = buffered s ++ bs.
Proof.
  intros Hr Hlen Hbs. destruct (rinv_data s Hr) as (b & Hd & Hb & Hl & Hc).
  destruct Hr as [_ Hwf _ Hph]. pose proof Hwf as (Hmax & Hp & Hctx & _).
  unfold want, is_u32, HEAD_LEN, TAG_LEN, LENGTH_LEN, INITIAL_NODE_SIZE, MAX_CTX_LEN in *.
  assert (Hfit : cur_pos_ (recv_ptr_ s) + Z.of_nat (length bs) <= max_len_ (recv_ptr_ s)).
  { destruct (reading_ s); [done|rewrite u32_id in Hlen by (unfold is_u32; lia); lia..]. }
  rewrite (fill_Ok _ b) by (done || lia). eexists. split; [reflexivity|].
  unfold advance, set_cur_pos, set_data. cbn [cur_pos_ data_ max_len_ ctx_len_ from_option id].
  rewrite u32_id by (unfold is_u32; lia). split_and!; try done.
  - apply node_wf_mk; unfold is_u32; try lia; [|by apply Forall_splice].
    rewrite length_splice by lia. done.
  - replace (Z.to_nat (cur_pos_ (recv_ptr_ s) + Z.of_nat (length bs)))
      with (Z.to_nat (cur_pos_ (recv_ptr_ s)) + length bs)%nat by lia.
    unfold buffered. rewrite Hd. cbn [from_option id]. apply take_splice. lia.
Qed.

Definition head_result (s : Session) (bs : list Z) (s' : Session) (out : list sess_out) : Prop :=
  let total := buffered s ++ bs in
  let len := be_value (take 4 (drop 4 total)) in
  if decide (length total < 8)%nat then
    rinv s' ∧ reading_ s' = RHead ∧ buffered s' = total ∧ out = []
  else if MAX_CTX_LEN <? len then
    down_ s' = true ∧ reading_ s' = RNone ∧ max_len_ (recv_ptr_ s') = max_len_ (recv_ptr_ s)
    ∧ out = (Close handler_ok mgr_ok s).2
  else rinv s' ∧ reading_ s' = RContent ∧ buffered s' = total ∧ out = [].

Lemma field_of_prefix (b t : list Z) n :
  (8 <= n)%nat → take n b = t → take 4 (drop 4 b) = take 4 (drop 4 t) ∧ take 4 b = take 4 t.
Proof.
  intros Hn <-. rewrite !take_drop_commute, !take_take.
  by replace (4 `min` n)%nat with 4%nat by lia; replace ((4 + 4) `min` n)%nat with (4 + 4)%nat by lia.
Qed.

Lemma node_wf_data m : node_wf m → 0 < max_len_ m →
  ∃ b, data_ m = Some b ∧ Forall is_byte b ∧ Z.of_nat (length b) = max_len_ m.
Proof.
  intros (_ & _ & _ & Hd) H. destruct (data_ m) as [b|]; [|lia]. exists b. by destruct Hd.
Qed.

(** Making room for the announced content keeps the header. *)
Lemma make_room n b len :
  node_wf n → data_ n = Some b → (8 <= length b)%nat → is_u32 (len + 8) → ctx_len_ n = len →
  ∃ m', (if max_len_ n <? len + 8 then Reallocate junk n (len + 8) else Ok n) = Ok m'
    ∧ node_wf m' ∧ max_len_ n <= max_len_ m' ∧ len + 8 <= max_len_ m' ∧ cur_pos_ m' = cur_pos_ n ∧ ctx_len_ m' = len
    ∧ take 8 (default [] (data_ m')) = take 8 b.
Proof.
  intros Hwf Hd H8 Hl Hctx. case_if.
  - destruct (Reallocate_Ok junk n (len + 8) Hwf) as (m' & -> & Hw & Hm & Hrest); [done|].
    rewrite Hd in Hrest. destruct Hrest as (Hc & Hx & b' & Hb' & Htk).
    exists m'. split_and!; try done; try lia. rewrite Hb'. cbn [from_option id].
    rewrite <- Htk, take_take. f_equal. lia.
  - exists n. split_and!; try done; try lia. by rewrite Hd.
Qed.

Lemma head_step s bs :
  rinv s → reading_ s = RHead → (length bs <= want s)%nat → Forall is_byte bs →
  ∃ s' out, step s (RData bs) = Ok (s', out) ∧ head_result s bs s' out.
Proof.
  intros Hr Hph Hlen Hbs. pose proof (length_buffered s Hr) as Hbl.
  destruct (receive_chunk s bs Hr Hlen Hbs) as (m & Hf & Hwf & Hmax & Hctx & Hcur & Htot).
  destruct Hr as [Hup _ Hcap Hp]. rewrite Hph in Hp.
  unfold want in Hlen. rewrite Hph in Hlen.
  unfold recv_step, head_cb. rewrite Hph, Hf. cbn [mbind res_bind]. cbn [down_ set_recv set_reading]. rewrite Hup.
  unfold head_result. cbn zeta. unfold HEAD_LEN, TAG_LEN, LENGTH_LEN in *.
  rewrite u32_id in Hlen by (unfold is_u32; lia). rewrite length_app.
  set (n := advance m bs) in *. change (4 + 4) with 8 in *.
  destruct (Z.leb_spec 8 (cur_pos_ n)) as [H8|H8].
  2: { eexists _, _. split; [reflexivity|]. rewrite decide_True by lia.
       split_and!; [|done..]. split; cbn [down_ recv_ptr_ reading_ set_recv set_reading ReceiveHead];
         [done|done|by rewrite Hmax|]. unfold HEAD_LEN, TAG_LEN, LENGTH_LEN. lia. }
  assert (Hge : ¬ (length (buffered s) + length bs < 8)%nat) by lia. unfold INITIAL_NODE_SIZE in Hcap.
  destruct (node_wf_data n Hwf ltac:(lia)) as (b & Hd & Hb & Hbl').
  rewrite Hd in Htot. cbn [from_option id] in Htot.
  destruct (field_of_prefix b (buffered s ++ bs) (Z.to_nat (cur_pos_ n)) ltac:(lia) Htot) as [Hfield _].
  rewrite (UpdateContentLenField_Ok host n b Hd Hb) by lia. cbn [mbind res_bind]. rewrite Hfield.
  set (len := be_value (take 4 (drop 4 (buffered s ++ bs)))).
  assert (Hlen0 : 0 <= len < 2 ^ 32).
  { unfold len. rewrite <- Hfield.
    pose proof (be_value_bound (take 4 (drop 4 b)) ltac:(by apply Forall_take, Forall_drop)) as Hv.
    rewrite length_take, length_drop in Hv. by replace (4 `min` (length b - 4))%nat with 4%nat in Hv by lia. }
  destruct (Z.ltb_spec MAX_CTX_LEN len) as [Hbig|Hsmall].
  { unfold Close. cbn [down_ set_recv set_reading]. rewrite Hup. eexists _, _. split; [reflexivity|].
    rewrite decide_False by done. by split_and!. }
  unfold MAX_CTX_LEN in *. rewrite u32_id by (unfold is_u32; lia).
  set (n' := set_ctx_len n len).
  assert (Hwf' : node_wf n') by (apply set_ctx_len_wf; [done|unfold is_u32; lia]).
  destruct (make_room n' b len) as (m' & E & Hwf2 & Hmx & Hfit & Hcur2 & Hctx2 & Htake);
    [done|done|lia|unfold is_u32; lia|done|].
  rewrite E. cbn [mbind res_bind]. eexists _, _. split; [reflexivity|].
  assert (Hcur8 : cur_pos_ m' = 8) by (cbn [n' cur_pos_ set_ctx_len] in Hcur2; lia).
  assert (Hbuf : take (Z.to_nat (cur_pos_ m')) (default [] (data_ m')) = buffered s ++ bs).
  { rewrite Hcur8. change (Z.to_nat 8) with 8%nat. rewrite Htake, <- Htot. f_equal. lia. }
  rewrite decide_False by done. split_and!; [|done|exact Hbuf|done]. split; cbn [down_ recv_ptr_ reading_ set_recv set_reading ReceiveContent].
  - done.
  - done.
  - unfold INITIAL_NODE_SIZE. cbn [n' max_len_ set_ctx_len] in Hmx. lia.
  - unfold HEAD_LEN, TAG_LEN, LENGTH_LEN, MAX_CTX_LEN. change (4 + 4) with 8. rewrite Hctx2.
    split_and!; try lia. unfold buffered. cbn [recv_ptr_ set_recv set_reading ReceiveContent]. by rewrite Hbuf.
Qed.

(** A fresh node, ready for the next header. *)
Lemma rinv_fresh s :
  down_ s = false →
  rinv (ReceiveHead (set_recv s (Zero (MsgNode_sized junk INITIAL_NODE_SIZE)))).
Proof.
  intros Hup. split; cbn [down_ recv_ptr_ reading_ set_recv set_reading ReceiveHead]; [done| |done|done].
  change (node_wf (mkMsgNode (Some (new_char junk 1024)) 0 0 1024)).
  apply node_wf_mk; [unfold is_u32; lia..|by rewrite length_new_char|auto with chat].
Qed.

(** A node whose first bytes are [t], a header and as much content as it announces. *)
Definition node_with (n : MsgNode) (t : list Z) : Prop :=
  node_wf n ∧ GetContentLen n + 8 = Z.of_nat (length t)
  ∧ GetTagField host n = Ok (be_value (take 4 t))
  ∧ ∃ b, data_ n = Some b ∧ take (length t) b = t.

Lemma content_step s bs :
  rinv s → reading_ s = RContent → (length bs <= want s)%nat → Forall is_byte bs → handler_ok = true →
  let total := buffered s ++ bs in
  ∃ s' out, step s (RData bs) = Ok (s', out) ∧ rinv s'
    ∧ if decide (Z.of_nat (length total) < HEAD_LEN + ctx_len_ (recv_ptr_ s)) then
        reading_ s' = RContent ∧ buffered s' = total ∧ out = []
      else
        Z.of_nat (length total) = HEAD_LEN + ctx_len_ (recv_ptr_ s)
        ∧ reading_ s' = RHead ∧ buffered s' = []
        ∧ ∃ n, out = [SPost (Some n)] ∧ node_with n total.
Proof.
  intros Hr Hph Hlen Hbs Hh total. pose proof (length_buffered s Hr) as Hbl.
  destruct (receive_chunk s bs Hr Hlen Hbs) as (m & Hf & Hwf & Hmax & Hctx & Hcur & Htot).
  pose proof Hr as [Hup _ Hcap Hp]. rewrite Hph in Hp. destruct Hp as (Hpos & Hctxmax & Hfit & Hfield).
  unfold want in Hlen. rewrite Hph in Hlen.
  unfold recv_step, content_cb. rewrite Hph, Hf. cbn [mbind res_bind]. cbn [down_ set_recv set_reading]. rewrite Hup.
  set (n := advance m bs) in *. unfold HEAD_LEN, TAG_LEN, LENGTH_LEN, MAX_CTX_LEN, INITIAL_NODE_SIZE in *.
  change (4 + 4) with 8 in *.
  assert (Hctx0 : 0 <= ctx_len_ (recv_ptr_ s)) by (destruct Hwf as (_ & _ & Hc & _); unfold is_u32 in Hc; lia).
  rewrite u32_id in Hlen by (unfold is_u32; lia). rewrite Hctx, u32_id by (unfold is_u32; lia).
  assert (Hl : Z.of_nat (length total) = cur_pos_ n) by (unfold total; rewrite length_app; lia).
  destruct (Z.leb_spec (ctx_len_ (recv_ptr_ s) + 8) (cur_pos_ n)) as [Hdone|Hmore].
  - destruct (node_wf_data n Hwf ltac:(lia)) as (b & Hd & Hb & Hbl').
    rewrite (GetTagField_Ok host n b Hd Hb) by lia. cbn [mbind res_bind].
    unfold ReceiveHandler. rewrite Hh. eexists _, _. split; [reflexivity|]. split; [by apply rinv_fresh|].
    rewrite decide_False by lia. split_and!; [lia|done|done|].
    exists n. split; [done|]. rewrite Hd in Htot. cbn [from_option id] in Htot. fold total in Htot.
    destruct (field_of_prefix b total (Z.to_nat (cur_pos_ n)) ltac:(lia) Htot) as [_ Htag].
    split_and!; [done|unfold GetContentLen; lia|by rewrite (GetTagField_Ok host n b Hd Hb), Htag by lia|].
    exists b. split; [done|]. by replace (length total) with (Z.to_nat (cur_pos_ n)) by lia.
  - eexists _, _. split; [reflexivity|].
    assert (Hbuf : buffered (ReceiveContent (set_recv (set_recv (set_reading s RNone) m) n)) = total) by exact Htot.
    split; [|rewrite decide_True by lia; done]. split; cbn [down_ recv_ptr_ reading_ set_recv set_reading ReceiveContent].
    + done.
    + done.
    + by rewrite Hmax.
    + rewrite Hctx, Hmax. unfold HEAD_LEN, TAG_LEN, LENGTH_LEN, MAX_CTX_LEN. split_and!; try lia.
      rewrite Hbuf, Hfield. unfold total.
      by rewrite !take_drop_commute, take_app_le by lia.
Qed.
End recv.

(** ** Streams *)

Lemma wire_cons m ms : wire (m :: ms) = frame m.1 m.2 ++ wire ms.
Proof. done. Qed.

Lemma wire_byte ms : Forall msg_ok ms → Forall is_byte (wire ms).
Proof.
  induction 1 as [|m ms (_ & Hb & _) _ IH]; [constructor|]. rewrite wire_cons, Forall_app.
  split; [by apply frame_byte|done].
Qed.

(** Eight bytes of a stream are the header of its first message. *)
Lemma wire_header ms t rest :
  Forall msg_ok ms → wire ms = t ++ rest → (8 <= length t)%nat →
  ∃ m ms', ms = m :: ms' ∧ msg_ok m ∧ be_value (take 4 t) = m.1
    ∧ be_value (take 4 (drop 4 t)) = Z.of_nat (length m.2).
Proof.
  intros Hok Hw Ht. destruct Hok as [|m ms' Hm _].
  { symmetry in Hw. apply app_nil in Hw as [-> _]. cbn in Ht. lia. }
  exists m, ms'. split; [done|]. split; [done|]. destruct Hm as (Htag & _ & Hlen).
  assert (Hpre : take 8 (frame m.1 m.2) = take 8 t).
  { assert (take 8 (frame m.1 m.2 ++ wire ms') = take 8 (t ++ rest)) as Heq by (by rewrite <- wire_cons, Hw).
    rewrite !take_app_le in Heq; [done|done|]. rewrite length_frame. change (Z.to_nat HEAD_LEN) with 8%nat. lia. }
  destruct (field_of_prefix (frame m.1 m.2) (take 8 t) 8 ltac:(lia) Hpre) as [H1 H2].
  destruct (field_of_prefix t (take 8 t) 8 ltac:(lia) eq_refl) as [H3 H4].
  rewrite H4, <- H2, H3, <- H1. split; [by apply frame_tag|].
  apply frame_len. unfold MAX_CTX_LEN, is_u32 in *. lia.
Qed.

Section stream.
Context (host : byte_order) (junk : nat → Z) (mgr_ok : bool).

Abbreviation deliver := (deliver host junk true mgr_ok).

(** One completion, seen against the messages still to come. *)
Lemma stream_step s k stream ms :
  rinv s → Forall msg_ok ms → wire ms = buffered s ++ stream → (k <= want s)%nat →
  ∃ s' nodes n, recv_step host junk true mgr_ok s (RData (take k stream)) = Ok (s', SPost ∘ Some <$> nodes)
    ∧ rinv s' ∧ Forall2 (node_holds host) nodes (take n ms)
    ∧ wire (drop n ms) = buffered s' ++ drop k stream.
Proof.
  intros Hr Hok Hw Hk. set (c := take k stream).
  assert (Hw' : wire ms = (buffered s ++ c) ++ drop k stream) by (unfold c; by rewrite <- app_assoc, take_drop).
  assert (Hcb : Forall is_byte c).
  { pose proof (wire_byte ms Hok) as Hb. rewrite Hw', !Forall_app in Hb. tauto. }
  assert (Hcl : (length c <= want s)%nat) by (unfold c; rewrite length_take; lia).
  destruct (reading_ s) eqn:Hph; [by destruct Hr as [_ _ _ Hp]; rewrite Hph in Hp|..].
  - destruct (head_step host junk true mgr_ok s c Hr Hph Hcl Hcb) as (s' & out & E & Hres).
    unfold head_result in Hres. cbn zeta in Hres. rewrite E. case_decide as Hlt.
    + destruct Hres as (Hr' & _ & Hb' & ->). exists s', [], 0%nat. rewrite take_0, drop_0, Hb'. by split_and!.
    + destruct (wire_header ms (buffered s ++ c) (drop k stream) Hok Hw') as (m & ms' & -> & Hm & _ & Hl); [lia|].
      destruct Hm as (_ & _ & Hmax). rewrite Hl in Hres. rewrite (proj2 (Z.ltb_ge _ _)) in Hres by done.
      destruct Hres as (Hr' & _ & Hb' & ->). exists s', [], 0%nat. rewrite take_0, drop_0, Hb'. by split_and!.
  - destruct (content_step host junk true mgr_ok s c Hr Hph Hcl Hcb eq_refl) as (s' & out & E & Hr' & Hres).
    rewrite E. case_decide as Hlt.
    + destruct Hres as (_ & Hb' & ->). exists s', [], 0%nat. rewrite take_0, drop_0, Hb'. by split_and!.
    + destruct Hres as (Hlen & _ & Hb' & n & -> & Hnwf & Hnlen & Hntag & b & Hnd & Hnb).
      pose proof (length_buffered s Hr) as Hbl. destruct Hr as [_ _ _ Hp]. rewrite Hph in Hp.
      destruct Hp as (Hpos & _ & _ & Hfield).
      change HEAD_LEN with 8 in *.
      destruct (wire_header ms (buffered s) stream Hok Hw) as (m & ms' & -> & Hm & Htag & Hl); [lia|].
      rewrite Hfield, Hl in Hlen. rewrite wire_cons in Hw'.
      apply app_inj_1 in Hw' as [Hframe Hrest];
        [|rewrite length_frame; change (Z.to_nat HEAD_LEN) with 8%nat; lia].
      exists s', [n], 1%nat. cbn [take drop]. rewrite Hb', app_nil_l. split_and!; [done|done| |done].
      constructor; [|constructor]. destruct Hm as (Htag32 & _ & _). split_and!; [done| |lia|].
      * rewrite Hntag, <- Hframe. by rewrite frame_tag.
      * exists b. split; [done|]. rewrite Hframe.
        replace (Z.to_nat HEAD_LEN + length m.2)%nat with (length (buffered s ++ c)); [done|].
        change (Z.to_nat HEAD_LEN) with 8%nat. lia.
Qed.

Lemma deliver_spec sizes s stream ms :
  rinv s → Forall msg_ok ms → wire ms = buffered s ++ stream →
  ∃ s' nodes n rest, deliver sizes s stream = Ok (s', SPost ∘ Some <$> nodes, rest)
    ∧ rinv s' ∧ Forall2 (node_holds host) nodes (take n ms) ∧ wire (drop n ms) = buffered s' ++ rest.
Proof.
  revert s stream ms; induction sizes as [|k sizes IH]; intros s stream ms Hr Hok Hw.
  { exists s, [], 0%nat, stream. rewrite take_0, drop_0. by split_and!. }
  cbn [Session.deliver].
  destruct (stream_step s (Nat.min k (want s)) stream ms Hr Hok Hw) as (s1 & nodes1 & n1 & -> & Hr1 & Hf1 & Hw1); [lia|].
  cbn [mbind res_bind fst snd].
  destruct (IH s1 (drop (Nat.min k (want s)) stream) (drop n1 ms) Hr1) as (s2 & nodes2 & n2 & rest & -> & Hr2 & Hf2 & Hw2);
    [by apply Forall_drop|done|].
  cbn [mbind res_bind fst snd]. exists s2, (nodes1 ++ nodes2), (n1 + n2)%nat, rest.
  rewrite fmap_app, <- drop_drop. split_and!; [done|done| |done].
  rewrite <- (take_drop n1 (take (n1 + n2) ms)). apply Forall2_app.
  - by rewrite take_take, Nat.min_l by lia.
  - by rewrite take_drop_commute in Hf2.
Qed.
End stream.

Lemma rinv_start junk : rinv (Start (Session_new junk)).
Proof.
  split; cbn [down_ recv_ptr_ reading_ Start ReceiveHead set_reading Session_new]; [done| |done|done].
  change (node_wf (mkMsgNode (Some (new_char junk 1024)) 0 0 1024)).
  apply node_wf_mk; [unfold is_u32; lia..|by rewrite length_new_char|auto with chat].
Qed.

(** With the guarantee of [async_read] (a read completes with all the bytes asked for) one
    message takes two reads. *)
Lemma message_two_reads host junk mgr_ok s m rest (N : nat) :
  rinv s → reading_ s = RHead → buffered s = [] → msg_ok m → (Z.to_nat (HEAD_LEN + MAX_CTX_LEN) <= N)%nat →
  ∃ s' n, deliver host junk true mgr_ok [N; N] s (frame m.1 m.2 ++ rest) = Ok (s', [SPost (Some n)], rest)
    ∧ rinv s' ∧ reading_ s' = RHead ∧ buffered s' = [].
Proof.
  intros Hr Hph Hb Hm HN. pose proof Hm as (_ & Hbytes & Hmax).
  unfold HEAD_LEN, TAG_LEN, LENGTH_LEN, MAX_CTX_LEN in HN.
  pose proof (length_frame m.1 m.2) as Hfl. change (Z.to_nat HEAD_LEN) with 8%nat in Hfl.
  pose proof (length_buffered s Hr) as Hcur. rewrite Hb in Hcur. cbn in Hcur.
  assert (Hw8 : want s = 8%nat) by (unfold want; rewrite Hph, <- Hcur; reflexivity).
  pose proof (frame_byte m.1 m.2 Hbytes) as Hfb.
  set (h := take 8 (frame m.1 m.2)).
  assert (Hhl : length h = 8%nat) by (unfold h; rewrite length_take; lia).
  destruct (head_step host junk true mgr_ok s h Hr Hph) as (s1 & out1 & E1 & Hres);
    [lia|unfold h; by apply Forall_take|].
  unfold head_result in Hres. cbn zeta in Hres. rewrite Hb, app_nil_l in Hres.
  assert (Hlen : be_value (take 4 (drop 4 h)) = Z.of_nat (length m.2)).
  { destruct (field_of_prefix (frame m.1 m.2) h 8 ltac:(lia) eq_refl) as [<- _].
    apply frame_len. unfold is_u32, MAX_CTX_LEN in *. lia. }
  rewrite decide_False, Hlen in Hres by lia. rewrite (proj2 (Z.ltb_ge _ _)) in Hres by done.
  destruct Hres as (Hr1 & Hph1 & Hb1 & ->).
  pose proof (length_buffered s1 Hr1) as Hcur1. rewrite Hb1, Hhl in Hcur1.
  assert (Hctx1 : ctx_len_ (recv_ptr_ s1) = Z.of_nat (length m.2)).
  { destruct Hr1 as [_ _ _ Hp]. rewrite Hph1 in Hp. destruct Hp as (_ & _ & _ & ->). by rewrite Hb1. }
  assert (Hw1 : want s1 = length m.2).
  { unfold want. rewrite Hph1, Hctx1, <- Hcur1. unfold HEAD_LEN, TAG_LEN, LENGTH_LEN, MAX_CTX_LEN in *.
    rewrite u32_id by (unfold is_u32; lia). lia. }
  destruct (content_step host junk true mgr_ok s1 m.2 Hr1 Hph1) as (s2 & out2 & E2 & Hr2 & Hres2); [lia|done|done|].
  rewrite Hb1, decide_False in Hres2 by (rewrite length_app, Hctx1; unfold HEAD_LEN, TAG_LEN, LENGTH_LEN; lia).
  destruct Hres2 as (_ & Hph2 & Hb2 & n & -> & _). exists s2, n. split; [|done].
  cbn [deliver]. rewrite Hw8, Nat.min_r by lia.
  rewrite (take_app_le (frame _ _)) by lia. fold h. rewrite E1. cbn [mbind res_bind fst snd].
  rewrite Hw1, Nat.min_r by (unfold MAX_CTX_LEN in *; lia).
  rewrite (drop_app_le (frame _ _)) by lia. change 8%nat with (Z.to_nat HEAD_LEN). rewrite frame_content.
  rewrite take_app_length, E2. cbn [mbind res_bind fst snd app]. by rewrite drop_app_length.
Qed.

Lemma deliver_app host junk h g sizes1 sizes2 s stream s1 o1 st1 :
  deliver host junk h g sizes1 s stream = Ok (s1, o1, st1) →
  deliver host junk h g (sizes1 ++ sizes2) s stream =
    (r ← deliver host junk h g sizes2 s1 st1; Ok (r.1.1, o1 ++ r.1.2, r.2)).
Proof.
  revert s stream o1; induction sizes1 as [|k sizes1 IH]; intros s stream o1 H; cbn [deliver app] in *.
  - inv_res. by destruct (deliver _ _ _ _ sizes2 s1 st1) as [[[? ?] ?]| |].
  - inv_res. destruct a0 as [[s2 o2] st2]. cbn [fst snd] in *. rewrite Hm. cbn [mbind res_bind].
    rewrite (IH _ _ _ Hm0). destruct (deliver _ _ _ _ sizes2 s2 st2) as [[[? ?] ?]| |]; cbn; by rewrite ?app_assoc.
Qed.

Lemma all_messages_delivered host junk mgr_ok ms s (N : nat) :
  rinv s → reading_ s = RHead → buffered s = [] → Forall msg_ok ms → (Z.to_nat (HEAD_LEN + MAX_CTX_LEN) <= N)%nat →
  ∃ s' nodes, deliver host junk true mgr_ok (replicate (2 * length ms) N) s (wire ms)
      = Ok (s', SPost ∘ Some <$> nodes, []) ∧ length nodes = length ms.
Proof.
  intros Hr Hph Hb Hok HN. revert s Hr Hph Hb; induction Hok as [|m ms Hm _ IH]; intros s Hr Hph Hb.
  { by exists s, []. }
  destruct (message_two_reads host junk mgr_ok s m (wire ms) N) as (s1 & n & E1 & Hr1 & Hph1 & Hb1); [done..|].
  destruct (IH s1 Hr1 Hph1 Hb1) as (s2 & nodes & E2 & Hl).
  exists s2, (n :: nodes). split; [|cbn; lia].
  replace (2 * length (m :: ms))%nat with (2 + 2 * length ms)%nat by (cbn; lia).
  rewrite replicate_add, wire_cons. change (replicate 2 N) with [N; N].
  rewrite (deliver_app _ _ _ _ _ _ _ _ _ _ _ E1), E2. done.
Qed.

(** ** Theorems on reception *)

(** C7. Reassembly: however the transport cuts the byte stream of a list of messages, the
    session keeps receiving without undefined behaviour, posts to the handler exactly a
    prefix of those messages (same tags, lengths and contents, in order), and what is not
    posted yet is what it has buffered or not read; between messages with the stream
    consumed nothing is missing. *)
Theorem stream_reassembly host junk mgr_ok sizes ms :
  Forall msg_ok ms →
  ∃ s' nodes n rest,
    deliver host junk true mgr_ok sizes (Start (Session_new junk)) (wire ms)
      = Ok (s', SPost ∘ Some <$> nodes, rest)
    ∧ down_ s' = false
    ∧ Forall2 (node_holds host) nodes (take n ms)
    ∧ wire (drop n ms) = buffered s' ++ rest
    ∧ (rest = [] → reading_ s' = RHead → drop n ms = []).
Proof.
  intros Hok. destruct (deliver_spec host junk mgr_ok sizes (Start (Session_new junk)) (wire ms) ms)
    as (s' & nodes & n & rest & E & Hr & Hf & Hw); [apply rinv_start|done|done|].
  exists s', nodes, n, rest. split_and!; [done|apply Hr|done|done|].
  intros -> Hph. rewrite app_nil_r in Hw. pose proof (length_buffered s' Hr) as Hl.
  destruct Hr as [_ _ _ Hp]. rewrite Hph in Hp. destruct (drop n ms) as [|m ms']; [done|].
  rewrite wire_cons in Hw. apply (f_equal length) in Hw. rewrite length_app, length_frame in Hw.
  unfold HEAD_LEN, TAG_LEN, LENGTH_LEN in *. lia.
Qed.

Lemma stream_reassembly_witness :
  ∃ s' nodes n rest,
    deliver LITTLE_ENDIAN (λ _, 0) true true [3%nat; 9%nat; 1%nat; 20%nat]
      (Start (Session_new (λ _, 0))) (wire [(3, [65; 66]); (6, [])])
      = Ok (s', SPost ∘ Some <$> nodes, rest)
    ∧ down_ s' = false
    ∧ Forall2 (node_holds LITTLE_ENDIAN) nodes (take n [(3, [65; 66]); (6, [])])
    ∧ wire (drop n [(3, [65; 66]); (6, [])]) = buffered s' ++ rest
    ∧ (rest = [] → reading_ s' = RHead → drop n [(3, [65; 66]); (6, [])] = []).
Proof.
  apply (stream_reassembly LITTLE_ENDIAN (λ _, 0) true). constructor; [|constructor; [|constructor]];
    (split; [unfold is_u32; cbn; lia|split; [|by vm_compute]]).
  - constructor; [|constructor; [|constructor]]; unfold is_byte; lia.
  - constructor.
Defined.

(** Every message of a stream is posted, with its content. *)
Lemma all_messages_held host junk mgr_ok ms (N : nat) :
  Forall msg_ok ms → (Z.to_nat (HEAD_LEN + MAX_CTX_LEN) <= N)%nat →
  ∃ s' nodes,
    deliver host junk true mgr_ok (replicate (2 * length ms) N) (Start (Session_new junk)) (wire ms)
      = Ok (s', SPost ∘ Some <$> nodes, [])
    ∧ Forall2 (node_holds host) nodes ms.
Proof.
  intros Hok HN.
  destruct (all_messages_delivered host junk mgr_ok ms (Start (Session_new junk)) N)
    as (s' & nodes & E & Hl); [apply rinv_start|done|done|done|done|].
  exists s', nodes. split; [done|].
  destruct (deliver_spec host junk mgr_ok (replicate (2 * length ms) N) (Start (Session_new junk)) (wire ms) ms)
    as (s2 & nodes2 & n & rest & E2 & _ & Hf & _); [apply rinv_start|done|done|].
  rewrite E in E2. injection E2 as -> Hn _.
  assert (nodes = nodes2) as <- by (apply (inj (fmap (M:=list) (SPost ∘ Some))); exact Hn).
  pose proof (Forall2_length Hf) as Hlen. rewrite length_take in Hlen. by rewrite take_ge in Hf by lia.
Qed.

(** Progress of reception: with reads that complete in full, every list of messages is
    received completely, two reads per message. *)
Theorem stream_fully_received host junk mgr_ok ms (N : nat) :
  Forall msg_ok ms → (Z.to_nat (HEAD_LEN + MAX_CTX_LEN) <= N)%nat →
  ∃ s' nodes,
    deliver host junk true mgr_ok (replicate (2 * length ms) N) (Start (Session_new junk)) (wire ms)
      = Ok (s', SPost ∘ Some <$> nodes, [])
    ∧ Forall2 (node_holds host) nodes ms.
Proof. apply all_messages_held. Qed.

Lemma stream_fully_received_witness :
  ∃ s' nodes,
    deliver BIG_ENDIAN (λ _, 7) true true (replicate 2 (Z.to_nat 2000000))
      (Start (Session_new (λ _, 7))) (wire [(1, [123; 125])])
      = Ok (s', SPost ∘ Some <$> nodes, [])
    ∧ Forall2 (node_holds BIG_ENDIAN) nodes [(1, [123; 125])].
Proof.
  apply (stream_fully_received BIG_ENDIAN (λ _, 7) true [(1, [123; 125])] (Z.to_nat 2000000)).
  - constructor; [|constructor]. split; [unfold is_u32; cbn; lia|split; [|by vm_compute]].
    constructor; [|constructor; [|constructor]]; unfold is_byte; lia.
  - unfold HEAD_LEN, TAG_LEN, LENGTH_LEN, MAX_CTX_LEN. lia.
Defined.

(** A header that announces more than [MAX_CTX_LEN] bytes closes the session: no memory
    is allocated for it, no message is posted, the handler is told that the session is
    gone, the temporary entry is removed, and no further read is started. *)
Theorem oversize_header_closes host junk tag len rest :
  is_u32 tag → is_u32 len → MAX_CTX_LEN < len →
  ∃ s', deliver host junk true true [8%nat] (Start (Session_new junk)) (be_bytes 4 tag ++ be_bytes 4 len ++ rest)
      = Ok (s', [SPost None; SRemoveTempSession], rest)
    ∧ down_ s' = true ∧ reading_ s' = RNone ∧ max_len_ (recv_ptr_ s') = INITIAL_NODE_SIZE.
Proof.
  intros Ht Hl Hbig. set (h := be_bytes 4 tag ++ be_bytes 4 len).
  assert (Hhl : length h = 8%nat) by (unfold h; by rewrite length_app, !length_be_bytes).
  assert (Hhb : Forall is_byte h) by (unfold h; rewrite Forall_app; auto using be_bytes_byte).
  assert (Hlen : be_value (take 4 (drop 4 h)) = len).
  { unfold h. rewrite drop_app_length' by (by rewrite length_be_bytes).
    rewrite take_ge by (by rewrite length_be_bytes). by apply be_value_bytes. }
  destruct (head_step host junk true true (Start (Session_new junk)) h (rinv_start junk) eq_refl)
    as (s' & out & E & Hres); [by rewrite Hhl|done|].
  unfold head_result in Hres. cbn zeta in Hres.
  change (buffered (Start (Session_new junk)) ++ h) with h in Hres.
  rewrite decide_False, Hlen, (proj2 (Z.ltb_lt _ _) Hbig) in Hres by lia.
  destruct Hres as (? & ? & ? & ->). exists s'. split; [|done].
  rewrite app_assoc. fold h. cbn [deliver]. change (Nat.min 8 (want _)) with 8%nat.
  rewrite take_app_length', drop_app_length', E by done. done.
Qed.

Lemma oversize_header_closes_witness :
  ∃ s', deliver LITTLE_ENDIAN (λ _, 0) true true [8%nat] (Start (Session_new (λ _, 0)))
        (be_bytes 4 3 ++ be_bytes 4 (2 ^ 20 + 1) ++ [9])
      = Ok (s', [SPost None; SRemoveTempSession], [9])
    ∧ down_ s' = true ∧ reading_ s' = RNone ∧ max_len_ (recv_ptr_ s') = INITIAL_NODE_SIZE.
Proof.
  apply (oversize_header_closes LITTLE_ENDIAN (λ _, 0) 3 (2 ^ 20 + 1) [9]); [unfold is_u32; lia..|by vm_compute].
Defined.
