(* ===== verification/SessionClose.v ===== *)
(** * Closing a session under interleaving (src/src/server/session.cpp)

    [Close] is called by the callbacks of the session's strand, by the handler's thread and by
    the queue's.  It wins or loses the exchange of [down_], then notifies the handler, then
    calls the manager; the callbacks test [down_] and go on.  A state has the session, where
    the strand is, the calls of [Close] that are under way, and the calls made on the handler
    and the manager so far; both objects exist (their weak pointers can be locked).  A call
    of [Close] made by the strand does not keep it busy here, so that the runs include more
    interleavings than the program has. *)

From S2P Require Import Prelude FieldOp MsgNode Session SessionFacts.

(** ** The pieces *)

(** [down_.compare_exchange_strong(expected, true)] *)
Definition close_begin (s : Session) : Session * bool :=
  if down_ s then (s, false)
  else (mkSession (user_id_ s) (verified_ s) (recv_ptr_ s) (send_q_ s) (sending_ s) true (reading_ s), true).

Section pieces.
Context (host : byte_order) (junk : nat → Z).

(** A read callback with data, up to the test of [down_] *)
Definition read_test (s : Session) (bs : list Z) : res Session :=
  m ← fill (recv_ptr_ s) bs;
  Ok (set_recv (set_reading s RNone) m).

(** The callback of [ReceiveHead] behind the test; [true] when it goes on to [Close] *)
Definition head_rest (s : Session) (bs : list Z) : res (Session * bool) :=
  let m := advance (recv_ptr_ s) bs in
  if HEAD_LEN <=? cur_pos_ m then
    r ← UpdateContentLenField host m;
    let '(content_len, m) := r in
    if MAX_CTX_LEN <? content_len then Ok (set_recv s m, true)
    else
      m ← (if max_len_ m <? u32 (content_len + HEAD_LEN)
           then Reallocate junk m (u32 (content_len + HEAD_LEN)) else Ok m);
      Ok (ReceiveContent (set_recv s m), false)
  else Ok (ReceiveHead (set_recv s m), false).

(** The callback of [ReceiveContent] behind the test *)
Definition content_rest (s : Session) (bs : list Z) : res (Session * list sess_out) :=
  let m := advance (recv_ptr_ s) bs in
  let s := set_recv s m in
  if u32 (ctx_len_ m + HEAD_LEN) <=? cur_pos_ m then
    _ ← GetTagField host m;
    let '(s, out) := ReceiveHandler junk true true s in
    Ok (ReceiveHead (set_recv s (Zero (recv_ptr_ s))), out)
  else Ok (ReceiveContent s, []).

(** Without interruption the pieces are the callbacks and [Close]. *)
Lemma Close_cut s :
  Close true true s = let '(s', go) := close_begin s in (s', if go : bool then [SPost None; close_remove s'] else []).
Proof. unfold Close, close_begin. by destruct (down_ s). Qed.

Lemma head_cb_cut s bs :
  head_cb host junk true true s (RData bs) =
    (s ← read_test s bs;
     if down_ s then Ok (s, [])
     else r ← head_rest s bs; Ok (if r.2 : bool then Close true true r.1 else (r.1, []))).
Proof.
  unfold head_cb, read_test, head_rest. destruct (fill _ _) as [m| |]; [|done..]. cbn [mbind res_bind down_ set_recv set_reading recv_ptr_].
  destruct (down_ s); [done|]. destruct (_ <=? _); [|done].
  destruct (UpdateContentLenField _ _) as [[len m']| |]; [|done..]. cbn [mbind res_bind].
  destruct (_ <? len); [done|]. by destruct (if _ <? _ then _ else _).
Qed.

Lemma content_cb_cut s bs :
  content_cb host junk true true s (RData bs) =
    (s ← read_test s bs; if down_ s then Ok (s, []) else content_rest s bs).
Proof. unfold content_cb, read_test, content_rest. by destruct (fill _ _) as [m| |]. Qed.
End pieces.

(** ** Runs *)

(** The strand: between callbacks, or behind the test of [down_] in one *)
Inductive strand_pc := KIdle | KHead (bs : list Z) | KContent (bs : list Z) | KWrite.

(** A call of [Close] that won the exchange: before the notification, before the removal *)
Inductive close_pc := KNotify | KRemove.

Record close_st := mkClose {
  k_sess : Session;
  k_strand : strand_pc;
  k_close : list close_pc;
  k_calls : list sess_out
}.

Inductive close_ev :=
  | VRead (r : read_result)    (* a read completes: its callback up to the test *)
  | VWritten (err : bool)      (* a write completes: its callback up to the test *)
  | VRest                      (* the rest of the callback *)
  | VSend (m : MsgNode)        (* other threads *)
  | VVerify (uid : Z)
  | VClose
  | VNotify (i : nat)          (* the calls of [Close] *)
  | VRemove (i : nat).

Section runs.
Context (host : byte_order) (junk : nat → Z).

(** A call of [Close] up to the exchange *)
Definition begin_close (st : close_st) (s : Session) (k : strand_pc) : close_st :=
  let '(s', go) := close_begin s in
  mkClose s' k (k_close st ++ if go : bool then [KNotify] else []) (k_calls st).

Definition with_sess (st : close_st) (s : Session) (k : strand_pc) : close_st := mkClose s k (k_close st) (k_calls st).

(** One step; [None] where it is not possible *)
Definition close_step (st : close_st) (e : close_ev) : option (res close_st) :=
  let s := k_sess st in
  match e, k_strand st with
  | VRead r, KIdle =>
      match reading_ s, r with
      | RNone, _ => None
      | _, (REof | RError) => Some (Ok (begin_close st (set_reading s RNone) KIdle))
      | ph, RData bs =>
          Some (s' ← read_test s bs;
                Ok (with_sess st s' (if down_ s' then KIdle else match ph with RHead => KHead bs | _ => KContent bs end)))
      end
  | VWritten err, KIdle =>
      Some (Ok (if err : bool then begin_close st s KIdle
                else with_sess st s (if down_ s then KIdle else KWrite)))
  | VRest, KHead bs =>
      Some (r ← head_rest host junk s bs;
            Ok (if r.2 : bool then begin_close st r.1 KIdle else with_sess st r.1 KIdle))
  | VRest, KContent bs =>
      Some (r ← content_rest host junk s bs; Ok (mkClose r.1 KIdle (k_close st) (k_calls st ++ r.2)))
  | VRest, KWrite => Some (Ok (with_sess st (QueueSend s).1 KIdle))
  | VSend m, k => Some (Ok (with_sess st (Send_node s m).1 k))
  | VVerify uid, k => Some (Ok (with_sess st (SetVerified s uid) k))
  | VClose, k => Some (Ok (begin_close st s k))
  | VNotify i, k =>
      match k_close st !! i with
      | Some KNotify => Some (Ok (mkClose s k (<[i := KRemove]> (k_close st)) (k_calls st ++ [SPost None])))
      | _ => None
      end
  | VRemove i, k =>
      match k_close st !! i with
      | Some KRemove => Some (Ok (mkClose s k (delete i (k_close st)) (k_calls st ++ [close_remove s])))
      | _ => None
      end
  | _, _ => None
  end.

Fixpoint close_run (es : list close_ev) (st : close_st) : option (res close_st) :=
  match es with
  | [] => Some (Ok st)
  | e :: es' => match close_step st e with Some (Ok st') => close_run es' st' | r => r end
  end.
End runs.

Definition close_init (s : Session) : close_st := mkClose s KIdle [] [].

(** ** The invariant *)

(** Messages posted *)
Definition msgs (l : list MsgNode) : list sess_out := SPost ∘ Some <$> l.

(** A message may follow from where the strand is. *)
Definition pending (k : strand_pc) : nat := match k with KContent _ => 1 | _ => 0 end.

(** The removal is that of the session: under its user id when it is verified, and as a
    temporary one only when it was not verified at the start. *)
Definition removal_ok (s0 s : Session) (c : sess_out) : Prop :=
  match c with
  | SRemoveSession uid => verified_ s = true ∧ user_id_ s = uid
  | SRemoveTempSession => verified_ s0 = false
  | SPost _ => False
  end.

Definition keeps_user (s s' : Session) : Prop := verified_ s = true → verified_ s' = true ∧ user_id_ s' = user_id_ s.

(** What has been called, by where the closing is *)
Definition trace_ok (s0 : Session) (st : close_st) : Prop :=
  match k_close st with
  | [] =>
      if down_ (k_sess st) then
        ∃ before between removal after,
          k_calls st = msgs before ++ [SPost None] ++ msgs between ++ [removal] ++ msgs after
          ∧ (length between + length after + pending (k_strand st) <= 1)%nat ∧ removal_ok s0 (k_sess st) removal
      else ∃ before, k_calls st = msgs before
  | [KNotify] => down_ (k_sess st) = true ∧ ∃ before, k_calls st = msgs before
  | [KRemove] => down_ (k_sess st) = true ∧ ∃ before between,
      k_calls st = msgs before ++ [SPost None] ++ msgs between
      ∧ (length between + pending (k_strand st) <= 1)%nat
  | _ => False
  end.

Definition close_inv (s0 : Session) (st : close_st) : Prop := keeps_user s0 (k_sess st) ∧ trace_ok s0 st.

(** A step of a session that keeps [down_] and who it is *)
Definition keeps_up (s s' : Session) : Prop := down_ s' = down_ s ∧ keeps_user s s'.

Lemma keeps_user_trans s1 s2 s3 : keeps_user s1 s2 → keeps_user s2 s3 → keeps_user s1 s3.
Proof. intros H1 H2 Hv. destruct (H1 Hv) as [Hv2 <-]. by apply H2. Qed.

Lemma removal_ok_trans s0 s s' c : keeps_user s s' → removal_ok s0 s c → removal_ok s0 s' c.
Proof. destruct c; cbn; [done| |done]. intros H [Hv <-]. by apply H. Qed.

Lemma msgs_app l l' : msgs (l ++ l') = msgs l ++ msgs l'.
Proof. apply fmap_app. Qed.

(** Such a step, by the strand or beside it, that makes no call *)
Lemma with_sess_inv s0 st s' k :
  close_inv s0 st → keeps_up (k_sess st) s' →
  (down_ s' = true → (pending k <= pending (k_strand st))%nat) → close_inv s0 (with_sess st s' k).
Proof.
  intros [Hu Ht] [Hd Hs] Hk. split; [by eapply keeps_user_trans|]. unfold trace_ok in *. cbn [with_sess k_close k_calls k_sess k_strand].
  rewrite Hd. destruct (k_close st) as [|[] []]; try done.
  - destruct (down_ (k_sess st)) eqn:E; [|done]. destruct Ht as (b & bt & r & af & Hc & Hl & Hr). exists b, bt, r, af.
    split_and!; [done| |by eapply removal_ok_trans]. specialize (Hk Hd). lia.
  - destruct Ht as (E & b & bt & Hc & Hl). split; [done|]. exists b, bt. split; [done|]. specialize (Hk ltac:(congruence)). lia.
Qed.

(** Behind the test of a content callback: at most one message *)
Lemma posted_inv s0 st s' bs out :
  close_inv s0 st → k_strand st = KContent bs → keeps_up (k_sess st) s' → (∃ l, out = msgs l ∧ (length l <= 1)%nat) →
  close_inv s0 (mkClose s' KIdle (k_close st) (k_calls st ++ out)).
Proof.
  intros [Hu Ht] Hk [Hd Hs] (l & -> & Hl1). split; [by eapply keeps_user_trans|]. unfold trace_ok in *. cbn [k_close k_calls k_sess k_strand].
  rewrite Hk in Ht. cbn [pending] in *. rewrite Hd. destruct (k_close st) as [|[] []]; try done.
  - destruct (down_ (k_sess st)).
    + destruct Ht as (b & bt & r & af & Hc & Hl & Hr). exists b, bt, r, (af ++ l). rewrite Hc, msgs_app, !length_app, <- !app_assoc.
      split_and!; [done|lia|by eapply removal_ok_trans].
    + destruct Ht as (b & ->). exists (b ++ l). by rewrite msgs_app.
  - destruct Ht as (E & b & Hc). split; [done|]. exists (b ++ l). by rewrite Hc, msgs_app.
  - destruct Ht as (E & b & bt & Hc & Hl). split; [done|]. exists b, (bt ++ l). rewrite Hc, msgs_app, length_app, <- !app_assoc.
    split; [done|lia].
Qed.

(** The exchange: the first call of [Close] goes on, the others return. *)
Lemma begin_close_inv s0 st s' k :
  close_inv s0 st → keeps_up (k_sess st) s' → (pending k <= pending (k_strand st))%nat → close_inv s0 (begin_close st s' k).
Proof.
  intros Hi Hk Hp. destruct Hk as [Hd Hs]. unfold begin_close, close_begin. destruct (down_ s') eqn:E.
  - rewrite app_nil_r. apply (with_sess_inv s0 st s' k); [done|by split; [rewrite E|]|by intros].
  - destruct Hi as [Hu Ht]. split; [intros Hv; destruct (Hu Hv) as [Hv' <-]; by apply Hs|].
    unfold trace_ok in *. cbn [k_close k_calls k_sess k_strand]. rewrite <- Hd in Ht.
    destruct (k_close st) as [|[] []]; try done; by destruct Ht.
Qed.

Lemma close_notify_inv s0 st i :
  close_inv s0 st → k_close st !! i = Some KNotify →
  close_inv s0 (mkClose (k_sess st) (k_strand st) (<[i := KRemove]> (k_close st)) (k_calls st ++ [SPost None])).
Proof.
  intros [Hu Ht] Hi. split; [done|]. unfold trace_ok in *. cbn [k_close k_calls k_sess k_strand].
  destruct (k_close st) as [|[] []]; try done; destruct i as [|i]; cbn in *; try done.
  destruct Ht as (E & b & ->). split; [done|]. exists b, []. split; [done|]. destruct (k_strand st); cbn; lia.
Qed.

Lemma remove_inv s0 st i :
  close_inv s0 st → k_close st !! i = Some KRemove →
  close_inv s0 (mkClose (k_sess st) (k_strand st) (delete i (k_close st)) (k_calls st ++ [close_remove (k_sess st)])).
Proof.
  intros [Hu Ht] Hi. split; [done|]. unfold trace_ok in *. cbn [k_close k_calls k_sess k_strand].
  destruct (k_close st) as [|[] []]; try done; destruct i as [|i]; cbn in *; try done.
  destruct Ht as (E & b & bt & -> & Hl). rewrite E. exists b, bt, (close_remove (k_sess st)), [].
  rewrite <- !app_assoc. split_and!; [done|cbn; lia|]. unfold close_remove, removal_ok.
  destruct (verified_ (k_sess st)) eqn:Ev; [done|]. destruct (verified_ s0) eqn:E0; [|done]. destruct (Hu E0). congruence.
Qed.

(** ** Every step keeps it *)

Lemma QueueSend_keeps s : keeps_up s (QueueSend s).1.
Proof. unfold QueueSend, queue_pop. by destruct (send_q_ s). Qed.

Lemma Send_node_keeps s m : keeps_up s (Send_node s m).1.
Proof. unfold Send_node, enqueue, QueueSend, queue_pop. by destruct (send_q_ s). Qed.

Lemma SetVerified_keeps s uid : keeps_up s (SetVerified s uid).
Proof. unfold keeps_up, keeps_user, SetVerified. destruct (verified_ s) eqn:E; cbn; rewrite ?E; done. Qed.

Lemma read_test_keeps s bs s' : read_test s bs = Ok s' → keeps_up s s'.
Proof. unfold read_test. intros H. inv_res. done. Qed.

Lemma head_rest_keeps host junk s bs r : head_rest host junk s bs = Ok r → keeps_up s r.1.
Proof.
  unfold head_rest. intros H. destruct (_ <=? _); [|by inv_res]. inv_res. destruct a as [len m].
  destruct (_ <? len); inv_res; done.
Qed.

Lemma content_rest_keeps host junk s bs r :
  content_rest host junk s bs = Ok r → keeps_up s r.1 ∧ ∃ l, r.2 = msgs l ∧ (length l <= 1)%nat.
Proof.
  unfold content_rest. intros H. destruct (_ <=? _); [|inv_res; split; [done|by exists []; cbn; split; [|lia]]].
  inv_res. cbn [ReceiveHandler] in Hk. injection Hk as <-. split; [done|]. by exists [advance (recv_ptr_ s) bs].
Qed.

Lemma close_step_inv host junk s0 st e st' :
  close_inv s0 st → close_step host junk st e = Some (Ok st') → close_inv s0 st'.
Proof.
  intros Hi H. unfold close_step in H. destruct e as [r|err| |m|uid| |i|i].
  - destruct (k_strand st) eqn:Ek; try done. destruct (reading_ (k_sess st)); try done; destruct r as [bs| |];
      injection H as H; inv_res.
    all: try (subst st'; apply begin_close_inv; [done|done|cbn; lia]).
    all: apply with_sess_inv; [done|by eapply read_test_keeps|intros E; rewrite E; cbn; lia].
  - destruct (k_strand st) eqn:Ek; try done. injection H as <-. destruct err.
    + apply begin_close_inv; [done|done|cbn; lia].
    + apply with_sess_inv; [done|done|intros E; rewrite E; cbn; lia].
  - destruct (k_strand st) as [|bs|bs|] eqn:Ek; try done; injection H as H; inv_res.
    + apply head_rest_keeps in Hm. destruct (a.2); [apply begin_close_inv|apply with_sess_inv]; done || (cbn; lia).
    + apply content_rest_keeps in Hm as [Hk Hl]. by eapply posted_inv.
    + subst st'. apply with_sess_inv; [done|apply QueueSend_keeps|cbn; lia].
  - injection H as <-. apply with_sess_inv; [done|apply Send_node_keeps|by intros].
  - injection H as <-. apply with_sess_inv; [done|apply SetVerified_keeps|by intros].
  - injection H as <-. by apply begin_close_inv.
  - destruct (k_close st !! i) as [[]|] eqn:E; try done. injection H as <-. by apply close_notify_inv.
  - destruct (k_close st !! i) as [[]|] eqn:E; try done. injection H as <-. by apply remove_inv.
Qed.

Lemma close_run_inv host junk s0 es : ∀ st st',
  close_inv s0 st → close_run host junk es st = Some (Ok st') → close_inv s0 st'.
Proof.
  induction es as [|e es IH]; intros st st' Hi H; cbn [close_run] in H; [by injection H as <-|].
  destruct (close_step host junk st e) as [[st1| |]|] eqn:E; try done. eapply IH; [|done]. by eapply close_step_inv.
Qed.

(** ** Theorems *)

(** C35. A session is closed once, however the callbacks of its strand, other threads' calls of
    [Close] and verification interleave.  As long as it is up, only messages have been
    posted.  Exactly one call of [Close] goes on; it notifies the handler once and then calls
    the manager once, and when it is done the calls are messages, the notification and the
    removal, with at most one message posted after the notification, by a callback that had
    tested [down_] before.  The removal is by the user id of the session when it is verified,
    and of a temporary session only if it was not verified at the start; and a call of [Close]
    that is under way can always make its next step. *)
Theorem session_closes_once host junk s es st :
  down_ s = false → close_run host junk es (close_init s) = Some (Ok st) →
  trace_ok s st
  ∧ (k_close st = [KNotify] → ∃ st', close_step host junk st (VNotify 0) = Some (Ok st') ∧ k_close st' = [KRemove])
  ∧ (k_close st = [KRemove] → ∃ st', close_step host junk st (VRemove 0) = Some (Ok st') ∧ k_close st' = []).
Proof.
  intros Hd Hr. assert (Hi : close_inv s (close_init s)).
  { split; [by intros|]. unfold trace_ok. cbn. rewrite Hd. by exists []. }
  destruct (close_run_inv host junk s es _ _ Hi Hr) as [_ Ht]. split; [done|].
  split; intros E; unfold close_step; rewrite E; cbn; by destruct (k_strand st); eexists.
Qed.

(** A session that is about to read the content of a message: two bytes, of which both are in
    the socket *)
Definition demo_reading : Session :=
  mkSession 7 true (mkMsgNode (Some (frame 3 [104; 105])) 8 2 10) [] None false RContent.

Definition demo_close (es : list close_ev) : option (res close_st) :=
  close_run LITTLE_ENDIAN (λ _, 0) es (close_init demo_reading).

Lemma session_closes_once_witness :
  ∃ st, demo_close [VRead (RData [104; 105]); VClose; VNotify 0; VRest; VClose; VRemove 0] = Some (Ok st)
    ∧ length (k_calls st) = 3%nat ∧ k_close st = [] ∧ trace_ok demo_reading st.
Proof.
  eexists. split; [vm_compute; reflexivity|]. split; [reflexivity|]. split; [reflexivity|].
  refine (proj1 (session_closes_once LITTLE_ENDIAN (λ _, 0) demo_reading
    [VRead (RData [104; 105]); VClose; VNotify 0; VRest; VClose; VRemove 0] _ eq_refl _)).
  vm_compute. reflexivity.
Defined.

(** A message can follow the notification that the session is down: the strand has tested
    [down_] when another thread closes the session, notifies the handler and removes the
    session, and posts the message behind that.  (The handler then puts the user on the list
    of active users again, and nothing takes him off.) *)
Theorem message_after_notification :
  ∃ st m, demo_close [VRead (RData [104; 105]); VClose; VNotify 0; VRemove 0; VRest] = Some (Ok st)
    ∧ k_calls st = [SPost None; SRemoveSession 7; SPost (Some m)]
    ∧ GetTagField LITTLE_ENDIAN m = Ok 3 ∧ GetContent m = Ok [104; 105].
Proof. eexists _, _. split; [vm_compute; reflexivity|]. split; [reflexivity|]. by vm_compute. Qed.
