(* ===== verification/SendQueue.v ===== *)
(** * The send queue of a session under interleaving
      (src/src/server/session.cpp, [Send], [QueueSend] and the write callback)

    Threads that call [Send] run its critical section, and the one that saw an empty queue
    then calls [QueueSend]; the write callbacks call it too.  [QueueSend] takes a message off
    the queue under the latch and starts the write without it.  A state records the session,
    how many threads are between the two halves of [Send] ([starters]) and between the two
    halves of [QueueSend] ([writers]), the writes handed to [async_write] that have not
    completed, and three histories: the messages given to [Send] in the order of the critical
    sections, those taken off the queue, and those handed to [async_write]; [overlapped] says
    whether a message was taken off the queue while another thread was between the halves of
    [QueueSend]. *)

From S2P Require Import Prelude FieldOp MsgNode Session SessionFacts.

Record sendst := mkSend {
  sess : Session;
  starters : nat;
  writers : nat;
  inflight : list MsgNode;
  sent : list MsgNode;
  popped : list MsgNode;
  written : list MsgNode;
  overlapped : bool
}.

Definition send_init (s : Session) : sendst := mkSend s 0 0 [] [] [] [] false.

(** [Send] up to the end of its critical section *)
Definition do_send (t : sendst) (m : MsgNode) : sendst :=
  let '(s, start_send) := enqueue (sess t) m in
  mkSend s (if start_send : bool then S (starters t) else starters t) (writers t) (inflight t)
    (sent t ++ [m]) (popped t) (written t) (overlapped t).

(** The critical section of [QueueSend], with [n] threads left between the halves of [Send]
    and the writes [fl] pending *)
Definition do_pop (t : sendst) (n : nat) (fl : list MsgNode) : sendst :=
  match queue_pop (sess t) with
  | (s, true) =>
      mkSend s n (S (writers t)) fl (sent t) (popped t ++ option_list (sending_ s)) (written t)
        (overlapped t || negb (writers t =? 0)%nat)
  | (s, false) => mkSend s n (writers t) fl (sent t) (popped t) (written t) (overlapped t)
  end.

(** [async_write] *)
Definition do_write (t : sendst) (n : nat) (m : MsgNode) : sendst :=
  mkSend (sess t) (starters t) n (inflight t ++ [m]) (sent t) (popped t) (written t ++ [m]) (overlapped t).

(** A completion that starts nothing *)
Definition do_end (t : sendst) (s : Session) (fl : list MsgNode) : sendst :=
  mkSend s (starters t) (writers t) fl (sent t) (popped t) (written t) (overlapped t).

Inductive send_step : sendst → sendst → Prop :=
  | step_send t m : send_step t (do_send t m)
  | step_start t n : starters t = S n → send_step t (do_pop t n (inflight t))
  | step_write t n m : writers t = S n → queue_write (sess t) = Ok m → send_step t (do_write t n m)
  | step_done t m l1 l2 :                       (* a write completed without error *)
      inflight t = l1 ++ m :: l2 → down_ (sess t) = false →
      send_step t (do_pop t (starters t) (l1 ++ l2))
  | step_ignored t m l1 l2 :                    (* the same on a closed session *)
      inflight t = l1 ++ m :: l2 → down_ (sess t) = true →
      send_step t (do_end t (sess t) (l1 ++ l2))
  | step_fail t m l1 l2 h g :                   (* a write failed: the session closes *)
      inflight t = l1 ++ m :: l2 →
      send_step t (do_end t (Close h g (sess t)).1 (l1 ++ l2)).

(** What the threads between the halves are about to write *)
Definition in_hand (t : sendst) : list MsgNode :=
  match writers t with O => [] | _ => option_list (sending_ (sess t)) end.

Record send_inv (t : sendst) : Prop := {
  si_order : sent t = popped t ++ send_q_ (sess t);
  si_busy : down_ (sess t) = false → send_q_ (sess t) ≠ [] → (0 < starters t)%nat ∨ (0 < writers t)%nat ∨ inflight t ≠ [];
  si_count : (length (written t) + writers t = length (popped t))%nat;
  si_last : (0 < length (popped t))%nat → ∃ m, sending_ (sess t) = Some m ∧ m ∈ sent t;
  si_clean : overlapped t = false → (writers t <= 1)%nat ∧ popped t = written t ++ in_hand t
}.

Lemma send_q_Close h g s : send_q_ (Close h g s).1 = send_q_ s ∧ sending_ (Close h g s).1 = sending_ s.
Proof. unfold Close. by destruct (down_ s). Qed.

Lemma do_pop_inv t n fl : send_inv t → send_inv (do_pop t n fl).
Proof.
  intros [Ho Hb Hc Hl Hcl]. unfold do_pop, queue_pop. destruct (send_q_ (sess t)) as [|m q] eqn:Eq.
  - constructor; cbn; rewrite ?Eq; try done.
  - constructor; cbn; try done.
    + by rewrite Ho, <- app_assoc.
    + intros _ _. right. left. lia.
    + rewrite length_app. cbn. lia.
    + intros _. exists m. split; [done|]. rewrite Ho. apply elem_of_app. right. by left.
    + intros [Hov Hw]%orb_false_elim. apply negb_false_iff, Nat.eqb_eq in Hw. destruct (Hcl Hov) as [_ ->].
      unfold in_hand. rewrite Hw, app_nil_r. split; [lia|done].
Qed.

Lemma do_write_inv t n m : send_inv t → writers t = S n → queue_write (sess t) = Ok m → send_inv (do_write t n m).
Proof.
  intros [Ho Hb Hc Hl Hcl] Hw Hq. unfold queue_write in Hq. destruct (sending_ (sess t)) as [m'|] eqn:Es; [|done].
  destruct (cur_pos_ m' =? 0); [|done]. injection Hq as ->. constructor; cbn; try done.
  - intros _ _. right. right. by destruct (inflight t).
  - rewrite length_app. cbn. lia.
  - rewrite Es. exact Hl.
  - intros Hov. destruct (Hcl Hov) as [Hle ->]. unfold in_hand. cbn. rewrite Hw, Es. assert (n = 0%nat) as -> by lia.
    rewrite app_nil_r. split; [lia|done].
Qed.

Lemma do_end_inv t s fl :
  send_inv t → down_ s = true → send_q_ s = send_q_ (sess t) → sending_ s = sending_ (sess t) → send_inv (do_end t s fl).
Proof.
  intros [Ho Hb Hc Hl Hcl] Hd Hq Hs. constructor; unfold in_hand in *; cbn; rewrite ?Hq, ?Hs; done || congruence.
Qed.

Lemma send_inv_step t t' : send_inv t → send_step t t' → send_inv t'.
Proof.
  intros Hi Hst. destruct Hst as [t m|t n Hn|t n m Hn Hq|t m l1 l2 Hfl Hd|t m l1 l2 Hfl Hd|t m l1 l2 h g Hfl].
  - destruct Hi as [Ho Hb Hc Hl Hcl]. unfold do_send, enqueue. constructor; cbn; try done.
    + by rewrite Ho, <- app_assoc.
    + intros Hd _. destruct (send_q_ (sess t)); [left; lia|by apply Hb].
    + intros Hp. destruct (Hl Hp) as (x & Hx & Hin). exists x. split; [done|]. apply elem_of_app. by left.
  - by apply do_pop_inv.
  - by apply do_write_inv.
  - by apply do_pop_inv.
  - by apply do_end_inv.
  - destruct (send_q_Close h g (sess t)) as [Hq Hs]. apply do_end_inv; [done| |done..].
    unfold Close. by destruct (down_ (sess t)) eqn:E.
Qed.

Lemma send_reach_inv s t : send_q_ s = [] → rtc send_step (send_init s) t → send_inv t.
Proof.
  intros Hq Hr. assert (Hi : send_inv (send_init s)).
  { constructor; cbn; rewrite ?Hq; try done; [lia|]. intros _. split; [lia|done]. }
  clear Hq. induction Hr as [|t0 t1 t2 Hst _ IH]; [done|]. apply IH. by eapply send_inv_step.
Qed.

(** C18. Order and progress of sending, for every interleaving of senders, writers and completions:
    the messages are taken off the queue in the order in which they were queued, each once;
    every one taken off leads to one write; while the session is up a queued message always
    has a thread or a pending write completion that will take it off; and a thread about to
    write finds a message, whose assertion holds when the messages were given to [Send] with
    [cur_pos_] 0.  As long as no two calls of [QueueSend] overlap, the messages handed to the
    socket, then the one in hand, then the queue are exactly those sent, in order: none is
    lost or duplicated.  (When they overlap one can be lost: [overlapping_sends_lose].) *)
Theorem send_queue_fifo s t :
  send_q_ s = [] → rtc send_step (send_init s) t →
  sent t = popped t ++ send_q_ (sess t)
  ∧ (length (written t) + writers t = length (popped t))%nat
  ∧ (down_ (sess t) = false → send_q_ (sess t) ≠ [] → (0 < starters t)%nat ∨ (0 < writers t)%nat ∨ inflight t ≠ [])
  ∧ ((0 < writers t)%nat → Forall (λ m, cur_pos_ m = 0) (sent t) → ∃ m, queue_write (sess t) = Ok m)
  ∧ (overlapped t = false → (writers t <= 1)%nat ∧ sent t = written t ++ in_hand t ++ send_q_ (sess t)).
Proof.
  intros Hq Hr. destruct (send_reach_inv s t Hq Hr) as [Ho Hb Hc Hl Hcl]. split_and!; try done.
  - intros Hw Hz. destruct (Hl ltac:(lia)) as (m & Hm & Hin). exists m. unfold queue_write. rewrite Hm.
    rewrite list.Forall_forall in Hz. by rewrite (Hz m Hin).
  - intros Hov. destruct (Hcl Hov) as [Hle E]. split; [done|]. rewrite Ho, E at 1. by rewrite <- app_assoc.
Qed.

(** Two messages and a session to send them on. *)
Definition demo_msg (x : Z) : MsgNode := mkMsgNode (Some (frame 4 [x])) 0 1 9.

Definition demo_sess : Session := mkSession 1 true (mkMsgNode None 0 0 0) [] None false RNone.

(** The second [Send] comes when the first write has been started, and before it has
    completed. *)
Lemma second_write_run :
  ∃ t, rtc send_step (send_init demo_sess) t
    ∧ inflight t = [demo_msg 65; demo_msg 66] ∧ written t = [demo_msg 65; demo_msg 66]
    ∧ sent t = [demo_msg 65; demo_msg 66] ∧ send_q_ (sess t) = [] ∧ sending_ (sess t) = Some (demo_msg 66)
    ∧ overlapped t = false.
Proof.
  eexists. split.
  - eapply rtc_l; [apply (step_send _ (demo_msg 65))|].
    eapply rtc_l; [apply (step_start _ 0); reflexivity|].
    eapply rtc_l; [apply (step_write _ 0); reflexivity|].
    eapply rtc_l; [apply (step_send _ (demo_msg 66))|].
    eapply rtc_l; [apply (step_start _ 0); reflexivity|].
    eapply rtc_l; [apply (step_write _ 0); reflexivity|]. apply rtc_refl.
  - by split_and!.
Qed.

Lemma send_queue_fifo_witness :
  ∃ t, sent t = [demo_msg 65; demo_msg 66]
  ∧ sent t = popped t ++ send_q_ (sess t)
  ∧ (length (written t) + writers t = length (popped t))%nat
  ∧ (down_ (sess t) = false → send_q_ (sess t) ≠ [] → (0 < starters t)%nat ∨ (0 < writers t)%nat ∨ inflight t ≠ [])
  ∧ ((0 < writers t)%nat → Forall (λ m, cur_pos_ m = 0) (sent t) → ∃ m, queue_write (sess t) = Ok m)
  ∧ (overlapped t = false → (writers t <= 1)%nat ∧ sent t = written t ++ in_hand t ++ send_q_ (sess t)).
Proof.
  destruct second_write_run as (t & Hr & _ & _ & Hs & _). exists t. split; [exact Hs|].
  apply (send_queue_fifo demo_sess); [reflexivity|exact Hr].
Defined.

(** The comments promise at most one [QueueSend] at a time, but an empty queue does not mean
    that no write is running, because [QueueSend] pops the message before it is written: a
    second [Send] during the first write starts a second [async_write] on the socket, and
    [sending_], the only owner of the first message's buffer, is overwritten while that
    buffer is being written. *)
Theorem overlapping_writes :
  ∃ t, rtc send_step (send_init demo_sess) t
    ∧ inflight t = [demo_msg 65; demo_msg 66]
    ∧ sending_ (sess t) = Some (demo_msg 66) ∧ demo_msg 65 ≠ demo_msg 66.
Proof. destruct second_write_run as (t & Hr & Hf & _ & _ & _ & Hs & _). exists t. by split_and!. Qed.

(** And when the second [Send] comes between the pop and the write of the first, the first
    message is lost and the second is written twice: both threads read the same [sending_],
    outside the latch. *)
Theorem overlapping_sends_lose :
  ∃ t, rtc send_step (send_init demo_sess) t
    ∧ sent t = [demo_msg 65; demo_msg 66] ∧ written t = [demo_msg 66; demo_msg 66]
    ∧ writers t = 0%nat ∧ starters t = 0%nat ∧ send_q_ (sess t) = [].
Proof.
  eexists. split.
  - eapply rtc_l; [apply (step_send _ (demo_msg 65))|].
    eapply rtc_l; [apply (step_start _ 0); reflexivity|].
    eapply rtc_l; [apply (step_send _ (demo_msg 66))|].
    eapply rtc_l; [apply (step_start _ 0); reflexivity|].
    eapply rtc_l; [apply (step_write _ 1); reflexivity|].
    eapply rtc_l; [apply (step_write _ 0); reflexivity|]. apply rtc_refl.
  - by split_and!.
Qed.
