(* ===== verification/Timer.v ===== *)
(** * Timed tasks and the upload of online users
      (src/src/common/timer.cpp, src/src/include/server/online_status_upload.hpp)

    A task owns one [steady_timer].  [waits] counts its outstanding waits (setting the
    expiry again or cancelling aborts them), [ready] the completions already queued to run
    without error.  [OnlineStatusUploader] collects user ids and writes them to Redis in
    one pipeline; its upload is the callback of a periodic task. *)

From S2P Require Import Prelude Decimal RedisBase.

Record TimedTask := mkTask {
  auto_reset_ : bool;
  active_ : bool;
  dur_ : Z;
  waits : nat;
  ready : nat
}.

(** [SetTimer] on a new task; the callback is the caller's *)
Definition SetTimer (dur : Z) (auto_reset : bool) : TimedTask := mkTask auto_reset false dur 0 0.

(** [expires_after] aborts the outstanding wait, [async_wait] starts one *)
Definition Activate (t : TimedTask) : TimedTask := mkTask (auto_reset_ t) true (dur_ t) 1 (ready t).

Definition Cancel (t : TimedTask) : TimedTask := mkTask false false (dur_ t) 0 (ready t).

(** The time is over: the completion is queued *)
Definition expire (t : TimedTask) : option TimedTask :=
  match waits t with
  | O => None
  | S n => Some (mkTask (auto_reset_ t) (active_ t) (dur_ t) n (S (ready t)))
  end.

(** The completion runs; the flag says whether [cb_] was called *)
Definition run_ready (t : TimedTask) : option (TimedTask * bool) :=
  match ready t with
  | O => None
  | S n =>
      let t := mkTask (auto_reset_ t) (active_ t) (dur_ t) (waits t) n in
      if active_ t then Some ((if auto_reset_ t then Activate t else t), true) else Some (t, false)
  end.

Inductive task_ev := TExpire | TRun | TActivate | TCancel.

#[global] Instance task_ev_eq_dec : EqDecision task_ev.
Proof. solve_decision. Defined.

(** One event; the number is how often the callback ran. *)
Definition task_step (t : TimedTask) (e : task_ev) : option (TimedTask * nat) :=
  match e with
  | TExpire => t' ← expire t; Some (t', 0%nat)
  | TRun => r ← run_ready t; Some (r.1, if r.2 : bool then 1%nat else 0%nat)
  | TActivate => Some (Activate t, 0%nat)
  | TCancel => Some (Cancel t, 0%nat)
  end.

Fixpoint task_run (t : TimedTask) (es : list task_ev) : option (TimedTask * nat) :=
  match es with
  | [] => Some (t, 0%nat)
  | e :: es' => r ← task_step t e; r' ← task_run r.1 es'; Some (r'.1, (r.2 + r'.2)%nat)
  end.

(** ** The list of tasks *)

(** The manager's list; an iterator is the key of its element. *)
Record TimerTaskManager := mkTimerMgr { list_ : gmap nat TimedTask; next_iter : nat }.

Definition CreateTimer (m : TimerTaskManager) (dur : Z) (auto_reset : bool) : TimerTaskManager * nat :=
  (mkTimerMgr (<[next_iter m := SetTimer dur auto_reset]> (list_ m)) (S (next_iter m)), next_iter m).

(** [iter] is never [end()]; an iterator whose element was erased is invalid *)
Definition RemoveTimer (m : TimerTaskManager) (iter : nat) : res TimerTaskManager :=
  match list_ m !! iter with
  | Some _ => Ok (mkTimerMgr (delete iter (list_ m)) (next_iter m))
  | None => UB out_of_bounds
  end.

(** ** The thread that runs the tasks *)

(** [ctx_.run()] in [th_]: it goes on while the work guard exists and nobody stopped the
    context *)
Record timer_worker := mkTimerWorker { work_guard_ : bool; ctx_stopped : bool; th_joinable : bool }.

Definition StartWorker (w : timer_worker) : timer_worker := mkTimerWorker (work_guard_ w) (ctx_stopped w) true.

(** [join] returns when [run] has *)
Definition StopWorker (w : timer_worker) : timer_worker :=
  if th_joinable w then mkTimerWorker false true false else w.

(** The constructor *)
Definition TimerTaskManager_new : TimerTaskManager * timer_worker :=
  (mkTimerMgr ∅ 0, StartWorker (mkTimerWorker true false false)).

(** Completions run in that thread only *)
Definition worker_runs (w : timer_worker) : bool := th_joinable w && negb (ctx_stopped w).

Inductive timer_ev :=
  | TmTask (iter : nat) (e : task_ev)
  | TmCreate (dur : Z) (auto_reset : bool)
  | TmRemove (iter : nat)
  | TmStop.

(** One event; the number is how often a callback ran, [None] where it is not possible *)
Definition timer_step (s : TimerTaskManager * timer_worker) (e : timer_ev) :
    option (TimerTaskManager * timer_worker * nat) :=
  let '(m, w) := s in
  match e with
  | TmTask iter e =>
      t ← list_ m !! iter;
      if bool_decide (e = TRun) && negb (worker_runs w) then None
      else r ← task_step t e; Some (mkTimerMgr (<[iter := r.1]> (list_ m)) (next_iter m), w, r.2)
  | TmCreate dur auto_reset => Some ((CreateTimer m dur auto_reset).1, w, 0%nat)
  | TmRemove iter => match RemoveTimer m iter with Ok m' => Some (m', w, 0%nat) | _ => None end
  | TmStop => Some (m, StopWorker w, 0%nat)
  end.

Fixpoint timer_run (s : TimerTaskManager * timer_worker) (es : list timer_ev) :
    option (TimerTaskManager * timer_worker * nat) :=
  match es with
  | [] => Some (s, 0%nat)
  | e :: es' => r ← timer_step s e; r' ← timer_run r.1 es'; Some (r'.1, (r.2 + r'.2)%nat)
  end.

(** ** Online users *)

Inductive redis_cmd :=
  | HEXPIRE (key : string) (seconds : Z) (fields : list string)
  | DEL (key : string).

Record OnlineStatusUploader := mkOnline {
  on_sess_ : gset Z;
  removal_sess_ : gset Z;
  in_progress_ : bool;
  task_ : TimedTask
}.

Section online.
Context {Rd : Type}.
Context (pl_exec : Rd → list redis_cmd → res Rd).
Context (order : gset Z → list Z).    (* iteration order of an unordered_set *)

Definition set_in_progress (b : bool) (u : OnlineStatusUploader) : OnlineStatusUploader :=
  mkOnline (on_sess_ u) (removal_sess_ u) b (task_ u).

Definition set_task (t : TimedTask) (u : OnlineStatusUploader) : OnlineStatusUploader :=
  mkOnline (on_sess_ u) (removal_sess_ u) (in_progress_ u) t.

(** The constructor: a periodic task, active *)
Definition OnlineStatusUploader_new (interval_sec : Z) : OnlineStatusUploader :=
  mkOnline ∅ ∅ false (Activate (SetTimer (interval_sec * 1000) true)).

Definition AddSession (u : OnlineStatusUploader) (uid : Z) : OnlineStatusUploader * bool :=
  (mkOnline ({[uid]} ∪ on_sess_ u) (removal_sess_ u) (in_progress_ u) (task_ u),
   negb (bool_decide (uid ∈ on_sess_ u))).

Definition RemoveSession (u : OnlineStatusUploader) (uid : Z) : OnlineStatusUploader * bool :=
  (mkOnline (on_sess_ u ∖ {[uid]}) ({[uid]} ∪ removal_sess_ u) (in_progress_ u) (task_ u), true).

Definition status_key (uid : Z) : string := "status:" +:+ to_string uid.

Definition upload_cmds (sending_list erasing_list : gset Z) : list redis_cmd :=
  ((λ uid, HEXPIRE (status_key uid) 30 ["server_id"; "status"]) <$> order sending_list)
  ++ ((λ uid, DEL (status_key uid)) <$> order erasing_list).

(** [UploadImpl]; the state is the uploader and the Redis manager *)
Definition UploadImpl : st (OnlineStatusUploader * BaseRedisMgr Rd) unit := λ s,
  let '(u, m) := s in
  if in_progress_ u then (s, Ok tt)
  else
    let sending_list := on_sess_ u in
    let erasing_list := removal_sess_ u in
    let u := mkOnline ∅ ∅ true (task_ u) in
    match GetRedis m with
    | Ok rd =>
        match pl_exec rd (upload_cmds sending_list erasing_list) with
        | Ok rd' => ((set_in_progress false u, mkMgr (Some rd')), Ok tt)
        | Throw e => ((u, m), Throw e)
        | UB w => ((u, m), UB w)
        end
    | Throw e => ((u, m), Throw e)
    | UB w => ((u, m), UB w)
    end.

Definition UpdateNow : st (OnlineStatusUploader * BaseRedisMgr Rd) unit :=
  (UploadImpl ;;
   st_mod (λ s, (set_task (Activate (Cancel (task_ s.1))) s.1, s.2)))%cpp.
End online.

(** ** Lemmas on tasks *)

(** What keeps a periodic task alive. *)
Definition periodic (t : TimedTask) : Prop :=
  auto_reset_ t = true ∧ active_ t = true ∧ (0 < waits t + ready t)%nat.

Lemma periodic_step t e t' n :
  periodic t → e ≠ TCancel → task_step t e = Some (t', n) →
  periodic t' ∧ (e = TRun → n = 1%nat).
Proof.
  intros (Ha & Hv & Hw) He H. destruct e; try done; cbn [task_step] in H.
  - unfold expire in H. destruct (waits t) as [|w] eqn:E; cbn in H; simplify_eq. unfold periodic. cbn. split_and!; [done|done|lia|done].
  - unfold run_ready in H. destruct (ready t) as [|r]; cbn in H; [done|]. rewrite Hv, Ha in H. cbn in H.
    simplify_eq. unfold periodic. cbn. split_and!; [done|done|lia|done].
  - simplify_eq. unfold periodic. cbn. split_and!; [done|done|lia|done].
Qed.

(** How often a task without [auto_reset_] can still call back. *)
Lemma oneshot_run t es t' n :
  auto_reset_ t = false → TActivate ∉ es → task_run t es = Some (t', n) →
  auto_reset_ t' = false ∧ (n + waits t' + ready t' <= waits t + ready t)%nat
  ∧ (active_ t = false → n = 0%nat).
Proof.
  revert t n; induction es as [|e es IH]; intros t n Ha Hes H; cbn [task_run] in H; [simplify_eq; split_and!; done || lia|].
  rewrite not_elem_of_cons in Hes. destruct Hes as [Hne Hes].
  destruct (task_step t e) as [[t1 n1]|] eqn:E1; cbn in H; [|done].
  destruct (task_run t1 es) as [[t2 n2]|] eqn:E2; cbn in H; [|done]. simplify_eq.
  assert (auto_reset_ t1 = false ∧ (n1 + waits t1 + ready t1 <= waits t + ready t)%nat
    ∧ (active_ t = false → n1 = 0%nat ∧ active_ t1 = false)) as (Ha1 & Hn1 & Hv1).
  { destruct e; try done; cbn [task_step] in E1.
    - unfold expire in E1. destruct (waits t) as [|w] eqn:Ew; cbn in E1; simplify_eq; cbn. split_and!; [done|lia|done].
    - unfold run_ready in E1. destruct (ready t) as [|r] eqn:Er; cbn in E1; [done|].
      rewrite Ha in E1. destruct (active_ t) eqn:Ev; cbn in E1; simplify_eq; cbn; split_and!; done || lia.
    - simplify_eq. cbn. split_and!; [done|lia|done]. }
  destruct (IH t1 n2 Ha1 Hes E2) as (? & ? & Hz). split_and!; [done|lia|].
  intros Hv. destruct (Hv1 Hv) as [-> Hv']. by rewrite (Hz Hv').
Qed.

(** Only a completion calls back, and only in the thread. *)
Lemma timer_step_silent m w e m' w' n :
  worker_runs w = false → timer_step (m, w) e = Some (m', w', n) → n = 0%nat ∧ worker_runs w' = false.
Proof.
  intros Hw H. destruct e as [iter e|dur ar|iter|]; cbn [timer_step] in H.
  - destruct (list_ m !! iter) as [t|]; cbn in H; [|done]. rewrite Hw in H. cbn in H. rewrite andb_true_r in H.
    case_bool_decide as He; [done|]. destruct (task_step t e) as [[t' k]|] eqn:E; cbn in H; [|done]. simplify_eq.
    split; [|done]. destruct e; try done; cbn in E.
    + destruct (expire t); cbn in E; by simplify_eq.
    + by simplify_eq.
    + by simplify_eq.
  - by simplify_eq.
  - destruct (RemoveTimer m iter); by simplify_eq.
  - simplify_eq. split; [done|]. unfold StopWorker. by destruct (th_joinable w) eqn:E.
Qed.

(** ** Theorems *)

(** Stopping the timer thread is final: after [StopWorker], which the destructor calls, no
    callback runs any more, whatever is done with the tasks and whatever was due. *)
Theorem StopWorker_final m w es m' w' n :
  timer_run (m, StopWorker w) es = Some (m', w', n) → n = 0%nat.
Proof.
  assert (Hs : worker_runs (StopWorker w) = false) by (unfold StopWorker, worker_runs; by destruct (th_joinable w) eqn:E; rewrite ?E).
  generalize (StopWorker w) Hs. clear Hs w. intros w Hs. revert m w n Hs; induction es as [|e es IH]; intros m w n Hs H; cbn [timer_run] in H.
  - by simplify_eq.
  - destruct (timer_step (m, w) e) as [[[m1 w1] n1]|] eqn:E1; cbn in H; [|done].
    destruct (timer_run (m1, w1) es) as [[[m2 w2] n2]|] eqn:E2; cbn in H; [|done]. simplify_eq.
    destruct (timer_step_silent _ _ _ _ _ _ Hs E1) as [-> Hs1]. by rewrite (IH _ _ _ Hs1 E2).
Qed.

Lemma StopWorker_final_witness :
  let '(m, w) := TimerTaskManager_new in
  let m := mkTimerMgr {[0%nat := mkTask true true 10 0 1]} 1 in
  0%nat = 0%nat ∧ timer_run (m, w) [TmTask 0 TRun] = Some (mkTimerMgr {[0%nat := mkTask true true 10 1 0]} 1, w, 1%nat).
Proof.
  cbn. split; [|vm_compute; reflexivity].
  apply (StopWorker_final (mkTimerMgr {[0%nat := mkTask true true 10 0 1]} 1) (mkTimerWorker true false true)
    [TmTask 0 TActivate; TmRemove 0] (mkTimerMgr ∅ 1) (mkTimerWorker false true false)). vm_compute. reflexivity.
Defined.

(** A periodic task never dies by itself: in every run without [Cancel] it stays
    active with a wait outstanding or a completion queued, and every completion that runs
    calls the callback.  After [Cancel], until it is activated again, no completion calls
    it, not even one that was queued before. *)
Theorem timer_period_and_cancel t es t' n :
  task_run t es = Some (t', n) →
  (periodic t → TCancel ∉ es → periodic t' ∧ n = length (filter (λ e, e = TRun) es)) ∧
  (∀ t0, t = Cancel t0 → TActivate ∉ es → n = 0%nat).
Proof.
  intros H. split.
  - revert t n H; induction es as [|e es IH]; intros t n H Hp Hes; cbn [task_run] in H; [by simplify_eq|].
    rewrite not_elem_of_cons in Hes. destruct Hes as [Hne Hes].
    destruct (task_step t e) as [[t1 n1]|] eqn:E1; cbn in H; [|done].
    destruct (task_run t1 es) as [[t2 n2]|] eqn:E2; cbn in H; [|done]. simplify_eq.
    destruct (periodic_step t e t1 n1 Hp) as [Hp1 Hr]; [by intros ->|done|].
    destruct (IH t1 n2 E2 Hp1 Hes) as [? ->]. split; [done|].
    rewrite filter_cons. destruct (decide (e = TRun)) as [->|Hn]; [by rewrite Hr|].
    cbn. destruct e; try done; cbn in E1.
    + destruct (expire t); cbn in E1; by simplify_eq.
    + by simplify_eq.
  - intros t0 -> Hes. by apply (oneshot_run (Cancel t0) es t' n).
Qed.

Lemma timer_period_and_cancel_witness :
  periodic (Activate (SetTimer 10000 true)) ∧ 2%nat = 2%nat.
Proof.
  assert (H : task_run (Activate (SetTimer 10000 true)) [TExpire; TRun; TExpire; TRun]
    = Some (Activate (SetTimer 10000 true), 2%nat)) by reflexivity.
  destruct (timer_period_and_cancel _ _ _ _ H) as [H1 _].
  apply H1; [unfold periodic; cbn; split_and!; [done|done|lia]|].
  apply (bool_decide_unpack _). vm_compute. exact I.
Defined.

(** [UpdateNow] ends the periodic upload: [Cancel] clears [auto_reset_] and [Activate]
    does not set it again, so after a call that returns, and without another call, the
    callback runs at most once more for the new wait (and once for each completion already
    queued), and then the task is dead. *)
Theorem UpdateNow_ends_period {Rd} (pl_exec : Rd → list redis_cmd → res Rd) order s s' es t' n :
  UpdateNow pl_exec order s = (s', Ok tt) →
  task_run (task_ s'.1) es = Some (t', n) → TActivate ∉ es →
  auto_reset_ (task_ s'.1) = false ∧ (n <= 1 + ready (task_ s.1))%nat
  ∧ (n = 1 + ready (task_ s.1) → waits t' + ready t' = 0)%nat.
Proof.
  intros HU HR Hes.
  assert (Ht : ∃ t0, task_ s'.1 = Activate (Cancel t0) ∧ ready t0 = ready (task_ s.1)).
  { unfold UpdateNow, st_bind, UploadImpl, st_mod in HU. destruct s as [u m]. destruct (in_progress_ u).
    - injection HU as <-. by exists (task_ u).
    - destruct (GetRedis m) as [rd| |]; [|done..]. destruct (pl_exec rd _); [|done..]. injection HU as <-.
      by exists (task_ u). }
  destruct Ht as (t0 & Ht & Hr). rewrite Ht in HR |- *.
  destruct (oneshot_run (Activate (Cancel t0)) es t' n eq_refl Hes HR) as (_ & Hn & _).
  cbn in Hn. rewrite Hr in Hn. split_and!; [done|lia|lia].
Qed.

Lemma UpdateNow_ends_period_witness :
  let s' := (mkOnline ∅ ∅ false (mkTask false true 10000 1 0), mkMgr (Some tt)) in
  auto_reset_ (task_ s'.1) = false ∧ (1 <= 1 + 0)%nat ∧ (1 = 1 + 0 → 0 + 0 = 0)%nat.
Proof.
  exact (UpdateNow_ends_period (λ rd _, Ok rd) elements
    (OnlineStatusUploader_new 10, mkMgr (Some tt))
    (mkOnline ∅ ∅ false (mkTask false true 10000 1 0), mkMgr (Some tt))
    [TExpire; TRun] (mkTask false true 10000 0 0) 1%nat
    eq_refl eq_refl ltac:(apply (bool_decide_unpack _); vm_compute; exact I)).
Defined.

(** An upload writes one renewal per active user and then one deletion per departed
    user, and empties both sets; when the pipeline throws, the two sets are lost and
    [in_progress_] stays set, so that every later upload returns without doing anything. *)
Theorem UploadImpl_outcomes {Rd} (pl_exec : Rd → list redis_cmd → res Rd) order u rd :
  in_progress_ u = false →
  let cmds := upload_cmds order (on_sess_ u) (removal_sess_ u) in
  match pl_exec rd cmds with
  | Ok rd' => UploadImpl pl_exec order (u, mkMgr (Some rd))
      = ((mkOnline ∅ ∅ false (task_ u), mkMgr (Some rd')), Ok tt)
  | Throw e => ∃ u', UploadImpl pl_exec order (u, mkMgr (Some rd)) = ((u', mkMgr (Some rd)), Throw e)
      ∧ on_sess_ u' = ∅ ∧ removal_sess_ u' = ∅
      ∧ ∀ uids, let u'' := foldl (λ x uid, (AddSession x uid).1) u' uids in
          UploadImpl pl_exec order (u'', mkMgr (Some rd)) = ((u'', mkMgr (Some rd)), Ok tt)
  | UB _ => True
  end.
Proof.
  intros Hp cmds. unfold UploadImpl. rewrite Hp. cbn [GetRedis redis_]. fold cmds.
  destruct (pl_exec rd cmds) as [rd'|e|w]; [done| |done].
  eexists. split; [reflexivity|]. split_and!; [done|done|]. intros uids. cbn zeta.
  assert (Hf : ∀ x, in_progress_ x = true → in_progress_ (foldl (λ x uid, (AddSession x uid).1) x uids) = true).
  { induction uids as [|uid uids IH]; intros x Hx; [done|]. by apply IH. }
  by rewrite Hf.
Qed.

Lemma UploadImpl_outcomes_witness :
  ∃ u', UploadImpl (λ (rd : unit) _, Throw (runtime_error "redis")) elements
      (mkOnline {[7]} {[8]} false (SetTimer 1 true), mkMgr (Some tt))
      = ((u', mkMgr (Some tt)), Throw (runtime_error "redis"))
    ∧ on_sess_ u' = ∅ ∧ removal_sess_ u' = ∅
    ∧ ∀ uids, let u'' := foldl (λ x uid, (AddSession x uid).1) u' uids in
        UploadImpl (λ (rd : unit) _, Throw (runtime_error "redis")) elements (u'', mkMgr (Some tt))
        = ((u'', mkMgr (Some tt)), Ok tt).
Proof.
  apply (UploadImpl_outcomes (λ (rd : unit) _, Throw (runtime_error "redis")) elements
    (mkOnline {[7]} {[8]} false (SetTimer 1 true)) tt). reflexivity.
Defined.
