(* ===== verification/Reporter.v ===== *)
(** * Reporting the load of a backend server
      (src/src/server/status_reporter.cpp, status_reporter.hpp, rpc/status_rpc_client.hpp)

    The reporter calls the status service through gRPC.  [StatusRPC] is the interface the
    two sides share: what the stub does to the service and what the service promises about
    it, in the states in which it serves an id ([rpc_ok]).  The reporter's theorem is proved
    against the interface, and the status service of this repository is an instance of it; it
    serves an id of which the index of its heap has no entry left over ([service_ok]), which
    excludes some ids that [CheckTTL] or [RemoveServer] dropped. *)

From S2P Require Import Prelude MinHeap LoadBalancer LoadBalancerFacts StatusService StatusServiceFacts Timer.

Class StatusRPC (Sv : Type) := {
  rpc_report : Sv → Z → Z → res (Sv * Status);               (* ReportServerLoad *)
  rpc_register : Sv → Z → string → Z → res (Sv * Status);    (* RegisterServer *)
  rpc_view : Sv → gmap Z (string * Z);                       (* servers known: address, load *)
  rpc_ok : Sv → Z → Prop;                                    (* states in which it serves id *)
  rpc_report_known sv id load addr old :
    rpc_ok sv id → load_ok load → rpc_view sv !! id = Some (addr, old) →
    ∃ sv', rpc_report sv id load = Ok (sv', Status_OK) ∧ rpc_ok sv' id
      ∧ rpc_view sv' = <[id := (addr, load)]> (rpc_view sv);
  rpc_report_unknown sv id load :
    rpc_ok sv id → load_ok load → rpc_view sv !! id = None →
    ∃ sv' st, rpc_report sv id load = Ok (sv', st) ∧ code st = NOT_FOUND ∧ rpc_ok sv' id
      ∧ rpc_view sv' = rpc_view sv;
  rpc_register_spec sv id addr load :
    rpc_ok sv id → load_ok load →
    ∃ sv', rpc_register sv id addr load = Ok (sv', Status_OK) ∧ rpc_ok sv' id
      ∧ rpc_view sv' = <[id := (addr, load)]> (rpc_view sv)
}.

Record StatusReporter := mkReporter {
  server_addr_ : string;
  interval_sec_ : Z;
  server_id_ : Z;
  task_iter_ : nat;
  stopped_ : bool
}.

Definition grpc_ok (s : Status) : bool := match code s with OK => true | _ => false end.

(** Applies a change to the task behind an iterator *)
Definition with_task (m : TimerTaskManager) (iter : nat) (f : TimedTask → TimedTask) : res TimerTaskManager :=
  match list_ m !! iter with
  | Some t => Ok (mkTimerMgr (<[iter := f t]> (list_ m)) (next_iter m))
  | None => UB out_of_bounds
  end.

Section reporter.
Context `{StatusRPC Sv}.

(** [StatusReportRPCImpl]: one stub call each *)
Definition ReportLoad (sv : Sv) (id load : Z) : res (Sv * Status) := rpc_report sv id load.

Definition ReportServerRegister (sv : Sv) (id : Z) (serv_addr : string) (load : Z) : res (Sv * Status) :=
  rpc_register sv id serv_addr load.

Definition ReportServerLeave : Status := mkStatus UNIMPLEMENTED "Not implemented".

(** The constructor: a periodic task, started *)
Definition StatusReporter_new (m : TimerTaskManager) (addr : string) (server_id interval_sec : Z) :
    res (StatusReporter * TimerTaskManager) :=
  let '(m, iter) := CreateTimer m (interval_sec * 1000) true in
  m ← with_task m iter Activate;
  Ok (mkReporter addr interval_sec server_id iter false, m).

(** [Register()], with the session count *)
Definition Register (r : StatusReporter) (sv : Sv) (sess_count : Z) : res (Sv * bool) :=
  x ← ReportServerRegister sv (server_id_ r) (server_addr_ r) sess_count;
  Ok (x.1, grpc_ok x.2).

Definition ReportImpl (r : StatusReporter) (sv : Sv) (sess_count tmps_count : Z) : res Sv :=
  x ← ReportLoad sv (server_id_ r) (u32 (sess_count + tmps_count));
  let '(sv, st) := x in
  if grpc_ok st then Ok sv
  else match code st with
       | NOT_FOUND =>
           y ← ReportServerRegister sv (server_id_ r) (server_addr_ r) (u32 (sess_count + tmps_count));
           Ok y.1
       | _ => Ok sv
       end.

Definition UpdateNow (r : StatusReporter) (m : TimerTaskManager) (sv : Sv) (sess_count tmps_count : Z) :
    res (TimerTaskManager * Sv) :=
  m ← with_task m (task_iter_ r) Cancel;
  sv ← ReportImpl r sv sess_count tmps_count;
  m ← with_task m (task_iter_ r) Activate;
  Ok (m, sv).

Definition Stop (r : StatusReporter) (m : TimerTaskManager) : res (StatusReporter * TimerTaskManager) :=
  if stopped_ r then Ok (r, m)
  else
    let r := mkReporter (server_addr_ r) (interval_sec_ r) (server_id_ r) (task_iter_ r) true in
    m ← with_task m (task_iter_ r) Cancel;
    m ← RemoveTimer m (task_iter_ r);
    Ok (r, m).

(** The destructor *)
Definition StatusReporter_destroy (r : StatusReporter) (m : TimerTaskManager) : res (StatusReporter * TimerTaskManager) :=
  if stopped_ r then Ok (r, m) else Stop r m.

Definition StartTimer (r : StatusReporter) (m : TimerTaskManager) : res TimerTaskManager := with_task m (task_iter_ r) Activate.

Definition ResetTimer (r : StatusReporter) (m : TimerTaskManager) : res TimerTaskManager :=
  m ← with_task m (task_iter_ r) Cancel;
  with_task m (task_iter_ r) Activate.
End reporter.

(** ** The status service implements the interface *)

Section instance.
Context (now : Z).

Definition service_view (u : TimedUploader) : gmap Z (string * Z) :=
  (λ si, (si_addr si, si_load si)) <$> abs (balancer_ u).

(** The service serves [id] when the index of its heap has no entry left over for it: no
    entry of an id that the balancer does not know.  [AnyRemove], through [CheckTTL] and
    [RemoveServer], leaves such an entry for the element of the last heap slot, and then
    registering the id writes out of bounds ([reregister_last_removed_UB]). *)
Definition service_ok (u : TimedUploader) (id : Z) : Prop :=
  lb_inv (balancer_ u) ∧ id ∉ stale (balancer_ u).

(** A known server is served, and one that neither [CheckTTL] nor [RemoveServer] dropped. *)
Lemma service_ok_known u id si : lb_inv (balancer_ u) → abs (balancer_ u) !! id = Some si → service_ok u id.
Proof.
  intros Hinv Hsi. split; [done|]. apply elem_of_dom_2 in Hsi. rewrite dom_abs in Hsi. unfold stale. set_solver.
Qed.

Lemma service_ok_reach u id T : lb_reach (balancer_ u) T → id ∉ T → service_ok u id.
Proof. intros [Hinv Hst]%lb_reach_inv Hid. split; [done|set_solver]. Qed.

(** A query that drops expired servers leaves no such entry. *)
Lemma service_ok_query u clk u' resp st id :
  service_ok u id → CheckMinimalLoadServer u clk = Ok (u', resp, st) → service_ok u' id.
Proof.
  intros [Hinv Hst] H. unfold CheckMinimalLoadServer, GetMinimalLoadServerInfo in H.
  destruct (GetMinimal_loop_spec (S (Size (min_heap_ (balancer_ u)))) clk 0 (balancer_ u) false)
    as (lb' & r & upd & E & Hinv' & Hst' & _); [done|unfold Size; lia|].
  rewrite E in H. cbn [mbind res_bind] in H. unfold service_ok.
  destruct r as [si|]; [destruct upd|]; simplify_eq; rewrite ?UpdateNow_balancer; cbn [balancer_ set_balancer]; by rewrite Hst'.
Qed.

Definition service_report (u : TimedUploader) (id load : Z) : res (TimedUploader * Status) :=
  r ← ReportServerLoad u now id load; Ok (r.1.1, r.2).

Definition service_register (u : TimedUploader) (id : Z) (addr : string) (load : Z) : res (TimedUploader * Status) :=
  r ← RegisterServer u now id addr load; Ok (r.1.1, r.2).

Lemma service_report_spec u id load :
  service_ok u id → load_ok load →
  ∃ u', service_report u id load =
      (if decide (abs (balancer_ u) !! id = None)
       then Ok (u', mkStatus NOT_FOUND "Couldn't found server with that ID.") else Ok (u', Status_OK))
    ∧ service_ok u' id ∧ abs (balancer_ u') = (spec_update (abs (balancer_ u)) now id load).1.
Proof.
  intros [Hinv Hid] Hl.
  destruct (UpdateServerLoad_refines (balancer_ u) now id load Hinv Hl) as (lb' & E & Hinv' & Habs & Hst).
  exists (set_balancer u lb'). unfold service_report, ReportServerLoad. rewrite E. cbn [mbind res_bind snd fst].
  split_and!; [|split; cbn [balancer_ set_balancer]; [done|by rewrite Hst]|done]. unfold spec_update. case_decide as Hd; [by rewrite Hd|].
  destruct (abs (balancer_ u) !! id); done.
Qed.

Lemma service_register_spec u id addr load :
  service_ok u id → load_ok load →
  ∃ u', service_register u id addr load = Ok (u', Status_OK) ∧ service_ok u' id
    ∧ abs (balancer_ u') = <[id := mkInfo id addr load now]> (abs (balancer_ u)).
Proof.
  intros [Hinv Hid] Hl.
  destruct (RegisterServerInfo_refines (balancer_ u) now id addr load Hinv Hl Hid) as (lb' & E & Hinv' & Habs & Hst).
  exists (StatusService.UpdateNow (set_balancer u lb')). unfold service_register, RegisterServer.
  rewrite E. cbn [mbind res_bind snd fst]. unfold service_ok. rewrite !UpdateNow_balancer.
  cbn [balancer_ set_balancer].
  rewrite Hst. by split_and!.
Qed.

#[refine] #[export] Instance status_service_rpc : StatusRPC TimedUploader := {
  rpc_report := service_report;
  rpc_register := service_register;
  rpc_view := service_view;
  rpc_ok := service_ok
}.
Proof.
  - intros u id load addr old Hok Hl Hv. unfold service_view in *. rewrite lookup_fmap in Hv.
    destruct (abs (balancer_ u) !! id) as [si|] eqn:E; [|done]. cbn in Hv. simplify_eq.
    destruct (service_report_spec u id load Hok Hl) as (u' & -> & Hok' & Habs). exists u'.
    rewrite Habs. unfold spec_update. rewrite E. cbn [fst]. rewrite fmap_insert.
    split_and!; [by rewrite decide_False|done|done].
  - intros u id load Hok Hl Hv. unfold service_view in *. rewrite lookup_fmap, fmap_None in Hv.
    destruct (service_report_spec u id load Hok Hl) as (u' & -> & Hok' & Habs).
    rewrite Hv, decide_True by done. eexists u', _. split_and!; [done|done|done|].
    rewrite Habs. unfold spec_update. by rewrite Hv.
  - intros u id addr load Hok Hl.
    destruct (service_register_spec u id addr load Hok Hl) as (u' & -> & Hok' & Habs). exists u'.
    split_and!; [done|done|]. unfold service_view. by rewrite Habs, fmap_insert.
Defined.
End instance.

(** ** Theorems *)

(** C31. One report is enough to be known: against any service that keeps the interface and
    serves the server's id ([rpc_ok]), [ReportImpl] returns, and afterwards the service has the
    server with the reported load; a server it did not know is registered under the
    reporter's address, and no other entry changes.  The service of this repository serves an
    id that it knows, that is new, or that a login query dropped; it need not serve one that
    [CheckTTL] or [RemoveServer] dropped, which can leave an entry in the heap's index
    ([service_ok], [reregister_last_removed_UB]). *)
Theorem ReportImpl_registers `{StatusRPC Sv} (r : StatusReporter) (sv : Sv) sess_count tmps_count :
  rpc_ok sv (server_id_ r) → 0 <= sess_count → 0 <= tmps_count → sess_count + tmps_count < 2 ^ 31 →
  ∃ sv' addr, ReportImpl r sv sess_count tmps_count = Ok sv'
    ∧ rpc_view sv' = <[server_id_ r := (addr, sess_count + tmps_count)]> (rpc_view sv)
    ∧ match rpc_view sv !! server_id_ r with Some (a, _) => addr = a | None => addr = server_addr_ r end.
Proof.
  intros Hok H1 H2 H3. unfold ReportImpl, ReportLoad. rewrite u32_id by (unfold is_u32; lia).
  assert (Hl : load_ok (sess_count + tmps_count)) by (unfold load_ok; lia).
  destruct (rpc_view sv !! server_id_ r) as [[a old]|] eqn:E.
  - destruct (rpc_report_known sv (server_id_ r) _ a old Hok Hl E) as (sv' & -> & _ & Hv). cbn [mbind res_bind].
    by exists sv', a.
  - destruct (rpc_report_unknown sv (server_id_ r) _ Hok Hl E) as (sv1 & st & -> & Hst & Hok1 & Hv1).
    cbn [mbind res_bind]. unfold grpc_ok. rewrite Hst. unfold ReportServerRegister.
    destruct (rpc_register_spec sv1 (server_id_ r) (server_addr_ r) _ Hok1 Hl) as (sv' & -> & _ & Hv).
    cbn [mbind res_bind fst]. exists sv', (server_addr_ r). by rewrite <- Hv1.
Qed.

(** Server 2 of [demo_lb] after a query at 40000 ms has dropped it and server 1 as expired. *)
Definition demo_forgotten : TimedUploader :=
  match CheckMinimalLoadServer (StatusService.Start demo_lb) (λ _, 40000) with
  | Ok (u, _, _) => u
  | _ => StatusService.Start demo_lb
  end.

Lemma ReportImpl_registers_witness :
  let r := mkReporter "10.0.0.2:1234" 15 1 0 false in
  service_view (StatusService.Start demo_lb) !! 1 = Some ("a", 10) ∧ service_view demo_forgotten !! 1 = None
  ∧ ∃ u' addr, ReportImpl (H := status_service_rpc 100) r demo_forgotten 3 4 = Ok u'
    ∧ service_view u' = <[1 := (addr, 3 + 4)]> (service_view demo_forgotten)
    ∧ match service_view demo_forgotten !! 1 with Some (a, _) => addr = a | None => addr = "10.0.0.2:1234" end.
Proof.
  cbn zeta. split; [by vm_compute|]. split; [by vm_compute|].
  apply (ReportImpl_registers (H := status_service_rpc 100)
    (mkReporter "10.0.0.2:1234" 15 1 0 false) demo_forgotten 3 4); [|lia..].
  eapply (service_ok_query (StatusService.Start demo_lb) (λ _, 40000) demo_forgotten).
  - apply (service_ok_reach _ _ ∅); [apply demo_reach|set_solver].
  - vm_compute. reflexivity.
Defined.

(** [ResetTimer] makes a periodic report a single one, as [UpdateNow] does. *)
Theorem ResetTimer_ends_period (r : StatusReporter) m t :
  list_ m !! task_iter_ r = Some t →
  ∃ m', ResetTimer r m = Ok m' ∧ list_ m' !! task_iter_ r = Some (mkTask false true (dur_ t) 1 (ready t)).
Proof.
  intros Ht. unfold ResetTimer, with_task. rewrite Ht. cbn [mbind res_bind list_]. rewrite lookup_insert_eq.
  eexists. split; [reflexivity|]. cbn [list_]. by rewrite lookup_insert_eq.
Qed.

Lemma ResetTimer_ends_period_witness :
  ∃ m', ResetTimer (mkReporter "a" 15 1 0 false) (mkTimerMgr {[0%nat := SetTimer 15000 true]} 1) = Ok m'
    ∧ list_ m' !! 0%nat = Some (mkTask false true 15000 1 0).
Proof.
  apply (ResetTimer_ends_period (mkReporter "a" 15 1 0 false) (mkTimerMgr {[0%nat := SetTimer 15000 true]} 1) (SetTimer 15000 true)).
  reflexivity.
Defined.

(** A reporter's life on the timer list: construction adds one active periodic task;
    [Stop], and so the destructor, cancels and removes it and leaves every other task alone;
    afterwards neither of them does anything. *)
Theorem reporter_lifecycle (m : TimerTaskManager) addr id interval :
  list_ m !! next_iter m = None →
  ∃ r m1, StatusReporter_new m addr id interval = Ok (r, m1)
    ∧ (∃ t, list_ m1 !! task_iter_ r = Some t ∧ periodic t)
    ∧ ∃ r2 m2, Stop r m1 = Ok (r2, m2) ∧ StatusReporter_destroy r m1 = Ok (r2, m2) ∧ list_ m2 = list_ m
        ∧ Stop r2 m2 = Ok (r2, m2) ∧ StatusReporter_destroy r2 m2 = Ok (r2, m2).
Proof.
  intros Hn. unfold StatusReporter_new, CreateTimer, with_task. cbn [list_ next_iter].
  rewrite lookup_insert_eq. cbn [mbind res_bind]. eexists _, _. split; [reflexivity|]. cbn [task_iter_ list_].
  split.
  - eexists. rewrite lookup_insert_eq. split; [done|]. unfold periodic. cbn. split_and!; [done|done|lia].
  - unfold StatusReporter_destroy, Stop, with_task, RemoveTimer. cbn [stopped_ task_iter_ list_ next_iter].
    rewrite lookup_insert_eq. cbn [mbind res_bind list_ next_iter]. rewrite lookup_insert_eq. cbn [mbind res_bind].
    eexists _, _. split; [reflexivity|]. split; [reflexivity|]. cbn [stopped_ list_]. split; [|done].
    rewrite !insert_insert_eq. by apply delete_insert_id.
Qed.

Lemma reporter_lifecycle_witness :
  ∃ r m1, StatusReporter_new (mkTimerMgr ∅ 0) "a" 1 15 = Ok (r, m1)
    ∧ (∃ t, list_ m1 !! task_iter_ r = Some t ∧ periodic t)
    ∧ ∃ r2 m2, Stop r m1 = Ok (r2, m2) ∧ StatusReporter_destroy r m1 = Ok (r2, m2) ∧ list_ m2 = list_ (mkTimerMgr ∅ 0)
        ∧ Stop r2 m2 = Ok (r2, m2) ∧ StatusReporter_destroy r2 m2 = Ok (r2, m2).
Proof. apply (reporter_lifecycle (mkTimerMgr ∅ 0) "a" 1 15). reflexivity. Defined.
