(* ===== verification/Backend.v ===== *)
(** * The backend server: sessions, message handler, message queues
      (src/src/server/session_manager.cpp, msg_handler.cpp, mq_handler.cpp, server_class.cpp,
       redis/server_redis.cpp, session.cpp)

    [World] is what the objects of one backend process share: the session objects by
    address, the manager's two maps, the handler's queue, the set of users to report
    online, the Redis handle, and the writes handed to the sockets.  [held] is the set of
    mutexes owned by the running thread: locking one of them again is undefined behaviour,
    as for [std::mutex].  Redis and the JSON reader are arguments. *)

From S2P Require Import Prelude Decimal FieldOp MsgNode Session RedisBase Timer.

Inductive lock_id := LHandler | LSess | LTemp.

#[global] Instance lock_id_eq_dec : EqDecision lock_id.
Proof. solve_decision. Defined.

(** The commands of Redis the backend uses, on the state of the server. *)
Class RedisOps (Rd : Type) := {
  redis_get : Rd → string → res (option string);
  redis_hget : Rd → string → string → res (option string);
  redis_hsetex : Rd → string → gmap string string → Z → res (Rd * Z);
  redis_xadd : Rd → string → list (string * string) → Z → res (Rd * string);
  redis_pipeline : Rd → list redis_cmd → res Rd
}.

(** The JSON reader: [Reader::parse], and the two conversions of a login request. *)
Class JsonReader (Json : Type) := {
  json_parse : string → option Json;
  as_token : Json → res string;      (* root["token"].asString() *)
  as_uid : Json → res Z              (* root["uid"].asUInt64() *)
}.

Record World (Rd : Type) := mkWorld {
  objs : gmap nat Session;
  sess_ : gmap Z nat;
  temp_sess_ : gset nat;
  q_ : list (option nat * option MsgNode);
  h_running_ : bool;
  held : list lock_id;
  status_uploader_ : OnlineStatusUploader;
  w_redis_ : BaseRedisMgr Rd;
  writes : list (nat * MsgNode)
}.
Arguments mkWorld {Rd}.
Arguments objs {Rd} _.
Arguments sess_ {Rd} _.
Arguments temp_sess_ {Rd} _.
Arguments q_ {Rd} _.
Arguments h_running_ {Rd} _.
Arguments held {Rd} _.
Arguments status_uploader_ {Rd} _.
Arguments w_redis_ {Rd} _.
Arguments writes {Rd} _.

Section setters.
Context {Rd : Type} (w : World Rd).

Definition set_objs x : World Rd :=
  mkWorld x (sess_ w) (temp_sess_ w) (q_ w) (h_running_ w) (held w) (status_uploader_ w) (w_redis_ w) (writes w).
Definition set_sess x : World Rd :=
  mkWorld (objs w) x (temp_sess_ w) (q_ w) (h_running_ w) (held w) (status_uploader_ w) (w_redis_ w) (writes w).
Definition set_temp x : World Rd :=
  mkWorld (objs w) (sess_ w) x (q_ w) (h_running_ w) (held w) (status_uploader_ w) (w_redis_ w) (writes w).
Definition set_q x : World Rd :=
  mkWorld (objs w) (sess_ w) (temp_sess_ w) x (h_running_ w) (held w) (status_uploader_ w) (w_redis_ w) (writes w).
Definition set_h_running x : World Rd :=
  mkWorld (objs w) (sess_ w) (temp_sess_ w) (q_ w) x (held w) (status_uploader_ w) (w_redis_ w) (writes w).
Definition set_held x : World Rd :=
  mkWorld (objs w) (sess_ w) (temp_sess_ w) (q_ w) (h_running_ w) x (status_uploader_ w) (w_redis_ w) (writes w).
Definition set_uploader x : World Rd :=
  mkWorld (objs w) (sess_ w) (temp_sess_ w) (q_ w) (h_running_ w) (held w) x (w_redis_ w) (writes w).
Definition set_redis x : World Rd :=
  mkWorld (objs w) (sess_ w) (temp_sess_ w) (q_ w) (h_running_ w) (held w) (status_uploader_ w) x (writes w).
Definition set_writes x : World Rd :=
  mkWorld (objs w) (sess_ w) (temp_sess_ w) (q_ w) (h_running_ w) (held w) (status_uploader_ w) (w_redis_ w) x.
End setters.

Section backend.
Context {Rd : Type}.
Context (host : byte_order) (junk : nat → Z).

Abbreviation M := (st (World Rd)).
Open Scope cpp_scope.

(** ** Locks and objects *)

Definition lock (l : lock_id) : M unit := λ w,
  if decide (l ∈ held w) then (w, UB relock) else (set_held w (l :: held w), Ok tt).

Definition unlock (l : lock_id) : M unit := λ w, (set_held w (filter (λ x, x ≠ l) (held w)), Ok tt).

Definition get_obj (p : nat) : M Session := λ w,
  match objs w !! p with Some s => (w, Ok s) | None => (w, UB null_deref) end.

Definition put_obj (p : nat) (s : Session) : M unit := st_mod (λ w, set_objs w (<[p := s]> (objs w))).

(** ** [MsgHandler::PostMessage] (the notification has no effect on the state) *)

Definition PostMessage (sess : option nat) (msg : option MsgNode) : M bool :=
  lock LHandler ;;
  st_mod (λ w, set_q w (q_ w ++ [(sess, msg)])) ;;
  unlock LHandler ;;
  st_ret true.

(** ** [SessionManager] *)

Definition RemoveSession (sess_id : Z) : M bool :=
  lock LSess ;;
  n <- st_get (λ w, bool_decide (is_Some (sess_ w !! sess_id))) ;;
  st_mod (λ w, set_sess w (delete sess_id (sess_ w))) ;;
  unlock LSess ;;
  st_ret n.

Definition RemoveTempSession (p : nat) : M bool :=
  lock LTemp ;;
  n <- st_get (λ w, bool_decide (p ∈ temp_sess_ w)) ;;
  st_mod (λ w, set_temp w (temp_sess_ w ∖ {[p]})) ;;
  unlock LTemp ;;
  st_ret n.

Definition AddTempSession (p : nat) : M bool :=
  lock LTemp ;;
  n <- st_get (λ w, negb (bool_decide (p ∈ temp_sess_ w))) ;;
  st_mod (λ w, set_temp w ({[p]} ∪ temp_sess_ w)) ;;
  unlock LTemp ;;
  st_ret n.

(** [try_emplace] keeps an existing entry *)
Definition AddSession (sess_id : Z) (p : nat) : M bool :=
  lock LSess ;;
  lock LTemp ;;
  st_mod (λ w, set_temp w (temp_sess_ w ∖ {[p]})) ;;
  unlock LTemp ;;
  n <- st_get (λ w, negb (bool_decide (is_Some (sess_ w !! sess_id)))) ;;
  (if n : bool then st_mod (λ w, set_sess w (<[sess_id := p]> (sess_ w))) else st_ret tt) ;;
  unlock LSess ;;
  st_ret n.

Definition GetSession (sess_id : Z) : M (option nat) :=
  lock LSess ;;
  p <- st_get (λ w, sess_ w !! sess_id) ;;
  unlock LSess ;;
  st_ret p.

Definition GetSessionCount : M Z :=
  lock LSess ;; n <- st_get (λ w, u32 (Z.of_nat (size (sess_ w)))) ;; unlock LSess ;; st_ret n.

Definition GetTempSessionCount : M Z :=
  lock LTemp ;; n <- st_get (λ w, u32 (Z.of_nat (size (temp_sess_ w)))) ;; unlock LTemp ;; st_ret n.

Definition GetTotalSessionCount : M Z :=
  lock LSess ;; lock LTemp ;;
  n <- st_get (λ w, u32 (Z.of_nat (size (sess_ w)) + Z.of_nat (size (temp_sess_ w)))) ;;
  unlock LTemp ;; unlock LSess ;; st_ret n.

(** ** Sessions of the world *)

(** A call a session makes on the handler or the manager *)
Definition run_out (p : nat) (o : sess_out) : M unit :=
  match o with
  | SPost msg => PostMessage (Some p) msg ;; st_ret tt
  | SRemoveSession uid => RemoveSession uid ;; st_ret tt
  | SRemoveTempSession => RemoveTempSession p ;; st_ret tt
  end.

Fixpoint run_outs (p : nat) (os : list sess_out) : M unit :=
  match os with
  | [] => st_ret tt
  | o :: os' => run_out p o ;; run_outs p os'
  end.

(** [Session::Close] with the handler and the manager alive *)
Definition Close (p : nat) : M unit :=
  s <- get_obj p ;;
  let '(s', outs) := Session.Close true true s in
  put_obj p s' ;;
  run_outs p outs.

Definition StopSession (sess_id : Z) : M bool :=
  lock LSess ;;
  it <- st_get (λ w, sess_ w !! sess_id) ;;
  match it with
  | Some p => Close p ;; unlock LSess ;; st_ret true
  | None => unlock LSess ;; st_ret false
  end.

(** [async_write] of the message, if the call started one *)
Definition start_write (p : nat) (m : option MsgNode) : M unit :=
  match m with
  | Some m => st_mod (λ w, set_writes w (writes w ++ [(p, m)]))
  | None => st_ret tt
  end.

(** [Session::Send(std::shared_ptr<MsgNode>)] *)
Definition SendNode (p : nat) (m : MsgNode) : M unit :=
  s <- get_obj p ;;
  let '(s', wr) := Send_node s m in
  put_obj p s' ;;
  start_write p wr.

(** [Session::Send(const std::string&, uint32_t)] *)
Definition SendString (p : nat) (msg : string) (tag : Z) : M unit :=
  m <- st_res (MsgNode_of host junk (bytes_of_string msg) (u32 (Z.of_nat (String.length msg))) tag) ;;
  SendNode p m.

(** The completion of a read on session [p] *)
Definition on_read (p : nat) (r : read_result) : M unit :=
  s <- get_obj p ;;
  x <- st_res (recv_step host junk true true s r) ;;
  put_obj p x.1 ;;
  run_outs p x.2.

(** [ServerClass::AcceptorFn]: the callback for a new connection; [p] is the address of
    the new session *)
Definition on_accept (p : nat) : M unit :=
  put_obj p (Session_new junk) ;;
  AddTempSession p ;;
  s <- get_obj p ;;
  put_obj p (Session.Start s).

(** ** Server [RedisMgr] *)

Context `{!RedisOps Rd} (order : gset Z → list Z).

Definition GetRedis_w : M Rd := λ w, (w, GetRedis (w_redis_ w)).

Definition put_redis (rd : Rd) : M unit := st_mod (λ w, set_redis w (mkMgr (Some rd))).

Definition VerifyUser (token : string) : M (option Z) :=
  rd <- GetRedis_w ;;
  ret <- st_res (redis_get rd ("token:" +:+ token)) ;;
  match ret with
  | None => st_ret None
  | Some v => uid <- st_res (stoull v) ;; st_ret (Some uid)
  end.

Definition GetUserLocation (uid : Z) : M (option string) :=
  rd <- GetRedis_w ;;
  st_res (redis_hget rd (status_key uid) "server_id").

Definition mq_key (server_id : string) : string := "stream:server:" +:+ server_id.

Definition mq2_key (server_id : string) : string := "stream:serverctl:" +:+ server_id.

Definition SendToMsgQueue (server_id : string) (from to : Z) (content : string) : M string :=
  rd <- GetRedis_w ;;
  r <- st_res (redis_xadd rd (mq_key server_id)
         [("from", to_string from); ("to", to_string to); ("content", content)] 1000) ;;
  put_redis r.1 ;;
  st_ret r.2.

Definition UpdateUserStatus (server_id : string) (uid : Z) : M bool :=
  rd <- GetRedis_w ;;
  r <- st_res (redis_hsetex rd (status_key uid)
         (<["server_id" := server_id]> (<["status" := "online"]> ∅)) 30) ;;
  put_redis r.1 ;;
  st_ret (r.2 =? 1).

(** ** Online status of users *)

Definition uploader_AddSession (uid : Z) : M unit :=
  st_mod (λ w, set_uploader w (Timer.AddSession (status_uploader_ w) uid).1).

Definition uploader_RemoveSession (uid : Z) : M unit :=
  st_mod (λ w, set_uploader w (Timer.RemoveSession (status_uploader_ w) uid).1).

Definition uploader_UpdateNow : M unit := λ w,
  let '((u, m), r) := Timer.UpdateNow redis_pipeline order (status_uploader_ w, w_redis_ w) in
  (set_redis (set_uploader w u) m, r).

(** ** [MsgHandler::Processor] *)

Context (Json : Type) `{!JsonReader Json} (server_id_ : string).

(** The C string behind a pointer: up to the first zero byte, which must be in the block *)
Fixpoint c_string (b : list Z) : res (list Z) :=
  match b with
  | [] => UB out_of_bounds
  | x :: b' => if x =? 0 then Ok [] else s ← c_string b'; Ok (x :: s)
  end.

(** [sess->Close()] and [sess_mgr_->RemoveTempSession(sess.get())] *)
Definition reject (p : nat) : M unit := Close p ;; RemoveTempSession p ;; st_ret tt.

(** The two fields of the request, or [None] when reading one of them throws *)
Definition read_request (root : Json) : res (option (string * Z)) :=
  match as_token root with
  | Ok token => match as_uid root with
                | Ok uid => Ok (Some (token, uid))
                | Throw _ => Ok None
                | UB w => UB w
                end
  | Throw _ => Ok None
  | UB w => UB w
  end.

Definition on_verify (p : nat) (msg : MsgNode) : M unit :=
  s <- get_obj p ;;
  if IsVerified s then st_ret tt
  else
    content <- st_res (GetContent msg) ;;
    text <- st_res (c_string content) ;;
    match json_parse (string_of_bytes text) with
    | None => reject p
    | Some root =>
        req <- st_res (read_request root) ;;
        match req with
        | None => reject p
        | Some (token, uid) =>
            ans <- VerifyUser token ;;
            if decide (ans = Some uid) then
              put_obj p (SetVerified s uid) ;;
              AddSession uid p ;;
              UpdateUserStatus server_id_ uid ;;
              SendString p "Welcome to the chatroom!" (tag_value VERIFY_DONE)
            else reject p
        end
    end.

(** [std::string_view(content + 8, content + len)] *)
Definition content_tail (content : list Z) (len : Z) : res (list Z) :=
  if len <? 8 then UB out_of_bounds else memcpy_from content 8 (Z.to_nat (len - 8)).

Definition on_chat (p : nat) (msg : MsgNode) : M unit :=
  s <- get_obj p ;;
  if negb (IsVerified s) then st_ret tt
  else
    content <- st_res (GetContent msg) ;;
    target_uid <- st_res (ReadNetField64 host content 0) ;;
    target_sess <- GetSession target_uid ;;
    match target_sess with
    | None =>
        sid <- GetUserLocation target_uid ;;
        match sid with
        | Some sid =>
            tail <- st_res (content_tail content (GetContentLen msg)) ;;
            SendToMsgQueue sid (GetUserId s) target_uid (string_of_bytes tail) ;;
            st_ret tt
        | None => st_ret tt
        end
    | Some tp =>
        m <- st_res (SetTagField host (ResetCurPos msg) (tag_value CHAT_MSG_TOCLI)) ;;
        b <- st_res (block m) ;;
        b <- st_res (WriteNetField64 host b (Z.to_nat HEAD_LEN) (GetUserId s)) ;;
        SendNode tp (set_data m b)
    end.

Definition Processor (sess : option nat) (msg : option MsgNode) : M unit :=
  match sess with
  | None => st_ret tt
  | Some p =>
      s <- get_obj p ;;
      match msg with
      | None =>
          if IsVerified s then uploader_RemoveSession (GetUserId s) ;; uploader_UpdateNow
          else st_ret tt
      | Some msg =>
          msg_type <- st_res (GetTagField host msg) ;;
          uploader_AddSession (GetUserId s) ;;
          if msg_type =? tag_value DEBUG then
            content <- st_res (GetContent msg) ;;
            st_res (memcpy_from content 0 (Z.to_nat (GetContentLen msg))) ;;
            st_ret tt
          else if msg_type =? tag_value VERIFY then on_verify p msg
          else if msg_type =? tag_value CHAT_MSG then on_chat p msg
          else st_ret tt
      end
  end.

(** ** The worker of the handler *)

Definition Handler_Start : M bool :=
  lock LHandler ;;
  r <- st_get h_running_ ;;
  (if r : bool then st_ret tt else st_mod (λ w, set_h_running w true)) ;;
  unlock LHandler ;;
  st_ret (negb r).

(** [MsgHandler::Stop], up to the [join]: the worker ends at its next test of [running_] *)
Definition Handler_Stop : M bool :=
  lock LHandler ;;
  r <- st_get h_running_ ;;
  (if r : bool then st_mod (λ w, set_h_running w false) else st_ret tt) ;;
  unlock LHandler ;;
  st_ret r.

Inductive worker_state := WorkerStopped | WorkerWaiting | WorkerBusy.

(** One round of the worker's loop.  The lock is held on entry and through the call of
    [Processor]; it is released while waiting and on return. *)
Definition Worker : M worker_state :=
  r <- st_get h_running_ ;;
  if negb r then st_ret WorkerStopped
  else
    q <- st_get q_ ;;
    match q with
    | [] => st_ret WorkerWaiting
    | (sess, msg) :: q' =>
        st_mod (λ w, set_q w q') ;;
        Processor sess msg ;;
        st_ret WorkerBusy
    end.

(** ** [MQHandler] *)

(** [msg.at(key)] *)
Definition attr_at (attrs : gmap string string) (key : string) : res string :=
  match attrs !! key with Some v => Ok v | None => Throw (out_of_range "_Map_base::at") end.

(** The node [MessageHandler] builds *)
Definition mq_node (from : Z) (content : list Z) : res MsgNode :=
  let sending := MsgNode_sized junk (u32 (HEAD_LEN + 8 + Z.of_nat (length content))) in
  b ← block sending;
  b ← WriteNetField64 host b (Z.to_nat HEAD_LEN) from;
  sending ← write_content (set_data sending b) 8 content;
  sending ← SetTagField host sending (tag_value CHAT_MSG_TOCLI);
  SetContentLenField host sending (u32 (8 + Z.of_nat (length content))).

Definition MessageHandler (item : option (gmap string string)) : M unit :=
  match item with
  | None => st_ret tt
  | Some msg =>
      from_s <- st_res (attr_at msg "from") ;;
      from <- st_res (stoull from_s) ;;
      to_s <- st_res (attr_at msg "to") ;;
      to <- st_res (stoull to_s) ;;
      content <- st_res (attr_at msg "content") ;;
      sending <- st_res (mq_node from (bytes_of_string content)) ;;
      sess <- GetSession to ;;
      match sess with
      | Some p => SendNode p sending
      | None => st_ret tt
      end
  end.

Definition CtrlMsgHandler (item : option (gmap string string)) : M unit :=
  match item with
  | None => st_ret tt
  | Some msg =>
      type <- st_res (attr_at msg "type") ;;
      if bool_decide (type = "kick") then
        uid_s <- st_res (attr_at msg "uid") ;;
        uid <- st_res (stoull uid_s) ;;
        sess <- GetSession uid ;;
        match sess with Some p => Close p | None => st_ret tt end
      else st_ret tt
  end.

Fixpoint for_each {A} (f : A → M unit) (l : list A) : M unit :=
  match l with
  | [] => st_ret tt
  | x :: l' => f x ;; for_each f l'
  end.

(** One round of [MQHandler::WorkerFn] on the streams that were read *)
Definition MQ_dispatch (stms : list (string * list (option (gmap string string)))) : M unit :=
  for_each (λ stm : string * list (option (gmap string string)),
    if bool_decide (stm.1 = mq_key server_id_) then for_each MessageHandler stm.2
    else if bool_decide (stm.1 = mq2_key server_id_) then for_each CtrlMsgHandler stm.2
    else st_ret tt) stms.
End backend.
