(* ===== verification/ServerSetup.v ===== *)
(** * Setting up a backend process
      (src/src/server/server_main.cpp, io_context_pool.cpp, io_thread_pool.cpp,
       redis/server_redis.cpp)

    The command line of the server, the round-robin choice of an io_context, and the
    consumer groups of the server's two streams.  The stream commands of Redis are
    arguments. *)

From S2P Require Import Prelude Decimal CppString RedisBase Timer Backend.

(** ** The command line *)

Record server_conf := mkConf { conf_id : Z; conf_addr : string; conf_port : Z }.

(** [argv] without the program name; [None] for the usage message *)
Definition parse_args (argv : list string) : res (option server_conf) :=
  let server_id := 100 in
  let listen_port := 1235 in
  let server_addr := "192.168.56.101:" +:+ to_string listen_port in
  match argv with
  | [] => Ok (Some (mkConf server_id server_addr listen_port))
  | [a1] => id ← stoul a1; Ok (Some (mkConf (u32 id) server_addr listen_port))
  | [a1; a2] => id ← stoul a1; Ok (Some (mkConf (u32 id) (a2 +:+ ":3000") listen_port))
  | [a1; a2; a3] =>
      id ← stoul a1;
      port ← stoul a3;
      let listen_port := u32 port in
      Ok (Some (mkConf (u32 id) (a2 +:+ (":" +:+ to_string listen_port)) listen_port))
  | _ => Ok None
  end.

(** The port clients are told: what stands behind the last colon *)
Definition advertises (c : server_conf) (host : string) (port : Z) : Prop :=
  conf_addr c = host +:+ (":" +:+ to_string port).

(** ** [IOContextPool] *)

(** [ctxs_] is known by its size; [works_] holds the contexts still kept alive *)
Record IOContextPool := mkIOPool { ctxs_size : nat; works_ : list bool; nxt_ : Z }.

Definition pool_size (size : Z) : nat := if 0 <? size then Z.to_nat size else 4.

Definition IOContextPool_new (size : Z) : IOContextPool :=
  mkIOPool (pool_size size) (replicate (pool_size size) true) 0.

(** The index of the context, [nxt_] being a 64-bit counter *)
Definition GetNextIOContext (p : IOContextPool) : res (Z * IOContextPool) :=
  let nxt := nxt_ p mod Z.of_nat (ctxs_size p) in
  if nxt <? Z.of_nat (ctxs_size p) then Ok (nxt, mkIOPool (ctxs_size p) (works_ p) (u64 (nxt + 1)))
  else UB out_of_bounds.

Definition IOContextPool_Stop (p : IOContextPool) : IOContextPool :=
  mkIOPool (ctxs_size p) (map (λ _, false) (works_ p)) (nxt_ p).

Fixpoint next_contexts (n : nat) (p : IOContextPool) : res (list Z * IOContextPool) :=
  match n with
  | O => Ok ([], p)
  | S n' =>
      r ← GetNextIOContext p;
      r' ← next_contexts n' r.2;
      Ok (r.1 :: r'.1, r'.2)
  end.

(** [IOThreadPool]: one context, whatever the number of threads *)
Definition thread_pool_context : Z := 0.

(** ** The streams of a server *)

Section streams.
Context {Rd Item : Type}.
Context (xgroup_create : Rd → string → string → string → Rd * bool).   (* key, group, id; true: ReplyError *)
Context (xreadgroup : Rd → string → string → list (string * string) → Z →
  res (Rd * list (string * list Item))).                                (* group, consumer, keys and ids, count *)

Definition group_name (server_id : string) : string := "message_group" +:+ server_id.

Definition RegisterMsgQueue (m : BaseRedisMgr Rd) (server_id : string) (read_from_begin : bool) :
    res (BaseRedisMgr Rd) :=
  let id := if read_from_begin then "0" else "$" in
  rd ← GetRedis m;
  let rd := (xgroup_create rd (mq_key server_id) (group_name server_id) id).1 in
  let rd := (xgroup_create rd (mq2_key server_id) (group_name server_id) id).1 in
  Ok (mkMgr (Some rd)).

(** [block_ms] is not passed on *)
Definition RecvFromMsgQueueNoACK (m : BaseRedisMgr Rd) (server_id consumer_id : string) (block_ms recv_count : Z) :
    res (BaseRedisMgr Rd * list (string * list Item)) :=
  rd ← GetRedis m;
  r ← xreadgroup rd (group_name server_id) ("server" +:+ consumer_id)
        [(mq_key server_id, ">"); (mq2_key server_id, ">")] recv_count;
  Ok (mkMgr (Some r.1), r.2).
End streams.

(** ** Lemmas *)

Lemma GetNextIOContext_Ok p :
  (0 < ctxs_size p)%nat → Z.of_nat (ctxs_size p) < 2 ^ 64 →
  GetNextIOContext p = Ok (nxt_ p mod Z.of_nat (ctxs_size p),
    mkIOPool (ctxs_size p) (works_ p) (nxt_ p mod Z.of_nat (ctxs_size p) + 1)).
Proof.
  intros H0 Hs. unfold GetNextIOContext. pose proof (Z.mod_pos_bound (nxt_ p) (Z.of_nat (ctxs_size p)) ltac:(lia)).
  rewrite (proj2 (Z.ltb_lt _ _)) by lia. rewrite u64_id by (unfold is_u64; lia). done.
Qed.

Lemma next_contexts_Ok n : ∀ p,
  (0 < ctxs_size p)%nat → Z.of_nat (ctxs_size p) < 2 ^ 64 →
  ∃ p', next_contexts n p = Ok ((λ k, (nxt_ p + Z.of_nat k) mod Z.of_nat (ctxs_size p)) <$> seq 0 n, p')
    ∧ ctxs_size p' = ctxs_size p.
Proof.
  induction n as [|n IH]; intros p H0 Hs; [by exists p|].
  cbn [next_contexts]. rewrite GetNextIOContext_Ok by done. cbn [mbind res_bind fst snd].
  set (p1 := mkIOPool _ _ _). destruct (IH p1 H0 Hs) as (p' & E & Hp'). exists p'. split; [|done].
  rewrite E. cbn [mbind res_bind fst snd seq]. rewrite fmap_cons. change (Z.of_nat 0) with 0. rewrite Z.add_0_r.
  do 3 f_equal. rewrite <- fmap_S_seq, <- list_fmap_compose. apply list_fmap_ext. intros _ k _. cbn.
  rewrite <- Z.add_assoc, Z.add_mod_idemp_l by lia. f_equal. lia.
Qed.

(** The pool of io_contexts is fair: whatever its size (0 means 4), the call number [k]
    returns context [k mod size]; the index is always in range and the counter never
    overflows. *)
Theorem round_robin_fair size n :
  0 <= size < 2 ^ 32 →
  let p := IOContextPool_new size in
  ∃ p', next_contexts n p = Ok ((λ k, Z.of_nat k mod Z.of_nat (pool_size size)) <$> seq 0 n, p')
    ∧ ctxs_size p' = pool_size size ∧ (0 < pool_size size)%nat.
Proof.
  intros Hs p. assert (H0 : (0 < pool_size size)%nat) by (unfold pool_size; case_if; lia).
  destruct (next_contexts_Ok n p) as (p' & E & Hp'); [done|cbn; unfold pool_size; case_if; lia|].
  by exists p'.
Qed.

Lemma round_robin_fair_witness :
  ∃ p', next_contexts 5 (IOContextPool_new 0) = Ok ((λ k, Z.of_nat k mod 4) <$> seq 0 5, p')
    ∧ ctxs_size p' = 4%nat ∧ (0 < 4)%nat.
Proof. apply (round_robin_fair 0 5). lia. Defined.

(** The command line: with an address and a port the server advertises the port it
    listens on; with an address only it advertises port 3000 while it listens on 1235. *)
Theorem advertised_port id addr port :
  is_u32 id → is_u32 port →
  (∃ c, parse_args [to_string id; addr; to_string port] = Ok (Some c)
     ∧ conf_id c = id ∧ conf_port c = port ∧ advertises c addr (conf_port c))
  ∧ (∃ c, parse_args [to_string id; addr] = Ok (Some c)
     ∧ conf_id c = id ∧ advertises c addr 3000 ∧ conf_port c = 1235).
Proof.
  unfold is_u32. intros Hi Hp.
  assert (Hst : ∀ x, 0 <= x < 2 ^ 32 → stoul (to_string x) = Ok x).
  { intros x Hx. unfold stoul. rewrite scan_signed_to_string by (unfold is_u64; lia).
    by rewrite (proj2 (Z.ltb_lt _ _)) by lia. }
  split.
  - unfold parse_args. rewrite !Hst by done. cbn [mbind res_bind]. rewrite !u32_id by done.
    eexists. split; [reflexivity|]. done.
  - unfold parse_args. rewrite Hst by done. cbn [mbind res_bind]. rewrite u32_id by done.
    eexists. split; [reflexivity|]. done.
Qed.

Lemma advertised_port_witness :
  (∃ c, parse_args [to_string 7; "10.0.0.2"; to_string 2000] = Ok (Some c)
     ∧ conf_id c = 7 ∧ conf_port c = 2000 ∧ advertises c "10.0.0.2" (conf_port c))
  ∧ (∃ c, parse_args [to_string 7; "10.0.0.2"] = Ok (Some c)
     ∧ conf_id c = 7 ∧ advertises c "10.0.0.2" 3000 ∧ conf_port c = 1235).
Proof. apply (advertised_port 7 "10.0.0.2" 2000); done. Defined.
