(* ===== verification/BackendFacts.v ===== *)
(** * Correctness of the backend

    Each manager operation as an equation on the world; then the handler: who can end up in
    the manager's maps, what a login does, what a chat message turns into on the local and
    on the remote path, and the calls that lock a mutex twice. *)

From S2P Require Import Prelude Decimal FieldOp MsgNode Session SessionFacts RedisBase Timer Backend.

(** ** Equations of the primitives *)

Lemma filter_unlock (l : lock_id) (h : list lock_id) :
  l ∉ h → filter (λ x, x ≠ l) (l :: h) = h.
Proof.
  intros Hl. rewrite filter_cons_False by auto. induction h as [|x h IH]; [done|].
  rewrite not_elem_of_cons in Hl. rewrite filter_cons_True by naive_solver. f_equal. naive_solver.
Qed.

#[local] Arguments filter : simpl never.

Section primitives.
Context {Rd : Type}.
Implicit Types w : World Rd.

(** Unfolds the state monad on an explicit world. *)
Ltac run_st := unfold st_bind, st_ret, st_mod, st_get, st_res; cbn.

(** Opens a critical section whose lock is free. *)
Ltac take_lock H := unfold lock, unlock; run_st; rewrite decide_False by exact H; cbn.

Lemma PostMessage_Ok w s m :
  LHandler ∉ held w → PostMessage s m w = (set_q w (q_ w ++ [(s, m)]), Ok true).
Proof.
  intros H. destruct w; cbn in *. unfold PostMessage. take_lock H. unfold set_held, set_q. cbn.
  by rewrite filter_unlock.
Qed.

Lemma PostMessage_relock w s m : LHandler ∈ held w → PostMessage s m w = (w, UB relock).
Proof. intros H. unfold PostMessage, lock. run_st. by rewrite decide_True. Qed.

Lemma RemoveSession_Ok w uid :
  LSess ∉ held w →
  RemoveSession uid w = (set_sess w (delete uid (sess_ w)), Ok (bool_decide (is_Some (sess_ w !! uid)))).
Proof.
  intros H. destruct w; cbn in *. unfold RemoveSession. take_lock H. unfold set_held, set_sess. cbn.
  by rewrite filter_unlock.
Qed.

Lemma RemoveTempSession_Ok w p :
  LTemp ∉ held w →
  RemoveTempSession p w = (set_temp w (temp_sess_ w ∖ {[p]}), Ok (bool_decide (p ∈ temp_sess_ w))).
Proof.
  intros H. destruct w; cbn in *. unfold RemoveTempSession. take_lock H. unfold set_held, set_temp. cbn.
  by rewrite filter_unlock.
Qed.

Lemma AddTempSession_Ok w p :
  LTemp ∉ held w →
  AddTempSession p w = (set_temp w ({[p]} ∪ temp_sess_ w), Ok (negb (bool_decide (p ∈ temp_sess_ w)))).
Proof.
  intros H. destruct w; cbn in *. unfold AddTempSession. take_lock H. unfold set_held, set_temp. cbn.
  by rewrite filter_unlock.
Qed.

Lemma GetSession_Ok w uid : LSess ∉ held w → GetSession uid w = (w, Ok (sess_ w !! uid)).
Proof.
  intros H. destruct w; cbn in *. unfold GetSession. take_lock H. unfold set_held. cbn.
  by rewrite filter_unlock.
Qed.

(** [try_emplace] of the manager's map. *)
Definition emplaced (m : gmap Z nat) (uid : Z) (p : nat) : gmap Z nat :=
  match m !! uid with Some _ => m | None => <[uid := p]> m end.

Lemma AddSession_Ok w uid p :
  LSess ∉ held w → LTemp ∉ held w →
  ∃ b, AddSession uid p w =
    (set_sess (set_temp w (temp_sess_ w ∖ {[p]})) (emplaced (sess_ w) uid p), Ok b).
Proof.
  intros H1 H2. assert (H2' : LTemp ∉ LSess :: held w) by (rewrite not_elem_of_cons; naive_solver).
  destruct w; cbn in *. unfold AddSession, lock, unlock. run_st.
  rewrite decide_False by exact H1. cbn. rewrite decide_False by exact H2'. cbn.
  unfold emplaced. destruct (sess_ !! uid) eqn:E; cbn; eexists; unfold set_held, set_temp, set_sess; cbn;
    by rewrite filter_unlock, filter_unlock by done.
Qed.

Lemma get_obj_Ok w p s : objs w !! p = Some s → get_obj p w = (w, Ok s).
Proof. intros H. unfold get_obj. by rewrite H. Qed.
End primitives.

(** ** Closing a session *)

Section close.
Context {Rd : Type}.
Implicit Types w : World Rd.

Definition closed (s : Session) : Session :=
  mkSession (user_id_ s) (verified_ s) (recv_ptr_ s) (send_q_ s) (sending_ s) true (reading_ s).

(** The world after an effective [Close]. *)
Definition after_close w (p : nat) (s : Session) : World Rd :=
  let w1 := set_q (set_objs w (<[p := closed s]> (objs w))) (q_ w ++ [(Some p, None)]) in
  if verified_ s then set_sess w1 (delete (user_id_ s) (sess_ w1))
  else set_temp w1 (temp_sess_ w1 ∖ {[p]}).

Lemma Close_Ok w p s :
  objs w !! p = Some s → down_ s = false → held w = [] → Close p w = (after_close w p s, Ok tt).
Proof.
  intros Hp Hd Hh. unfold Close, st_bind. rewrite (get_obj_Ok w p s Hp).
  unfold Session.Close. rewrite Hd. cbn [app put_obj st_mod run_outs run_out].
  set (w1 := set_objs w _).
  assert (Hh1 : held w1 = []) by done.
  unfold st_bind. rewrite PostMessage_Ok by (rewrite Hh1; apply not_elem_of_nil). cbn [st_ret].
  unfold after_close, closed, close_remove. cbn zeta. destruct (verified_ s) eqn:Hv; cbn [run_out]; unfold st_bind.
  - by rewrite RemoveSession_Ok by (cbn; rewrite Hh; apply not_elem_of_nil).
  - by rewrite RemoveTempSession_Ok by (cbn; rewrite Hh; apply not_elem_of_nil).
Qed.

Lemma Close_relock w p s :
  objs w !! p = Some s → down_ s = false → LHandler ∈ held w → (Close p w).2 = UB relock.
Proof.
  intros Hp Hd Hh. unfold Close, st_bind. rewrite (get_obj_Ok w p s Hp).
  unfold Session.Close. rewrite Hd. cbn [app put_obj st_mod run_outs run_out]. unfold st_bind.
  by rewrite PostMessage_relock.
Qed.

Lemma Close_relock_sess w p s :
  objs w !! p = Some s → down_ s = false → verified_ s = true → held w = [LSess] →
  (Close p w).2 = UB relock.
Proof.
  intros Hp Hd Hv Hh. unfold Close, st_bind. rewrite (get_obj_Ok w p s Hp).
  unfold Session.Close, close_remove. rewrite Hd, Hv. cbn [app put_obj st_mod run_outs run_out]. unfold st_bind.
  rewrite PostMessage_Ok by (cbn; rewrite Hh; intros ?%list_elem_of_singleton; done).
  unfold RemoveSession, lock, st_bind. cbn. rewrite Hh. done.
Qed.
End close.

(** [SessionManager::StopSession] locks [lck_] and closes the session under it, and
    closing a verified session locks [lck_] again to remove it: stopping a registered,
    open session is undefined behaviour (a self-deadlock). *)
Theorem StopSession_relocks {Rd} (w : World Rd) uid p s :
  held w = [] → sess_ w !! uid = Some p → objs w !! p = Some s →
  verified_ s = true → down_ s = false →
  (StopSession uid w).2 = UB relock.
Proof.
  intros Hh Hu Hp Hv Hd. unfold StopSession.
  rewrite (st_bind_Ok _ _ w (set_held w (LSess :: held w)) tt)
    by (unfold lock; rewrite decide_False; [done|rewrite Hh; apply not_elem_of_nil]).
  rewrite (st_bind_Ok _ _ _ (set_held w (LSess :: held w)) (Some p)) by (unfold st_get; cbn; by rewrite Hu).
  assert (Hc : (Close p (set_held w (LSess :: held w))).2 = UB relock)
    by (apply (Close_relock_sess _ p s); [done..|cbn; by rewrite Hh]).
  unfold st_bind. destruct (Close p _) as [w' r]. cbn [snd] in Hc. by subst r.
Qed.

(** A world with one registered session, for concrete runs. *)
Definition demo_world {Rd} (rd : Rd) (s : Session) : World Rd :=
  mkWorld {[ 5%nat := s ]} (if verified_ s then {[ user_id_ s := 5%nat ]} else ∅)
    (if verified_ s then ∅ else {[ 5%nat ]}) [] true [] (OnlineStatusUploader_new 10) (mkMgr (Some rd)) [].

Definition demo_session (uid : Z) (verified : bool) : Session :=
  mkSession uid verified (MsgNode_sized (λ _, 0) 16) [] None false RHead.

Lemma StopSession_relocks_witness :
  (StopSession 42 (demo_world tt (demo_session 42 true))).2 = UB relock.
Proof.
  apply (StopSession_relocks (demo_world tt (demo_session 42 true)) 42 5%nat (demo_session 42 true)); reflexivity.
Defined.

(** Logging in twice: [AddSession] keeps the first session of a user and its answer is
    ignored, so the second session is verified without being registered; when that second
    session closes it erases the first one's entry, and messages for the user no longer
    find the session that is still open. *)
Theorem second_login_evicts_first {Rd} (w : World Rd) uid p1 p2 s2 :
  held w = [] → sess_ w !! uid = Some p1 → p1 ≠ p2 → objs w !! p2 = Some s2 →
  verified_ s2 = true → user_id_ s2 = uid → down_ s2 = false →
  (∃ w1 b, AddSession uid p2 w = (w1, Ok b) ∧ sess_ w1 = sess_ w ∧ objs w1 = objs w) ∧
  (∃ w2, Close p2 w = (w2, Ok tt) ∧ GetSession uid w2 = (w2, Ok None) ∧ objs w2 !! p1 = objs w !! p1).
Proof.
  intros Hh Hu Hne Hp Hv Hid Hd.
  assert (Hf : ∀ l, l ∉ held w) by (intros l; rewrite Hh; apply not_elem_of_nil). split.
  - destruct (AddSession_Ok w uid p2) as [b E]; [done..|]. eexists _, b. split; [done|].
    cbn. unfold emplaced. by rewrite Hu.
  - exists (after_close w p2 s2). split; [by apply Close_Ok|].
    unfold after_close. rewrite Hv. cbn zeta. rewrite GetSession_Ok by (cbn; auto). cbn.
    rewrite Hid, lookup_delete_eq. split; [done|]. by rewrite lookup_insert_ne.
Qed.

Lemma second_login_evicts_first_witness :
  let w := set_objs (demo_world tt (demo_session 42 true)) (<[6%nat := demo_session 42 true]> {[5%nat := demo_session 42 true]}) in
  (∃ w1 b, AddSession 42 6 w = (w1, Ok b) ∧ sess_ w1 = sess_ w ∧ objs w1 = objs w) ∧
  (∃ w2, Close 6 w = (w2, Ok tt) ∧ GetSession 42 w2 = (w2, Ok None) ∧ objs w2 !! 5%nat = objs w !! 5%nat).
Proof.
  apply (second_login_evicts_first
    (set_objs (demo_world tt (demo_session 42 true)) (<[6%nat := demo_session 42 true]> {[5%nat := demo_session 42 true]}))
    42 5%nat 6%nat (demo_session 42 true)); [reflexivity..|done|reflexivity|reflexivity|reflexivity|reflexivity].
Defined.

(** ** Chat messages as bytes *)

Lemma take_splice_comm {A} (b s : list A) off n :
  (off + length s <= n)%nat → (n <= length b)%nat → take n (splice b off s) = splice (take n b) off s.
Proof.
  intros H1 H2. unfold splice. rewrite take_app_ge, take_app_ge by (rewrite ?length_take; lia).
  rewrite length_take, take_take, (Nat.min_l off) by lia. rewrite Nat.min_l by lia.
  rewrite take_drop_commute. by replace (off + length s + (n - off - length s))%nat with n by lia.
Qed.

(** Overwriting the middle of three parts. *)
Lemma splice_app {A} (l a x c s : list A) off :
  l = a ++ x ++ c → off = length a → length s = length x → splice l off s = a ++ s ++ c.
Proof.
  intros -> -> Hs. unfold splice. rewrite take_app_length, Hs.
  by rewrite drop_app_add', drop_app_length.
Qed.

(** Replacing the tag and the user id of a framed chat message. *)
Lemma frame_retag tag tag' content uid :
  (8 <= length content)%nat →
  splice (splice (frame tag content) 0 (be_bytes 4 tag')) 8 (be_bytes 8 uid)
    = frame tag' (be_bytes 8 uid ++ drop 8 content).
Proof.
  intros Hl. set (l4 := be_bytes 4 (Z.of_nat (length content))).
  rewrite (splice_app (frame tag content) [] (be_bytes 4 tag) (l4 ++ content));
    [|reflexivity|reflexivity|by rewrite !length_be_bytes].
  rewrite app_nil_l, (splice_app _ (be_bytes 4 tag' ++ l4) (take 8 content) (drop 8 content)).
  - rewrite <- app_assoc. unfold frame, l4. rewrite length_app, length_be_bytes, length_drop.
    by replace (8 + (length content - 8))%nat with (length content) by lia.
  - by rewrite <- app_assoc, take_drop.
  - by rewrite length_app, !length_be_bytes.
  - rewrite length_be_bytes, length_take. lia.
Qed.

(** A fresh block filled in the order user id, content, tag, length. *)
Lemma splice_mq (b : list Z) tag from content n :
  length b = (16 + length content)%nat → n = 8 + Z.of_nat (length content) →
  splice (splice (splice (splice b 8 (be_bytes 8 from)) (8 + 8) content) 0 (be_bytes 4 tag)) 4 (be_bytes 4 n)
    = frame tag (be_bytes 8 from ++ content).
Proof.
  intros Hb ->. set (x1 := take 4 b). set (x2 := take 4 (drop 4 b)).
  assert (Hb8 : drop 4 b = x2 ++ drop 8 b) by (unfold x2; rewrite <- (take_drop 4 (drop 4 b)) at 1; by rewrite drop_drop).
  assert (Hl1 : length x1 = 4%nat) by (unfold x1; rewrite length_take; lia).
  assert (Hl2 : length x2 = 4%nat) by (unfold x2; rewrite length_take, length_drop; lia).
  rewrite (splice_app b (x1 ++ x2) (take 8 (drop 8 b)) (drop 16 b)).
  2: { rewrite <- app_assoc, (app_assoc x2), <- (take_drop 4 b) at 1. fold x1. rewrite Hb8. f_equal.
       rewrite <- app_assoc. f_equal. rewrite <- (take_drop 8 (drop 8 b)) at 1. by rewrite drop_drop. }
  2: { rewrite length_app. lia. }
  2: { rewrite length_be_bytes, length_take, length_drop. lia. }
  rewrite (splice_app _ ((x1 ++ x2) ++ be_bytes 8 from) (drop 16 b) [] content).
  2: { by rewrite app_nil_r, <- (app_assoc (x1 ++ x2)). }
  2: { rewrite !length_app, length_be_bytes. lia. }
  2: { rewrite length_drop. lia. }
  rewrite (splice_app _ [] x1 (x2 ++ be_bytes 8 from ++ content) (be_bytes 4 tag)).
  2: { by rewrite app_nil_l, app_nil_r, <- !app_assoc. }
  2: { done. }
  2: { by rewrite length_be_bytes. }
  rewrite (splice_app _ (be_bytes 4 tag) x2 (be_bytes 8 from ++ content)); [|done|by rewrite length_be_bytes..].
  unfold frame. rewrite length_app, length_be_bytes. do 3 f_equal. lia.
Qed.

Section chat_bytes.
Context (host : byte_order).

Lemma local_chat_node msg content from tag :
  node_holds host msg (tag, content) → (8 <= length content)%nat → is_u64 from → cur_pos_ (ResetCurPos msg) = 0 →
  Z.of_nat (length content) <= MAX_CTX_LEN →
  ∃ m b b', SetTagField host (ResetCurPos msg) (tag_value CHAT_MSG_TOCLI) = Ok m ∧ block m = Ok b
    ∧ WriteNetField64 host b (Z.to_nat HEAD_LEN) from = Ok b'
    ∧ write_bytes (set_data m b') = Ok (frame (tag_value CHAT_MSG_TOCLI) (be_bytes 8 from ++ drop 8 content)).
Proof.
  intros (Hwf & _ & Hlen & b & Hd & Htk) Hc Hf Hcur Hmax. cbn [fst snd] in *.
  change (Z.to_nat HEAD_LEN) with 8%nat in *. unfold GetContentLen in Hlen.
  assert (Hbl : (8 + length content <= length b)%nat).
  { apply (f_equal length) in Htk. rewrite length_take, length_frame in Htk.
    change (Z.to_nat HEAD_LEN) with 8%nat in Htk. lia. }
  unfold SetTagField, block, ResetCurPos, set_cur_pos. cbn [data_]. rewrite Hd. cbn [mbind res_bind].
  rewrite WriteNetField32_Ok, u32_id by (unfold is_u32; cbn [tag_value]; lia). cbn [mbind res_bind].
  eexists _, _, _. split; [reflexivity|]. cbn [data_ set_data]. split; [reflexivity|].
  rewrite WriteNetField64_Ok by (done || rewrite length_splice_be by lia; lia).
  split; [reflexivity|]. unfold write_bytes, block, set_data. cbn [data_ cur_pos_ ctx_len_ mbind res_bind].
  rewrite Hlen. unfold HEAD_LEN, TAG_LEN, LENGTH_LEN, MAX_CTX_LEN in *. rewrite u32_id by (unfold is_u32; lia).
  change (Z.to_nat 0) with 0%nat.
  replace (Z.to_nat (Z.of_nat (length content) + (4 + 4) - 0)) with (8 + length content)%nat by lia.
  assert (Hl1 : length (splice b 0 (be_bytes 4 (tag_value CHAT_MSG_TOCLI))) = length b) by (apply length_splice_be; lia).
  rewrite memcpy_from_Ok by (rewrite length_splice_be by lia; lia). rewrite drop_0.
  rewrite take_splice_comm by (rewrite ?length_be_bytes; lia).
  rewrite take_splice_comm by (rewrite ?length_be_bytes; lia). by rewrite Htk, frame_retag.
Qed.

Lemma mq_node_Ok junk from content :
  is_u64 from → Forall is_byte content → Z.of_nat (length content) <= MAX_CTX_LEN →
  ∃ m, mq_node host junk from content = Ok m
    ∧ write_bytes m = Ok (frame (tag_value CHAT_MSG_TOCLI) (be_bytes 8 from ++ content)).
Proof.
  intros Hf Hb Hmax. unfold MAX_CTX_LEN in Hmax. unfold mq_node, MsgNode_sized.
  rewrite (u32_id (HEAD_LEN + 8 + Z.of_nat (length content))) by (unfold HEAD_LEN, TAG_LEN, LENGTH_LEN, is_u32; lia).
  change HEAD_LEN with 8.
  rewrite (proj2 (Z.ltb_lt 0 (8 + 8 + Z.of_nat (length content)))) by lia. unfold block. cbn [data_ mbind res_bind].
  change (Z.to_nat 8) with 8%nat. set (b0 := new_char junk (8 + 8 + Z.of_nat (length content))).
  assert (Hl0 : length b0 = (16 + length content)%nat) by (unfold b0; rewrite length_new_char; lia).
  rewrite WriteNetField64_Ok by (done || lia). cbn [mbind res_bind].
  set (b1 := splice b0 8 (be_bytes 8 from)).
  assert (Hl1 : length b1 = length b0) by (unfold b1; apply length_splice_be; lia).
  unfold write_content, block. cbn [data_ set_data mbind res_bind]. change (Z.to_nat HEAD_LEN) with 8%nat.
  rewrite memcpy_to_Ok by lia. cbn [mbind res_bind].
  set (b2 := splice b1 (8 + 8) content).
  assert (Hl2 : length b2 = length b0) by (unfold b2; rewrite length_splice; lia).
  unfold SetTagField, block. cbn [data_ set_data mbind res_bind].
  rewrite WriteNetField32_Ok by lia. cbn [mbind res_bind]. rewrite (u32_id (tag_value CHAT_MSG_TOCLI)) by (unfold is_u32; cbn; lia).
  set (b3 := splice b2 0 (be_bytes 4 (tag_value CHAT_MSG_TOCLI))).
  assert (Hl3 : length b3 = length b0) by (unfold b3; rewrite length_splice_be; lia).
  unfold SetContentLenField, block. cbn [data_ set_data mbind res_bind].
  rewrite (u32_id (8 + Z.of_nat (length content))) by (unfold is_u32; lia).
  change (Z.to_nat TAG_LEN) with 4%nat. rewrite WriteNetField32_Ok by lia. cbn [mbind res_bind].
  rewrite (u32_id (8 + Z.of_nat (length content))) by (unfold is_u32; lia).
  eexists. split; [reflexivity|]. unfold write_bytes, block, set_ctx_len, set_data. cbn [data_ cur_pos_ ctx_len_ mbind res_bind].
  change HEAD_LEN with 8. rewrite u32_id by (unfold is_u32; lia). change (Z.to_nat 0) with 0%nat.
  rewrite memcpy_from_Ok by (rewrite length_splice_be; lia). rewrite drop_0, take_ge by (rewrite length_splice_be; lia).
  f_equal. unfold b3, b2, b1. by apply splice_mq.
Qed.
End chat_bytes.

(** ** The handler *)

Lemma SendNode_Ok {Rd} (w : World Rd) p s m :
  objs w !! p = Some s → send_q_ s = [] →
  SendNode p m w =
    (set_writes (set_objs w (<[p := set_queue s [] (Some m)]> (objs w))) (writes w ++ [(p, m)]), Ok tt).
Proof.
  intros Hp Hq. unfold SendNode. rewrite (st_bind_Ok _ _ _ _ _ (get_obj_Ok w p s Hp)).
  unfold Send_node, enqueue, QueueSend, queue_pop. rewrite Hq. cbn. done.
Qed.

(** The content of a posted message, as the handler reads it. *)
Lemma node_holds_content host msg m :
  node_holds host msg m →
  ∃ c, GetContent msg = Ok c ∧ Forall is_byte c ∧ take (length m.2) c = m.2
    ∧ GetContentLen msg = Z.of_nat (length m.2).
Proof.
  intros (Hwf & _ & Hlen & b & Hd & Htk). destruct (node_wf_block _ _ Hwf Hd) as [_ Hb].
  exists (drop (Z.to_nat HEAD_LEN) b). unfold GetContent, block. rewrite Hd. cbn [mbind res_bind].
  split_and!; [done|by apply Forall_drop| |done].
  rewrite take_drop_commute, Htk. apply frame_content.
Qed.

Section handler.
Context {Rd Json : Type} `{!RedisOps Rd, !JsonReader Json}.
Context (host : byte_order) (junk : nat → Z) (order : gset Z → list Z) (server_id : string).
Implicit Types w : World Rd.

Abbreviation processor := (Processor host junk order Json server_id).

(** A message refreshes the online mark of its sender before it is looked at. *)
Definition touched w (s : Session) : World Rd :=
  set_uploader w (Timer.AddSession (status_uploader_ w) (user_id_ s)).1.

Lemma Processor_verify w p s msg :
  objs w !! p = Some s → GetTagField host msg = Ok (tag_value VERIFY) →
  processor (Some p) (Some msg) w = on_verify host junk Json server_id p msg (touched w s).
Proof.
  intros Hp Ht. unfold Processor. rewrite (st_bind_Ok _ _ _ _ _ (get_obj_Ok w p s Hp)).
  unfold st_bind at 1, st_res. rewrite Ht. done.
Qed.

Lemma Processor_chat w p s msg :
  objs w !! p = Some s → GetTagField host msg = Ok (tag_value CHAT_MSG) →
  processor (Some p) (Some msg) w = on_chat host p msg (touched w s).
Proof.
  intros Hp Ht. unfold Processor. rewrite (st_bind_Ok _ _ _ _ _ (get_obj_Ok w p s Hp)).
  unfold st_bind at 1, st_res. rewrite Ht. done.
Qed.

(** The request in a login message, [None] when it cannot be read. *)
Definition login_request (msg : MsgNode) : res (option (string * Z)) :=
  content ← GetContent msg;
  text ← c_string content;
  match json_parse (string_of_bytes text) with
  | None => Ok None
  | Some root => read_request Json root
  end.

(** The user a token belongs to. *)
Definition token_owner (rd : Rd) (token : string) : res (option Z) :=
  v ← redis_get rd ("token:" +:+ token);
  match v with None => Ok None | Some v => uid ← stoull v; Ok (Some uid) end.

Lemma VerifyUser_eq w rd token :
  redis_ (w_redis_ w) = Some rd → VerifyUser token w = (w, token_owner rd token).
Proof.
  intros Hr. unfold VerifyUser, token_owner, st_bind, GetRedis_w, GetRedis, st_res. rewrite Hr.
  destruct (redis_get rd _) as [[v|]| |]; cbn; [|done..]. by destruct (stoull v).
Qed.

(** A login that must be turned down: unreadable, or the token is not the user's. *)
Definition login_refused (rd : Rd) (msg : MsgNode) : Prop :=
  login_request msg = Ok None ∨
  ∃ token uid owner, login_request msg = Ok (Some (token, uid))
    ∧ token_owner rd token = Ok owner ∧ owner ≠ Some uid.

Lemma on_verify_cases w p s msg rd :
  objs w !! p = Some s → verified_ s = false → redis_ (w_redis_ w) = Some rd →
  (login_refused rd msg → on_verify host junk Json server_id p msg w = reject p w) ∧
  (∀ token uid, login_request msg = Ok (Some (token, uid)) → token_owner rd token = Ok (Some uid) →
     on_verify host junk Json server_id p msg w =
       (put_obj p (SetVerified s uid) ;; AddSession uid p ;; UpdateUserStatus server_id uid ;;
        SendString host junk p "Welcome to the chatroom!" (tag_value VERIFY_DONE))%cpp w).
Proof.
  intros Hp Hv Hr.
  assert (Hcut : ∀ r, login_request msg = Ok r →
    on_verify host junk Json server_id p msg w =
      match r with
      | None => reject p w
      | Some (token, uid) =>
          st_bind (VerifyUser token) (λ ans,
            if decide (ans = Some uid) then
              (put_obj p (SetVerified s uid) ;; AddSession uid p ;; UpdateUserStatus server_id uid ;;
               SendString host junk p "Welcome to the chatroom!" (tag_value VERIFY_DONE))%cpp
            else reject p) w
      end).
  { intros r H. unfold login_request in H. inv_res. unfold on_verify.
    rewrite (st_bind_Ok _ _ _ _ _ (get_obj_Ok w p s Hp)). unfold IsVerified. rewrite Hv.
    rewrite (st_bind_Ok _ _ w w a) by (unfold st_res; by rewrite Hm).
    rewrite (st_bind_Ok _ _ w w a0) by (unfold st_res; by rewrite Hm0).
    destruct (json_parse (string_of_bytes a0)) as [root|]; [|by inv_res].
    rewrite (st_bind_Ok _ _ w w r) by (unfold st_res; by rewrite Hk0). by destruct r as [[token uid]|]. }
  split.
  - intros [H|(token & uid & owner & H & Ho & Hne)]; rewrite (Hcut _ H); [done|].
    rewrite (st_bind_Ok _ _ w w owner) by (by rewrite (VerifyUser_eq w rd token Hr), Ho). by rewrite decide_False.
  - intros token uid H Ho. rewrite (Hcut _ H).
    rewrite (st_bind_Ok _ _ w w (Some uid)) by (by rewrite (VerifyUser_eq w rd token Hr), Ho). by rewrite decide_True.
Qed.
End handler.

(** Concrete Redis and JSON reader for witnesses: strings by key, hash fields by
    "key/field", and requests written as "token uid" with a one-digit user id. *)
#[export] Instance map_redis : RedisOps (gmap string string) := {
  redis_get rd k := Ok (rd !! k);
  redis_hget rd k f := Ok (rd !! (k +:+ "/" +:+ f));
  redis_hsetex rd k fs ttl :=
    Ok (kmap (λ f, k +:+ "/" +:+ f) fs ∪ rd, 1);
  redis_xadd rd k fs n := Ok (rd, "1-0");
  redis_pipeline rd cmds := Ok rd
}.

#[export] Instance demo_json : JsonReader string := {
  json_parse s := if decide (s = "") then None else Some s;
  as_token s := match s with String c _ => Ok (String c "") | _ => Throw (runtime_error "json") end;
  as_uid s := match s with
              | String _ (String _ t) => stoull t
              | _ => Throw (runtime_error "json")
              end
}.

(** A node as the receiving side posts it, with zeros behind the message. *)
Definition posted (tag : Z) (content : list Z) : MsgNode :=
  mkMsgNode (Some (frame tag content ++ replicate 8 0)) (Z.of_nat (8 + length content))
    (Z.of_nat (length content)) (Z.of_nat (16 + length content)).

(** Every refused login hangs the handler: the worker calls [Processor] while it holds
    [lck_], a refused session is closed there, and closing posts a message, which locks
    [lck_] again. *)
Theorem refused_login_relocks {Rd Json} `{!RedisOps Rd, !JsonReader Json} host junk order server_id
    (w : World Rd) p s msg q rd :
  h_running_ w = true → LHandler ∈ held w → q_ w = (Some p, Some msg) :: q →
  objs w !! p = Some s → verified_ s = false → down_ s = false → redis_ (w_redis_ w) = Some rd →
  GetTagField host msg = Ok (tag_value VERIFY) → login_refused (Json := Json) rd msg →
  (Worker host junk order Json server_id w).2 = UB relock.
Proof.
  intros Hrun Hh Hq Hp Hv Hd Hr Ht Href. unfold Worker.
  rewrite (st_bind_Ok _ _ w w true) by (unfold st_get; by rewrite Hrun). cbn [negb].
  rewrite (st_bind_Ok _ _ w w (q_ w)) by done. rewrite Hq.
  set (w1 := set_q w q). rewrite (st_bind_Ok _ _ w w1 tt) by done.
  assert (Hp1 : objs w1 !! p = Some s) by done.
  assert (Hc : (Processor host junk order Json server_id (Some p) (Some msg) w1).2 = UB relock).
  { rewrite (Processor_verify host junk order server_id w1 p s msg Hp1 Ht).
    rewrite (proj1 (on_verify_cases host junk server_id (touched w1 s) p s msg rd Hp1 Hv Hr) Href).
    unfold reject, st_bind. pose proof (Close_relock (touched w1 s) p s Hp1 Hd Hh) as Hc.
    destruct (Close p (touched w1 s)) as [w2 r2]. cbn [snd] in Hc. by subst r2. }
  unfold st_bind. destruct (Processor _ _ _ _ _ _ _ w1) as [w2 r2]. cbn [snd] in Hc. by subst r2.
Qed.

Lemma refused_login_relocks_witness :
  (Worker LITTLE_ENDIAN (λ _, 0) elements string "1"
     (set_held (set_q (demo_world (∅ : gmap string string) (demo_session 0 false))
        [(Some 5%nat, Some (posted 1 [97; 32; 55]))]) [LHandler])).2 = UB relock.
Proof.
  apply (refused_login_relocks (Json := string) LITTLE_ENDIAN (λ _, 0) elements "1" _ 5%nat (demo_session 0 false)
    (posted 1 [97; 32; 55]) [] (∅ : gmap string string)); try reflexivity.
  - apply list_elem_of_singleton. reflexivity.
  - right. exists "a", 7, None. split_and!; [vm_compute; reflexivity|reflexivity|done].
Defined.

(** The worker on a login request with the user's own token. *)
Lemma Worker_login {Rd Json} `{!RedisOps Rd, !JsonReader Json} host junk order server_id
    (w : World Rd) p s msg q rd rd' n token uid :
  h_running_ w = true → held w = [LHandler] → q_ w = (Some p, Some msg) :: q →
  objs w !! p = Some s → verified_ s = false → send_q_ s = [] → redis_ (w_redis_ w) = Some rd →
  GetTagField host msg = Ok (tag_value VERIFY) → login_request (Json := Json) msg = Ok (Some (token, uid)) →
  token_owner rd token = Ok (Some uid) →
  redis_hsetex rd (status_key uid) (<["server_id" := server_id]> (<["status" := "online"]> ∅)) 30 = Ok (rd', n) →
  ∃ w' s' m, Worker host junk order Json server_id w = (w', Ok WorkerBusy)
    ∧ q_ w' = q ∧ held w' = [LHandler]
    ∧ objs w' = <[p := s']> (objs w) ∧ verified_ s' = true ∧ user_id_ s' = uid
    ∧ temp_sess_ w' = temp_sess_ w ∖ {[p]} ∧ sess_ w' = emplaced (sess_ w) uid p
    ∧ w_redis_ w' = mkMgr (Some rd')
    ∧ writes w' = writes w ++ [(p, m)]
    ∧ write_bytes m = Ok (frame (tag_value VERIFY_DONE) (bytes_of_string "Welcome to the chatroom!")).
Proof.
  intros Hrun Hh Hq Hp Hv Hsq Hr Ht Hreq Hown Hset. unfold Worker.
  rewrite (st_bind_Ok _ _ w w true) by (unfold st_get; by rewrite Hrun). cbn [negb].
  rewrite (st_bind_Ok _ _ w w (q_ w)) by done. rewrite Hq.
  set (w1 := set_q w q). rewrite (st_bind_Ok _ _ w w1 tt) by done.
  set (w2 := touched w1 s).
  set (w3 := set_objs w2 (<[p := SetVerified s uid]> (objs w))).
  assert (Hfree : ∀ l, l ≠ LHandler → l ∉ held w3) by (intros l Hl; cbn; rewrite Hh; by intros ?%list_elem_of_singleton).
  destruct (AddSession_Ok w3 uid p) as [b Hadd]; [by apply Hfree..|].
  set (w4 := set_sess (set_temp w3 (temp_sess_ w ∖ {[p]})) (emplaced (sess_ w) uid p)) in *.
  set (w5 := set_redis w4 (mkMgr (Some rd'))).
  assert (Hupd : UpdateUserStatus server_id uid w4 = (w5, Ok (n =? 1))).
  { unfold UpdateUserStatus, st_bind, GetRedis_w, GetRedis, st_res, put_redis, st_mod, st_ret.
    change (w_redis_ w4) with (w_redis_ w). rewrite Hr, Hset. done. }
  set (m := mkMsgNode (Some (frame (tag_value VERIFY_DONE) (bytes_of_string "Welcome to the chatroom!"))) 0 24 32).
  assert (Hmsg : MsgNode_of host junk (bytes_of_string "Welcome to the chatroom!") 24 (tag_value VERIFY_DONE) = Ok m).
  { rewrite MsgNode_of_Ok; [done|apply bytes_of_string_byte|vm_compute; split; congruence|done|vm_compute; split; congruence]. }
  assert (Hp5 : objs w5 !! p = Some (SetVerified s uid)) by apply lookup_insert_eq.
  assert (Hsq5 : send_q_ (SetVerified s uid) = []) by (unfold SetVerified; by rewrite Hv).
  eexists _, (set_queue (SetVerified s uid) [] (Some m)), m. split.
  - rewrite (st_bind_Ok _ _ w1 (set_writes (set_objs w5 (<[p := set_queue (SetVerified s uid) [] (Some m)]> (objs w5)))
      (writes w5 ++ [(p, m)])) tt); [reflexivity|].
    rewrite (Processor_verify host junk order server_id w1 p s msg Hp Ht). fold w2.
    rewrite (proj2 (on_verify_cases host junk server_id w2 p s msg rd Hp Hv Hr) token uid Hreq Hown).
    rewrite (st_bind_Ok _ _ w2 w3 tt) by done. rewrite (st_bind_Ok _ _ w3 w4 b) by done.
    rewrite (st_bind_Ok _ _ w4 w5 (n =? 1)) by done.
    unfold SendString. change (u32 (Z.of_nat (String.length "Welcome to the chatroom!"))) with 24.
    rewrite (st_bind_Ok _ _ w5 w5 m) by (unfold st_res; by rewrite Hmsg). by apply SendNode_Ok.
  - cbn. rewrite insert_insert_eq. unfold SetVerified. rewrite Hv. cbn. split_and!; try done.
Qed.

(** A login with the user's own token succeeds: the session becomes verified under the
    user id, leaves the temporary list, is registered unless the user has a session
    already, Redis learns the user's server, and the welcome frame is the next write. *)
Theorem login_correct {Rd Json} `{!RedisOps Rd, !JsonReader Json} host junk order server_id
    (w : World Rd) p s msg q rd rd' n token uid :
  h_running_ w = true → held w = [LHandler] → q_ w = (Some p, Some msg) :: q →
  objs w !! p = Some s → verified_ s = false → send_q_ s = [] → redis_ (w_redis_ w) = Some rd →
  GetTagField host msg = Ok (tag_value VERIFY) → login_request (Json := Json) msg = Ok (Some (token, uid)) →
  token_owner rd token = Ok (Some uid) →
  redis_hsetex rd (status_key uid) (<["server_id" := server_id]> (<["status" := "online"]> ∅)) 30 = Ok (rd', n) →
  ∃ w' s' m, Worker host junk order Json server_id w = (w', Ok WorkerBusy)
    ∧ q_ w' = q ∧ held w' = [LHandler]
    ∧ objs w' = <[p := s']> (objs w) ∧ verified_ s' = true ∧ user_id_ s' = uid
    ∧ temp_sess_ w' = temp_sess_ w ∖ {[p]} ∧ sess_ w' = emplaced (sess_ w) uid p
    ∧ w_redis_ w' = mkMgr (Some rd')
    ∧ writes w' = writes w ++ [(p, m)]
    ∧ write_bytes m = Ok (frame (tag_value VERIFY_DONE) (bytes_of_string "Welcome to the chatroom!")).
Proof. intros. by eapply Worker_login. Qed.

Lemma login_correct_witness :
  let w := set_held (set_q (demo_world ({["token:a" := "7"]} : gmap string string) (demo_session 0 false))
        [(Some 5%nat, Some (posted 1 [97; 32; 55]))]) [LHandler] in
  ∃ w' s' m, Worker LITTLE_ENDIAN (λ _, 0) elements string "1" w = (w', Ok WorkerBusy)
    ∧ q_ w' = [] ∧ held w' = [LHandler]
    ∧ objs w' = <[5%nat := s']> (objs w) ∧ verified_ s' = true ∧ user_id_ s' = 7
    ∧ temp_sess_ w' = temp_sess_ w ∖ {[5%nat]} ∧ sess_ w' = emplaced (sess_ w) 7 5%nat
    ∧ w_redis_ w' = mkMgr (Some (kmap (λ f, "status:7/" +:+ f)
        (<["server_id" := "1"]> (<["status" := "online"]> ∅)) ∪ {["token:a" := "7"]}))
    ∧ writes w' = writes w ++ [(5%nat, m)]
    ∧ write_bytes m = Ok (frame (tag_value VERIFY_DONE) (bytes_of_string "Welcome to the chatroom!")).
Proof.
  cbn zeta.
  apply (login_correct (Json := string) LITTLE_ENDIAN (λ _, 0) elements "1" _ 5%nat (demo_session 0 false)
    (posted 1 [97; 32; 55]) [] ({["token:a" := "7"]} : gmap string string) _ 1 "a" 7);
    first [reflexivity | vm_compute; reflexivity].
Defined.

(** What a chat message from [from] looks like to its receiver. *)
Definition chat_frame (from : Z) (text : list Z) : list Z :=
  frame (tag_value CHAT_MSG_TOCLI) (be_bytes 8 from ++ text).

(** The handler on a chat message to a user of this server *)
Lemma Processor_local {Rd Json} `{!RedisOps Rd, !JsonReader Json} host junk order server_id
    (w : World Rd) p s msg target text tp ts :
  LSess ∉ held w → objs w !! p = Some s → verified_ s = true → is_u64 (user_id_ s) →
  node_holds host msg (tag_value CHAT_MSG, be_bytes 8 target ++ text) →
  is_u64 target → Z.of_nat (8 + length text) <= MAX_CTX_LEN →
  sess_ w !! target = Some tp → objs w !! tp = Some ts → send_q_ ts = [] →
  ∃ w' n, Processor host junk order Json server_id (Some p) (Some msg) w = (w', Ok tt)
    ∧ writes w' = writes w ++ [(tp, n)] ∧ write_bytes n = Ok (chat_frame (user_id_ s) text).
Proof.
  intros Hl Hp Hv Hu Hn Htg Hmax Hs Htp Hq.
  assert (Hlen : length (be_bytes 8 target ++ text) = (8 + length text)%nat) by (by rewrite length_app, length_be_bytes).
  destruct (node_holds_content host msg _ Hn) as (c & Hc & Hcb & Htk & Hcl). cbn [snd] in Htk, Hcl.
  assert (Hc8 : (8 <= length c)%nat) by (apply (f_equal length) in Htk; rewrite length_take, Hlen in Htk; lia).
  assert (Htk8 : take 8 c = be_bytes 8 target).
  { rewrite <- (Nat.min_l 8 (length (be_bytes 8 target ++ text))), <- take_take, Htk by (rewrite Hlen; lia).
    by rewrite take_app_length' by (by rewrite length_be_bytes). }
  destruct (local_chat_node host msg (be_bytes 8 target ++ text) (user_id_ s) (tag_value CHAT_MSG) Hn)
    as (m & b & b' & E1 & E2 & E3 & E4); [lia|done|done|by rewrite Hlen|].
  rewrite drop_app_length' in E4 by (by rewrite length_be_bytes).
  set (w1 := touched w s). eexists _, (set_data m b'). split.
  - rewrite (Processor_chat host junk order server_id w p s msg Hp) by (by destruct Hn as (_ & ? & _)). fold w1.
    unfold on_chat. rewrite (st_bind_Ok _ _ w1 w1 s) by (by apply get_obj_Ok). unfold IsVerified. rewrite Hv. cbn [negb].
    rewrite (st_bind_Ok _ _ w1 w1 c) by (unfold st_res; by rewrite Hc).
    rewrite (st_bind_Ok _ _ w1 w1 target)
      by (unfold st_res; rewrite ReadNetField64_Ok, drop_0, Htk8, be_value_bytes by (done || lia); done).
    rewrite (st_bind_Ok _ _ w1 w1 (Some tp)) by (rewrite GetSession_Ok by done; cbn; by rewrite Hs).
    rewrite (st_bind_Ok _ _ w1 w1 m) by (unfold st_res; by rewrite E1).
    rewrite (st_bind_Ok _ _ w1 w1 b) by (unfold st_res; by rewrite E2).
    rewrite (st_bind_Ok _ _ w1 w1 b') by (unfold st_res, GetUserId; by rewrite E3).
    by apply (SendNode_Ok w1 tp ts).
  - by split.
Qed.

(** Local delivery: a chat message from a verified user to a user with a session here is
    handed to that session's socket as the frame [sender | text], reusing the received
    buffer; the sender named in it is the session's own user. *)
Theorem chat_local_delivery {Rd Json} `{!RedisOps Rd, !JsonReader Json} host junk order server_id
    (w : World Rd) p s msg target text tp ts :
  LSess ∉ held w → objs w !! p = Some s → verified_ s = true → is_u64 (user_id_ s) →
  node_holds host msg (tag_value CHAT_MSG, be_bytes 8 target ++ text) →
  is_u64 target → Z.of_nat (8 + length text) <= MAX_CTX_LEN →
  sess_ w !! target = Some tp → objs w !! tp = Some ts → send_q_ ts = [] →
  ∃ w' n, Processor host junk order Json server_id (Some p) (Some msg) w = (w', Ok tt)
    ∧ writes w' = writes w ++ [(tp, n)] ∧ write_bytes n = Ok (chat_frame (user_id_ s) text).
Proof. intros. by eapply Processor_local. Qed.

Lemma posted_holds tag content :
  is_u32 tag → Forall is_byte content → Z.of_nat (length content) <= MAX_CTX_LEN →
  node_holds LITTLE_ENDIAN (posted tag content) (tag, content).
Proof.
  intros Ht Hb Hmax. unfold MAX_CTX_LEN in Hmax. pose proof (length_frame tag content) as Hfl.
  change (Z.to_nat HEAD_LEN) with 8%nat in Hfl.
  assert (Hall : Forall is_byte (frame tag content ++ replicate 8 0)).
  { rewrite Forall_app. split; [by apply frame_byte|]. apply Forall_replicate. unfold is_byte. lia. }
  assert (Hlen : length (frame tag content ++ replicate 8 0) = (16 + length content)%nat)
    by (rewrite length_app, length_replicate; lia).
  split_and!; cbn [fst snd].
  - apply node_wf_mk; unfold is_u32; try lia. done.
  - rewrite (GetTagField_Ok _ _ (frame tag content ++ replicate 8 0)) by (done || lia). f_equal.
    rewrite take_app_le by lia. by apply frame_tag.
  - done.
  - exists (frame tag content ++ replicate 8 0). split; [done|]. change (Z.to_nat HEAD_LEN) with 8%nat.
    by rewrite take_app_length' by lia.
Qed.

Lemma chat_local_delivery_witness :
  let w := demo_world (∅ : gmap string string) (demo_session 7 true) in
  ∃ w' n, Processor LITTLE_ENDIAN (λ _, 0) elements string "1" (Some 5%nat)
      (Some (posted (tag_value CHAT_MSG) (be_bytes 8 7 ++ [72; 105]))) w = (w', Ok tt)
    ∧ writes w' = writes w ++ [(5%nat, n)] ∧ write_bytes n = Ok (chat_frame 7 [72; 105]).
Proof.
  apply (chat_local_delivery (Json := string) LITTLE_ENDIAN (λ _, 0) elements "1"
    (demo_world (∅ : gmap string string) (demo_session 7 true)) 5%nat (demo_session 7 true)
    (posted (tag_value CHAT_MSG) (be_bytes 8 7 ++ [72; 105])) 7 [72; 105] 5%nat (demo_session 7 true));
    try reflexivity; try (by vm_compute; split; congruence).
  - apply not_elem_of_nil.
  - apply posted_holds; [by vm_compute; split; congruence| |by vm_compute].
    apply Forall_app. split; [apply be_bytes_byte|]. constructor; [|constructor; [|constructor]]; unfold is_byte; lia.
  - vm_compute. congruence.
Defined.

(** The fields of a message queue item. *)
Definition mq_fields (from to : Z) (content : string) : list (string * string) :=
  [("from", to_string from); ("to", to_string to); ("content", content)].

(** [MessageHandler] on an item with these fields. *)
Lemma MessageHandler_Ok {Rd} host junk (w : World Rd) from to text tp ts :
  LSess ∉ held w → is_u64 from → is_u64 to → Forall is_byte text → Z.of_nat (length text) <= MAX_CTX_LEN →
  sess_ w !! to = Some tp → objs w !! tp = Some ts → send_q_ ts = [] →
  ∃ w' n, MessageHandler host junk (Some (list_to_map (mq_fields from to (string_of_bytes text)))) w = (w', Ok tt)
    ∧ writes w' = writes w ++ [(tp, n)] ∧ write_bytes n = Ok (chat_frame from text).
Proof.
  intros Hl Hf Ht Hb Hmax Hs Htp Hq. destruct (mq_node_Ok host junk from text Hf Hb Hmax) as (m & Em & Hw).
  eexists _, m. split.
  - unfold MessageHandler.
    rewrite (st_bind_Ok _ _ w w (to_string from)) by done.
    rewrite (st_bind_Ok _ _ w w from) by (unfold st_res; by rewrite stoull_to_string).
    rewrite (st_bind_Ok _ _ w w (to_string to)) by done.
    rewrite (st_bind_Ok _ _ w w to) by (unfold st_res; by rewrite stoull_to_string).
    rewrite (st_bind_Ok _ _ w w (string_of_bytes text)) by done.
    rewrite (st_bind_Ok _ _ w w m) by (unfold st_res; by rewrite bytes_of_string_of_bytes, Em).
    rewrite (st_bind_Ok _ _ w w (Some tp)) by (rewrite GetSession_Ok by done; by rewrite Hs).
    by apply (SendNode_Ok w tp ts).
  - by split.
Qed.

(** The handler on a chat message to a user of another server, and that server's handler on
    the item *)
Lemma Processor_remote {Rd Json} `{!RedisOps Rd, !JsonReader Json} host junk order server_id
    (w : World Rd) p s msg target text sid rd rd' mid :
  LSess ∉ held w → objs w !! p = Some s → verified_ s = true → is_u64 (user_id_ s) →
  node_holds host msg (tag_value CHAT_MSG, be_bytes 8 target ++ text) →
  is_u64 target → Forall is_byte text → Z.of_nat (8 + length text) <= MAX_CTX_LEN →
  sess_ w !! target = None → redis_ (w_redis_ w) = Some rd →
  redis_hget rd (status_key target) "server_id" = Ok (Some sid) →
  redis_xadd rd (mq_key sid) (mq_fields (user_id_ s) target (string_of_bytes text)) 1000 = Ok (rd', mid) →
  (∃ w', Processor host junk order Json server_id (Some p) (Some msg) w = (w', Ok tt)
     ∧ w_redis_ w' = mkMgr (Some rd') ∧ writes w' = writes w) ∧
  ∀ (w2 : World Rd) tp ts, LSess ∉ held w2 → sess_ w2 !! target = Some tp → objs w2 !! tp = Some ts → send_q_ ts = [] →
    ∃ w2' n, MessageHandler host junk
        (Some (list_to_map (mq_fields (user_id_ s) target (string_of_bytes text)))) w2 = (w2', Ok tt)
      ∧ writes w2' = writes w2 ++ [(tp, n)] ∧ write_bytes n = Ok (chat_frame (user_id_ s) text).
Proof.
  intros Hl Hp Hv Hu Hn Htg Htb Hmax Hs Hr Hget Hadd. split.
  2: { intros w2 tp ts ????. apply MessageHandler_Ok with ts; try done. lia. }
  assert (Hlen : length (be_bytes 8 target ++ text) = (8 + length text)%nat) by (by rewrite length_app, length_be_bytes).
  destruct (node_holds_content host msg _ Hn) as (c & Hc & Hcb & Htk & Hcl). cbn [snd] in Htk, Hcl.
  rewrite Hlen in Htk, Hcl.
  assert (Hc8 : (8 + length text <= length c)%nat) by (apply (f_equal length) in Htk; rewrite length_take, Hlen in Htk; lia).
  assert (Htk8 : take 8 c = be_bytes 8 target).
  { rewrite <- (Nat.min_l 8 (8 + length text)), <- take_take, Htk by lia.
    by rewrite take_app_length' by (by rewrite length_be_bytes). }
  assert (Htail : take (length text) (drop 8 c) = text).
  { rewrite take_drop_commute, Htk. by rewrite drop_app_length' by (by rewrite length_be_bytes). }
  set (w1 := touched w s). eexists. split.
  - rewrite (Processor_chat host junk order server_id w p s msg Hp) by (by destruct Hn as (_ & ? & _)). fold w1.
    unfold on_chat. rewrite (st_bind_Ok _ _ w1 w1 s) by (by apply get_obj_Ok). unfold IsVerified. rewrite Hv. cbn [negb].
    rewrite (st_bind_Ok _ _ w1 w1 c) by (unfold st_res; by rewrite Hc).
    rewrite (st_bind_Ok _ _ w1 w1 target)
      by (unfold st_res; rewrite ReadNetField64_Ok, drop_0, Htk8, be_value_bytes by (done || lia); done).
    rewrite (st_bind_Ok _ _ w1 w1 None) by (rewrite GetSession_Ok by done; cbn; by rewrite Hs).
    rewrite (st_bind_Ok _ _ w1 w1 (Some sid))
      by (unfold GetUserLocation, st_bind, GetRedis_w, GetRedis, st_res; cbn; by rewrite Hr, Hget).
    rewrite (st_bind_Ok _ _ w1 w1 text).
    2: { unfold st_res, content_tail. rewrite Hcl. rewrite (proj2 (Z.ltb_ge (Z.of_nat (8 + length text)) 8)) by lia.
         rewrite memcpy_from_Ok by lia. replace (Z.to_nat (Z.of_nat (8 + length text) - 8)) with (length text) by lia.
         by rewrite Htail. }
    rewrite (st_bind_Ok _ _ w1 (set_redis w1 (mkMgr (Some rd'))) mid); [reflexivity|].
    unfold SendToMsgQueue, st_bind, GetRedis_w, GetRedis, st_res, put_redis, st_mod, st_ret, GetUserId.
    change (w_redis_ w1) with (w_redis_ w). unfold mq_fields in Hadd. by rewrite Hr, Hadd.
  - done.
Qed.

(** Remote delivery: when the receiver is on another server, the message goes to that
    server's stream with sender, receiver and text; the item, read back by that server's
    queue handler, makes it hand the receiver's socket the same bytes as a local delivery
    would (the decimal user ids survive the way). *)
Theorem chat_remote_delivery {Rd Json} `{!RedisOps Rd, !JsonReader Json} host junk order server_id
    (w : World Rd) p s msg target text sid rd rd' mid :
  LSess ∉ held w → objs w !! p = Some s → verified_ s = true → is_u64 (user_id_ s) →
  node_holds host msg (tag_value CHAT_MSG, be_bytes 8 target ++ text) →
  is_u64 target → Forall is_byte text → Z.of_nat (8 + length text) <= MAX_CTX_LEN →
  sess_ w !! target = None → redis_ (w_redis_ w) = Some rd →
  redis_hget rd (status_key target) "server_id" = Ok (Some sid) →
  redis_xadd rd (mq_key sid) (mq_fields (user_id_ s) target (string_of_bytes text)) 1000 = Ok (rd', mid) →
  (∃ w', Processor host junk order Json server_id (Some p) (Some msg) w = (w', Ok tt)
     ∧ w_redis_ w' = mkMgr (Some rd') ∧ writes w' = writes w) ∧
  ∀ (w2 : World Rd) tp ts, LSess ∉ held w2 → sess_ w2 !! target = Some tp → objs w2 !! tp = Some ts → send_q_ ts = [] →
    ∃ w2' n, MessageHandler host junk
        (Some (list_to_map (mq_fields (user_id_ s) target (string_of_bytes text)))) w2 = (w2', Ok tt)
      ∧ writes w2' = writes w2 ++ [(tp, n)] ∧ write_bytes n = Ok (chat_frame (user_id_ s) text).
Proof. intros. by eapply Processor_remote. Qed.

Lemma chat_remote_delivery_witness :
  let s := demo_session 7 true in
  let rd := {["status:9/server_id" := "2"]} : gmap string string in
  let w := demo_world rd s in
  (∃ w', Processor LITTLE_ENDIAN (λ _, 0) elements string "1" (Some 5%nat)
      (Some (posted (tag_value CHAT_MSG) (be_bytes 8 9 ++ [72; 105]))) w = (w', Ok tt)
     ∧ w_redis_ w' = mkMgr (Some rd) ∧ writes w' = writes w) ∧
  ∀ (w2 : World (gmap string string)) tp ts, LSess ∉ held w2 → sess_ w2 !! 9 = Some tp → objs w2 !! tp = Some ts → send_q_ ts = [] →
    ∃ w2' n, MessageHandler LITTLE_ENDIAN (λ _, 0) (Some (list_to_map (mq_fields 7 9 (string_of_bytes [72; 105])))) w2 = (w2', Ok tt)
      ∧ writes w2' = writes w2 ++ [(tp, n)] ∧ write_bytes n = Ok (chat_frame 7 [72; 105]).
Proof.
  assert (Htext : Forall is_byte [72; 105]) by (constructor; [|constructor; [|constructor]]; unfold is_byte; lia).
  apply (chat_remote_delivery (Json := string) LITTLE_ENDIAN (λ _, 0) elements "1"
    (demo_world ({["status:9/server_id" := "2"]} : gmap string string) (demo_session 7 true)) 5%nat (demo_session 7 true)
    (posted (tag_value CHAT_MSG) (be_bytes 8 9 ++ [72; 105])) 9 [72; 105] "2"
    {["status:9/server_id" := "2"]} {["status:9/server_id" := "2"]} "1-0");
    try reflexivity; try (by vm_compute; split; congruence); try done.
  - apply not_elem_of_nil.
  - apply posted_holds; [by vm_compute; split; congruence| |by vm_compute].
    apply Forall_app. split; [apply be_bytes_byte|done].
Defined.

(** A chat message whose content is shorter than the eight bytes of the receiver's id is
    not rejected: the id is read from whatever lies in the buffer, and if that number is a
    user of another server, the text is taken from a range that ends before it starts. *)
Theorem short_chat_UB {Rd Json} `{!RedisOps Rd, !JsonReader Json} host junk order server_id
    (w : World Rd) p s msg c target sid rd :
  LSess ∉ held w → objs w !! p = Some s → verified_ s = true →
  GetTagField host msg = Ok (tag_value CHAT_MSG) → GetContentLen msg < 8 →
  GetContent msg = Ok c → ReadNetField64 host c 0 = Ok target →
  sess_ w !! target = None → redis_ (w_redis_ w) = Some rd →
  redis_hget rd (status_key target) "server_id" = Ok (Some sid) →
  (Processor host junk order Json server_id (Some p) (Some msg) w).2 = UB out_of_bounds.
Proof.
  intros Hl Hp Hv Ht Hlen Hc Hrd Hs Hr Hget. rewrite (Processor_chat host junk order server_id w p s msg Hp Ht).
  set (w1 := touched w s).
  unfold on_chat. rewrite (st_bind_Ok _ _ w1 w1 s) by (by apply get_obj_Ok). unfold IsVerified. rewrite Hv. cbn [negb].
  rewrite (st_bind_Ok _ _ w1 w1 c) by (unfold st_res; by rewrite Hc).
  rewrite (st_bind_Ok _ _ w1 w1 target) by (unfold st_res; by rewrite Hrd).
  rewrite (st_bind_Ok _ _ w1 w1 None) by (rewrite GetSession_Ok by done; cbn; by rewrite Hs).
  rewrite (st_bind_Ok _ _ w1 w1 (Some sid))
    by (unfold GetUserLocation, st_bind, GetRedis_w, GetRedis, st_res; cbn; by rewrite Hr, Hget).
  unfold st_bind, st_res, content_tail. by rewrite (proj2 (Z.ltb_lt (GetContentLen msg) 8)).
Qed.

Lemma short_chat_UB_witness :
  (Processor LITTLE_ENDIAN (λ _, 0) elements string "1" (Some 5%nat)
     (Some (posted (tag_value CHAT_MSG) [0]))
     (demo_world ({["status:0/server_id" := "2"]} : gmap string string) (demo_session 7 true))).2 = UB out_of_bounds.
Proof.
  apply (short_chat_UB (Json := string) LITTLE_ENDIAN (λ _, 0) elements "1"
    (demo_world ({["status:0/server_id" := "2"]} : gmap string string) (demo_session 7 true)) 5%nat (demo_session 7 true)
    (posted (tag_value CHAT_MSG) [0]) (0 :: replicate 8 0) 0 "2" {["status:0/server_id" := "2"]});
    try reflexivity; try (by vm_compute).
  apply not_elem_of_nil.
Defined.
