(* ===== verification/Registry.v ===== *)
(** * The registry of verified sessions

    Whatever the threads of a backend do, an entry of the session manager leads to a
    session that was verified for exactly that user.  The invariant is shown for every
    event of the process and for every outcome of it (return, exception, undefined
    behaviour), with a small logic of programs that keep it. *)

From S2P Require Import Prelude Preserve Decimal FieldOp MsgNode Session RedisBase Timer Backend BackendFacts.

Definition registry_ok {Rd} (w : World Rd) : Prop :=
  ∀ uid p, sess_ w !! uid = Some p →
    ∃ s, objs w !! p = Some s ∧ verified_ s = true ∧ user_id_ s = uid.

(** A session that stays itself: verification is not undone. *)
Definition same_user (s s' : Session) : Prop :=
  verified_ s = true → verified_ s' = true ∧ user_id_ s' = user_id_ s.

Section keeps.
Context {Rd : Type}.

Abbreviation keeps := (preserves (@registry_ok Rd)).

Lemma keeps_mod (f : World Rd → World Rd) :
  (∀ w, objs (f w) = objs w) → (∀ w, sess_ (f w) = sess_ w) → keeps (st_mod f).
Proof. intros Ho Hs w Hw uid p. cbn. rewrite Ho, Hs. apply Hw. Qed.

Lemma keeps_lock l : keeps (lock l).
Proof. intros w Hw. unfold lock. by destruct (decide _). Qed.

Lemma keeps_unlock l : keeps (unlock l).
Proof. by intros w Hw. Qed.

(** Writing back a session that is still the same user's. *)
Lemma put_obj_keeps p s s' (w : World Rd) :
  objs w !! p = Some s → same_user s s' → registry_ok w → registry_ok (put_obj p s' w).1.
Proof.
  intros Hp Hs Hw uid q Hq. cbn in *. destruct (Hw uid q Hq) as (sq & Eq & Hv & Hu).
  destruct (decide (q = p)) as [->|]; [|exists sq; by rewrite lookup_insert_ne].
  simplify_eq. destruct (Hs Hv) as [? ?]. exists s'. by rewrite lookup_insert_eq.
Qed.

Lemma keeps_get_obj {A} p (k : Session → st (World Rd) A) :
  (∀ s w, objs w !! p = Some s → registry_ok w → registry_ok (k s w).1) → keeps (st_bind (get_obj p) k).
Proof.
  intros Hk w Hw. unfold st_bind, get_obj. destruct (objs w !! p) as [s|] eqn:E; [by apply Hk|done].
Qed.

(** Reading a session and continuing after writing it back. *)
Lemma keeps_update {A} p (f : Session → Session) (k : Session → st (World Rd) A) :
  (∀ s, same_user s (f s)) → (∀ s, keeps (k s)) →
  keeps (st_bind (get_obj p) (λ s, st_bind (put_obj p (f s)) (λ _, k s))).
Proof.
  intros Hf Hk. apply keeps_get_obj. intros s w Hp Hw. unfold st_bind at 1.
  pose proof (put_obj_keeps p s (f s) w Hp (Hf s) Hw) as H. apply Hk. exact H.
Qed.
End keeps.

#[export] Hint Resolve keeps_lock keeps_unlock : keeps.

(** Also steps that touch neither the sessions nor the registry *)
Ltac keep_registry := repeat (first [progress keep | apply keeps_mod; done]).

(** ** Sessions keep their user *)

Lemma same_user_refl s : same_user s s.
Proof. done. Qed.

Lemma Close_same_user h g s : same_user s (Session.Close h g s).1.
Proof. unfold Session.Close. by destruct (down_ s). Qed.

Lemma Send_node_same_user s m : same_user s (Send_node s m).1.
Proof. unfold Send_node, enqueue, QueueSend, queue_pop. by destruct (send_q_ s). Qed.

(** Receiving changes neither the user nor what is to be sent. *)
Lemma recv_step_kept host junk h g s r s' out :
  recv_step host junk h g s r = Ok (s', out) →
  user_id_ s' = user_id_ s ∧ verified_ s' = verified_ s ∧ send_q_ s' = send_q_ s.
Proof.
  intros H. unfold recv_step in H. destruct (reading_ s); [by inv_res|..].
  - unfold head_cb in H. destruct r as [bs| |].
    + inv_res. cbn [down_ set_recv set_reading] in Hk. destruct (down_ s) eqn:Hd; [by inv_res|].
      destruct (_ <=? _); [|by inv_res]. inv_res. destruct a0 as [len m].
      destruct (_ <? _); inv_res; [|done]. unfold Session.Close in *. cbn in H. rewrite Hd in H. by simplify_eq.
    + inv_res. unfold Session.Close in *. cbn in H. by destruct (down_ s); simplify_eq.
    + inv_res. unfold Session.Close in *. cbn in H. by destruct (down_ s); simplify_eq.
  - unfold content_cb in H. destruct r as [bs| |].
    + inv_res. cbn [down_ set_recv set_reading] in Hk. destruct (down_ s) eqn:Hd; [by inv_res|].
      destruct (_ <=? _); [|by inv_res]. inv_res. unfold ReceiveHandler, Session.Close in Hk0.
      destruct h; cbn in Hk0; rewrite ?Hd in Hk0; by inv_res.
    + inv_res. unfold Session.Close in *. cbn in H. by destruct (down_ s); simplify_eq.
    + inv_res. unfold Session.Close in *. cbn in H. by destruct (down_ s); simplify_eq.
Qed.

Lemma recv_step_same_user host junk h g s r s' out :
  recv_step host junk h g s r = Ok (s', out) → same_user s s'.
Proof. intros H. destruct (recv_step_kept _ _ _ _ _ _ _ _ H) as (Hu & Hv & _). intros ?. split; congruence. Qed.

(** ** The programs of the backend *)

Section programs.
Context {Rd Json : Type} `{!RedisOps Rd, !JsonReader Json}.
Context (host : byte_order) (junk : nat → Z) (order : gset Z → list Z) (server_id : string).

Abbreviation keeps := (preserves (@registry_ok Rd)).

Lemma keeps_PostMessage s m : keeps (PostMessage s m).
Proof. unfold PostMessage. keep_registry. Qed.

Lemma keeps_RemoveTempSession p : keeps (RemoveTempSession p).
Proof. unfold RemoveTempSession. keep_registry. Qed.

Lemma keeps_AddTempSession p : keeps (AddTempSession p).
Proof. unfold AddTempSession. keep_registry. Qed.

Lemma keeps_GetSession uid : keeps (GetSession uid).
Proof. unfold GetSession. keep_registry. Qed.

Lemma keeps_erase uid : keeps (st_mod (λ w, set_sess w (delete uid (sess_ w)))).
Proof. intros w Hw uid' p H. cbn in *. apply lookup_delete_Some in H as [_ Hp]. by apply Hw. Qed.

Hint Resolve keeps_PostMessage keeps_RemoveTempSession keeps_AddTempSession keeps_GetSession keeps_erase : keeps.

Lemma keeps_RemoveSession uid : keeps (RemoveSession uid).
Proof. unfold RemoveSession. keep_registry. Qed.

Hint Resolve keeps_RemoveSession : keeps.

Lemma keeps_run_outs p os : keeps (run_outs p os).
Proof. induction os as [|o os IH]; cbn [run_outs]; [keep_registry|]. unfold run_out. keep_registry. Qed.

Hint Resolve keeps_run_outs : keeps.

Lemma keeps_Close p : keeps (Close p).
Proof.
  unfold Close. apply keeps_get_obj. intros s w Hp Hw.
  pose proof (Close_same_user true true s) as Hs. destruct (Session.Close true true s) as [s' outs].
  unfold st_bind. apply keeps_run_outs. by apply (put_obj_keeps p s).
Qed.

Lemma keeps_SendNode p m : keeps (SendNode p m).
Proof.
  unfold SendNode. apply keeps_get_obj. intros s w Hp Hw.
  pose proof (Send_node_same_user s m) as Hs. destruct (Send_node s m) as [s' wr].
  unfold st_bind. assert (Hk : keeps (start_write p wr)) by (unfold start_write; keep_registry).
  apply Hk. by apply (put_obj_keeps p s).
Qed.

Hint Resolve keeps_Close keeps_SendNode : keeps.

Lemma keeps_StopSession uid : keeps (StopSession uid).
Proof. unfold StopSession. keep_registry. Qed.

Lemma keeps_on_read p r : keeps (on_read host junk p r).
Proof.
  unfold on_read. apply keeps_get_obj. intros s w Hp Hw. unfold st_bind, st_res.
  destruct (recv_step host junk true true s r) as [[s' out]| |] eqn:E; [|done..].
  apply keeps_run_outs. apply (put_obj_keeps p s); [done| |done]. by eapply recv_step_same_user.
Qed.

(** A new session has no entry yet. *)
Lemma on_accept_keeps p (w : World Rd) :
  objs w !! p = None → registry_ok w → registry_ok (on_accept junk p w).1.
Proof.
  intros Hn Hw. unfold on_accept. unfold st_bind at 1.
  assert (Hw1 : registry_ok (put_obj p (Session_new junk) w).1).
  { intros uid q Hq. destruct (Hw uid q Hq) as (s & Hs & ?). exists s. cbn.
    rewrite lookup_insert_ne; [done|congruence]. }
  cbn [put_obj st_mod fst] in *. revert Hw1. generalize (set_objs w (<[p := Session_new junk]> (objs w))).
  intros w1. revert w1. apply preserves_bind; [keep_registry|]. intros _. apply keeps_get_obj. intros s w2 Hp Hw2.
  by apply (put_obj_keeps p s).
Qed.

(** Registering a session is allowed for its own verified user only. *)
Lemma AddSession_keeps uid p s (w : World Rd) :
  objs w !! p = Some s → verified_ s = true → user_id_ s = uid →
  registry_ok w → registry_ok (AddSession uid p w).1 ∧ objs (AddSession uid p w).1 = objs w.
Proof.
  intros Hp Hv Hu Hw. unfold AddSession, st_bind, lock, unlock, st_mod, st_get, st_ret.
  destruct (decide (LSess ∈ held w)); [done|]. cbn.
  destruct (decide (LTemp ∈ LSess :: held w)); [done|]. cbn.
  destruct (negb _); cbn; [|done]. split; [|done]. intros uid' q Hq. cbn in *.
  destruct (decide (uid' = uid)) as [->|].
  - rewrite lookup_insert_eq in Hq. simplify_eq. eauto.
  - rewrite lookup_insert_ne in Hq by done. by apply Hw.
Qed.

Lemma keeps_redis : keeps GetRedis_w.
Proof. by intros w Hw. Qed.

Lemma keeps_put_redis rd : keeps (put_redis rd).
Proof. unfold put_redis. keep_registry. Qed.

Hint Resolve keeps_redis keeps_put_redis : keeps.

Lemma keeps_VerifyUser token : keeps (VerifyUser token).
Proof. unfold VerifyUser. keep_registry. Qed.

Lemma keeps_UpdateUserStatus sid uid : keeps (UpdateUserStatus sid uid).
Proof. unfold UpdateUserStatus. keep_registry. Qed.

Lemma keeps_GetUserLocation uid : keeps (GetUserLocation uid).
Proof. unfold GetUserLocation. keep_registry. Qed.

Lemma keeps_SendToMsgQueue sid a b c : keeps (SendToMsgQueue sid a b c).
Proof. unfold SendToMsgQueue. keep_registry. Qed.

Lemma keeps_SendString p m t : keeps (SendString host junk p m t).
Proof. unfold SendString. keep_registry. Qed.

Lemma keeps_uploader_UpdateNow : keeps (uploader_UpdateNow order).
Proof. intros w Hw. unfold uploader_UpdateNow. destruct (Timer.UpdateNow _ _ _) as [[u m] r]. done. Qed.

Hint Resolve keeps_VerifyUser keeps_UpdateUserStatus keeps_GetUserLocation keeps_SendToMsgQueue
  keeps_SendString keeps_uploader_UpdateNow : keeps.

Lemma keeps_reject p : keeps (reject p).
Proof. unfold reject. keep_registry. Qed.

Hint Resolve keeps_reject : keeps.

(** The part of a login after the token was accepted. *)
Lemma verified_keeps p s uid (w : World Rd) :
  objs w !! p = Some s → verified_ s = false → registry_ok w →
  registry_ok ((put_obj p (SetVerified s uid) ;; AddSession uid p ;; UpdateUserStatus server_id uid ;;
    SendString host junk p "Welcome to the chatroom!" (tag_value VERIFY_DONE))%cpp w).1.
Proof.
  intros Hp Hv Hw. unfold st_bind at 1.
  assert (Hw1 : registry_ok (put_obj p (SetVerified s uid) w).1)
    by (apply (put_obj_keeps p s); [done| |done]; intros H; congruence).
  set (w1 := (put_obj p (SetVerified s uid) w).1) in *. change (put_obj _ _ w) with (w1, Ok tt). cbn iota.
  destruct (AddSession_keeps uid p (SetVerified s uid) w1) as [Hw2 _];
    [apply lookup_insert_eq|unfold SetVerified; by rewrite Hv..|done|].
  unfold st_bind at 1. destruct (AddSession uid p w1) as [w2 [b| |]]; cbn [fst] in Hw2; [|done..].
  revert Hw2. generalize w2. apply preserves_bind; auto with keeps.
Qed.

(** Reads the session and nothing else changes until [k] runs. *)
Lemma keeps_on_verify p msg : keeps (on_verify host junk Json server_id p msg).
Proof.
  unfold on_verify. apply keeps_get_obj. intros s w Hp Hw. unfold IsVerified.
  destruct (verified_ s) eqn:Hv; [done|]. unfold st_bind, st_res.
  destruct (GetContent msg) as [content| |]; [|done..].
  destruct (c_string content) as [text| |]; [|done..].
  destruct (json_parse _) as [root|]; [|by apply keeps_reject].
  destruct (read_request Json root) as [[[token uid]|]| |]; [|by apply keeps_reject|done..].
  assert (Hvw : objs (VerifyUser token w).1 = objs w).
  { unfold VerifyUser, st_bind, GetRedis_w, st_res. destruct (GetRedis _); [|done..].
    destruct (redis_get _ _) as [[v|]| |]; [|done..]. by destruct (stoull v). }
  pose proof (keeps_VerifyUser token w Hw) as Hw1.
  destruct (VerifyUser token w) as [w1 [ans| |]]; cbn [fst] in *; [|done..].
  destruct (decide _); [|by apply keeps_reject].
  apply (verified_keeps p s uid w1); [by rewrite Hvw|done|done].
Qed.

(** The receiver of a local chat message is looked up in the registry. *)
Lemma keeps_on_chat p msg : keeps (on_chat host p msg).
Proof.
  unfold on_chat. apply keeps_get_obj. intros s w Hp. revert w Hp.
  assert (H : keeps (if negb (IsVerified s) then st_ret tt else
    content <- st_res (GetContent msg) ;;
    target_uid <- st_res (ReadNetField64 host content 0) ;;
    target_sess <- GetSession target_uid ;;
    match target_sess with
    | None =>
        sid <- GetUserLocation target_uid ;;
        match sid with
        | Some sid =>
            tail <- st_res (content_tail content (GetContentLen msg)) ;;
            SendToMsgQueue sid (GetUserId s) target_uid (string_of_bytes tail) ;;
            st_ret tt
        | None => st_ret tt
        end
    | Some tp =>
        m <- st_res (SetTagField host (ResetCurPos msg) (tag_value CHAT_MSG_TOCLI)) ;;
        b <- st_res (block m) ;;
        b <- st_res (WriteNetField64 host b (Z.to_nat HEAD_LEN) (GetUserId s)) ;;
        SendNode tp (set_data m b)
    end)%cpp) by keep_registry.
  intros w _ Hw. by apply H.
Qed.

Hint Resolve keeps_on_verify keeps_on_chat : keeps.

Lemma keeps_Processor sess msg : keeps (Processor host junk order Json server_id sess msg).
Proof.
  unfold Processor. destruct sess as [p|]; [|keep_registry].
  assert (Hg : keeps (get_obj p)) by (intros w Hw; unfold get_obj; by destruct (objs w !! p)).
  unfold uploader_RemoveSession, uploader_AddSession. apply preserves_bind; [done|]. intros s. keep_registry.
Qed.

Hint Resolve keeps_Processor : keeps.

Lemma keeps_Worker : keeps (Worker host junk order Json server_id).
Proof. unfold Worker. keep_registry. Qed.

Lemma keeps_MessageHandler item : keeps (MessageHandler host junk item).
Proof. unfold MessageHandler. keep_registry. Qed.

Lemma keeps_CtrlMsgHandler item : keeps (CtrlMsgHandler item).
Proof. unfold CtrlMsgHandler. keep_registry. Qed.

Hint Resolve keeps_MessageHandler keeps_CtrlMsgHandler : keeps.

Lemma keeps_for_each {A} (f : A → st (World Rd) unit) l : (∀ x, keeps (f x)) → keeps (for_each f l).
Proof. intros Hf. induction l as [|x l IH]; cbn [for_each]; [keep_registry|]. apply preserves_bind; auto. Qed.

Lemma keeps_MQ_dispatch stms : keeps (MQ_dispatch host junk server_id stms).
Proof. unfold MQ_dispatch. apply keeps_for_each. intros stm. keep_registry; apply keeps_for_each; auto with keeps. Qed.
End programs.

(** ** Runs of a backend process *)

Inductive backend_ev :=
  | EvAccept (p : nat)                     (* a connection; the session lives at p *)
  | EvRead (p : nat) (r : read_result)     (* a read of session p completes *)
  | EvWorker                               (* one round of the message handler *)
  | EvQueue (stms : list (string * list (option (gmap string string))))
  | EvStop (uid : Z)
  | EvClose (p : nat).

Section runs.
Context {Rd : Type} (Json : Type) `{!RedisOps Rd, !JsonReader Json}.
Context (host : byte_order) (junk : nat → Z) (order : gset Z → list Z) (server_id : string).

(** Each event runs on a thread of its own; the handler's thread enters with its lock. *)
Definition run_event (e : backend_ev) (w : World Rd) : World Rd :=
  match e with
  | EvAccept p => (on_accept junk p (set_held w [])).1
  | EvRead p r => (on_read host junk p r (set_held w [])).1
  | EvWorker => (Worker host junk order Json server_id (set_held w [LHandler])).1
  | EvQueue stms => (MQ_dispatch host junk server_id stms (set_held w [])).1
  | EvStop uid => (StopSession uid (set_held w [])).1
  | EvClose p => (Close p (set_held w [])).1
  end.

Definition event_ok (e : backend_ev) (w : World Rd) : Prop :=
  match e with EvAccept p => objs w !! p = None | _ => True end.

(** The process after its construction: no session. *)
Definition world_init (rd : Rd) : World Rd :=
  mkWorld ∅ ∅ ∅ [] true [] (OnlineStatusUploader_new 10) (mkMgr (Some rd)) [].

Inductive backend_reach : World Rd → Prop :=
  | backend_init rd : backend_reach (world_init rd)
  | backend_next e w : backend_reach w → event_ok e w → backend_reach (run_event e w).

Lemma run_event_keeps e w : event_ok e w → registry_ok w → registry_ok (run_event e w).
Proof.
  intros Hok Hw. destruct e as [p|p r| |stms|uid|p]; cbn [run_event].
  - by apply on_accept_keeps.
  - by apply keeps_on_read.
  - by apply keeps_Worker.
  - by apply keeps_MQ_dispatch.
  - by apply keeps_StopSession.
  - by apply keeps_Close.
Qed.
End runs.

(** C10. Only authenticated sessions are reachable by user id: in every run of a backend
    (connections, reads, rounds of the handler, queue items, stops and closes in any
    order, whatever Redis and the JSON reader answer, and also after a call that threw or
    went wrong), an entry [uid -> p] of the session manager leads to an existing session
    that was verified for exactly that [uid]. *)
Theorem registry_invariant {Rd} Json `{!RedisOps Rd, !JsonReader Json} host junk order server_id (w : World Rd) :
  backend_reach Json host junk order server_id w →
  ∀ uid p, sess_ w !! uid = Some p →
    ∃ s, objs w !! p = Some s ∧ verified_ s = true ∧ user_id_ s = uid.
Proof.
  intros Hr. change (registry_ok w). induction Hr as [rd|e w _ IH Hok].
  - by intros uid p Hp.
  - by apply run_event_keeps.
Qed.

(** A user connects, sends a login with its token, and the handler accepts it. *)
Definition login_events : list backend_ev :=
  [EvAccept 5; EvRead 5 (RData (be_bytes 4 1 ++ be_bytes 4 3)); EvRead 5 (RData [97; 32; 55]); EvWorker].

Definition login_world : World (gmap string string) :=
  foldl (λ w e, run_event string LITTLE_ENDIAN (λ _, 0) elements "1" e w)
    (world_init {["token:a" := "7"]}) login_events.

Lemma registry_invariant_witness :
  ∃ s, objs login_world !! 5%nat = Some s ∧ verified_ s = true ∧ user_id_ s = 7.
Proof.
  apply (registry_invariant string LITTLE_ENDIAN (λ _, 0) elements "1" login_world); [|vm_compute; reflexivity].
  unfold login_world, login_events. cbn [foldl].
  repeat (apply backend_next; [|first [exact I | reflexivity]]). apply backend_init.
Defined.
