(* ===== verification/ServerClass.v ===== *)
(** * Starting a backend process
      (src/src/include/server/server_class.hpp, server_class.cpp, mq_handler.hpp)

    The constructor of [ServerClass] and [Listen], on the states of the parts they build.
    Opening the Redis connection, creating consumer groups and setting up the listening
    socket are arguments.  The uploader of online users keeps its task in its record
    ([Timer]); the manager's list has the task it was created as. *)

From S2P Require Import Prelude Decimal CppString FieldOp MsgNode MinHeap LoadBalancer LoadBalancerFacts RedisBase.
From S2P Require Import StatusService Session Timer Reporter Backend ServerSetup BackendFacts Registry.

Record Server (Rd : Type) := mkSrv {
  srv_world : World Rd;
  srv_timers : TimerTaskManager;
  srv_online_iter : nat;
  srv_reporter : StatusReporter;
  srv_listening : bool
}.
Arguments mkSrv {Rd}.
Arguments srv_world {Rd} _.
Arguments srv_timers {Rd} _.
Arguments srv_online_iter {Rd} _.
Arguments srv_reporter {Rd} _.
Arguments srv_listening {Rd} _.

Section server.
Context {Rd : Type}.
Context (xgroup_create : Rd → string → string → string → Rd * bool).

(** The parts before the body of the constructor runs *)
Definition world_new : World Rd := mkWorld ∅ ∅ ∅ [] false [] (OnlineStatusUploader_new 10) (mkMgr None) [].

(** The timer of [OnlineStatusUploader] *)
Definition online_timer (m : TimerTaskManager) : res (nat * TimerTaskManager) :=
  let '(m, iter) := CreateTimer m (10 * 1000) true in
  m ← with_task m iter Activate;
  Ok (iter, m).

(** [MQHandler]: its flag and its thread *)
Inductive mq_pc := QTest | QRound | QDone | QTerminated.

Record MQHandler := mkMq { mq_running_ : bool; mq_worker_ : mq_pc }.

(** The constructor; the thread starts at the test of the flag *)
Definition MQHandler_new (server_id : Z) (m : BaseRedisMgr Rd) : res (BaseRedisMgr Rd * MQHandler) :=
  m ← RegisterMsgQueue xgroup_create m (to_string server_id) true;
  Ok (m, mkMq true QTest).

Definition ServerClass_new (server_id : Z) (server_addr : string) (redis_open : res Rd) : res (Server Rd) :=
  t ← online_timer (mkTimerMgr ∅ 0);
  r ← StatusReporter_new t.2 server_addr server_id 15;
  let w := world_new in
  let '(redis, connected) := ConnectTo (λ _ : unit, redis_open) RegisterScript_base (w_redis_ w) tt in
  _ ← connected;
  let '(w, started) := Handler_Start (set_redis w redis) in
  _ ← started;
  mq ← MQHandler_new server_id (w_redis_ w);
  Ok (mkSrv (set_redis w mq.1) r.2 t.1 r.1 false).

Context `{!StatusRPC Sv}.

(** [acceptor]: the first exception of opening, binding and listening; the result of
    [Register] is ignored *)
Definition Listen (acceptor : res unit) (s : Server Rd) (sv : Sv) : res (Server Rd * Sv) :=
  _ ← acceptor;
  let '(w, count) := GetSessionCount (srv_world s) in
  n ← count;
  r ← Register (srv_reporter s) sv n;
  Ok (mkSrv w (srv_timers s) (srv_online_iter s) (srv_reporter s) true, r.1).

(** The groups of the two streams *)
Definition with_groups (server_id : Z) (rd : Rd) : Rd :=
  let sid := to_string server_id in
  (xgroup_create (xgroup_create rd (mq_key sid) (group_name sid) "0").1 (mq2_key sid) (group_name sid) "0").1.

Lemma ServerClass_new_Ok server_id addr rd :
  ∃ m, ServerClass_new server_id addr (Ok rd)
      = Ok (mkSrv (world_init (with_groups server_id rd)) m 0 (mkReporter addr 15 server_id 1 false) false)
    ∧ list_ m !! 0%nat = Some (Activate (SetTimer (10 * 1000) true))
    ∧ list_ m !! 1%nat = Some (Activate (SetTimer (15 * 1000) true)).
Proof. eexists. split; [reflexivity|]. by split. Qed.

Lemma Listen_Ok s sv :
  held (srv_world s) = [] → sess_ (srv_world s) = ∅ → rpc_ok sv (server_id_ (srv_reporter s)) →
  ∃ sv', Listen (Ok tt) s sv
      = Ok (mkSrv (srv_world s) (srv_timers s) (srv_online_iter s) (srv_reporter s) true, sv')
    ∧ rpc_register sv (server_id_ (srv_reporter s)) (server_addr_ (srv_reporter s)) 0 = Ok (sv', Status_OK)
    ∧ rpc_view sv' = <[server_id_ (srv_reporter s) := (server_addr_ (srv_reporter s), 0)]> (rpc_view sv).
Proof.
  intros Hh Hs Hok.
  assert (E : GetSessionCount (srv_world s) = (srv_world s, Ok 0)).
  { destruct s as [[] ? ? ? ?]. cbn in *. subst. done. }
  destruct (rpc_register_spec sv (server_id_ (srv_reporter s)) (server_addr_ (srv_reporter s)) 0 Hok ltac:(done)) as (sv' & Er & _ & Hv).
  exists sv'. unfold Listen. cbn [mbind res_bind]. rewrite E. cbn [mbind res_bind].
  unfold Register, ReportServerRegister. rewrite Er. done.
Qed.
End server.

(** ** Theorems *)

(** A backend that starts is in the initial state of its runs and known to the status service:
    with Redis and the port available, construction and [Listen] return; the process is then
    as the runs of [Registry] start (no session, handler running, connected, both consumer
    groups created), its two periodic tasks are active, and the service lists it under its
    address with load 0, nothing else having changed. *)
Theorem server_starts {Rd Sv} Json `{!RedisOps Rd, !JsonReader Json, !StatusRPC Sv} xgroup_create host junk order server_id addr (rd : Rd) (sv : Sv) :
  rpc_ok sv server_id →
  ∃ s s' sv', ServerClass_new xgroup_create server_id addr (Ok rd) = Ok s
    ∧ Listen (Ok tt) s sv = Ok (s', sv')
    ∧ backend_reach Json host junk order (to_string server_id) (srv_world s')
    ∧ w_redis_ (srv_world s') = mkMgr (Some (with_groups xgroup_create server_id rd))
    ∧ (∃ t, list_ (srv_timers s') !! srv_online_iter s' = Some t ∧ periodic t ∧ t = task_ (status_uploader_ (srv_world s')))
    ∧ (∃ t, list_ (srv_timers s') !! task_iter_ (srv_reporter s') = Some t ∧ periodic t)
    ∧ rpc_view sv' = <[server_id := (addr, 0)]> (rpc_view sv).
Proof.
  intros Hok. destruct (ServerClass_new_Ok xgroup_create server_id addr rd) as (m & E & H0 & H1).
  destruct (Listen_Ok (mkSrv (world_init (with_groups xgroup_create server_id rd)) m 0 (mkReporter addr 15 server_id 1 false) false) sv)
    as (sv' & El & _ & Hv); [done..|].
  assert (Hper : ∀ d, periodic (Activate (SetTimer d true))) by (intros d; unfold periodic; cbn; split_and!; [done|done|lia]).
  eexists _, _, sv'. split; [exact E|]. split; [exact El|]. split_and!; [constructor|done| | |done].
  - eexists. split; [exact H0|]. split; [apply Hper|done].
  - eexists. split; [exact H1|]. apply Hper.
Qed.

Lemma server_starts_witness :
  let xg := λ (rd : gmap string string) (k g i : string), (<[k := g]> rd, false) in
  let u := StatusService.Start LoadBalancer_init in
  ∃ s s' sv', ServerClass_new xg 7 "10.0.0.7:1235" (Ok ∅) = Ok s
    ∧ Listen (StatusRPC0 := status_service_rpc 100) (Ok tt) s u = Ok (s', sv')
    ∧ backend_reach (RedisOps0 := BackendFacts.map_redis) (JsonReader0 := BackendFacts.demo_json) string LITTLE_ENDIAN (λ _, 0) elements (to_string 7) (srv_world s')
    ∧ w_redis_ (srv_world s') = mkMgr (Some (with_groups xg 7 ∅))
    ∧ (∃ t, list_ (srv_timers s') !! srv_online_iter s' = Some t ∧ periodic t ∧ t = task_ (status_uploader_ (srv_world s')))
    ∧ (∃ t, list_ (srv_timers s') !! task_iter_ (srv_reporter s') = Some t ∧ periodic t)
    ∧ service_view sv' = <[7 := ("10.0.0.7:1235", 0)]> (service_view u).
Proof.
  cbn zeta. apply (server_starts (StatusRPC0 := status_service_rpc 100) (RedisOps0 := BackendFacts.map_redis) (JsonReader0 := BackendFacts.demo_json)
    string (λ (rd : gmap string string) (k g i : string), (<[k := g]> rd, false)) LITTLE_ENDIAN (λ _, 0) elements 7 "10.0.0.7:1235" ∅ (StatusService.Start LoadBalancer_init)).
  apply (service_ok_reach _ _ ∅); [apply reach_init|set_solver].
Defined.

(** A balancer whose only idle server has just been heard of answers with it. *)
Lemma GetMinimal_new lb clk id addr now :
  lb_inv lb → abs lb !! id = Some (mkInfo id addr 0 now) →
  (∀ i, expired (clk i) (mkInfo id addr 0 now) = false) →
  (∀ id' si, abs lb !! id' = Some si → id' ≠ id → 0 < si_load si) →
  ∃ lb' upd, GetMinimalLoadServerInfo lb clk = Ok (lb', Some (mkInfo id addr 0 now), upd).
Proof.
  intros Hinv Hid Hexp Hoth.
  destruct (GetMinimal_loop_spec (S (Size (min_heap_ lb))) clk 0 lb false) as (lb' & r & upd & E & Hinv' & _ & [Hsub Hp] & _ & Hm);
    [done|unfold Size; lia|].
  assert (Hin : abs lb' !! id = Some (mkInfo id addr 0 now)).
  { destruct (abs lb' !! id) as [si|] eqn:Ha.
    - f_equal. pose proof (lookup_weaken _ _ _ _ Ha Hsub). congruence.
    - destruct (Hp id _ Hid Ha) as [i Hi]. by rewrite Hexp in Hi. }
  exists lb', upd. unfold GetMinimalLoadServerInfo. rewrite E. destruct r as [si|]; cbn [min_result] in Hm.
  - destruct Hm as (Hsi & _ & Hmin). pose proof (Hmin id _ Hin) as Hle. cbn in Hle.
    destruct (decide (si_id si = id)) as [Heq|Hne].
    + rewrite Heq in Hsi. do 4 f_equal. congruence.
    + pose proof (Hoth (si_id si) si (lookup_weaken _ _ _ _ Hsi Hsub) Hne). lia.
  - by rewrite Hm in Hin.
Qed.

(** C29. Logins go to a new backend: when a backend has started against the status service of this
    repository and every other registered server has sessions, the next query of the gateway,
    made before the new server's registration expires, answers with the new server's id and
    address.  The service must serve the id ([service_ok]): the index of its heap has no entry
    left from an earlier life of the id, as it has for a new id, for a registered one and for
    one dropped by a query, but may not have for one dropped by [CheckTTL] or [RemoveServer]
    ([reregister_last_removed_UB]). *)
Theorem new_server_gets_next_login {Rd} xgroup_create now server_id addr (rd : Rd) (u : TimedUploader) clk :
  service_ok u server_id →
  (∀ id' si, abs (balancer_ u) !! id' = Some si → id' ≠ server_id → 0 < si_load si) →
  (∀ i, expired (clk i) (mkInfo server_id addr 0 now) = false) →
  ∃ s s' u' u'', ServerClass_new xgroup_create server_id addr (Ok rd) = Ok s
    ∧ Listen (StatusRPC0 := status_service_rpc now) (Ok tt) s u = Ok (s', u')
    ∧ CheckMinimalLoadServer u' clk = Ok (u'', mkServerAddrResp 0 server_id addr, Status_OK).
Proof.
  intros Hok Hoth Hexp. destruct (ServerClass_new_Ok xgroup_create server_id addr rd) as (m & E & _).
  destruct (Listen_Ok (StatusRPC0 := status_service_rpc now)
    (mkSrv (world_init (with_groups xgroup_create server_id rd)) m 0 (mkReporter addr 15 server_id 1 false) false) u)
    as (u' & El & Hreg & _); [done..|].
  destruct (service_register_spec now u server_id addr 0 Hok ltac:(done)) as (u1 & Er & [Hinv _] & Habs).
  assert (u1 = u') as -> by (cbn in Hreg; congruence).
  destruct (GetMinimal_new (balancer_ u') clk server_id addr now) as (lb' & upd & Hmin); [done|by rewrite Habs, lookup_insert_eq|done|..].
  { intros id' si Hsi Hne. rewrite Habs, lookup_insert_ne in Hsi by done. by eapply Hoth. }
  eexists _, _, u', _. split; [exact E|]. split; [exact El|].
  unfold CheckMinimalLoadServer. rewrite Hmin. reflexivity.
Qed.

Lemma new_server_gets_next_login_witness :
  let xg := λ (rd : gmap string string) (k g i : string), (<[k := g]> rd, false) in
  ∃ s s' u' u'', ServerClass_new xg 7 "10.0.0.7:1235" (Ok ∅) = Ok s
    ∧ Listen (StatusRPC0 := status_service_rpc 100) (Ok tt) s (StatusService.Start LoadBalancer_init) = Ok (s', u')
    ∧ CheckMinimalLoadServer u' (λ i, 200 + Z.of_nat i * 0) = Ok (u'', mkServerAddrResp 0 7 "10.0.0.7:1235", Status_OK).
Proof.
  apply (new_server_gets_next_login (λ (rd : gmap string string) (k g i : string), (<[k := g]> rd, false)) 100 7 "10.0.0.7:1235" ∅
    (StatusService.Start LoadBalancer_init) (λ i, 200 + Z.of_nat i * 0)).
  - apply (service_ok_reach _ _ ∅); [apply reach_init|set_solver].
  - intros id' si Hsi _. change (balancer_ _) with LoadBalancer_init in Hsi.
    by rewrite (abs_empty LoadBalancer_init lb_inv_init eq_refl) in Hsi.
  - intros i. rewrite Z.mul_0_r. reflexivity.
Defined.
