(* ===== verification/ServerLife.v ===== *)
(** * Ownership and destruction of a backend process
      (src/src/include/server/server_class.hpp, online_status_upload.hpp, status_reporter.hpp,
       mq_handler.hpp, msg_handler.hpp)

    The parts of a [ServerClass] object hold each other by shared pointers and, for the timer
    manager, by raw pointers; three of them own a thread, and two have a task in the timer
    list whose callback captures the object by its raw address.  The model keeps which
    members are set, which objects exist, which threads run, whose tasks are listed, and in
    whose callback the timer thread is.  An object is destroyed when its last holder lets go
    of it; its destructor runs first, then its own members are released. *)

From S2P Require Import Prelude.

Inductive part := PTimer | PRedis | POnline | PSessMgr | PHandler | PRpc | PReporter | PMq.

#[global] Instance part_eq_dec : EqDecision part.
Proof. solve_decision. Defined.

(** Shared pointers among the members of a part, the last one first *)
Definition owns (p : part) : list part :=
  match p with
  | POnline => [PRedis]
  | PHandler => [POnline; PRedis; PSessMgr]
  | PReporter => [PSessMgr; PRpc]
  | PMq => [PRedis; PSessMgr]
  | PTimer | PRedis | PSessMgr | PRpc => []
  end.

Record srv_objs := mkObjs {
  members : list part;
  alive : list part;
  threads : list part;
  tasks : list part;
  in_callback : option part
}.

Definition drop_part (p : part) (l : list part) : list part := filter (λ x, x ≠ p) l.

Definition set_members (s : srv_objs) x : srv_objs := mkObjs x (alive s) (threads s) (tasks s) (in_callback s).
Definition kill (p : part) (s : srv_objs) : srv_objs :=
  mkObjs (members s) (drop_part p (alive s)) (threads s) (tasks s) (in_callback s).
Definition end_thread (p : part) (s : srv_objs) : srv_objs :=
  mkObjs (members s) (alive s) (drop_part p (threads s)) (tasks s) (in_callback s).

(** [timer_mgr_->RemoveTimer(task_iter_)] through the raw pointer *)
Definition remove_task (p : part) (s : srv_objs) : res srv_objs :=
  if bool_decide (PTimer ∈ alive s)
  then Ok (mkObjs (members s) (alive s) (threads s) (drop_part p (tasks s)) (in_callback s))
  else UB null_deref.

(** [StatusReporter::Stop]: nothing when it was stopped *)
Definition stop_reporter (s : srv_objs) : res srv_objs :=
  if bool_decide (PReporter ∈ tasks s) then remove_task PReporter s else Ok s.

(** [MsgHandler::Stop] joins the worker *)
Definition stop_handler (s : srv_objs) : srv_objs := end_thread PHandler s.

(** The body of the destructor.  Destroying a running [std::thread] ends the process; joining
    the timer thread waits for the callback it is in. *)
Definition destructor (p : part) (s : srv_objs) : res srv_objs :=
  match p with
  | POnline => remove_task POnline s
  | PReporter => stop_reporter s
  | PMq => Ok (end_thread PMq s)
  | PHandler => if bool_decide (PHandler ∈ threads s) then UB aborted else Ok s
  | PTimer => Ok (mkObjs (members s) (alive s) (drop_part PTimer (threads s)) (tasks s) None)
  | PRedis | PSessMgr | PRpc => Ok s
  end.

Definition is_held (p : part) (s : srv_objs) : bool :=
  bool_decide (p ∈ members s) || existsb (λ q, bool_decide (p ∈ owns q)) (alive s).

(** Destroys [p] and releases what it owned; at most one level of release per part *)
Fixpoint destroy (fuel : nat) (p : part) (s : srv_objs) : res srv_objs :=
  match fuel with
  | O => UB no_progress
  | S fuel' =>
      s ← destructor p s;
      if bool_decide (in_callback s = Some p) then UB null_deref
      else foldl (λ r o, s ← r; if is_held o s || negb (bool_decide (o ∈ alive s)) then Ok s else destroy fuel' o s)
             (Ok (kill p s)) (owns p)
  end.

(** [x.reset()], and the end of the life of the member *)
Definition reset (p : part) (s : srv_objs) : res srv_objs :=
  if bool_decide (p ∈ members s) then
    let s := set_members s (drop_part p (members s)) in
    if is_held p s then Ok s else destroy 8 p s
  else Ok s.

(** The members in reverse order of declaration *)
Definition member_order : list part := [PMq; PReporter; PRpc; PHandler; PSessMgr; POnline; PRedis; PTimer].

Definition end_members (s : srv_objs) : res srv_objs := foldl (λ r p, s ← r; reset p s) (Ok s) member_order.

Definition ServerClass_destroy (s : srv_objs) : res srv_objs :=
  s ← reset PMq s;
  s ← stop_reporter s;
  s ← reset PReporter s;
  s ← reset PHandler (stop_handler s);
  s ← reset POnline s;
  s ← reset PTimer s;
  end_members s.

(** The members initialised before the body of the constructor runs *)
Definition constructed : list part := [PTimer; PRedis; POnline; PSessMgr; PHandler; PRpc; PReporter].

Definition before_body : srv_objs := mkObjs constructed constructed [PTimer] [POnline; PReporter] None.

(** The body: an exception destroys the members made so far.  [connect] is [ConnectTo],
    [queue] what [RegisterMsgQueue] does in the constructor of the queue handler *)
Definition ServerClass_construct (connect queue : res unit) : res (srv_objs * res unit) :=
  match connect with
  | UB w => UB w
  | Throw e => s ← end_members before_body; Ok (s, Throw e)
  | Ok _ =>
      let s := mkObjs constructed constructed [PHandler; PTimer] [POnline; PReporter] None in
      match queue with
      | UB w => UB w
      | Throw e => s ← end_members s; Ok (s, Throw e)
      | Ok _ => Ok (mkObjs (PMq :: constructed) (PMq :: constructed) [PMq; PHandler; PTimer] [POnline; PReporter] None, Ok tt)
      end
  end.

Definition at_callback (cb : option part) (s : srv_objs) : srv_objs :=
  mkObjs (members s) (alive s) (threads s) (tasks s) cb.

Definition nothing : srv_objs := mkObjs [] [] [] [] None.

(** ** Theorems *)

(** A backend releases what it made: a constructed server, whose timer thread is in no
    callback of its parts, is destroyed without touching a part that is gone and without
    destroying a running thread, and in the end no object, thread or task is left; the same
    holds when the constructor fails because Redis cannot be reached. *)
Theorem server_releases_all connect e :
  connect = Ok tt ∨ connect = Throw e →
  ∃ s r, ServerClass_construct connect (Ok tt) = Ok (s, r) ∧
    match r with
    | Ok _ => ServerClass_destroy s = Ok nothing
    | _ => r = Throw e ∧ s = nothing
    end.
Proof. intros [-> | ->]; eexists _, _; (split; [vm_compute; reflexivity|]); by vm_compute. Qed.

Lemma server_releases_all_witness :
  ∃ s r, ServerClass_construct (Throw (runtime_error "refused")) (Ok tt) = Ok (s, r) ∧
    match r with
    | Ok _ => ServerClass_destroy s = Ok nothing
    | _ => r = Throw (runtime_error "refused") ∧ s = nothing
    end.
Proof. apply server_releases_all. by right. Defined.

(** When registering the message queues throws, the constructor does not report it: the
    handler's thread is already running and is destroyed, which ends the process. *)
Theorem queue_failure_terminates e : ServerClass_construct (Ok tt) (Throw e) = UB aborted.
Proof. by vm_compute. Qed.

(** Removing a task does not wait for its callback: if the timer thread is inside a callback
    of the reporter or of the uploader when the server is destroyed, the object is destroyed
    under it. *)
Theorem destroy_during_callback cb s :
  ServerClass_construct (Ok tt) (Ok tt) = Ok (s, Ok tt) → cb ∈ [PReporter; POnline] →
  ServerClass_destroy (at_callback (Some cb) s) = UB null_deref.
Proof. intros [= <-] Hcb. repeat (apply elem_of_cons in Hcb as [->|Hcb]; [by vm_compute|]). by apply elem_of_nil in Hcb. Qed.

Lemma destroy_during_callback_witness :
  ∃ s, ServerClass_construct (Ok tt) (Ok tt) = Ok (s, Ok tt) ∧ ServerClass_destroy (at_callback (Some PReporter) s) = UB null_deref.
Proof.
  eexists. split; [vm_compute; reflexivity|]. apply destroy_during_callback; [vm_compute; reflexivity|]. set_solver.
Defined.
