(* ===== verification/ServerMain.v ===== *)
(** * The programs of the backend and of the status service
      (src/src/server/server_main.cpp, src/src/status/status_main.cpp)

    [server_main] is [main] of the backend up to [ctx.run()]: the command line, the
    construction of the server and [Listen] inside a try block, with the objects that an
    exception releases on the way out.  [server_exit] is what follows when a signal has
    stopped the event loop: the parts of the server are those made at the start, and the timer
    thread may be in a callback of one of them.  The status service's [main] is one call.  Opening the Redis
    connection and the listening socket are arguments. *)

From S2P Require Import Prelude Decimal CppString FieldOp MsgNode MinHeap LoadBalancer LoadBalancerFacts RedisBase.
From S2P Require Import StatusService Session Timer Reporter Backend ServerSetup BackendFacts Registry ServerClass ServerLife.
From S2P Require Import StatusLife.

(** Where [main] is: it printed the usage and returned -1; it logged an exception and returned
    0; it is in its event loop, accepting on [port] *)
Inductive main_end (Rd : Type) :=
  | MUsage
  | MLogged (e : exn)
  | MRunning (port : Z) (s : Server Rd) (o : srv_objs).
Arguments MUsage {Rd}.
Arguments MLogged {Rd} e.
Arguments MRunning {Rd} port s o.

Section main.
Context {Rd Sv : Type} (xgroup_create : Rd → string → string → string → Rd * bool) `{!StatusRPC Sv}.

(** [ip::tcp::endpoint(ip::tcp::v4(), listen_port)]: a port has 16 bits *)
Definition local_port (c : server_conf) : Z := u16 (conf_port c).

(** The try block of [main] *)
Definition server_try (c : server_conf) (redis_open : res Rd) (acceptor : Z → res unit) (sv : Sv) :
    res (main_end Rd * Sv) :=
  r ← ServerClass_construct (_ ← redis_open; Ok tt) (Ok tt);
  match r.2 with
  | Throw e => Ok (MLogged e, sv)
  | UB w => UB w
  | Ok _ =>
      s ← ServerClass_new xgroup_create (conf_id c) (conf_addr c) redis_open;
      match Listen (acceptor (local_port c)) s sv with
      | Ok (s, sv) => Ok (MRunning (local_port c) s r.1, sv)
      | Throw e => _ ← ServerClass_destroy r.1; Ok (MLogged e, sv)
      | UB w => UB w
      end
  end.

(** An exception of the command line is not caught *)
Definition server_main (argv : list string) (redis_open : res Rd) (acceptor : Z → res unit) (sv : Sv) :
    res (main_end Rd * Sv) :=
  conf ← parse_args argv;
  match conf with
  | None => Ok (MUsage, sv)
  | Some c => server_try c redis_open acceptor sv
  end.

(** [ctx.stop()] in the signal handler ends [ctx.run()] and the server object is destroyed,
    while the timer thread is in the callback [cb], or in none *)
Definition server_exit (cb : option part) (o : srv_objs) : res Z := _ ← ServerClass_destroy (at_callback cb o); Ok 0.
End main.

(** [main] of the status service, up to the gRPC server: the result of [RunStatusServer] is
    not looked at, and an exception is not caught *)
Definition status_main (connect : res unit) (build : bool) : StatusServer * res unit :=
  (life_run (RunStatusServer connect build StatusServer_init).1 StatusServer_init).2.

(** ** Lemmas *)

Lemma parse_three id addr port :
  is_u32 id → is_u32 port →
  parse_args [to_string id; addr; to_string port] = Ok (Some (mkConf id (addr +:+ (":" +:+ to_string port)) port)).
Proof.
  unfold is_u32. intros Hi Hp.
  assert (Hst : ∀ x, 0 <= x < 2 ^ 32 → stoul (to_string x) = Ok x).
  { intros x Hx. unfold stoul. rewrite scan_signed_to_string by (unfold is_u64; lia).
    by rewrite (proj2 (Z.ltb_lt _ _)) by lia. }
  unfold parse_args. rewrite !Hst by done. cbn [mbind res_bind]. by rewrite !u32_id by done.
Qed.

(** The objects of a constructed server *)
Definition server_objs : srv_objs :=
  mkObjs (PMq :: constructed) (PMq :: constructed) [PMq; PHandler; PTimer] [POnline; PReporter] None.

Lemma server_objs_released : ServerClass_destroy server_objs = Ok nothing.
Proof. by vm_compute. Qed.

Lemma server_exit_spec cb :
  cb ∈ [None; Some PReporter; Some POnline] →
  server_exit cb server_objs = match cb with None => Ok 0 | Some _ => UB null_deref end.
Proof. intros Hcb. repeat (apply elem_of_cons in Hcb as [->|Hcb]; [by vm_compute|]). by apply elem_of_nil in Hcb. Qed.

Section outcomes.
Context {Rd Sv : Type} (xgroup_create : Rd → string → string → string → Rd * bool) `{!StatusRPC Sv}.

Lemma server_try_Ok c (rd : Rd) acceptor (sv : Sv) :
  acceptor (local_port c) = Ok tt → rpc_ok sv (conf_id c) →
  ∃ s sv', server_try xgroup_create c (Ok rd) acceptor sv = Ok (MRunning (local_port c) s server_objs, sv')
    ∧ srv_world s = world_init (with_groups xgroup_create (conf_id c) rd) ∧ srv_listening s = true
    ∧ rpc_view sv' = <[conf_id c := (conf_addr c, 0)]> (rpc_view sv).
Proof.
  intros Ha Hok. destruct (ServerClass_new_Ok xgroup_create (conf_id c) (conf_addr c) rd) as (m & E & _).
  destruct (Listen_Ok (mkSrv (world_init (with_groups xgroup_create (conf_id c) rd)) m 0
    (mkReporter (conf_addr c) 15 (conf_id c) 1 false) false) sv) as (sv' & El & _ & Hv); [done..|].
  eexists _, sv'. split; [|split; [|split]; [..|exact Hv]].
  - unfold server_try. cbn [mbind res_bind ServerClass_construct snd fst]. rewrite E. cbn [mbind res_bind]. by rewrite Ha, El.
  - done.
  - done.
Qed.

Lemma server_try_no_redis c e acceptor (sv : Sv) :
  server_try (Rd := Rd) xgroup_create c (Throw e) acceptor sv = Ok (MLogged e, sv).
Proof.
  unfold server_try. cbn [mbind res_bind].
  assert (E : ServerClass_construct (Throw e) (Ok tt) = Ok (nothing, Throw e)) by (by vm_compute). by rewrite E.
Qed.

Lemma server_try_no_port c (rd : Rd) e acceptor (sv : Sv) :
  acceptor (local_port c) = Throw e → server_try xgroup_create c (Ok rd) acceptor sv = Ok (MLogged e, sv).
Proof.
  intros Ha. destruct (ServerClass_new_Ok xgroup_create (conf_id c) (conf_addr c) rd) as (m & E & _).
  unfold server_try. cbn [mbind res_bind ServerClass_construct snd fst]. rewrite E. cbn [mbind res_bind].
  rewrite Ha. cbn [Listen mbind res_bind]. fold server_objs. by rewrite server_objs_released.
Qed.
End outcomes.

(** ** Theorems *)

(** C28. The backend program is ready: started with an id, an address and a port below 2^16, with
    Redis and the port available, against a status service that serves that id, it reaches its
    event loop accepting on that port, in the initial state of the runs of [Registry] with both
    consumer groups made, and the status service lists it with exactly the address and port it
    listens on and load 0.  The service of this repository serves an id ([rpc_ok], [service_ok]) that is
    new, registered or dropped by a query; after [CheckTTL] or [RemoveServer] dropped it,
    [RegisterServer] may write out of bounds ([reregister_last_removed_UB]).  A signal then ends the program with 0 when the timer
    thread is in no callback; when it is in one of the reporter or of the uploader, the object
    is destroyed under it. *)
Theorem server_main_ready {Rd Sv} Json `{!RedisOps Rd, !JsonReader Json, !StatusRPC Sv} xgroup_create host junk order
    id addr port (rd : Rd) acceptor (sv : Sv) :
  is_u32 id → is_u16 port → acceptor port = Ok tt → rpc_ok sv id →
  ∃ s o sv', server_main xgroup_create [to_string id; addr; to_string port] (Ok rd) acceptor sv = Ok (MRunning port s o, sv')
    ∧ backend_reach Json host junk order (to_string id) (srv_world s)
    ∧ w_redis_ (srv_world s) = mkMgr (Some (with_groups xgroup_create id rd))
    ∧ rpc_view sv' = <[id := (addr +:+ (":" +:+ to_string port), 0)]> (rpc_view sv)
    ∧ (∀ cb, cb ∈ [None; Some PReporter; Some POnline] →
       server_exit cb o = match cb with None => Ok 0 | Some _ => UB null_deref end).
Proof.
  intros Hi Hp Ha Hok. assert (is_u32 port) by (unfold is_u16, is_u32 in *; lia).
  unfold server_main. rewrite parse_three by done. cbn [mbind res_bind].
  set (c := mkConf id (addr +:+ (":" +:+ to_string port)) port).
  assert (Hl : local_port c = port) by (by apply u16_id).
  destruct (server_try_Ok xgroup_create c rd acceptor sv) as (s & sv' & E & Hw & _ & Hv); [by rewrite Hl|done|].
  exists s, server_objs, sv'. rewrite E, Hl, Hw. split_and!; [done|apply backend_init|done|exact Hv|].
  apply server_exit_spec.
Qed.

Lemma server_main_ready_witness :
  let xg := λ (rd : gmap string string) (k g i : string), (<[k := g]> rd, false) in
  let u := StatusService.Start LoadBalancer_init in
  ∃ s o sv', server_main (StatusRPC0 := status_service_rpc 100) xg ["7"; "10.0.0.7"; "2000"] (Ok ∅)
      (λ p, if p =? 2000 then Ok tt else Throw (runtime_error "bind")) u = Ok (MRunning 2000 s o, sv')
    ∧ backend_reach (RedisOps0 := BackendFacts.map_redis) (JsonReader0 := BackendFacts.demo_json) string LITTLE_ENDIAN (λ _, 0) elements (to_string 7) (srv_world s)
    ∧ w_redis_ (srv_world s) = mkMgr (Some (with_groups xg 7 ∅))
    ∧ service_view sv' = <[7 := ("10.0.0.7:2000", 0)]> (service_view u)
    ∧ (∀ cb, cb ∈ [None; Some PReporter; Some POnline] →
       server_exit cb o = match cb with None => Ok 0 | Some _ => UB null_deref end).
Proof.
  cbn zeta. apply (server_main_ready (StatusRPC0 := status_service_rpc 100) (RedisOps0 := BackendFacts.map_redis) (JsonReader0 := BackendFacts.demo_json)
    string (λ (rd : gmap string string) (k g i : string), (<[k := g]> rd, false)) LITTLE_ENDIAN (λ _, 0) elements 7 "10.0.0.7" 2000 ∅
    (λ p, if p =? 2000 then Ok tt else Throw (runtime_error "bind")) (StatusService.Start LoadBalancer_init)); try done.
  apply (service_ok_reach _ _ ∅); [apply reach_init|set_solver].
Defined.

(** How the backend program fails: wrong numbers of arguments give the usage; when Redis
    cannot be reached or the port cannot be opened it logs the exception and returns, having
    released its objects and without telling the status service anything; an argument that is
    not a number ends it with an uncaught exception. *)
Theorem server_main_failures {Rd Sv} `{!StatusRPC Sv} xgroup_create id addr port (rd : Rd) redis_open acceptor (sv : Sv) e :
  is_u32 id → is_u32 port →
  let argv := [to_string id; addr; to_string port] in
  (∀ a b c d rest, server_main xgroup_create (a :: b :: c :: d :: rest) redis_open acceptor sv = Ok (MUsage, sv))
  ∧ server_main (Rd := Rd) xgroup_create argv (Throw e) acceptor sv = Ok (MLogged e, sv)
  ∧ (acceptor (u16 port) = Throw e → server_main xgroup_create argv (Ok rd) acceptor sv = Ok (MLogged e, sv))
  ∧ server_main xgroup_create ["x"] redis_open acceptor sv = Throw (invalid_argument "stoul").
Proof.
  intros Hi Hp argv. unfold server_main, argv. rewrite !parse_three by done. cbn [mbind res_bind].
  split_and!; [done|apply server_try_no_redis|intros Ha; by apply server_try_no_port|done].
Qed.

Lemma server_main_failures_witness :
  let xg := λ (rd : gmap string string) (k g i : string), (<[k := g]> rd, false) in
  let u := StatusService.Start LoadBalancer_init in
  let main := server_main (Rd := gmap string string) (StatusRPC0 := status_service_rpc 100) xg in
  let e := runtime_error "down" in
  (∀ a b c d rest, main (a :: b :: c :: d :: rest) (Ok ∅) (λ _, Throw e) u = Ok (MUsage, u))
  ∧ main ["7"; "h"; "2000"] (Throw e) (λ _, Throw e) u = Ok (MLogged e, u)
  ∧ (@Throw unit e = Throw e → main ["7"; "h"; "2000"] (Ok ∅) (λ _, Throw e) u = Ok (MLogged e, u))
  ∧ main ["x"] (Ok ∅) (λ _, Throw e) u = Throw (invalid_argument "stoul").
Proof.
  cbn zeta. apply (server_main_failures (StatusRPC0 := status_service_rpc 100) (λ (rd : gmap string string) (k g i : string), (<[k := g]> rd, false))
    7 "h" 2000 ∅ (Ok ∅) (λ _, Throw (runtime_error "down")) (StatusService.Start LoadBalancer_init) (runtime_error "down")); done.
Defined.

(** A port of more than 16 bits is advertised as given and listened on modulo 2^16. *)
Theorem wide_port_truncated {Rd Sv} `{!StatusRPC Sv} xgroup_create id addr port (rd : Rd) acceptor (sv : Sv) :
  is_u32 id → is_u32 port → 2 ^ 16 <= port → acceptor (u16 port) = Ok tt → rpc_ok sv id →
  ∃ s o sv' q, server_main xgroup_create [to_string id; addr; to_string port] (Ok rd) acceptor sv = Ok (MRunning q s o, sv')
    ∧ q < port ∧ rpc_view sv' !! id = Some (addr +:+ (":" +:+ to_string port), 0).
Proof.
  intros Hi Hp Hw Ha Hok. unfold server_main. rewrite parse_three by done. cbn [mbind res_bind].
  destruct (server_try_Ok xgroup_create (mkConf id (addr +:+ (":" +:+ to_string port)) port) rd acceptor sv)
    as (s & sv' & E & _ & _ & Hv); [done|done|].
  exists s, server_objs, sv', (u16 port). rewrite E. split_and!; [done| |by rewrite Hv, lookup_insert_eq].
  pose proof (u16_bound port). unfold is_u16 in *. lia.
Qed.

Lemma wide_port_truncated_witness :
  let xg := λ (rd : gmap string string) (k g i : string), (<[k := g]> rd, false) in
  ∃ s o sv' q, server_main (StatusRPC0 := status_service_rpc 100) xg ["7"; "h"; "70000"] (Ok ∅) (λ _, Ok tt)
      (StatusService.Start LoadBalancer_init) = Ok (MRunning q s o, sv')
    ∧ q < 70000 ∧ service_view sv' !! 7 = Some ("h:70000", 0).
Proof.
  apply (wide_port_truncated (StatusRPC0 := status_service_rpc 100) (λ (rd : gmap string string) (k g i : string), (<[k := g]> rd, false))
    7 "h" 70000 ∅ (λ _, Ok tt) (StatusService.Start LoadBalancer_init)); try done.
  apply (service_ok_reach _ _ ∅); [apply reach_init|set_solver].
Defined.

(** The status program serves when Redis and the port are available; it ends with the uncaught
    exception of the Redis library when Redis is not, and in undefined behaviour when only
    the port is not. *)
Theorem status_main_outcomes connect build :
  (∀ w, connect ≠ UB w) →
  let '(s, r) := status_main connect build in
  match connect, build with
  | Ok _, true => r = Ok tt ∧ serving s
  | Ok _, false => r = UB null_deref
  | Throw e, _ => r = Throw e
  | UB _, _ => False
  end.
Proof.
  intros Hc. unfold status_main. destruct connect as [[]|e|w]; [destruct build| |by destruct (Hc w)]; cbn; [|done..].
  split; [done|]. by eexists _, _, _, _.
Qed.

Lemma status_main_outcomes_witness :
  let '(s, r) := status_main (Ok tt) true in r = Ok tt ∧ serving s.
Proof. apply (status_main_outcomes (Ok tt) true). done. Defined.
