(* ===== verification/RpcClient.v ===== *)
(** * Stubs of the status service
      (src/src/include/http/rpc/status_rpc_client.hpp, src/src/include/server/rpc/status_rpc_client.hpp)

    Both programs reach the status service through a [StatusRPCClient].  The gateway's keeps
    one stub and makes it at the first request; the threads of the request handler share it.
    The backend's keeps a stub per thread in a [thread_local] variable of the member function.
    A channel is known by the address it was created for ([grpc::CreateChannel] always
    returns one), a stub by the address of the object and the channel it was made from.
    The gateway's function is also given as its accesses to the shared member, which the
    threads of the pool interleave. *)

From S2P Require Import Prelude.

(** ** The gateway's client *)

Record GatewayRPC := mkGwRpc {
  ch_status_ : option string;
  status_ : option nat;
  stubs : gmap nat string;        (* live stub objects and their channels *)
  rpc_brk : nat                   (* addresses below were given out *)
}.

Definition GatewayRPC_new (status_addr : string) : GatewayRPC := mkGwRpc (Some status_addr) None ∅ 0.

(** [make_unique<Stub>(ch_status_)] *)
Definition make_stub (c : GatewayRPC) (ch : string) : nat * GatewayRPC :=
  (rpc_brk c, mkGwRpc (ch_status_ c) (status_ c) (<[rpc_brk c := ch]> (stubs c)) (S (rpc_brk c))).

(** [status_ = ...]: the stub held before is deleted *)
Definition assign_stub (c : GatewayRPC) (p : nat) : GatewayRPC :=
  mkGwRpc (ch_status_ c) (Some p)
    (match status_ c with Some old => delete old (stubs c) | None => stubs c end) (rpc_brk c).

(** By a thread that is not interrupted; [None] is [nullptr] *)
Definition GetStatusStub (c : GatewayRPC) : GatewayRPC * option nat :=
  match ch_status_ c with
  | Some ch =>
      let c := match status_ c with
               | None => let '(p, c) := make_stub c ch in assign_stub c p
               | Some _ => c
               end in
      (c, status_ c)
  | None => (c, None)
  end.

(** [stub->CheckMinimalLoadServer(...)]: where the call goes *)
Definition use_stub (c : GatewayRPC) (p : option nat) : res string :=
  match p ≫= (stubs c !!.) with
  | Some ch => Ok ch
  | None => UB null_deref
  end.

(** *** Under interleaving *)

(** What a thread of the pool does next: test [status_], make a stub, assign it, read the
    pointer, call through it *)
Inductive stub_pc := PTest | PMake | PAssign (p : nat) | PGet | PCall (p : option nat) | PDone (ch : string).

Definition stub_thread (c : GatewayRPC) (pc : stub_pc) : res (GatewayRPC * stub_pc) :=
  match pc with
  | PTest =>
      match ch_status_ c with
      | Some _ => Ok (c, match status_ c with None => PMake | Some _ => PGet end)
      | None => Ok (c, PCall None)
      end
  | PMake =>
      match ch_status_ c with
      | Some ch => let '(p, c) := make_stub c ch in Ok (c, PAssign p)
      | None => UB null_deref
      end
  | PAssign p => Ok (assign_stub c p, PGet)
  | PGet => Ok (c, PCall (status_ c))
  | PCall p => ch ← use_stub c p; Ok (c, PDone ch)
  | PDone ch => Ok (c, PDone ch)
  end.

(** The threads run in the order of the list; a number without a thread does nothing *)
Fixpoint stub_run (sched : list nat) (c : GatewayRPC) (ts : list stub_pc) : res (GatewayRPC * list stub_pc) :=
  match sched with
  | [] => Ok (c, ts)
  | i :: sched' =>
      match ts !! i with
      | None => stub_run sched' c ts
      | Some pc => r ← stub_thread c pc; stub_run sched' r.1 (<[i := r.2]> ts)
      end
  end.

(** ** The backend's client *)

(** The [thread_local] variable, by thread: there is one for all client objects *)
Abbreviation local_stubs := (gmap nat string).

(** [GetThreadStatusStub] of a client with this channel, called by thread [tid]: the stub is
    known by its thread; the result is the channel it was made from *)
Definition GetThreadStatusStub (ch_status : option string) (tid : nat) (ls : local_stubs) :
    local_stubs * option (nat * string) :=
  match ch_status with
  | Some ch =>
      let ls := match ls !! tid with None => <[tid := ch]> ls | Some _ => ls end in
      (ls, (λ c, (tid, c)) <$> ls !! tid)
  | None => (ls, None)
  end.

Fixpoint thread_calls (ch_status : option string) (tids : list nat) (ls : local_stubs) :
    local_stubs * list (option (nat * string)) :=
  match tids with
  | [] => (ls, [])
  | t :: tids' =>
      let '(ls, s) := GetThreadStatusStub ch_status t ls in
      let '(ls, ss) := thread_calls ch_status tids' ls in (ls, s :: ss)
  end.

(** ** Lemmas *)

(** A client whose stub exists and goes to the configured address *)
Definition rpc_warm (addr : string) (c : GatewayRPC) : Prop :=
  ch_status_ c = Some addr ∧ ∃ p, status_ c = Some p ∧ stubs c !! p = Some addr.

Lemma GetStatusStub_warm addr c : rpc_warm addr c → GetStatusStub c = (c, status_ c).
Proof. intros (Hc & p & Hs & _). unfold GetStatusStub. rewrite Hc, Hs. cbn. by rewrite Hs. Qed.

Lemma GetStatusStub_new addr :
  ∃ c, GetStatusStub (GatewayRPC_new addr) = (c, Some 0%nat) ∧ rpc_warm addr c ∧ stubs c = {[0%nat := addr]}.
Proof. eexists. split; [reflexivity|]. split; [|done]. split; [done|]. exists 0%nat. split; [done|apply lookup_insert_eq]. Qed.

(** Where a thread of a warm client can be: not on the way to a second stub *)
Definition warm_pc (addr : string) (c : GatewayRPC) (pc : stub_pc) : Prop :=
  match pc with
  | PTest | PGet => True
  | PCall p => p = status_ c
  | PDone ch => ch = addr
  | PMake | PAssign _ => False
  end.

Lemma stub_thread_warm addr c pc :
  rpc_warm addr c → warm_pc addr c pc →
  ∃ pc', stub_thread c pc = Ok (c, pc') ∧ warm_pc addr c pc'.
Proof.
  intros (Hc & p & Hs & Hp) Hpc. destruct pc as [| | | |q|ch]; cbn [stub_thread warm_pc] in *; try done.
  - rewrite Hc, Hs. by eexists.
  - by eexists.
  - subst q. unfold use_stub. rewrite Hs. cbn. rewrite Hp. by eexists.
  - by eexists.
Qed.

Lemma stub_run_warm addr c sched : ∀ ts,
  rpc_warm addr c → Forall (warm_pc addr c) ts →
  ∃ ts', stub_run sched c ts = Ok (c, ts') ∧ Forall (warm_pc addr c) ts'.
Proof.
  induction sched as [|i sched IH]; intros ts Hc Hts; [by exists ts|]. cbn [stub_run].
  destruct (ts !! i) as [pc|] eqn:Hi; [|by apply IH].
  destruct (stub_thread_warm addr c pc Hc) as (pc' & E & Hpc'); [by eapply Forall_lookup_1|].
  rewrite E. cbn [mbind res_bind fst snd]. apply IH; [done|]. by apply Forall_insert.
Qed.

(** ** Theorems *)

(** The shared stub of the gateway: the first call makes it; once it is there, any number of
    threads may ask for it and call through it in any order, every call goes to the configured
    address, no stub is made or deleted, and nothing dangles. *)
Theorem stub_shared_safely addr sched ts :
  Forall (λ pc, pc = PTest) ts →
  let c := (GetStatusStub (GatewayRPC_new addr)).1 in
  ∃ ts', stub_run sched c ts = Ok (c, ts') ∧ ∀ i ch, ts' !! i = Some (PDone ch) → ch = addr.
Proof.
  intros Hts. cbn zeta. destruct (GetStatusStub_new addr) as (c & E & Hc & _). rewrite E. cbn [fst].
  destruct (stub_run_warm addr c sched ts Hc) as (ts' & Er & Hts').
  { eapply Forall_impl; [|exact Hts]. by intros ? ->. }
  exists ts'. split; [done|]. intros i ch Hi. exact (Forall_lookup_1 _ _ _ _ Hts' Hi).
Qed.

Lemma stub_shared_safely_witness :
  let c := (GetStatusStub (GatewayRPC_new "h:3000")).1 in
  ∃ ts', stub_run [0; 1; 1; 0; 0; 1]%nat c [PTest; PTest] = Ok (c, ts')
    ∧ ∀ i ch, ts' !! i = Some (PDone ch) → ch = "h:3000".
Proof. apply (stub_shared_safely "h:3000" [0; 1; 1; 0; 0; 1]%nat [PTest; PTest]). by repeat constructor. Defined.

(** The first calls are not safe: two threads that both find no stub each make one, and the
    second assignment deletes the stub the first thread is about to call through. *)
Theorem first_stub_race addr :
  stub_run [0; 1; 0; 0; 0; 1; 1; 0]%nat (GatewayRPC_new addr) [PTest; PTest] = UB null_deref.
Proof. reflexivity. Qed.

(** Stubs of the backend are private to their threads: for every sequence of calls of any
    threads on one client, each call returns the calling thread's own stub, which goes to
    the client's address and is the same at every call of that thread. *)
Theorem thread_stub_private addr tids :
  ∃ ls, thread_calls (Some addr) tids ∅ = (ls, (λ t, Some (t, addr)) <$> tids)
    ∧ ∀ t, t ∈ tids ↔ is_Some (ls !! t).
Proof.
  assert (H : ∀ ls, (∀ t ch, ls !! t = Some ch → ch = addr) →
    ∃ ls', thread_calls (Some addr) tids ls = (ls', (λ t, Some (t, addr)) <$> tids)
      ∧ ∀ t, is_Some (ls' !! t) ↔ t ∈ tids ∨ is_Some (ls !! t)).
  { induction tids as [|t tids IH]; intros ls Hls; [exists ls; set_solver|].
    cbn [thread_calls GetThreadStatusStub].
    set (ls1 := match ls !! t with None => <[t := addr]> ls | Some _ => ls end).
    assert (Ht : ls1 !! t = Some addr).
    { unfold ls1. destruct (ls !! t) as [ch|] eqn:E; [by rewrite E, (Hls t ch E)|apply lookup_insert_eq]. }
    assert (Hdom : ∀ t', is_Some (ls1 !! t') ↔ t' = t ∨ is_Some (ls !! t')).
    { intros t'. unfold ls1. destruct (ls !! t) as [ch|] eqn:E; [|rewrite (lookup_insert_is_Some' ls); naive_solver].
      split; [by right|]. intros [->|]; [by rewrite E|done]. }
    destruct (IH ls1) as (ls' & Er & Hd).
    { intros t' ch. unfold ls1. destruct (ls !! t); [apply Hls|]. intros [[_ <-]|[_ ?]]%lookup_insert_Some; eauto. }
    exists ls'. rewrite Er, Ht. split; [done|]. intros t'. rewrite Hd, Hdom, elem_of_cons. naive_solver. }
  destruct (H ∅) as (ls & E & Hd); [by intros t ch|]. exists ls. split; [done|].
  intros t. rewrite Hd, lookup_empty. split; [by left|]. intros [?|[? ?]]; done.
Qed.

(** The variable belongs to the thread, not to the client: a second client object used by the
    same thread is given the stub of the first one, with the first one's address. *)
Theorem thread_stub_ignores_client t a1 a2 :
  let ls := (GetThreadStatusStub (Some a1) t ∅).1 in
  (GetThreadStatusStub (Some a2) t ls).2 = Some (t, a1).
Proof. cbn [GetThreadStatusStub fst]. rewrite lookup_empty, lookup_insert_eq. cbn [snd]. by rewrite lookup_insert_eq. Qed.
