(* ===== verification/IoPool.v ===== *)
(** * The two pools of event loops
      (src/src/server/io_context_pool.cpp, io_thread_pool.cpp, their headers, utils/util_class.hpp)

    An [IOContextPool] has one thread per io_context, an [IOThreadPool] several threads in one
    io_context.  The io_context is Boost.Asio's: [IoContext] gives the operations the pools use
    and [IoContextLaws] what is documented of them (a posted handler is taken once by a thread
    inside [run()]; [run()] returns when there is neither a handler nor a work object; an
    asynchronous operation that is outstanding would keep it going as well, but the runs here
    have posted handlers only).  A pool
    is then a transition system: its users post, its threads take handlers or leave [run()],
    and the thread that called [Stop] joins the others one by one. *)

From S2P Require Import Prelude ServerSetup.

(** ** [Singleton<T>::GetInstance]: the object is made by the first call *)

Definition GetInstance {T} (make : T) (inst : option T) : option T * T :=
  match inst with
  | None => (Some make, make)
  | Some x => (inst, x)
  end.

Class IoContext (C H : Type) := {
  io_new : C;
  io_post : H → C → C;
  io_guard : C → C;                   (* a work object is made *)
  io_unguard : C → C;                 (* and destroyed *)
  io_next : C → option (H * C);       (* a thread inside run() takes a handler *)
  io_exit : C → bool                  (* run() returns to its caller *)
}.

Class IoContextLaws (C H : Type) `{!IoContext C H} := {
  io_queue : C → list H;
  io_work : C → nat;
  law_io_new : io_queue io_new = [] ∧ io_work io_new = 0%nat;
  law_io_post h c : io_queue (io_post h c) ≡ₚ h :: io_queue c ∧ io_work (io_post h c) = io_work c;
  law_io_guard c : io_queue (io_guard c) ≡ₚ io_queue c ∧ io_work (io_guard c) = S (io_work c);
  law_io_unguard c : io_queue (io_unguard c) ≡ₚ io_queue c ∧ io_work (io_unguard c) = pred (io_work c);
  law_io_next c h c' : io_next c = Some (h, c') → io_queue c ≡ₚ h :: io_queue c' ∧ io_work c' = io_work c;
  law_io_ready c : io_queue c ≠ [] → is_Some (io_next c);
  law_io_exit c : io_exit c = true ↔ io_queue c = [] ∧ io_work c = 0%nat
}.

(** ** Pools *)

Section pool.
Context {C H : Type} `{!IoContext C H}.

(** How a pool chooses a context *)
Inductive pool_front := ByContext (p : IOContextPool) | ByThread.

Record io_pool := mkPool {
  front : pool_front;
  ctxs_ : list C;
  threads_ : list nat;            (* the context each thread runs *)
  ended : list bool;              (* the threads that left run() *)
  stopping : bool;                (* Stop was called *)
  joined : nat;                   (* threads joined by Stop *)
  posted : list (nat * H);        (* what was posted, with its context *)
  ran : list (nat * H)            (* what was run, with its thread *)
}.

(** The constructors: a work object per context, then the threads *)
Definition IOContextPool_start (size : Z) : io_pool :=
  let n := pool_size size in
  mkPool (ByContext (IOContextPool_new size)) (replicate n (io_guard io_new)) (seq 0 n) (replicate n false) false 0 [] [].

Definition IOThreadPool_start (size : Z) : io_pool :=
  let n := pool_size size in
  mkPool ByThread [io_guard io_new] (replicate n 0%nat) (replicate n false) false 0 [] [].

(** [GetNextIOContext] *)
Definition next_context (s : io_pool) : res (nat * io_pool) :=
  match front s with
  | ByContext p =>
      r ← GetNextIOContext p;
      Ok (Z.to_nat r.1, mkPool (ByContext r.2) (ctxs_ s) (threads_ s) (ended s) (stopping s) (joined s) (posted s) (ran s))
  | ByThread => Ok (Z.to_nat thread_pool_context, s)
  end.

Definition post_to (i : nat) (h : H) (s : io_pool) : io_pool :=
  mkPool (front s) (alter (io_post h) i (ctxs_ s)) (threads_ s) (ended s) (stopping s) (joined s)
    ((i, h) :: posted s) (ran s).

Definition post_all (i : nat) (hs : list H) (s : io_pool) : io_pool := foldr (post_to i) s hs.

(** [work.reset()] for every work object *)
Definition release_works (s : io_pool) : io_pool :=
  mkPool (match front s with ByContext p => ByContext (IOContextPool_Stop p) | ByThread => ByThread end)
    (io_unguard <$> ctxs_ s) (threads_ s) (ended s) true (joined s) (posted s) (ran s).

Inductive pool_ev :=
  | PPost (h : H)                       (* post(pool.GetNextIOContext(), h) *)
  | PThread (t : nat) (hs : list H)     (* thread t goes on; the handler it runs posts hs *)
  | PStop                               (* Stop() up to its first join *)
  | PJoin.                              (* the next join returns *)

(** One thread inside [run()]; [None] when it sleeps or has left *)
Definition thread_step (t : nat) (hs : list H) (s : io_pool) : option io_pool :=
  i ← threads_ s !! t;
  e ← ended s !! t;
  c ← ctxs_ s !! i;
  if e : bool then None
  else if io_exit c then
    Some (mkPool (front s) (ctxs_ s) (threads_ s) (<[t := true]> (ended s)) (stopping s) (joined s) (posted s) (ran s))
  else
    '(h, c') ← io_next c;
    Some (post_all i hs
      (mkPool (front s) (<[i := c']> (ctxs_ s)) (threads_ s) (ended s) (stopping s) (joined s) (posted s) ((t, h) :: ran s))).

(** [None]: the event cannot happen now *)
Definition io_step (e : pool_ev) (s : io_pool) : option io_pool :=
  match e with
  | PPost h => match next_context s with Ok (i, s) => Some (post_to i h s) | _ => None end
  | PThread t hs => thread_step t hs s
  | PStop => if stopping s then None else Some (release_works s)
  | PJoin =>
      if stopping s && default false (ended s !! joined s)
      then Some (mkPool (front s) (ctxs_ s) (threads_ s) (ended s) (stopping s) (S (joined s)) (posted s) (ran s))
      else None
  end.

(** [Stop] has returned *)
Definition stop_returned (s : io_pool) : Prop := stopping s = true ∧ joined s = length (threads_ s).

(** Runs in which the users of the pool do not post once it is being stopped *)
Inductive pool_reach (s0 : io_pool) : io_pool → Prop :=
  | pool_start : pool_reach s0 s0
  | pool_next e s s' : pool_reach s0 s → (stopping s = true → ∀ h, e ≠ PPost h) →
      io_step e s = Some s' → pool_reach s0 s'.
End pool.
Arguments io_pool C H : clear implicits.
Arguments pool_ev H : clear implicits.

(** ** Lemmas *)

Section facts.
Context {C H : Type} `{!IoContext C H, !IoContextLaws C H}.
Implicit Types s : io_pool C H.

(** The handlers not taken yet, with their contexts *)
Fixpoint waiting (k : nat) (cs : list C) : list (nat * H) :=
  match cs with
  | [] => []
  | c :: cs' => (pair k <$> io_queue c) ++ waiting (S k) cs'
  end.

Lemma waiting_more cs i c c' h : ∀ k,
  cs !! i = Some c → io_queue c' ≡ₚ h :: io_queue c →
  waiting k (<[i := c']> cs) ≡ₚ ((k + i)%nat, h) :: waiting k cs.
Proof.
  revert i. induction cs as [|d cs IH]; intros [|i] k Hi Hq; cbn in *; simplify_eq.
  - rewrite Hq, Nat.add_0_r. done.
  - rewrite (IH i (S k) Hi Hq), <- Permutation_middle. by rewrite Nat.add_succ_comm.
Qed.

Lemma waiting_less cs i c c' h k :
  cs !! i = Some c → io_queue c ≡ₚ h :: io_queue c' →
  waiting k cs ≡ₚ ((k + i)%nat, h) :: waiting k (<[i := c']> cs).
Proof.
  intros Hi Hq. rewrite <- (waiting_more (<[i := c']> cs) i c' c h k).
  - by rewrite list_insert_insert_eq, list_insert_id.
  - apply list_lookup_insert_eq. by eapply lookup_lt_Some.
  - done.
Qed.

Lemma waiting_same (f : C → C) cs : ∀ k,
  (∀ c, io_queue (f c) ≡ₚ io_queue c) → waiting k (f <$> cs) ≡ₚ waiting k cs.
Proof. induction cs as [|c cs IH]; intros k Hf; cbn; [done|]. by rewrite Hf, IH. Qed.

Lemma waiting_none cs : ∀ k, Forall (λ c, io_queue c = []) cs → waiting k cs = [].
Proof. induction cs as [|c cs IH]; intros k Hc; cbn; [done|]. inversion_clear Hc as [|?? E ?]. by rewrite E, IH. Qed.

Lemma waiting_empty cs k : Forall (λ c, io_queue c = []) cs ↔ waiting k cs = [].
Proof.
  split; [apply waiting_none|]. revert k. induction cs as [|c cs IH]; intros k; cbn; [by constructor|].
  intros [Hq Hw]%app_eq_nil. apply fmap_nil_inv in Hq. constructor; [done|by eapply IH].
Qed.

Definition ctx_of (ts : list nat) (t : nat) : nat := default 0%nat (ts !! t).

Definition run_on (ts : list nat) (th : nat * H) : nat * H := (ctx_of ts th.1, th.2).

(** The choice of a context stays in range *)
Definition front_ok s : Prop :=
  match front s with
  | ByContext p => ctxs_size p = length (ctxs_ s) ∧ (0 < ctxs_size p)%nat ∧ Z.of_nat (ctxs_size p) < 2 ^ 64
  | ByThread => length (ctxs_ s) = 1%nat
  end.

Record pool_inv s : Prop := {
  inv_account : posted s ≡ₚ (run_on (threads_ s) <$> ran s) ++ waiting 0 (ctxs_ s);
  inv_length : length (ended s) = length (threads_ s);
  inv_range : ∀ t i, threads_ s !! t = Some i → is_Some (ctxs_ s !! i);
  inv_served : ∀ i c, ctxs_ s !! i = Some c → i ∈ threads_ s;
  inv_work : ∀ i c, ctxs_ s !! i = Some c → io_work c = if stopping s then 0%nat else 1%nat;
  inv_alive : stopping s = false → ∀ t e, ended s !! t = Some e → e = false;
  inv_done : ∀ t i c, ended s !! t = Some true → threads_ s !! t = Some i → ctxs_ s !! i = Some c → io_queue c = [];
  inv_joined : ∀ t, (t < joined s)%nat → ended s !! t = Some true;
  inv_front : front_ok s
}.

Lemma pool_size_pos size : (0 < pool_size size)%nat.
Proof. unfold pool_size. case_if; lia. Qed.

Lemma guarded_new : io_queue (io_guard (@io_new C H _)) = [] ∧ io_work (io_guard (@io_new C H _)) = 1%nat.
Proof.
  destruct (law_io_new (C := C)) as [Hq Hw], (law_io_guard (@io_new C H _)) as [Hq' Hw']. rewrite Hw'. split; [|congruence].
  apply Permutation_nil_r. by rewrite Hq', Hq.
Qed.

Lemma IOContextPool_inv size : size < 2 ^ 32 → pool_inv (IOContextPool_start size).
Proof.
  intros Hsz. pose proof (pool_size_pos size) as Hp. destruct guarded_new as [Hq Hw].
  constructor; cbn [posted ran ctxs_ threads_ ended stopping joined front IOContextPool_start].
  - rewrite waiting_none; [done|]. by apply Forall_replicate.
  - by rewrite length_replicate, length_seq.
  - intros t i Ht. apply lookup_seq in Ht as [-> Ht]. rewrite lookup_replicate_2; [by eexists|lia].
  - intros i c [_ Hi]%lookup_replicate. apply elem_of_seq. lia.
  - by intros i c [-> _]%lookup_replicate.
  - by intros _ t e [-> _]%lookup_replicate.
  - by intros t i c [? _]%lookup_replicate.
  - intros t Ht. lia.
  - unfold front_ok. cbn. rewrite length_replicate. split_and!; [done|done|]. unfold pool_size. case_if; lia.
Qed.

Lemma IOThreadPool_inv size : pool_inv (IOThreadPool_start size).
Proof.
  pose proof (pool_size_pos size) as Hp. destruct guarded_new as [Hq Hw].
  constructor; cbn [posted ran ctxs_ threads_ ended stopping joined front IOThreadPool_start].
  - rewrite waiting_none; [done|]. by repeat constructor.
  - by rewrite !length_replicate.
  - intros t i [-> _]%lookup_replicate. by eexists.
  - intros i c [-> <-]%list_lookup_singleton_Some. apply list_elem_of_lookup. exists 0%nat. by apply lookup_replicate_2.
  - by intros i c [-> <-]%list_lookup_singleton_Some.
  - by intros _ t e [-> _]%lookup_replicate.
  - by intros t i c [? _]%lookup_replicate.
  - intros t Ht. lia.
  - done.
Qed.

Lemma alter_insert (f : C → C) (cs : list C) (i : nat) c : cs !! i = Some c → alter f i cs = <[i := f c]> cs.
Proof. revert i. induction cs as [|d cs IH]; intros [|i] Hi; cbn in *; simplify_eq; [done|]. f_equal. by apply IH. Qed.

Lemma insert_in_range (cs : list C) (i j : nat) c : is_Some (cs !! j) → is_Some (<[i := c]> cs !! j).
Proof. rewrite !lookup_lt_is_Some, length_insert. done. Qed.

(** No thread has left the context [i] *)
Definition open_ctx s (i : nat) : Prop := ∀ t, threads_ s !! t = Some i → ended s !! t ≠ Some true.

Lemma post_to_inv i h s :
  is_Some (ctxs_ s !! i) → open_ctx s i → pool_inv s → pool_inv (post_to i h s).
Proof.
  intros [c Hc] Ho Hinv. destruct (law_io_post h c) as [Hq Hw].
  assert (Hlk : ∀ j d, alter (io_post h) i (ctxs_ s) !! j = Some d →
    (j = i ∧ d = io_post h c) ∨ (j ≠ i ∧ ctxs_ s !! j = Some d)).
  { intros j d. rewrite (alter_insert _ _ _ _ Hc). intros [(-> & -> & _)|[? ?]]%list_lookup_insert_Some; auto. }
  destruct Hinv as [Ia Il Ir Is Iw Ial Id Ij If].
  constructor; cbn [posted ran ctxs_ threads_ ended stopping joined front post_to].
  - rewrite (alter_insert _ _ _ _ Hc), (waiting_more _ _ _ _ _ 0 Hc Hq), <- Permutation_middle, Ia. done.
  - done.
  - intros t j Ht. rewrite (alter_insert _ _ _ _ Hc). apply insert_in_range. eauto.
  - intros j d [[-> ->]|[_ Hd]]%Hlk; eauto.
  - intros j d [[-> ->]|[_ Hd]]%Hlk; [rewrite Hw|]; eauto.
  - done.
  - intros t j d He Ht [[-> ->]|[_ Hd]]%Hlk; [by destruct (Ho t)|eauto].
  - done.
  - unfold front_ok in *. cbn. by rewrite length_alter.
Qed.

Lemma post_all_inv i hs s :
  is_Some (ctxs_ s !! i) → open_ctx s i → pool_inv s → pool_inv (post_all i hs s).
Proof.
  intros Hi Ho Hinv.
  assert (H' : is_Some (ctxs_ (post_all i hs s) !! i) ∧ open_ctx (post_all i hs s) i ∧ pool_inv (post_all i hs s));
    [|tauto].
  induction hs as [|h hs (IHi & IHo & IHinv)]; cbn [post_all foldr]; [done|]. fold (post_all i hs s).
  split_and!; [|done|by apply post_to_inv]. cbn [post_to ctxs_]. destruct IHi as [c Hc].
  rewrite (alter_insert _ _ _ _ Hc). apply insert_in_range. by rewrite Hc.
Qed.

(** The thread that takes a handler keeps its context open. *)
Lemma take_inv s t i c h c' :
  threads_ s !! t = Some i → ctxs_ s !! i = Some c → io_next c = Some (h, c') → pool_inv s →
  let s1 := mkPool (front s) (<[i := c']> (ctxs_ s)) (threads_ s) (ended s) (stopping s) (joined s) (posted s) ((t, h) :: ran s) in
  pool_inv s1 ∧ open_ctx s1 i ∧ is_Some (ctxs_ s1 !! i).
Proof.
  intros Ht Hc Hn Hinv s1. destruct (law_io_next c h c' Hn) as [Hq Hw].
  assert (Ho : open_ctx s1 i).
  { intros t' Ht' He. pose proof (inv_done s Hinv t' i c He Ht' Hc) as E. rewrite E in Hq.
    by apply Permutation_nil_cons in Hq. }
  assert (Hlt : (i < length (ctxs_ s))%nat) by (by eapply lookup_lt_Some).
  split_and!; [|done|subst s1; cbn; by rewrite list_lookup_insert_eq].
  assert (Hlk : ∀ j d, <[i := c']> (ctxs_ s) !! j = Some d → (j = i ∧ d = c') ∨ (j ≠ i ∧ ctxs_ s !! j = Some d)).
  { intros j d [(-> & -> & _)|[? ?]]%list_lookup_insert_Some; auto. }
  destruct Hinv as [Ia Il Ir Is Iw Ial Id Ij If].
  subst s1. constructor; cbn [posted ran ctxs_ threads_ ended stopping joined front].
  - rewrite Ia, (waiting_less _ _ _ _ _ 0 Hc Hq). rewrite fmap_cons. cbn [app].
    rewrite <- Permutation_middle. assert (run_on (threads_ s) (t, h) = (i, h)) as ->; [|done].
    unfold run_on, ctx_of. cbn. by rewrite Ht.
  - done.
  - intros t' j Ht'. apply insert_in_range. eauto.
  - intros j d [[-> ->]|[_ Hd]]%Hlk; eauto.
  - intros j d [[-> ->]|[_ Hd]]%Hlk; [rewrite Hw|]; eauto.
  - done.
  - intros t' j d He Ht' [[-> ->]|[_ Hd]]%Hlk; [by destruct (Ho t')|eauto].
  - done.
  - unfold front_ok in *. cbn. by rewrite length_insert.
Qed.

Lemma exit_inv s t i c :
  threads_ s !! t = Some i → ctxs_ s !! i = Some c → io_exit c = true → pool_inv s →
  pool_inv (mkPool (front s) (ctxs_ s) (threads_ s) (<[t := true]> (ended s)) (stopping s) (joined s) (posted s) (ran s)).
Proof.
  intros Ht Hc [Hq Hw]%law_io_exit [Ia Il Ir Is Iw Ial Id Ij If].
  constructor; cbn [posted ran ctxs_ threads_ ended stopping joined front]; try done.
  - by rewrite length_insert.
  - intros Hs. exfalso. pose proof (Iw i c Hc) as H1. rewrite Hs, Hw in H1. done.
  - intros t' j d [(-> & _ & _)|[? He]]%list_lookup_insert_Some Hj Hd; [|eauto]. by simplify_eq.
  - intros t' Ht'. destruct (decide (t' = t)) as [->|]; [|rewrite list_lookup_insert_ne by done; by apply Ij].
    apply list_lookup_insert_eq. rewrite Il. by eapply lookup_lt_Some.
Qed.

Lemma io_step_inv e s s' :
  (stopping s = true → ∀ h, e ≠ PPost h) → io_step e s = Some s' → pool_inv s → pool_inv s'.
Proof.
  intros Hp Hs Hinv. destruct e as [h|t hs| |]; cbn [io_step] in Hs.
  - assert (Hst : stopping s = false) by (destruct (stopping s); [by destruct (Hp eq_refl h)|done]).
    assert (Ho : ∀ i, open_ctx s i) by (intros i t _ He; by pose proof (inv_alive s Hinv Hst t true He)).
    pose proof (inv_front s Hinv) as Hf. unfold front_ok, next_context in *.
    destruct (front s) as [p|] eqn:Ef.
    + destruct Hf as (Hl & Hz & Hb). rewrite (GetNextIOContext_Ok p Hz Hb) in Hs. cbn [mbind res_bind fst snd] in Hs.
      injection Hs as <-. pose proof (Z.mod_pos_bound (nxt_ p) (Z.of_nat (ctxs_size p)) ltac:(lia)).
      apply post_to_inv; [cbn; apply lookup_lt_is_Some; lia|exact (Ho _)|].
      destruct Hinv as [Ia Il Ir Is Iw Ial Id Ij If]. constructor; try done.
    + injection Hs as <-. apply post_to_inv; [|exact (Ho _)|done]. apply lookup_lt_is_Some. rewrite Hf. apply Nat.lt_0_1.
  - unfold thread_step in Hs. destruct (threads_ s !! t) as [i|] eqn:Ht; [|done].
    cbn in Hs. destruct (ended s !! t) as [e|] eqn:He; [|done].
    cbn in Hs. destruct (ctxs_ s !! i) as [c|] eqn:Hc; [|done]. cbn in Hs. destruct e; [done|]. destruct (io_exit c) eqn:Hx; [injection Hs as <-; by apply (exit_inv s t i c)|].
    destruct (io_next c) as [[h c']|] eqn:Hn; [|done]. injection Hs as <-.
    destruct (take_inv s t i c h c' Ht Hc Hn Hinv) as (Hi1 & Ho & Hsm). by apply post_all_inv.
  - destruct (stopping s) eqn:Hst; [done|]. injection Hs as <-. destruct Hinv as [Ia Il Ir Is Iw Ial Id Ij If].
    constructor; cbn [posted ran ctxs_ threads_ ended stopping joined front release_works]; try done.
    + rewrite Ia, waiting_same; [done|]. intros c. apply law_io_unguard.
    + intros t i [c Hc]%Ir. rewrite list_lookup_fmap, Hc. by eexists.
    + intros i c Hc. rewrite list_lookup_fmap in Hc. apply fmap_Some in Hc as (d & Hd & _). eauto.
    + intros i c Hc. rewrite list_lookup_fmap in Hc. apply fmap_Some in Hc as (d & Hd & ->).
      destruct (law_io_unguard d) as [_ ->]. by rewrite (Iw i d Hd), Hst.
    + intros t i c He. by pose proof (Ial Hst t true He).
    + unfold front_ok in *. cbn. rewrite length_fmap. by destruct (front s).
  - case_match eqn:E; [|done]. injection Hs as <-. apply andb_prop in E as [_ He].
    destruct (ended s !! joined s) as [[]|] eqn:He'; [|done..].
    destruct Hinv as [Ia Il Ir Is Iw Ial Id Ij If]. constructor; try done. cbn. intros t Ht.
    destruct (decide (t = joined s)) as [->|]; [done|]. apply Ij. lia.
Qed.

Lemma io_reach_inv s0 s : pool_reach s0 s → pool_inv s0 → pool_inv s.
Proof. induction 1 as [|e s s' _ IH Hp Hs]; [done|]. intros H0. eapply io_step_inv; eauto. Qed.

(** *** Progress *)

(** A thread whose context has a handler waiting takes one. *)
Lemma thread_takes s t i c :
  pool_inv s → threads_ s !! t = Some i → ctxs_ s !! i = Some c → io_queue c ≠ [] →
  ∃ h c', io_next c = Some (h, c') ∧ thread_step t [] s =
    Some (mkPool (front s) (<[i := c']> (ctxs_ s)) (threads_ s) (ended s) (stopping s) (joined s) (posted s) ((t, h) :: ran s)).
Proof.
  intros Hinv Ht Hc Hq. destruct (law_io_ready c Hq) as [[h c'] Hn]. exists h, c'. split; [done|].
  assert (He : ended s !! t = Some false).
  { destruct (lookup_lt_is_Some_2 (ended s) t) as [[] He]; [|exfalso|done].
    - rewrite (inv_length s Hinv). by eapply lookup_lt_Some.
    - by destruct Hq, (inv_done s Hinv t i c He Ht Hc). }
  unfold thread_step. rewrite Ht; cbn; rewrite He; cbn; rewrite Hc; cbn.
  destruct (io_exit c) eqn:Hx; [by apply law_io_exit in Hx as [? _]|]. by rewrite Hn.
Qed.

Lemma in_waiting cs i h : ∀ k, (i, h) ∈ waiting k cs → ∃ c, cs !! (i - k)%nat = Some c ∧ (k <= i)%nat ∧ io_queue c ≠ [].
Proof.
  induction cs as [|c cs IH]; intros k; cbn [waiting]; [by intros ?%elem_of_nil|].
  intros [Hin|Hin]%elem_of_app.
  - apply list_elem_of_fmap in Hin as (h' & [= -> ->] & Hh). exists c. rewrite Nat.sub_diag. split_and!; [done|done|].
    intros E. rewrite E in Hh. by apply elem_of_nil in Hh.
  - destruct (IH (S k) Hin) as (d & Hd & Hle & Hq). exists d. split_and!; [|lia|done].
    by replace (i - k)%nat with (S (i - S k)) by lia.
Qed.

(** Steps of the pool alone, with handlers that post nothing *)
Definition quiet (e : pool_ev H) : Prop := match e with PJoin => True | PThread _ hs => hs = [] | _ => False end.

Definition active (es : list bool) : nat := foldr (λ (e : bool) n, if e then n else S n) 0%nat es.

(** Handlers to run, threads that have not left, threads to join *)
Definition left_to_do s : nat := (length (waiting 0 (ctxs_ s)) + active (ended s) + (length (threads_ s) - joined s))%nat.

Lemma active_insert es : ∀ t, es !! t = Some false → active es = S (active (<[t := true]> es)).
Proof.
  induction es as [|e es IH]; intros [|t] Ht; cbn in *; simplify_eq; [done|].
  fold (active es) (active (<[t := true]> es)). by rewrite (IH t Ht); destruct e.
Qed.

Lemma quiet_step_less e s s' :
  pool_inv s → quiet e → io_step e s = Some s' → left_to_do s = S (left_to_do s') ∧ stopping s' = stopping s.
Proof.
  intros Hinv Hq Hs. unfold left_to_do. destruct e as [h|t hs| |]; cbn [quiet io_step] in *; [done| |done|].
  - subst hs. unfold thread_step in Hs. destruct (threads_ s !! t) as [i|] eqn:Ht; [|done].
    cbn in Hs. destruct (ended s !! t) as [e|] eqn:He; [|done].
    cbn in Hs. destruct (ctxs_ s !! i) as [c|] eqn:Hc; [|done]. cbn in Hs. destruct e; [done|].
    destruct (io_exit c) eqn:Hx.
    + injection Hs as <-. cbn [ctxs_ ended threads_ joined stopping]. rewrite (active_insert _ _ He). split; [lia|done].
    + destruct (io_next c) as [[h c']|] eqn:Hn; [|done]. injection Hs as <-.
      cbn [ctxs_ ended threads_ joined stopping post_all foldr]. split; [|done].
      destruct (law_io_next c h c' Hn) as [Hp _]. rewrite (waiting_less _ _ _ _ _ 0 Hc Hp). cbn [length]. lia.
  - case_match eqn:E; [|done]. injection Hs as <-. apply andb_prop in E as [_ He].
    cbn [ctxs_ ended threads_ joined stopping]. split; [|done].
    destruct (ended s !! joined s) as [[]|] eqn:He'; [|done..]. apply lookup_lt_Some in He'.
    rewrite (inv_length s Hinv) in He'. lia.
Qed.

(** While [Stop] has not returned, some thread can go on. *)
Lemma quiet_progress s :
  pool_inv s → stopping s = true → joined s ≠ length (threads_ s) → ∃ e s', quiet e ∧ io_step e s = Some s'.
Proof.
  intros Hinv Hst Hj.
  assert (Hjl : (joined s < length (threads_ s))%nat).
  { assert (¬ (length (threads_ s) < joined s)%nat); [|lia]. intros Hlt.
    pose proof (inv_joined s Hinv _ Hlt) as He. apply lookup_lt_Some in He. rewrite (inv_length s Hinv) in He. lia. }
  destruct (lookup_lt_is_Some_2 (threads_ s) (joined s) Hjl) as [i Hi].
  destruct (inv_range s Hinv _ _ Hi) as [c Hc].
  destruct (lookup_lt_is_Some_2 (ended s) (joined s)) as [[] He]; [by rewrite (inv_length s Hinv)|..].
  - exists PJoin. eexists. split; [done|]. cbn [io_step]. by rewrite Hst, He.
  - exists (PThread (joined s) []). destruct (io_queue c) as [|h hs] eqn:Hq.
    + eexists. split; [done|]. cbn [io_step]. unfold thread_step. rewrite Hi; cbn; rewrite He; cbn; rewrite Hc; cbn.
      assert (io_exit c = true) as ->; [|done]. apply law_io_exit. split; [done|]. by rewrite (inv_work s Hinv i c Hc), Hst.
    + destruct (thread_takes s (joined s) i c Hinv Hi Hc) as (h' & c' & _ & E); [by rewrite Hq|].
      eexists. split; [done|exact E].
Qed.

Fixpoint io_run (es : list (pool_ev H)) s : option (io_pool C H) :=
  match es with
  | [] => Some s
  | e :: es' => s' ← io_step e s; io_run es' s'
  end.

Lemma quiet_run es : ∀ s s',
  pool_inv s → Forall quiet es → io_run es s = Some s' →
  pool_inv s' ∧ stopping s' = stopping s ∧ (length es + left_to_do s')%nat = left_to_do s.
Proof.
  induction es as [|e es IH]; intros s s' Hinv Hq Hr; cbn [io_run] in Hr; [by simplify_eq|].
  apply bind_Some in Hr as (s1 & Hs & Hr). inversion_clear Hq as [|?? He Hes].
  destruct (quiet_step_less e s s1 Hinv He Hs) as [Hl Hst].
  assert (Hinv1 : pool_inv s1) by (eapply io_step_inv; [|exact Hs|done]; intros _ h ->; done).
  destruct (IH s1 s' Hinv1 Hes Hr) as (? & Hst' & Hlen). split_and!; [done|congruence|]. cbn. lia.
Qed.

Lemma reach_run es s0 : ∀ s s',
  pool_reach s0 s → Forall (λ e, ∀ h, e ≠ PPost h) es → io_run es s = Some s' → pool_reach s0 s'.
Proof.
  induction es as [|e es IH]; intros s s' Hr Hf E; cbn [io_run] in E; [by simplify_eq|].
  apply bind_Some in E as (s1 & Hs & E). inversion_clear Hf as [|?? He Hes].
  apply (IH s1); [|done|done]. by eapply pool_next.
Qed.

Lemma stopped_empty s : pool_inv s → stop_returned s → waiting 0 (ctxs_ s) = [].
Proof.
  intros Hinv [Hst Hj]. apply waiting_none. apply Forall_lookup. intros i c Hc.
  pose proof (inv_served s Hinv i c Hc) as Hin. apply list_elem_of_lookup in Hin as [t Ht].
  eapply (inv_done s Hinv t i c); [|done|done]. apply (inv_joined s Hinv). rewrite Hj. by eapply lookup_lt_Some.
Qed.
End facts.

(** Both pools, by their constructors *)
Inductive pool_made {C H} `{!IoContext C H} : io_pool C H → Prop :=
  | made_contexts size : size < 2 ^ 32 → pool_made (IOContextPool_start size)
  | made_threads size : pool_made (IOThreadPool_start size).

Lemma pool_made_inv {C H} `{!IoContext C H, !IoContextLaws C H} (s : io_pool C H) : pool_made s → pool_inv s.
Proof. destruct 1; [by apply IOContextPool_inv|apply IOThreadPool_inv]. Qed.

(** ** A concrete io_context: a queue and a count *)

#[export] Instance queue_io {H} : IoContext (list H * nat) H := {
  io_new := ([], 0%nat);
  io_post h c := (c.1 ++ [h], c.2);
  io_guard c := (c.1, S c.2);
  io_unguard c := (c.1, pred c.2);
  io_next c := match c.1 with [] => None | h :: q => Some (h, (q, c.2)) end;
  io_exit c := match c.1 with [] => (c.2 =? 0)%nat | _ => false end
}.

#[export] Program Instance queue_io_laws {H} : IoContextLaws (list H * nat) H := {
  io_queue c := c.1;
  io_work c := c.2
}.
Next Obligation. done. Qed.
Next Obligation. intros H h c. split; [|done]. cbn. by rewrite <- Permutation_cons_append. Qed.
Next Obligation. done. Qed.
Next Obligation. done. Qed.
Next Obligation. intros H [[|h' q] n] h c' E; cbn in *; [done|]. by simplify_eq. Qed.
Next Obligation. intros H [[|h q] n] E; cbn in *; [done|]. by eexists. Qed.
Next Obligation. intros H [[|h q] n]; cbn; [rewrite Nat.eqb_eq|]; naive_solver. Qed.

(** ** Theorems *)

(** C27. Stopping a pool loses nothing: for both pools, in every interleaving of users, threads
    and the stopping thread in which users do not post once the stop has begun, when [Stop]
    has returned every handler that was ever posted has been run exactly once, on a thread
    of the context it was posted to. *)
Theorem pool_stop_drains {C H} `{!IoContext C H, !IoContextLaws C H} (s0 s : io_pool C H) :
  pool_made s0 → pool_reach s0 s → stop_returned s → posted s ≡ₚ run_on (threads_ s) <$> ran s.
Proof.
  intros H0 Hr Hs. pose proof (io_reach_inv s0 s Hr (pool_made_inv s0 H0)) as Hinv.
  rewrite (inv_account s Hinv), (stopped_empty s Hinv Hs). by rewrite app_nil_r.
Qed.

(** A pool of two contexts gets two handlers, one of which posts a third, and is stopped. *)
Definition io_demo : io_pool (list nat * nat) nat :=
  default (IOContextPool_start 2) (io_run [PPost 7%nat; PPost 8%nat] (IOContextPool_start 2)).

Lemma io_demo_reach : pool_reach (IOContextPool_start 2) io_demo.
Proof.
  apply (pool_next _ (PPost 8%nat) (default (IOContextPool_start 2) (io_run [PPost 7%nat] (IOContextPool_start 2))));
    [|by vm_compute|vm_compute; reflexivity].
  by apply (pool_next _ (PPost 7%nat) (IOContextPool_start 2)); [apply pool_start|vm_compute|vm_compute; reflexivity].
Qed.

Definition demo_stop : list (pool_ev nat) := [PThread 1 [9%nat]; PStop].

Definition demo_quiet : list (pool_ev nat) := [PThread 0 []; PThread 1 []; PThread 0 []; PThread 1 []; PJoin; PJoin].

Lemma pool_stop_drains_witness :
  ∃ s, io_run (demo_stop ++ demo_quiet) io_demo = Some s ∧ length (ran s) = 3%nat
    ∧ posted s ≡ₚ run_on (threads_ s) <$> ran s.
Proof.
  eexists. split; [vm_compute; reflexivity|]. split; [reflexivity|].
  apply (pool_stop_drains (IOContextPool_start 2)); [by apply made_contexts| |vm_compute; by split].
  apply (reach_run (demo_stop ++ demo_quiet) _ io_demo);
    [exact io_demo_reach|by repeat constructor|vm_compute; reflexivity].
Defined.

(** Until it is stopped a pool serves: no thread leaves, and a handler that waits can be
    taken at once by a thread of its context. *)
Theorem pool_serves {C H} `{!IoContext C H, !IoContextLaws C H} (s0 s : io_pool C H) :
  pool_made s0 → pool_reach s0 s → stopping s = false →
  (∀ t e, ended s !! t = Some e → e = false)
  ∧ ∀ i h, (i, h) ∈ waiting 0 (ctxs_ s) →
      ∃ t s', threads_ s !! t = Some i ∧ io_step (PThread t []) s = Some s' ∧ length (ran s') = S (length (ran s)).
Proof.
  intros H0 Hr Hst. pose proof (io_reach_inv s0 s Hr (pool_made_inv s0 H0)) as Hinv.
  split; [by apply (inv_alive s Hinv)|]. intros i h Hin. destruct (in_waiting _ _ _ _ Hin) as (c & Hc & _ & Hq).
  rewrite Nat.sub_0_r in Hc. pose proof (inv_served s Hinv i c Hc) as Ht. apply list_elem_of_lookup in Ht as [t Ht].
  destruct (thread_takes s t i c Hinv Ht Hc Hq) as (h' & c' & _ & E). exists t. eexists. split_and!; [done|exact E|done].
Qed.

Lemma pool_serves_witness :
  (∀ t e, ended io_demo !! t = Some e → e = false)
  ∧ ∀ i h, (i, h) ∈ waiting 0 (ctxs_ io_demo) →
      ∃ t s', threads_ io_demo !! t = Some i ∧ io_step (PThread t []) io_demo = Some s'
        ∧ length (ran s') = S (length (ran io_demo)).
Proof.
  apply (pool_serves (IOContextPool_start 2) io_demo); [by apply made_contexts|exact io_demo_reach|reflexivity].
Defined.

(** C36. [Stop] returns: once it was called and the handlers post nothing more, the pool makes at
    most [left_to_do] further steps whatever the scheduler does, and as long as [Stop] has
    not returned one of them is possible. *)
Theorem pool_stop_returns {C H} `{!IoContext C H, !IoContextLaws C H} (s0 s s' : io_pool C H) es :
  pool_made s0 → pool_reach s0 s → stopping s = true → Forall quiet es → io_run es s = Some s' →
  (length es <= left_to_do s)%nat ∧ (stop_returned s' ∨ ∃ e s'', quiet e ∧ io_step e s' = Some s'').
Proof.
  intros H0 Hr Hst Hq E. pose proof (io_reach_inv s0 s Hr (pool_made_inv s0 H0)) as Hinv.
  destruct (quiet_run es s s' Hinv Hq E) as (Hinv' & Hst' & Hl). split; [lia|].
  destruct (decide (joined s' = length (threads_ s'))) as [Hj|Hj]; [left; split; congruence|right].
  apply quiet_progress; [done|congruence|done].
Qed.

Lemma pool_stop_returns_witness :
  ∃ s s', io_run demo_stop io_demo = Some s ∧ io_run demo_quiet s = Some s'
    ∧ (length demo_quiet <= left_to_do s)%nat ∧ (stop_returned s' ∨ ∃ e s'', quiet e ∧ io_step e s' = Some s'').
Proof.
  eexists _, _. split; [vm_compute; reflexivity|]. split; [vm_compute; reflexivity|].
  apply (pool_stop_returns (IOContextPool_start 2));
    [by apply made_contexts| |reflexivity|by repeat constructor|vm_compute; reflexivity].
  apply (reach_run demo_stop _ io_demo); [exact io_demo_reach|by repeat constructor|vm_compute; reflexivity].
Defined.

(** The singleton is made once: whatever the number of calls, all get the object the first
    one made. *)
Theorem GetInstance_once {T} (make other : T) :
  let '(inst, x) := GetInstance make None in x = make ∧ GetInstance other inst = (inst, make).
Proof. done. Qed.
