(* ===== verification/Gateway.v ===== *)
(** * The HTTP gateway: routing, login and registration
      (src/src/http/req_handler.cpp, req_handler.hpp, redis/gateway_redis.cpp)

    A request is handled by one thread of the handler's pool; [Gateway] is what the handler
    owns: the user store, the Redis handle, the stub of the status service and the id
    generator.  HTTP messages are records of the parts the handlers set and read.  JSON,
    Redis, the random generator and the base-64 coding of OpenSSL are arguments; the script
    of [UserLoginAttempt] is written out as the commands it runs.  [req_env] holds what one
    request reads from outside: the clocks and the random bytes. *)

From S2P Require Import Prelude Decimal CppString Security Dbm Snowflake RedisBase Backend StatusService.
From Stdlib Require Import Ascii.

(** ** HTTP messages *)

Inductive verb := GET | POST | OTHER.

Record http_request := mkRequest {
  method : verb;
  target : string;
  version : Z;
  keep_alive : bool;
  body : string
}.

Record http_response := mkResponse {
  result : Z;
  resp_version : Z;
  content_type : string;
  resp_keep_alive : bool;
  resp_body : string
}.

(** The four error pages differ in status and body. *)
Definition error_page (status : Z) (req : http_request) (text : string) : http_response :=
  mkResponse status (version req) "text/html" (keep_alive req) text.

Definition BadRequest (req : http_request) (prompt : string) : http_response := error_page 400 req prompt.

Definition ForbiddenRequest (req : http_request) (prompt : string) : http_response := error_page 403 req prompt.

Definition NotFound (req : http_request) : http_response :=
  error_page 404 req ("The resource '" +:+ target req +:+ "' was not found.").

Definition ServerError (req : http_request) (what : string) : http_response := error_page 500 req what.

(** A response built from [http::response<string_body> resp], whose version is 1.1 *)
Definition reply_page (status : Z) (type : string) (req : http_request) (text : string) : http_response :=
  mkResponse status 11 type (keep_alive req) text.

(** ** Libraries *)

(** The values the program writes into JSON objects *)
Inductive jval := JStr (s : string) | JUInt (n : Z) | JInt (n : Z).

Class JsonLib (J : Type) := {
  jparse : string → option J;                    (* Reader::parse *)
  jstring : J → string → res string;             (* v[key].asString() *)
  juint64 : J → string → res Z;                  (* v[key].asUInt64() *)
  jwrite : list (string * jval) → string         (* writing an object *)
}.

(** The commands of Redis only the gateway uses *)
Class GatewayRedis (Rd : Type) := {
  redis_setex : Rd → string → Z → string → res Rd;
  redis_hexists : Rd → string → string → res bool;
  redis_hset : Rd → string → list (string * string) → res Rd;
  redis_pexpire : Rd → string → Z → res Rd;
  redis_script_load : Rd → string → res (Rd * string)
}.

(** The stub call [CheckMinimalLoadServer]: the grpc status and [server_addr] *)
Class MinimalRPC (Sv : Type) := { rpc_minimal : Sv → res (Sv * Status * string) }.

Definition rpc_ok (s : Status) : bool := match code s with OK => true | _ => false end.

(** ** [TokenGenerator] *)

Section token.
Context (base64 : list Z → string).              (* EVP_EncodeBlock *)

Definition TOKEN_BYTES : nat := 24.

Definition url_char (c : ascii) : ascii :=
  if decide (c = "+"%char) then "-"%char else if decide (c = "/"%char) then "_"%char else c.

Fixpoint url_safe (s : string) : string :=
  match s with
  | EmptyString => ""
  | String c s' => String (url_char c) (url_safe s')
  end.

(** [token.erase(remove(token.begin(), token.end(), c), token.end())] *)
Fixpoint erase_char (c : ascii) (s : string) : string :=
  match s with
  | EmptyString => ""
  | String d s' => if decide (d = c) then erase_char c s' else String d (erase_char c s')
  end.

(** [vector<unsigned char> token_bytes(24)] starts as zeros. *)
Definition TokenGenerator (ndebug : bool) (rnd : option (list Z)) : res string :=
  token_bytes ← rand_buffer ndebug rnd (replicate TOKEN_BYTES 0);
  Ok (erase_char "="%char (url_safe (base64 token_bytes))).
End token.

(** ** The gateway *)

Record Gateway (D Rd Sv : Type) := mkGateway {
  dbm_ : DBM D;
  g_redis_ : BaseRedisMgr Rd;
  rpc_ : Sv;
  uid_gen_ : UIDGenerator
}.
Arguments mkGateway {D Rd Sv}.
Arguments dbm_ {D Rd Sv} _.
Arguments g_redis_ {D Rd Sv} _.
Arguments rpc_ {D Rd Sv} _.
Arguments uid_gen_ {D Rd Sv} _.

Record req_env := mkEnv {
  sys_clock : list Z;            (* readings of system_clock *)
  timestamp_ms : Z;              (* GetTimestampMs() *)
  salt_rnd : option (list Z);    (* RAND_bytes for the salt *)
  token_rnd : option (list Z)    (* RAND_bytes for the token *)
}.

Section gateway.
Context {D Rd Sv J : Type}.
Context `{!MySql D, !Crypto, !RedisOps Rd, !GatewayRedis Rd, !MinimalRPC Sv, !JsonLib J}.
Context (base64 : list Z → string) (ndebug : bool) (junk : nat → list Z).

Abbreviation M := (st (Gateway D Rd Sv)).
Open Scope cpp_scope.

(** [ReqHandler(dbm, redis, rpc, pool_size, worker_id)] *)
Definition ReqHandler_new (dbm : DBM D) (redis : BaseRedisMgr Rd) (rpc : Sv) (worker_id : Z) : Gateway D Rd Sv :=
  mkGateway dbm redis rpc (UIDGenerator_init worker_id 1577836800000).

Definition set_dbm (g : Gateway D Rd Sv) m : Gateway D Rd Sv := mkGateway m (g_redis_ g) (rpc_ g) (uid_gen_ g).
Definition set_g_redis (g : Gateway D Rd Sv) r : Gateway D Rd Sv := mkGateway (dbm_ g) r (rpc_ g) (uid_gen_ g).
Definition set_rpc (g : Gateway D Rd Sv) s : Gateway D Rd Sv := mkGateway (dbm_ g) (g_redis_ g) s (uid_gen_ g).
Definition set_uid_gen (g : Gateway D Rd Sv) u : Gateway D Rd Sv := mkGateway (dbm_ g) (g_redis_ g) (rpc_ g) u.

(** A call on the user store; one that has to wait for a connection sleeps *)
Definition on_dbm {A} (prog : st (DBM D) (option A)) : M A := λ g,
  match prog (dbm_ g) with
  | (m, Ok (Some a)) => (set_dbm g m, Ok a)
  | (m, Ok None) => (set_dbm g m, UB blocked)
  | (m, Throw e) => (set_dbm g m, Throw e)
  | (m, UB w) => (set_dbm g m, UB w)
  end.

Definition GetRedis_g : M Rd := λ g, (g, GetRedis (g_redis_ g)).

Definition put_redis_g (rd : Rd) : M unit := st_mod (λ g, set_g_redis g (mkMgr (Some rd))).

Definition on_rpc : M (Status * string) := λ g,
  match rpc_minimal (rpc_ g) with
  | Ok (sv, s, addr) => (set_rpc g sv, Ok (s, addr))
  | Throw e => (g, Throw e)
  | UB w => (g, UB w)
  end.

Definition on_uid_gen (clock : list Z) : M Z := λ g,
  match Generate (uid_gen_ g) clock with
  | Some (id, u, _) => (set_uid_gen g u, Ok id)
  | None => (g, UB no_progress)
  end.

(** *** [gateway::RedisMgr] *)

Definition quoted (s : string) : string := String (char_of 34) (s +:+ String (char_of 34) "").

Definition newline : string := String (char_of 10) "".

Definition get_server_by_userid : string :=
  "local server_id = redis.call(" +:+ quoted "GET" +:+ ", KEYS[1])" +:+ newline +:+
  "if not server_id then" +:+ newline +:+
  "   return nil" +:+ newline +:+
  "end" +:+ newline +:+
  "return redis.call(" +:+ quoted "HGET" +:+ ", " +:+ "server_list" +:+ ", server_id)".

(** The result is [sha_server_by_user_] *)
Definition RegisterScript (m : BaseRedisMgr Rd) : res (BaseRedisMgr Rd * string) :=
  if IsConnected m then
    rd ← GetRedis m; r ← redis_script_load rd get_server_by_userid; Ok (mkMgr (Some r.1), r.2)
  else Throw (runtime_error "Redis connection not initialized").

Definition token_key (token : string) : string := "token:" +:+ token.

Definition RegisterUserToken (token user_id : string) (ttl : Z) : M unit :=
  rd <- GetRedis_g ;;
  rd <- st_res (redis_setex rd (token_key token) ttl user_id) ;;
  put_redis_g rd.

(** The time to live is 3600000 ms. *)
Definition UpdateUserInfo (now_ms : Z) (user_id user_name : string) : M bool :=
  rd <- GetRedis_g ;;
  r <- st_res (redis_hsetex rd ("userinfo:" +:+ user_id)
         (<["user_name" := user_name]> (<["last_login" := to_string now_ms]> ∅)) 3600) ;;
  put_redis_g r.1 ;;
  st_ret (r.2 =? 1).

(** The script: the reply is the old server or the empty string; a nil reply is not a string *)
Definition login_script (rd : Rd) (key : string) (px : Z) : res (Rd * string) :=
  ex ← redis_hexists rd key "server_id";
  if ex : bool then
    old ← redis_hget rd key "server_id";
    match old with
    | Some old_server => Ok (rd, old_server)
    | None => Throw (runtime_error "nil reply")
    end
  else
    rd ← redis_hset rd key [("server_id", "unset"); ("status", "verifyed")];
    rd ← redis_pexpire rd key px;
    Ok (rd, "").

Definition UserLoginAttempt (user_id : string) : M (bool * option string) :=
  rd <- GetRedis_g ;;
  r <- st_res (login_script rd ("status:" +:+ user_id) 60000) ;;
  put_redis_g r.1 ;;
  if bool_decide (r.2 = "") then st_ret (true, None) else st_ret (false, Some r.2).

Definition kick_fields (uid : Z) : list (string * string) := [("type", "kick"); ("uid", to_string uid)].

Definition SendServerKickCmd (server_id : string) (uid : Z) : M string :=
  rd <- GetRedis_g ;;
  r <- st_res (redis_xadd rd ("stream:serverctl:" +:+ server_id) (kick_fields uid) 1000) ;;
  put_redis_g r.1 ;;
  st_ret r.2.

(** *** Handlers *)

(** Both fields of the request, [None] when reading one of them throws *)
Definition read_credentials (readed : J) : res (option (string * string)) :=
  match jstring readed "username" with
  | Ok username => match jstring readed "passcode" with
                   | Ok passcode => Ok (Some (username, passcode))
                   | Throw _ => Ok None
                   | UB w => UB w
                   end
  | Throw _ => Ok None
  | UB w => UB w
  end.

(** The part of [LoginLogic] behind the check of the password *)
Definition login_verified (env : req_env) (req : http_request) (username : string) (uid : Z) : M http_response :=
  r <- on_rpc ;;
  if negb (rpc_ok r.1) then st_ret (ServerError req "Server error")
  else
    UpdateUserInfo (timestamp_ms env) (to_string uid) username ;;
    check_result <- UserLoginAttempt (to_string uid) ;;
    match check_result with
    | (false, None) => st_ret (ServerError req "Server error")
    | (false, Some server) =>
        if bool_decide (server = "unset")
        then st_ret (ForbiddenRequest req "Another client is trying to login!")
        else
          SendServerKickCmd server uid ;;
          st_ret (reply_page 409 "application/json" req
            (jwrite [("result", JStr "retry"); ("message", JStr "User already online, please retry later")]))
    | (true, _) =>
        token <- st_res (TokenGenerator base64 ndebug (token_rnd env)) ;;
        RegisterUserToken token (to_string uid) 50 ;;
        st_ret (reply_page 200 "application/json" req
          (jwrite [("result", JStr "ok"); ("token", JStr token); ("server_addr", JStr r.2); ("uid", JUInt uid)]))
    end.

Definition LoginLogic (env : req_env) (req : http_request) : M http_response :=
  match jparse (body req) with
  | None => st_ret (BadRequest req "Invalid request format")
  | Some readed =>
      cred <- st_res (read_credentials readed) ;;
      match cred with
      | None => st_ret (BadRequest req "Invalid request format")
      | Some (username, passcode) =>
          db_ret <- on_dbm (VerifyUserInfo username passcode 0) ;;
          if db_ret.1 =? GATEWAY_SUCCESS then login_verified env req username db_ret.2
          else if (db_ret.1 =? GATEWAY_USER_NOT_EXIST) || (db_ret.1 =? GATEWAY_VERIFY_FAILED)
          then st_ret (ForbiddenRequest req "Incorrect login username or password")
          else st_ret (ServerError req "Server error")
      end
  end.

Definition PostRegisterLogic (env : req_env) (req : http_request) : M http_response :=
  match jparse (body req) with
  | None => st_ret (BadRequest req "Invalid request format")
  | Some readed =>
      cred <- st_res (read_credentials readed) ;;
      match cred with
      | None => st_ret (BadRequest req "Invalid request format")
      | Some (username, passcode) =>
          uid <- on_uid_gen (sys_clock env) ;;
          db_ret <- on_dbm (RegisterNew ndebug junk (salt_rnd env) username passcode uid) ;;
          if db_ret =? GATEWAY_SUCCESS then
            st_ret (reply_page 200 "application/json" req
              (jwrite [("result", JInt 0); ("message", JStr "success")]))
          else if db_ret =? GATEWAY_REG_ALREADY_EXIST
          then st_ret (ForbiddenRequest req "Username already exists")
          else if db_ret =? GATEWAY_MYSQL_SERVER_ERROR
          then st_ret (ServerError req "MySQL server error")
          else st_ret (ServerError req "Server error")
      end
  end.

Definition PingLogic (req : http_request) : M http_response :=
  st_ret (reply_page 200 "text/html" req "pong").

Definition PostHandler (env : req_env) (req : http_request) : M http_response :=
  if bool_decide (target req = "/login") then LoginLogic env req
  else if bool_decide (target req = "/register") then PostRegisterLogic env req
  else if bool_decide (target req = "/ping") then PingLogic req
  else st_ret (NotFound req).

Definition GetHandler (req : http_request) : M http_response :=
  if bool_decide (target req = "/login") then st_ret (BadRequest req "Bad method for login")
  else if bool_decide (target req = "/register") then st_ret (BadRequest req "Bad method for register")
  else if bool_decide (target req = "/ping") then PingLogic req
  else st_ret (NotFound req).

Definition RequestHandler (env : req_env) (req : http_request) : M http_response :=
  match method req with
  | GET => GetHandler req
  | POST => PostHandler env req
  | OTHER => st_ret (BadRequest req "Unsupported HTTP-method for this server")
  end.
End gateway.
