(* ===== verification/GatewayFacts.v ===== *)
(** * Correctness of the gateway
      (src/src/http/req_handler.cpp, redis/gateway_redis.cpp)

    [RedisLaws] states the documented effect of the commands on a reachable server whose
    keys do not expire while a request runs: a string per key, fields per hash, entries per
    stream.  The theorems decide a login on every branch, show that a login takes the user
    for itself, and follow a token and a kick from the gateway to a backend. *)

From S2P Require Import Prelude Decimal CppString FieldOp MsgNode Security Dbm DbmPool DbmFacts.
From S2P Require Import Snowflake RedisBase Session Timer Backend BackendFacts StatusService Gateway.
From Stdlib Require Import Ascii.

Class RedisLaws (Rd : Type) `{!RedisOps Rd, !GatewayRedis Rd} := {
  redis_string : Rd → string → option string;
  redis_field : Rd → string → string → option string;
  redis_stream : Rd → string → list (list (string * string));
  law_get rd k : redis_get rd k = Ok (redis_string rd k);
  law_hget rd k f : redis_hget rd k f = Ok (redis_field rd k f);
  law_hexists rd k f : redis_hexists rd k f = Ok (bool_decide (is_Some (redis_field rd k f)));
  law_setex rd k ttl v : 0 < ttl → ∃ rd', redis_setex rd k ttl v = Ok rd'
    ∧ redis_string rd' k = Some v
    ∧ (∀ k', k' ≠ k → redis_string rd' k' = redis_string rd k')
    ∧ (∀ k' f, k' ≠ k → redis_field rd' k' f = redis_field rd k' f)
    ∧ (∀ k', k' ≠ k → redis_stream rd' k' = redis_stream rd k');
  law_hset rd k fs : ∃ rd', redis_hset rd k fs = Ok rd'
    ∧ (∀ f v, (list_to_map fs : gmap string string) !! f = Some v → redis_field rd' k f = Some v)
    ∧ (∀ k' f, k' ≠ k → redis_field rd' k' f = redis_field rd k' f)
    ∧ (∀ k', k' ≠ k → redis_string rd' k' = redis_string rd k')
    ∧ (∀ k', k' ≠ k → redis_stream rd' k' = redis_stream rd k');
  law_pexpire rd k px : 0 < px → ∃ rd', redis_pexpire rd k px = Ok rd'
    ∧ (∀ k' f, redis_field rd' k' f = redis_field rd k' f)
    ∧ (∀ k', redis_string rd' k' = redis_string rd k')
    ∧ (∀ k', redis_stream rd' k' = redis_stream rd k');
  law_hsetex rd k (fs : gmap string string) ttl : 0 < ttl → ∃ rd' n, redis_hsetex rd k fs ttl = Ok (rd', n)
    ∧ (∀ f v, fs !! f = Some v → redis_field rd' k f = Some v)
    ∧ (∀ k' f, k' ≠ k → redis_field rd' k' f = redis_field rd k' f)
    ∧ (∀ k', k' ≠ k → redis_string rd' k' = redis_string rd k')
    ∧ (∀ k', k' ≠ k → redis_stream rd' k' = redis_stream rd k');
  law_xadd rd k fs n : 0 < n → ∃ rd' id, redis_xadd rd k fs n = Ok (rd', id)
    ∧ (∃ old, redis_stream rd' k = old ++ [fs])
    ∧ (∀ k', k' ≠ k → redis_stream rd' k' = redis_stream rd k')
    ∧ (∀ k' f, k' ≠ k → redis_field rd' k' f = redis_field rd k' f)
    ∧ (∀ k', k' ≠ k → redis_string rd' k' = redis_string rd k')
}.

Section gateway.
Context {D Rd Sv J : Type}.
Context `{!MySql D, !Crypto, !RedisOps Rd, !GatewayRedis Rd, !RedisLaws Rd, !MinimalRPC Sv, !JsonLib J}.
Context (base64 : list Z → string) (junk : nat → list Z).

Implicit Types g : Gateway D Rd Sv.

(** The user's place: the server the user is on, ["unset"] during a login *)
Definition location (rd : Rd) (uid : Z) : option string := redis_field rd ("status:" +:+ to_string uid) "server_id".

Definition with_rd g (rd : Rd) : Gateway D Rd Sv := set_g_redis g (mkMgr (Some rd)).

Lemma GetRedis_g_Ok g rd : g_redis_ g = mkMgr (Some rd) → GetRedis_g g = (g, Ok rd).
Proof. intros Hr. unfold GetRedis_g, GetRedis. by rewrite Hr. Qed.

(** What a step changed in Redis: nothing but the listed keys. *)
Definition only_keys (ks : list string) (rd rd' : Rd) : Prop := ∀ k,
  k ∉ ks → redis_string rd' k = redis_string rd k ∧ (∀ f, redis_field rd' k f = redis_field rd k f)
    ∧ redis_stream rd' k = redis_stream rd k.

Lemma only_keys_trans ks ks' rd rd' rd'' :
  only_keys ks rd rd' → only_keys ks' rd' rd'' → only_keys (ks ++ ks') rd rd''.
Proof.
  intros H1 H2 k [Hk1 Hk2]%not_elem_of_app. destruct (H1 k Hk1) as (A1 & B1 & C1), (H2 k Hk2) as (A2 & B2 & C2).
  split_and!; [congruence| |congruence]. intros f. by rewrite B2.
Qed.

Lemma UpdateUserInfo_Ok g rd now uid name :
  g_redis_ g = mkMgr (Some rd) →
  ∃ rd' b, UpdateUserInfo now uid name g = (with_rd g rd', Ok b) ∧ only_keys ["userinfo:" +:+ uid] rd rd'.
Proof.
  intros Hr. unfold UpdateUserInfo. rewrite (st_bind_Ok _ _ g g rd) by (by apply GetRedis_g_Ok).
  destruct (law_hsetex rd ("userinfo:" +:+ uid) (<["user_name":=name]> (<["last_login":=to_string now]> ∅)) 3600)
    as (rd' & n & E & _ & Hf & Hs & Hx); [lia|].
  exists rd', (n =? 1). rewrite (st_bind_Ok _ _ g g (rd', n)) by (unfold st_res; by rewrite E). split; [done|].
  intros k Hk. apply not_elem_of_cons in Hk as [Hk _]. auto.
Qed.

(** The script either reports the user's place or takes it. *)
Lemma UserLoginAttempt_Ok g rd uid :
  g_redis_ g = mkMgr (Some rd) →
  ∃ rd', UserLoginAttempt (to_string uid) g =
      (with_rd g rd', Ok match location rd uid with
                         | Some server => if bool_decide (server = "") then (true, None) else (false, Some server)
                         | None => (true, None)
                         end)
    ∧ only_keys ["status:" +:+ to_string uid] rd rd'
    ∧ match location rd uid with
      | Some _ => rd' = rd
      | None => location rd' uid = Some "unset"
      end.
Proof.
  intros Hr. unfold UserLoginAttempt. rewrite (st_bind_Ok _ _ g g rd) by (by apply GetRedis_g_Ok).
  unfold location. set (key := "status:" +:+ to_string uid).
  destruct (redis_field rd key "server_id") as [old|] eqn:E.
  - exists rd. rewrite (st_bind_Ok _ _ g g (rd, old)).
    + split; [|done]. rewrite (st_bind_Ok _ _ g (with_rd g rd) tt) by done. cbn [snd].
      by destruct (bool_decide (old = "")).
    + unfold st_res, login_script. rewrite law_hexists, E. cbn. by rewrite law_hget, E.
  - destruct (law_hset rd key [("server_id", "unset"); ("status", "verifyed")]) as (rd1 & E1 & F1 & O1 & S1 & X1).
    destruct (law_pexpire rd1 key 60000) as (rd2 & E2 & O2 & S2 & X2); [lia|].
    exists rd2. rewrite (st_bind_Ok _ _ g g (rd2, "")).
    + split; [done|]. split; [|rewrite O2; by apply F1].
      intros k Hk. apply not_elem_of_cons in Hk as [Hk _]. rewrite S2, S1, X2, X1 by done.
      split_and!; [done| |done]. intros f. by rewrite O2, O1.
    + unfold st_res, login_script. rewrite law_hexists, E. cbn [mbind res_bind bool_decide].
      rewrite bool_decide_eq_false_2 by (by intros [? ?]). by rewrite E1; cbn; rewrite E2.
Qed.

Lemma RegisterUserToken_Ok g rd token uid ttl :
  g_redis_ g = mkMgr (Some rd) → 0 < ttl →
  ∃ rd', RegisterUserToken token uid ttl g = (with_rd g rd', Ok tt)
    ∧ redis_string rd' (token_key token) = Some uid ∧ only_keys [token_key token] rd rd'.
Proof.
  intros Hr Ht. unfold RegisterUserToken. rewrite (st_bind_Ok _ _ g g rd) by (by apply GetRedis_g_Ok).
  destruct (law_setex rd (token_key token) ttl uid Ht) as (rd' & E & Hk & Hs & Hf & Hx).
  exists rd'. rewrite (st_bind_Ok _ _ g g rd') by (unfold st_res; by rewrite E). split_and!; [done|done|].
  intros k Hk'. apply not_elem_of_cons in Hk' as [Hk' _]. auto.
Qed.

Lemma SendServerKickCmd_Ok g rd server uid :
  g_redis_ g = mkMgr (Some rd) →
  ∃ rd' id, SendServerKickCmd server uid g = (with_rd g rd', Ok id)
    ∧ (∃ old, redis_stream rd' (mq2_key server) = old ++ [kick_fields uid])
    ∧ only_keys [mq2_key server] rd rd'.
Proof.
  intros Hr. unfold SendServerKickCmd. rewrite (st_bind_Ok _ _ g g rd) by (by apply GetRedis_g_Ok).
  destruct (law_xadd rd (mq2_key server) (kick_fields uid) 1000) as (rd' & id & E & Hl & Hx & Hf & Hs); [lia|].
  exists rd', id. rewrite (st_bind_Ok _ _ g g (rd', id)) by (unfold st_res; by rewrite <- E).
  split_and!; [done|done|]. intros k Hk. apply not_elem_of_cons in Hk as [Hk _]. auto.
Qed.

(** ** The decision of a login *)

(** What becomes of a login whose password was right *)
Inductive outcome := Granted | Busy | Kicked (server : string) | Unavailable.

Definition login_outcome (s : Status) (place : option string) : outcome :=
  if rpc_ok s then
    match place with
    | None => Granted
    | Some server => if bool_decide (server = "") then Granted
                     else if bool_decide (server = "unset") then Busy else Kicked server
    end
  else Unavailable.

(** The response, and what Redis holds afterwards *)
Definition outcome_ok (req : http_request) (uid : Z) (addr token : string) (rd rd' : Rd) (o : outcome)
    (resp : http_response) : Prop :=
  match o with
  | Granted =>
      resp = reply_page 200 "application/json" req
        (jwrite [("result", JStr "ok"); ("token", JStr token); ("server_addr", JStr addr); ("uid", JUInt uid)])
      ∧ redis_string rd' (token_key token) = Some (to_string uid)
      ∧ (location rd uid = None → location rd' uid = Some "unset")
      ∧ only_keys ["userinfo:" +:+ to_string uid; "status:" +:+ to_string uid; token_key token] rd rd'
  | Busy =>
      resp = ForbiddenRequest req "Another client is trying to login!"
      ∧ only_keys ["userinfo:" +:+ to_string uid; "status:" +:+ to_string uid] rd rd'
  | Kicked server =>
      result resp = 409
      ∧ (∃ old, redis_stream rd' (mq2_key server) = old ++ [kick_fields uid])
      ∧ only_keys ["userinfo:" +:+ to_string uid; "status:" +:+ to_string uid; mq2_key server] rd rd'
  | Unavailable => resp = ServerError req "Server error" ∧ rd' = rd
  end.

Lemma location_other ks rd rd' uid :
  only_keys ks rd rd' → "status:" +:+ to_string uid ∉ ks → location rd' uid = location rd uid.
Proof. intros Ho Hk. unfold location. by destruct (Ho _ Hk) as (_ & Hf & _). Qed.

Lemma login_verified_Ok g rd env req name uid sv s addr bytes :
  g_redis_ g = mkMgr (Some rd) → rpc_minimal (rpc_ g) = Ok (sv, s, addr) → token_rnd env = Some bytes →
  let token := erase_char "="%char (url_safe (base64 bytes)) in
  ∃ rd' resp, login_verified base64 false env req name uid g = (with_rd (set_rpc g sv) rd', Ok resp)
    ∧ outcome_ok req uid addr token rd rd' (login_outcome s (location rd uid)) resp.
Proof.
  intros Hr Hrpc Htok token. unfold login_verified. set (g1 := set_rpc g sv).
  assert (Hg1 : g_redis_ g1 = mkMgr (Some rd)) by done.
  rewrite (st_bind_Ok _ _ g g1 (s, addr)) by (unfold on_rpc; by rewrite Hrpc). unfold login_outcome.
  cbn [fst snd]. destruct (rpc_ok s); cbn [negb].
  2:{ exists rd, (ServerError req "Server error"). split; [|done]. unfold with_rd. by rewrite <- Hg1; destruct g1. }
  destruct (UpdateUserInfo_Ok g1 rd (timestamp_ms env) (to_string uid) name Hg1) as (rd1 & b & E1 & O1).
  rewrite (st_bind_Ok _ _ g1 (with_rd g1 rd1) b) by done.
  assert (Hloc1 : location rd1 uid = location rd uid).
  { apply (location_other _ _ _ _ O1). by intros ?%list_elem_of_singleton. }
  destruct (UserLoginAttempt_Ok (with_rd g1 rd1) rd1 uid eq_refl) as (rd2 & E2 & O2 & L2). rewrite Hloc1 in E2, L2.
  rewrite (st_bind_Ok _ _ _ _ _ E2). pose proof (only_keys_trans _ _ _ _ _ O1 O2) as O12.
  set (g2 := with_rd (with_rd g1 rd1) rd2).
  assert (Hgrant : ∃ rd' resp,
    st_bind (st_res (TokenGenerator base64 false (token_rnd env))) (λ token,
      st_bind (RegisterUserToken token (to_string uid) 50) (λ _, st_ret (reply_page 200 "application/json" req
        (jwrite [("result", JStr "ok"); ("token", JStr token); ("server_addr", JStr addr); ("uid", JUInt uid)])))) g2
      = (with_rd g1 rd', Ok resp)
    ∧ resp = reply_page 200 "application/json" req
        (jwrite [("result", JStr "ok"); ("token", JStr token); ("server_addr", JStr addr); ("uid", JUInt uid)])
    ∧ redis_string rd' (token_key token) = Some (to_string uid)
    ∧ location rd' uid = location rd2 uid ∧ only_keys [token_key token] rd2 rd').
  { rewrite (st_bind_Ok _ _ g2 g2 token) by (unfold st_res, TokenGenerator; by rewrite Htok).
    destruct (RegisterUserToken_Ok g2 rd2 token (to_string uid) 50 eq_refl ltac:(lia)) as (rd3 & E3 & S3 & O3).
    rewrite (st_bind_Ok _ _ _ _ _ E3). eexists rd3, _. split_and!; [done|done|done| |done].
    apply (location_other _ _ _ _ O3). by intros ?%list_elem_of_singleton. }
  destruct (location rd uid) as [server|] eqn:El; [case_bool_decide; [|case_bool_decide]|].
  - destruct Hgrant as (rd' & resp & E & Hresp & Hs & Hl & O3). exists rd', resp. split; [exact E|].
    split_and!; [done|done|congruence|exact (only_keys_trans _ _ _ _ _ O12 O3)].
  - exists rd2. eexists. split; [reflexivity|]. split; [done|exact O12].
  - destruct (SendServerKickCmd_Ok g2 rd2 server uid eq_refl) as (rd3 & id & E3 & S3 & O3).
    exists rd3. eexists. rewrite (st_bind_Ok _ _ _ _ _ E3). split; [reflexivity|].
    split_and!; [done|done|exact (only_keys_trans _ _ _ _ _ O12 O3)].
  - destruct Hgrant as (rd' & resp & E & Hresp & Hs & Hl & O3). exists rd', resp. split; [exact E|].
    split_and!; [done|done|intros _; by rewrite Hl|exact (only_keys_trans _ _ _ _ _ O12 O3)].
Qed.

Context `{!MySqlLaws D, !CryptoLaws _} (hash_junk : nat → list Z).

(** A request whose body has both fields *)
Definition asks (req : http_request) (name pass : string) : Prop :=
  ∃ readed : J, jparse (body req) = Some readed ∧ read_credentials readed = Ok (Some (name, pass)).

(** The account the password belongs to *)
Definition authentic (a : accounts) (name pass : string) : option Z :=
  match account_step true a (QVerify name pass 0) with
  | (_, VerifyReply c uid) => if c =? GATEWAY_SUCCESS then Some uid else None
  | _ => None
  end.

Lemma LoginLogic_Ok g a rd env req name pass sv s addr bytes :
  asks req name pass → implements hash_junk (dbm_ g) a → g_redis_ g = mkMgr (Some rd) →
  rpc_minimal (rpc_ g) = Ok (sv, s, addr) → token_rnd env = Some bytes →
  let token := erase_char "="%char (url_safe (base64 bytes)) in
  ∃ g' rd' resp, LoginLogic (J := J) base64 false env req g = (g', Ok resp)
    ∧ g_redis_ g' = mkMgr (Some rd') ∧ implements hash_junk (dbm_ g') a
    ∧ match authentic a name pass with
      | Some uid => outcome_ok req uid addr token rd rd' (login_outcome s (location rd uid)) resp
      | None => resp = ForbiddenRequest req "Incorrect login username or password" ∧ rd' = rd ∧ rpc_ g' = rpc_ g
      end.
Proof.
  intros (readed & Hp & Hc) Hi Hr Hrpc Htok token. unfold LoginLogic. rewrite Hp.
  rewrite (st_bind_Ok _ _ g g (Some (name, pass))) by (unfold st_res; by rewrite Hc).
  destruct (implements_verify hash_junk (dbm_ g) a name pass 0 Hi) as (m' & c & u & E & Hstep & Hi').
  set (g1 := set_dbm g m').
  rewrite (st_bind_Ok _ _ g g1 (c, u)) by (unfold on_dbm; by rewrite E). cbn [fst snd].
  unfold authentic. rewrite Hstep.
  destruct (Z.eqb_spec c GATEWAY_SUCCESS) as [Hc0|Hc0].
  - destruct (login_verified_Ok g1 rd env req name u sv s addr bytes Hr Hrpc Htok) as (rd' & resp & E' & Ho).
    exists (with_rd (set_rpc g1 sv) rd'), rd', resp. by split_and!.
  - assert (c = GATEWAY_USER_NOT_EXIST ∨ c = GATEWAY_VERIFY_FAILED) as Hcode.
    { cbn in Hstep. destruct (a !! name) as [[? []]|]; [case_decide|]; simplify_eq; auto. }
    exists g1, rd, (ForbiddenRequest req "Incorrect login username or password"). split_and!; try done.
    by destruct Hcode as [-> | ->].
Qed.
End gateway.

(** A JSON library read by the backend *)
Definition reader_of_lib {J} `{!JsonLib J} : JsonReader J := {|
  json_parse := jparse;
  as_token j := jstring j "token";
  as_uid j := juint64 j "uid"
|}.

(** The control message of a kick closes the user's session. *)
Lemma CtrlMsgHandler_kick {Rd} (w : World Rd) uid p s :
  held w = [] → is_u64 uid → sess_ w !! uid = Some p → objs w !! p = Some s → down_ s = false →
  CtrlMsgHandler (Some (list_to_map (kick_fields uid))) w = (after_close w p s, Ok tt).
Proof.
  intros Hh Hu Hs Hp Hd. unfold CtrlMsgHandler.
  rewrite (st_bind_Ok _ _ w w "kick") by done. change (bool_decide ("kick" = "kick")) with true. cbn iota.
  rewrite (st_bind_Ok _ _ w w (to_string uid)) by done.
  rewrite (st_bind_Ok _ _ w w uid) by (unfold st_res; by rewrite stoull_to_string).
  rewrite (st_bind_Ok _ _ w w (Some p)) by (rewrite GetSession_Ok by (rewrite Hh; apply not_elem_of_nil); by rewrite Hs).
  by apply Close_Ok.
Qed.

(** ** Concrete Redis and status service, for witnesses *)

Record demo_rd := mkDemoRd {
  rd_strings : gmap string string;
  rd_hashes : gmap (string * string) string;
  rd_streams : gmap string (list (list (string * string)))
}.

Definition demo_hset (rd : demo_rd) (k : string) (fs : gmap string string) : demo_rd :=
  mkDemoRd (rd_strings rd) (kmap (λ f, (k, f)) fs ∪ rd_hashes rd) (rd_streams rd).

#[export] Instance demo_redis_ops : RedisOps demo_rd := {
  redis_get rd k := Ok (rd_strings rd !! k);
  redis_hget rd k f := Ok (rd_hashes rd !! (k, f));
  redis_hsetex rd k fs _ := Ok (demo_hset rd k fs, 1);
  redis_xadd rd k fs _ :=
    Ok (mkDemoRd (rd_strings rd) (rd_hashes rd) (<[k := default [] (rd_streams rd !! k) ++ [fs]]> (rd_streams rd)), "1-0");
  redis_pipeline rd _ := Ok rd
}.

#[export] Instance demo_gateway_redis : GatewayRedis demo_rd := {
  redis_setex rd k _ v := Ok (mkDemoRd (<[k := v]> (rd_strings rd)) (rd_hashes rd) (rd_streams rd));
  redis_hexists rd k f := Ok (bool_decide (is_Some (rd_hashes rd !! (k, f))));
  redis_hset rd k fs := Ok (demo_hset rd k (list_to_map fs));
  redis_pexpire rd _ _ := Ok rd;
  redis_script_load rd _ := Ok (rd, "sha")
}.

Lemma demo_hset_same rd k fs f v : fs !! f = Some v → rd_hashes (demo_hset rd k fs) !! (k, f) = Some v.
Proof.
  intros Hf. cbn. apply lookup_union_Some_l. by rewrite (lookup_kmap (λ f, (k, f))).
Qed.

Lemma demo_hset_other rd k fs k' f : k' ≠ k → rd_hashes (demo_hset rd k fs) !! (k', f) = rd_hashes rd !! (k', f).
Proof.
  intros Hk. cbn. apply lookup_union_r. apply lookup_kmap_None; [apply _|]. intros i. congruence.
Qed.

#[export] Program Instance demo_redis_laws : RedisLaws demo_rd := {
  redis_string rd k := rd_strings rd !! k;
  redis_field rd k f := rd_hashes rd !! (k, f);
  redis_stream rd k := default [] (rd_streams rd !! k)
}.
Next Obligation. done. Qed.
Next Obligation. done. Qed.
Next Obligation. done. Qed.
Next Obligation.
  intros rd k ttl v _. eexists. split; [reflexivity|]. cbn. split_and!; [by rewrite lookup_insert_eq| |done|done].
  intros k' Hk. by rewrite lookup_insert_ne.
Qed.
Next Obligation.
  intros rd k fs. eexists. split; [reflexivity|]. split_and!; [|intros; by apply demo_hset_other|done|done].
  intros f v Hf. by apply demo_hset_same.
Qed.
Next Obligation. intros rd k px _. by exists rd. Qed.
Next Obligation.
  intros rd k fs ttl _. eexists _, _. split; [reflexivity|]. split_and!; [|intros; by apply demo_hset_other|done|done].
  intros f v Hf. by apply demo_hset_same.
Qed.
Next Obligation.
  intros rd k fs n _. eexists _, _. split; [reflexivity|]. cbn. split_and!; [|..|done|done].
  - eexists. by rewrite lookup_insert_eq.
  - intros k' Hk. by rewrite lookup_insert_ne.
Qed.

(** The stub reaches a status service with one server. *)
#[export] Instance demo_minimal : MinimalRPC unit := { rpc_minimal u := Ok (u, Status_OK, "10.0.0.1:2000") }.

(** The stub of the status service of this repository *)
Definition service_minimal (clk : nat → Z) : MinimalRPC TimedUploader := {|
  rpc_minimal u := r ← CheckMinimalLoadServer u clk; Ok (r.1.1, r.2, server_addr r.1.2)
|}.

(** ** A concrete JSON library, for witnesses: objects written as a number in binary *)

#[global] Instance jval_eq_dec : EqDecision jval.
Proof. solve_decision. Defined.

#[global] Instance jval_countable : Countable jval.
Proof.
  apply (inj_countable' (λ v, match v with JStr s => inl s | JUInt n => inr (inl n) | JInt n => inr (inr n) end)
           (λ v, match v with inl s => JStr s | inr (inl n) => JUInt n | inr (inr n) => JInt n end)).
  by intros [].
Defined.

Fixpoint bits_of (p : positive) : string :=
  match p with
  | xH => newline
  | xO p => String "0" (bits_of p)
  | xI p => String "1" (bits_of p)
  end.

Fixpoint bits_read (s : string) : option positive :=
  match s with
  | String "0" s' => xO <$> bits_read s'
  | String "1" s' => xI <$> bits_read s'
  | EmptyString => None
  | _ => Some xH
  end.

Lemma bits_read_of p tail : bits_read (bits_of p +:+ tail) = Some p.
Proof. induction p as [p IH|p IH|]; cbn [bits_of]; rewrite ?str_app_cons; cbn [bits_read]; by rewrite ?IH. Qed.

(** The first field of that name *)
Fixpoint jlookup (k : string) (fs : list (string * jval)) : option jval :=
  match fs with
  | [] => None
  | (k', v) :: fs' => if decide (k' = k) then Some v else jlookup k fs'
  end.

Lemma jlookup_elem k v fs : NoDup (fst <$> fs) → (k, v) ∈ fs → jlookup k fs = Some v.
Proof.
  induction fs as [|[k' v'] fs IH]; intros Hnd Hin; [by apply elem_of_nil in Hin|].
  cbn in Hnd. inversion_clear Hnd as [|?? Hout Hnd']. cbn [jlookup].
  apply elem_of_cons in Hin as [Heq|Hin].
  - injection Heq as -> ->. by destruct (decide (k' = k')).
  - destruct (decide (k' = k)) as [->|]; [|auto].
    destruct Hout. apply list_elem_of_fmap. by exists (k, v).
Qed.

#[export] Instance demo_json_lib : JsonLib (list (string * jval)) := {
  jparse s := bits_read s ≫= decode;
  jstring fs k := match jlookup k fs with
                  | Some (JStr s) => Ok s
                  | None => Ok ""
                  | _ => Throw (runtime_error "Value is not convertible to string.")
                  end;
  juint64 fs k := match jlookup k fs with
                  | Some (JUInt n) => Ok n
                  | None => Ok 0
                  | _ => Throw (runtime_error "Value is not convertible to UInt64.")
                  end;
  jwrite fs := bits_of (encode fs)
}.

(** What the program relies on of the JSON library: an object it wrote, with distinct keys
    and printable strings, is read back, whatever follows it. *)
Definition printable (s : string) : Prop := Forall (λ b, 32 <= b < 127) (bytes_of_string s).

Definition plain_val (v : jval) : Prop := match v with JStr s => printable s | JUInt n => is_u64 n | JInt n => - 2 ^ 31 <= n < 2 ^ 31 end.

Class JsonLaws (J : Type) `{!JsonLib J} := {
  json_object fs tail : NoDup (fst <$> fs) → Forall (λ kv, plain_val kv.2) fs →
    ∃ j : J, jparse (jwrite fs +:+ tail) = Some j
      ∧ (∀ k s, (k, JStr s) ∈ fs → jstring j k = Ok s)
      ∧ (∀ k n, (k, JUInt n) ∈ fs → juint64 j k = Ok n)
}.

#[export] Instance demo_json_laws : JsonLaws (list (string * jval)).
Proof.
  constructor. intros fs tail Hnd _. exists fs. cbn [jparse jwrite jstring juint64 demo_json_lib].
  rewrite bits_read_of. cbn [mbind option_bind]. rewrite decode_encode. split_and!; [done|..];
    intros k v Hin; by rewrite (jlookup_elem _ _ _ Hnd Hin).
Qed.

(** ** Theorems *)

(** C13. A login is decided as designed on every branch.  With a user store that implements the
    accounts, a wrong name or password gives 403 and nothing else happens.  With the right
    password: 500 when the status service has no server; 200 with a token bound to the user
    id, and the user's place taken ("unset"), when the user is nowhere; 403 when another
    login of the user is under way; 409 and a kick command on the control stream of the
    user's server otherwise.  In each case only the named keys of Redis change. *)
Theorem login_decides {D Rd Sv J} `{!MySql D, !MySqlLaws D, C : Crypto, !CryptoLaws C, !RedisOps Rd, !GatewayRedis Rd, !RedisLaws Rd, !MinimalRPC Sv, !JsonLib J}
    base64 hash_junk (g : Gateway D Rd Sv) a rd env req name pass sv s addr bytes :
  asks (J := J) req name pass → implements hash_junk (dbm_ g) a → g_redis_ g = mkMgr (Some rd) →
  rpc_minimal (rpc_ g) = Ok (sv, s, addr) → token_rnd env = Some bytes →
  ∃ g' rd' resp, LoginLogic (J := J) base64 false env req g = (g', Ok resp)
    ∧ g_redis_ g' = mkMgr (Some rd') ∧ implements hash_junk (dbm_ g') a
    ∧ match authentic a name pass with
      | Some uid => outcome_ok (J := J) req uid addr (erase_char "="%char (url_safe (base64 bytes))) rd rd'
                      (login_outcome s (location rd uid)) resp
      | None => resp = ForbiddenRequest req "Incorrect login username or password" ∧ rd' = rd ∧ rpc_ g' = rpc_ g
      end.
Proof. intros. by eapply LoginLogic_Ok. Qed.

(** *** A gateway with one user, for the witnesses *)

Definition demo_hash : string :=
  match HashPassword false (Some [1; 2]) (λ _, []) "pw" 200000 with Ok h => h | _ => "" end.

Definition demo_accounts : accounts := {["bob" := (77, ([1; 2], "pw"))]}.

Definition demo_gateway (rd : demo_rd) : Gateway demo_db demo_rd unit :=
  ReqHandler_new (demo_dbm {["bob" := (77, demo_hash)]}) (mkMgr (Some rd)) tt 0.

Definition demo_env : req_env := mkEnv [1600000000000000000] 5 (Some [3]) (Some [1; 2; 3]).

Definition demo_login (pass : string) : http_request :=
  mkRequest POST "/login" 11 true (jwrite [("username", JStr "bob"); ("passcode", JStr pass)]).

Lemma demo_implements : implements (λ _, []) (demo_dbm {["bob" := (77, demo_hash)]}) demo_accounts.
Proof.
  split; [|split; [reflexivity|]].
  - split_and!; [reflexivity|done|]. intros p Hp. exists (mkDBConn true 1 3 2).
    apply list_elem_of_singleton in Hp as ->. by split_and!.
  - intros name uid salt pass Hn. unfold demo_accounts in Hn.
    apply lookup_singleton_Some in Hn as [<- [= <- <- <-]].
    split; [repeat constructor; done|]. exists demo_hash. split; reflexivity.
Qed.

Lemma demo_asks pass : printable pass → asks (J := list (string * jval)) (demo_login pass) "bob" pass.
Proof.
  intros Hp. exists [("username", JStr "bob"); ("passcode", JStr pass)]. split; [|done].
  cbn [jparse jwrite demo_json_lib demo_login body].
  rewrite <- (str_app_nil_r (bits_of _)), bits_read_of. apply decode_encode.
Qed.

Lemma login_decides_witness :
  let g := demo_gateway (mkDemoRd ∅ ∅ ∅) in
  ∃ g' rd' resp, LoginLogic (J := list (string * jval)) hex_upper false demo_env (demo_login "pw") g = (g', Ok resp)
    ∧ g_redis_ g' = mkMgr (Some rd') ∧ implements (λ _, []) (dbm_ g') demo_accounts
    ∧ match authentic demo_accounts "bob" "pw" with
      | Some uid => outcome_ok (J := list (string * jval)) (demo_login "pw") uid "10.0.0.1:2000"
                      (erase_char "="%char (url_safe (hex_upper [1; 2; 3]))) (mkDemoRd ∅ ∅ ∅) rd'
                      (login_outcome Status_OK (location (mkDemoRd ∅ ∅ ∅) uid)) resp
      | None => resp = ForbiddenRequest (demo_login "pw") "Incorrect login username or password"
                ∧ rd' = mkDemoRd ∅ ∅ ∅ ∧ rpc_ g' = rpc_ g
      end.
Proof.
  cbn zeta. eapply (login_decides hex_upper (λ _, [])).
  - apply demo_asks. repeat constructor; done.
  - exact demo_implements.
  - reflexivity.
  - reflexivity.
  - reflexivity.
Defined.

(** That login is granted, and one of a user who is online is not. *)
Example demo_login_runs :
  (authentic demo_accounts "bob" "pw", authentic demo_accounts "bob" "px") = (Some 77, None)
  ∧ (result <$> (LoginLogic hex_upper false demo_env (demo_login "pw") (demo_gateway (mkDemoRd ∅ ∅ ∅))).2) = Ok 200
  ∧ (result <$> (LoginLogic hex_upper false demo_env (demo_login "pw")
       (demo_gateway (mkDemoRd ∅ {[("status:77", "server_id") := "3"]} ∅))).2) = Ok 409.
Proof. vm_compute. done. Qed.

(** C5. From the gateway to the backend: when a login is granted, a backend that has no
    session of that user id registered, and that receives the token and user id from the
    client, accepts them: it verifies the session and registers it under the user id, and
    Redis then names that backend as the user's place.  (With an entry left, [emplace] keeps
    the old one: [second_login_evicts_first].) *)
Theorem login_handover {D Rd Sv J} `{!MySql D, !MySqlLaws D, C : Crypto, !CryptoLaws C, !RedisOps Rd, !GatewayRedis Rd, !RedisLaws Rd, !MinimalRPC Sv, !JsonLib J}
    base64 hash_junk (g : Gateway D Rd Sv) a rd env req name pass sv s addr bytes uid
    host junk order server_id (w : World Rd) p sess msg q :
  asks (J := J) req name pass → implements hash_junk (dbm_ g) a → g_redis_ g = mkMgr (Some rd) →
  rpc_minimal (rpc_ g) = Ok (sv, s, addr) → rpc_ok s = true → token_rnd env = Some bytes →
  authentic a name pass = Some uid → is_u64 uid → location rd uid = None →
  h_running_ w = true → held w = [LHandler] → q_ w = (Some p, Some msg) :: q →
  objs w !! p = Some sess → verified_ sess = false → send_q_ sess = [] → sess_ w !! uid = None →
  GetTagField host msg = Ok (tag_value VERIFY) →
  login_request (JsonReader0 := reader_of_lib (J := J)) msg = Ok (Some (erase_char "="%char (url_safe (base64 bytes)), uid)) →
  ∃ g' rd1 resp w' sess' rd2,
    LoginLogic (J := J) base64 false env req g = (g', Ok resp) ∧ result resp = 200
    ∧ g_redis_ g' = mkMgr (Some rd1) ∧ location rd1 uid = Some "unset"
    ∧ Worker (JsonReader0 := reader_of_lib (J := J)) host junk order J server_id (set_redis w (mkMgr (Some rd1))) = (w', Ok WorkerBusy)
    ∧ objs w' !! p = Some sess' ∧ verified_ sess' = true ∧ user_id_ sess' = uid
    ∧ sess_ w' = <[uid := p]> (sess_ w)
    ∧ w_redis_ w' = mkMgr (Some rd2) ∧ location rd2 uid = Some server_id.
Proof.
  intros Hask Hi Hr Hrpc Hok Htok Hauth Huid Hloc Hrun Hh Hq Hp Hv Hsq Hfree Ht Hreq.
  destruct (LoginLogic_Ok base64 hash_junk g a rd env req name pass sv s addr bytes Hask Hi Hr Hrpc Htok)
    as (g' & rd1 & resp & E & Hr1 & _ & Ho).
  rewrite Hauth, Hloc in Ho. unfold login_outcome in Ho. rewrite Hok in Ho.
  destruct Ho as (Hresp & Hstr & Hplace & _).
  destruct (law_hsetex rd1 (status_key uid) (<["server_id" := server_id]> (<["status" := "online"]> ∅)) 30)
    as (rd2 & n & Hset & Hfield & _); [lia|].
  assert (Hown : token_owner rd1 (erase_char "="%char (url_safe (base64 bytes))) = Ok (Some uid)).
  { unfold token_owner. rewrite law_get. fold (token_key (erase_char "="%char (url_safe (base64 bytes)))).
    rewrite Hstr. cbn [mbind res_bind]. by rewrite stoull_to_string. }
  destruct (Worker_login host junk order server_id (set_redis w (mkMgr (Some rd1))) p sess msg q rd1 rd2 n
    _ uid Hrun Hh Hq Hp Hv Hsq eq_refl Ht Hreq Hown Hset)
    as (w' & s' & m & Hw & _ & _ & Hobj & Hv' & Huid' & _ & Hs' & Hrd & _).
  exists g', rd1, resp, w', s', rd2. split_and!; try done;
    [by rewrite Hresp|auto|by rewrite Hobj, lookup_insert_eq|rewrite Hs'; unfold emplaced; cbn [sess_ set_redis]; by rewrite Hfree|].
  unfold location. change ("status:" +:+ to_string uid) with (status_key uid). apply Hfield. apply lookup_insert_eq.
Qed.

Definition demo_backend : World demo_rd :=
  set_held (set_q (demo_world (mkDemoRd ∅ ∅ ∅) (demo_session 0 false))
    [(Some 5%nat, Some (posted 1 (bytes_of_string (jwrite [("uid", JUInt 77); ("token", JStr "010203")]))))]) [LHandler].

Lemma login_handover_witness :
  let g := demo_gateway (mkDemoRd ∅ ∅ ∅) in
  ∃ g' rd1 resp w' sess' rd2,
    LoginLogic (J := list (string * jval)) hex_upper false demo_env (demo_login "pw") g = (g', Ok resp) ∧ result resp = 200
    ∧ g_redis_ g' = mkMgr (Some rd1) ∧ location rd1 77 = Some "unset"
    ∧ Worker (JsonReader0 := reader_of_lib) LITTLE_ENDIAN (λ _, 0) elements (list (string * jval)) "3"
        (set_redis demo_backend (mkMgr (Some rd1))) = (w', Ok WorkerBusy)
    ∧ objs w' !! 5%nat = Some sess' ∧ verified_ sess' = true ∧ user_id_ sess' = 77
    ∧ sess_ w' = <[77 := 5%nat]> (sess_ demo_backend)
    ∧ w_redis_ w' = mkMgr (Some rd2) ∧ location rd2 77 = Some "3".
Proof.
  cbn zeta. eapply (login_handover hex_upper (λ _, []) (demo_gateway (mkDemoRd ∅ ∅ ∅)) demo_accounts (mkDemoRd ∅ ∅ ∅)
    demo_env (demo_login "pw") "bob" "pw" tt Status_OK "10.0.0.1:2000" [1; 2; 3] 77
    LITTLE_ENDIAN (λ _, 0) elements "3" demo_backend 5%nat).
  - apply demo_asks. repeat constructor; done.
  - exact demo_implements.
  - reflexivity.
  - reflexivity.
  - reflexivity.
  - reflexivity.
  - vm_compute. reflexivity.
  - done.
  - reflexivity.
  - reflexivity.
  - reflexivity.
  - reflexivity.
  - reflexivity.
  - reflexivity.
  - reflexivity.
  - reflexivity.
  - vm_compute. reflexivity.
  - vm_compute. reflexivity.
Defined.

(** C17. Logging in while online: the gateway answers 409 and appends one entry to the control
    stream of the user's server, and that server's handler, given the entry, closes exactly
    the session of that user and takes it out of the manager. *)
Theorem kick_reaches_session {D Rd Sv J} `{!MySql D, !MySqlLaws D, C : Crypto, !CryptoLaws C, !RedisOps Rd, !GatewayRedis Rd, !RedisLaws Rd, !MinimalRPC Sv, !JsonLib J}
    base64 hash_junk (g : Gateway D Rd Sv) a rd env req name pass sv s addr bytes uid server
    (w : World Rd) p sess :
  asks (J := J) req name pass → implements hash_junk (dbm_ g) a → g_redis_ g = mkMgr (Some rd) →
  rpc_minimal (rpc_ g) = Ok (sv, s, addr) → rpc_ok s = true → token_rnd env = Some bytes →
  authentic a name pass = Some uid → is_u64 uid →
  location rd uid = Some server → server ≠ "" → server ≠ "unset" →
  held w = [] → sess_ w !! uid = Some p → objs w !! p = Some sess → down_ sess = false →
  verified_ sess = true → user_id_ sess = uid →
  ∃ g' rd' resp old item w',
    LoginLogic (J := J) base64 false env req g = (g', Ok resp) ∧ result resp = 409
    ∧ g_redis_ g' = mkMgr (Some rd') ∧ redis_stream rd' (mq2_key server) = old ++ [item]
    ∧ CtrlMsgHandler (Some (list_to_map item)) w = (w', Ok tt)
    ∧ objs w' = <[p := closed sess]> (objs w) ∧ sess_ w' = delete uid (sess_ w).
Proof.
  intros Hask Hi Hr Hrpc Hok Htok Hauth Huid Hloc Hne1 Hne2 Hh Hs Hp Hd Hv Hid.
  destruct (LoginLogic_Ok base64 hash_junk g a rd env req name pass sv s addr bytes Hask Hi Hr Hrpc Htok)
    as (g' & rd1 & resp & E & Hr1 & _ & Ho).
  rewrite Hauth, Hloc in Ho. unfold login_outcome in Ho. rewrite Hok in Ho.
  rewrite !bool_decide_eq_false_2 in Ho by done. destruct Ho as (Hresp & [old Hold] & _).
  exists g', rd1, resp, old, (kick_fields uid), (after_close w p sess).
  split_and!; try done; [by apply CtrlMsgHandler_kick|..]; unfold after_close; by rewrite Hv, ?Hid.
Qed.

Lemma kick_reaches_session_witness :
  let rd := mkDemoRd ∅ {[("status:77", "server_id") := "3"]} ∅ in
  ∃ g' rd' resp old item w',
    LoginLogic (J := list (string * jval)) hex_upper false demo_env (demo_login "pw") (demo_gateway rd) = (g', Ok resp)
    ∧ result resp = 409
    ∧ g_redis_ g' = mkMgr (Some rd') ∧ redis_stream rd' (mq2_key "3") = old ++ [item]
    ∧ CtrlMsgHandler (Some (list_to_map item)) (demo_world rd (demo_session 77 true)) = (w', Ok tt)
    ∧ objs w' = <[5%nat := closed (demo_session 77 true)]> {[5%nat := demo_session 77 true]}
    ∧ sess_ w' = delete 77 {[77 := 5%nat]}.
Proof.
  cbn zeta. set (rd := mkDemoRd ∅ {[("status:77", "server_id") := "3"]} ∅).
  eapply (kick_reaches_session hex_upper (λ _, []) (demo_gateway rd) demo_accounts rd
    demo_env (demo_login "pw") "bob" "pw" tt Status_OK "10.0.0.1:2000" [1; 2; 3] 77 "3"
    (demo_world rd (demo_session 77 true)) 5%nat (demo_session 77 true)).
  - apply demo_asks. repeat constructor; done.
  - exact demo_implements.
  - reflexivity.
  - reflexivity.
  - reflexivity.
  - reflexivity.
  - vm_compute. reflexivity.
  - done.
  - vm_compute. reflexivity.
  - done.
  - done.
  - reflexivity.
  - reflexivity.
  - reflexivity.
  - reflexivity.
  - reflexivity.
  - reflexivity.
Defined.
