(* ===== verification/TokenFacts.v ===== *)
(** * Login tokens (src/src/http/req_handler.cpp, [TokenGenerator])

    The base-64 coding is OpenSSL's; [Base64Laws] is what the token relies on: 24 bytes give
    32 characters of the standard alphabet, without padding, and different bytes give
    different texts.  A concrete coding shows that the laws can hold. *)

From S2P Require Import Prelude Decimal CppString Security Dbm Backend Gateway.
From Stdlib Require Import Ascii.

Definition in_range (lo hi : Z) (c : ascii) : bool := (lo <=? char_code c) && (char_code c <=? hi).

(** Letters and digits *)
Definition alnum (c : ascii) : bool := in_range 65 90 c || in_range 97 122 c || in_range 48 57 c.

Definition std_char (c : ascii) : Prop := alnum c = true ∨ c = "+"%char ∨ c = "/"%char.

Definition url_safe_char (c : ascii) : Prop := alnum c = true ∨ c = "-"%char ∨ c = "_"%char.

Class Base64Laws (base64 : list Z → string) := {
  base64_text bs : length bs = TOKEN_BYTES → Forall is_byte bs →
    String.length (base64 bs) = 32%nat ∧ str_forall std_char (base64 bs);
  base64_inj bs bs' : length bs = TOKEN_BYTES → length bs' = TOKEN_BYTES → Forall is_byte bs → Forall is_byte bs' →
    base64 bs = base64 bs' → bs = bs'
}.

(** ** The two passes over the text *)

Lemma url_char_safe c : std_char c → url_safe_char (url_char c).
Proof.
  unfold url_char. intros [Hc|[-> | ->]]; [|by right; left|by right; right].
  destruct (decide (c = "+"%char)) as [->|]; [done|]. destruct (decide (c = "/"%char)) as [->|]; [done|]. by left.
Qed.

Lemma url_char_inj c d : std_char c → std_char d → url_char c = url_char d → c = d.
Proof.
  unfold url_char. intros Hc Hd.
  repeat match goal with |- context [decide (?x = ?y)] => destruct (decide (x = y)); subst end; try done.
  - intros <-. by destruct Hd as [|[|]].
  - intros <-. by destruct Hd as [|[|]].
  - intros ->. by destruct Hc as [|[|]].
  - intros ->. by destruct Hc as [|[|]].
Qed.

Lemma url_safe_forall s : str_forall std_char s → str_forall url_safe_char (url_safe s).
Proof. induction s as [|c s IH]; [done|]. intros [Hc Hs]. split; [by apply url_char_safe|auto]. Qed.

Lemma url_safe_inj s : ∀ t, str_forall std_char s → str_forall std_char t → url_safe s = url_safe t → s = t.
Proof.
  induction s as [|c s IH]; intros [|d t] Hs Ht E; try done.
  destruct Hs, Ht. cbn in E. injection E as Ec Es. f_equal; [by apply url_char_inj|by apply IH].
Qed.

Lemma url_safe_length s : String.length (url_safe s) = String.length s.
Proof. induction s as [|c s IH]; [done|]. cbn. by rewrite IH. Qed.

(** A text without the character is left alone. *)
Lemma erase_char_id c s : str_forall (λ d, d ≠ c) s → erase_char c s = s.
Proof.
  induction s as [|d s IH]; [done|]. intros [Hd Hs]. cbn [erase_char]. rewrite IH by done.
  by destruct (decide (d = c)).
Qed.

Lemma str_forall_impl (P Q : ascii → Prop) s : (∀ c, P c → Q c) → str_forall P s → str_forall Q s.
Proof. intros HPQ. induction s as [|c s IH]; [done|]. intros [? ?]. split; auto. Qed.

Lemma TokenGenerator_Ok base64 `{!Base64Laws base64} bs :
  length bs = TOKEN_BYTES → Forall is_byte bs →
  TokenGenerator base64 false (Some bs) = Ok (url_safe (base64 bs)).
Proof.
  intros Hl Hb. destruct (base64_text bs Hl Hb) as [_ Hs]. unfold TokenGenerator. cbn [rand_buffer mbind res_bind].
  f_equal. apply erase_char_id. apply (str_forall_impl url_safe_char); [|by apply url_safe_forall].
  intros c Hc ->. by destruct Hc as [|[|]].
Qed.

(** ** A concrete coding *)

Definition b64_char (x : Z) : ascii :=
  if x <? 26 then char_of (65 + x) else if x <? 52 then char_of (71 + x)
  else if x <? 62 then char_of (x - 4) else if x =? 62 then "+"%char else "/"%char.

Fixpoint b64 (bs : list Z) : string :=
  match bs with
  | a :: b :: c :: bs' =>
      let n := a * 65536 + b * 256 + c in
      String (b64_char (n / 262144)) (String (b64_char (n / 4096 mod 64))
        (String (b64_char (n / 64 mod 64)) (String (b64_char (n mod 64)) (b64 bs'))))
  | [a; b] =>
      let n := a * 65536 + b * 256 in
      String (b64_char (n / 262144)) (String (b64_char (n / 4096 mod 64)) (String (b64_char (n / 64 mod 64)) "="))
  | [a] =>
      let n := a * 65536 in String (b64_char (n / 262144)) (String (b64_char (n / 4096 mod 64)) "==")
  | [] => ""
  end.

Definition b64_val (c : ascii) : Z :=
  let x := char_code c in
  if in_range 65 90 c then x - 65 else if in_range 97 122 c then x - 71
  else if in_range 48 57 c then x + 4 else if decide (c = "+"%char) then 62 else 63.

(** A fact about every value of six bits *)
Lemma six_bits (P : Z → Prop) `{!∀ x, Decision (P x)} :
  bool_decide (Forall P (Z.of_nat <$> seq 0 64)) = true → ∀ x, 0 <= x < 64 → P x.
Proof.
  intros Hall%bool_decide_eq_true_1 x Hx. rewrite List.Forall_forall in Hall. apply Hall.
  apply list_elem_of_In, list_elem_of_fmap. exists (Z.to_nat x). rewrite elem_of_seq. lia.
Qed.

Lemma b64_val_char x : 0 <= x < 64 → b64_val (b64_char x) = x.
Proof. revert x. apply (six_bits (λ x, b64_val (b64_char x) = x)). vm_compute. reflexivity. Qed.

#[global] Instance std_char_dec c : Decision (std_char c).
Proof. unfold std_char. apply _. Defined.

Lemma b64_char_std x : 0 <= x < 64 → std_char (b64_char x).
Proof. revert x. apply (six_bits (λ x, std_char (b64_char x))). vm_compute. reflexivity. Qed.

Lemma b64_char_inj x y : 0 <= x < 64 → 0 <= y < 64 → b64_char x = b64_char y → x = y.
Proof. intros Hx Hy E. by rewrite <- (b64_val_char x), <- (b64_val_char y), E. Qed.

(** The four groups of six bits of three bytes *)
Lemma sextets n : 0 <= n < 2 ^ 24 →
  0 <= n / 262144 < 64 ∧ 0 <= n / 4096 mod 64 < 64 ∧ 0 <= n / 64 mod 64 < 64 ∧ 0 <= n mod 64 < 64.
Proof.
  intros Hn. split_and!; try (by apply Z.mod_pos_bound); [apply Z.div_pos; lia|apply Z.div_lt_upper_bound; lia].
Qed.

Lemma sextets_inj n m :
  n / 262144 = m / 262144 → n / 4096 mod 64 = m / 4096 mod 64 → n / 64 mod 64 = m / 64 mod 64 →
  n mod 64 = m mod 64 → n = m.
Proof. intros. Z.div_mod_to_equations. lia. Qed.

Lemma triple_bound a b c : is_byte a → is_byte b → is_byte c → 0 <= a * 65536 + b * 256 + c < 2 ^ 24.
Proof. unfold is_byte. lia. Qed.

Lemma b64_text k : ∀ bs, length bs = (3 * k)%nat → Forall is_byte bs →
  String.length (b64 bs) = (4 * k)%nat ∧ str_forall std_char (b64 bs).
Proof.
  induction k as [|k IH]; intros bs Hl Hb.
  { apply nil_length_inv in Hl as ->. done. }
  destruct bs as [|a [|b [|c bs]]]; cbn in Hl; try lia.
  inversion_clear Hb as [|?? Ha Hb1]. inversion_clear Hb1 as [|?? Hb Hb2]. inversion_clear Hb2 as [|?? Hc Hbs].
  destruct (IH bs) as [Hlen Hs]; [lia|done|]. pose proof (sextets _ (triple_bound a b c Ha Hb Hc)) as (H1 & H2 & H3 & H4).
  cbn [b64]. cbn zeta. split; [cbn [String.length]; rewrite Hlen; lia|].
  cbn [str_forall]. split_and!; auto using b64_char_std.
Qed.

Lemma b64_inj k : ∀ bs bs', length bs = (3 * k)%nat → length bs' = (3 * k)%nat →
  Forall is_byte bs → Forall is_byte bs' → b64 bs = b64 bs' → bs = bs'.
Proof.
  induction k as [|k IH]; intros bs bs' Hl Hl' Hb Hb' E.
  { apply nil_length_inv in Hl as ->. by apply nil_length_inv in Hl' as ->. }
  destruct bs as [|a [|b [|c bs]]]; cbn in Hl; try lia. destruct bs' as [|a' [|b' [|c' bs']]]; cbn in Hl'; try lia.
  inversion_clear Hb as [|?? Ha Hb1]. inversion_clear Hb1 as [|?? Hb Hb2]. inversion_clear Hb2 as [|?? Hc Hbs].
  inversion_clear Hb' as [|?? Ha' Hb1]. inversion_clear Hb1 as [|?? Hb' Hb2]. inversion_clear Hb2 as [|?? Hc' Hbs'].
  pose proof (sextets _ (triple_bound a b c Ha Hb Hc)) as (H1 & H2 & H3 & H4).
  pose proof (sextets _ (triple_bound a' b' c' Ha' Hb' Hc')) as (H1' & H2' & H3' & H4').
  cbn [b64] in E. injection E as E1 E2 E3 E4 E5. apply IH in E5; [|lia|lia|done|done].
  apply b64_char_inj in E1, E2, E3, E4; try done. pose proof (sextets_inj _ _ E1 E2 E3 E4) as En.
  unfold is_byte in *. assert (a = a') by lia. assert (b = b') by lia. assert (c = c') by lia. by subst.
Qed.

#[export] Instance b64_laws : Base64Laws b64.
Proof.
  split.
  - intros bs Hl. by apply (b64_text 8).
  - intros bs bs' Hl Hl'. by apply (b64_inj 8).
Qed.

(** C38. A token is 32 characters that are safe in a URL, and different random bytes give
    different tokens: replacing [+] and [/] and dropping the padding loses nothing.  With
    [NDEBUG] the random bytes are not drawn (the call is inside an [assert]) and every login
    gets the same token. *)
Theorem token_generator_correct base64 `{!Base64Laws base64} bs bs' :
  length bs = TOKEN_BYTES → length bs' = TOKEN_BYTES → Forall is_byte bs → Forall is_byte bs' →
  (∃ t, TokenGenerator base64 false (Some bs) = Ok t ∧ String.length t = 32%nat ∧ str_forall url_safe_char t)
  ∧ (TokenGenerator base64 false (Some bs) = TokenGenerator base64 false (Some bs') → bs = bs')
  ∧ (TokenGenerator base64 true (Some bs) = TokenGenerator base64 true (Some bs')).
Proof.
  intros Hl Hl' Hb Hb'. rewrite !TokenGenerator_Ok by done.
  destruct (base64_text bs Hl Hb) as [Hlen Hs], (base64_text bs' Hl' Hb') as [_ Hs']. split_and!; [|..|done].
  - eexists. split; [reflexivity|]. rewrite url_safe_length. split; [done|by apply url_safe_forall].
  - intros [= E]. apply base64_inj; try done. by apply url_safe_inj.
Qed.

Lemma token_generator_correct_witness :
  (∃ t, TokenGenerator b64 false (Some (replicate 24 255)) = Ok t ∧ String.length t = 32%nat ∧ str_forall url_safe_char t)
  ∧ (TokenGenerator b64 false (Some (replicate 24 255)) = TokenGenerator b64 false (Some (replicate 24 7)) →
      replicate 24 255 = replicate 24 7)
  ∧ (TokenGenerator b64 true (Some (replicate 24 255)) = TokenGenerator b64 true (Some (replicate 24 7))).
Proof.
  apply (token_generator_correct b64 (replicate 24 255) (replicate 24 7)); [reflexivity|reflexivity|..];
    repeat constructor; done.
Defined.
