(* ===== verification/RedisTime.v ===== *)
(** * Redis with a clock

    What the documentation of Redis says about the life times the programs rely on.  A string
    has a deadline, a hash has one for the key as a whole ([PEXPIRE]) and one for each field
    ([HSETEX], [HEXPIRE]).  Setting a field removes the field's deadline and leaves the key's
    alone; a key whose last field is gone is gone.  An entry past its deadline counts as
    absent, whether or not the server has removed it: stores that differ only in such entries
    are equivalent, and every command respects the equivalence.

    [RedisTime] is the interface: a server shows a store, and each command does to it, up to
    equivalence, what the store's operation does. *)

From S2P Require Import Prelude Decimal CppString RedisBase Timer Backend Gateway GatewayFacts.

Record hash := mkHash { h_until : option Z; h_fields : gmap string (string * option Z) }.

Record store := mkStore {
  clock : Z;                                     (* milliseconds *)
  strs : gmap string (string * Z);
  hashes : gmap string hash
}.

(** ** What is there *)

Definition alive (now : Z) (d : option Z) : bool := match d with Some t => now <? t | None => true end.

Definition live_str (s : store) (k : string) : option (string * Z) :=
  strs s !! k ≫= λ vd, if clock s <? vd.2 then Some vd else None.

(** The fields that are left at time [now] *)
Definition left_fields (now : Z) (fs : gmap string (string * option Z)) : gmap string (string * option Z) :=
  omap (λ vd, if alive now vd.2 then Some vd else None) fs.

Definition live_fields (s : store) (k : string) : gmap string (string * option Z) :=
  match hashes s !! k with
  | Some h => if alive (clock s) (h_until h) then left_fields (clock s) (h_fields h) else ∅
  | None => ∅
  end.

Definition live_until (s : store) (k : string) : option Z :=
  if decide (live_fields s k = ∅) then None else hashes s !! k ≫= h_until.

#[global] Instance store_equiv : Equiv store := λ s s',
  clock s = clock s' ∧ ∀ k, live_str s k = live_str s' k ∧ live_fields s k = live_fields s' k ∧ live_until s k = live_until s' k.

#[global] Instance store_equivalence : Equivalence (≡@{store}).
Proof.
  split.
  - by intros s.
  - intros s s' [Hc H]. split; [done|]. intros k. by destruct (H k) as (-> & -> & ->).
  - intros s1 s2 s3 [Hc H] [Hc' H']. split; [congruence|]. intros k.
    destruct (H k) as (-> & -> & ->). apply H'.
Qed.

#[global] Instance clock_proper : Proper ((≡) ==> (=)) clock.
Proof. by intros s s' [H _]. Qed.

#[global] Instance live_str_proper : Proper ((≡) ==> (=) ==> (=)) live_str.
Proof. intros s s' [_ H] k ? <-. apply H. Qed.

#[global] Instance live_fields_proper : Proper ((≡) ==> (=) ==> (=)) live_fields.
Proof. intros s s' [_ H] k ? <-. apply H. Qed.

#[global] Instance live_until_proper : Proper ((≡) ==> (=) ==> (=)) live_until.
Proof. intros s s' [_ H] k ? <-. apply H. Qed.

(** ** The commands *)

Definition with_hash (k : string) (u : option Z) (fs : gmap string (string * option Z)) (s : store) : store :=
  mkStore (clock s) (strs s) (<[k := mkHash u fs]> (hashes s)).

Definition s_wait (d : Z) (s : store) : store := mkStore (clock s + d) (strs s) (hashes s).

Definition s_setex (k : string) (ttl : Z) (v : string) (s : store) : store :=
  mkStore (clock s) (<[k := (v, clock s + ttl * 1000)]> (strs s)) (delete k (hashes s)).

Definition s_hset (k : string) (fs : gmap string string) (s : store) : store :=
  with_hash k (live_until s k) (((λ v, (v, None)) <$> fs) ∪ live_fields s k) s.

Definition s_hsetex (k : string) (fs : gmap string string) (ttl : Z) (s : store) : store :=
  with_hash k (live_until s k) (((λ v, (v, Some (clock s + ttl * 1000))) <$> fs) ∪ live_fields s k) s.

(** On a key that is not there: nothing *)
Definition s_pexpire (k : string) (px : Z) (s : store) : store :=
  if decide (live_fields s k = ∅) then s else with_hash k (Some (clock s + px)) (live_fields s k) s.

Definition s_hexpire (k : string) (seconds : Z) (fields : list string) (s : store) : store :=
  if decide (live_fields s k = ∅) then s
  else with_hash k (live_until s k)
    (map_imap (λ f vd, Some (if decide (f ∈ fields) then (vd.1, Some (clock s + seconds * 1000)) else vd)) (live_fields s k)) s.

Definition s_del (k : string) (s : store) : store := mkStore (clock s) (delete k (strs s)) (delete k (hashes s)).

Definition s_cmd (s : store) (c : redis_cmd) : store :=
  match c with
  | HEXPIRE k seconds fields => s_hexpire k seconds fields s
  | DEL k => s_del k s
  end.

(** ** What the commands do *)

Lemma alive_later now now' d : now <= now' → alive now' d = true → alive now d = true.
Proof. destruct d as [t|]; [|done]. cbn. rewrite !Z.ltb_lt. lia. Qed.

Lemma lookup_left now fs f : left_fields now fs !! f = fs !! f ≫= λ vd, if alive now vd.2 then Some vd else None.
Proof. apply lookup_omap. Qed.

(** What is left later is what is left later of what is left now. *)
Lemma left_left now now' fs : now <= now' → left_fields now' (left_fields now fs) = left_fields now' fs.
Proof.
  intros Hle. apply map_eq. intros f. rewrite !lookup_left. destruct (fs !! f) as [[v d]|]; [|done]. cbn.
  destruct (alive now d) eqn:E; [done|]. cbn. destruct (alive now' d) eqn:E'; [|done].
  by rewrite (alive_later now now' d Hle E') in E.
Qed.

Lemma left_empty now : left_fields now ∅ = ∅.
Proof. apply omap_empty. Qed.

Lemma live_left s k : left_fields (clock s) (live_fields s k) = live_fields s k.
Proof.
  unfold live_fields. destruct (hashes s !! k) as [h|]; [|apply left_empty].
  destruct (alive _ _); [by apply left_left|apply left_empty].
Qed.

Lemma live_until_alive s k : alive (clock s) (live_until s k) = true.
Proof.
  unfold live_until. destruct (decide _) as [|H]; [done|]. revert H. unfold live_fields.
  destruct (hashes s !! k) as [h|]; [|done]. change (Some h ≫= h_until) with (h_until h).
  by destruct (alive (clock s) (h_until h)).
Qed.

Lemma live_fields_with k u fs s k' :
  live_fields (with_hash k u fs s) k'
  = if decide (k' = k) then if alive (clock s) u then left_fields (clock s) fs else ∅ else live_fields s k'.
Proof.
  unfold live_fields, with_hash. cbn [hashes clock]. destruct (decide (k' = k)) as [->|H].
  - by rewrite lookup_insert_eq.
  - by rewrite lookup_insert_ne.
Qed.

Lemma live_until_with k u fs s k' :
  live_until (with_hash k u fs s) k'
  = if decide (k' = k) then if decide (live_fields (with_hash k u fs s) k = ∅) then None else u else live_until s k'.
Proof.
  unfold live_until at 1. destruct (decide (k' = k)) as [->|H].
  - destruct (decide (live_fields _ _ = ∅)); [done|]. cbn. by rewrite lookup_insert_eq.
  - assert (E : live_fields (with_hash k u fs s) k' = live_fields s k') by (by rewrite live_fields_with, decide_False).
    rewrite E. unfold live_until. destruct (decide _); [done|]. cbn. by rewrite lookup_insert_ne.
Qed.

Lemma live_fields_wait d s k :
  0 <= d → live_fields (s_wait d s) k = if alive (clock s + d) (live_until s k) then left_fields (clock s + d) (live_fields s k) else ∅.
Proof.
  intros Hd. unfold live_until. destruct (decide (live_fields s k = ∅)) as [E|E].
  - rewrite E, left_empty. cbn [alive]. revert E. unfold live_fields. cbn [hashes clock s_wait].
    destruct (hashes s !! k) as [h|]; [|done]. destruct (alive (clock s + d) (h_until h)) eqn:Ea; [|done].
    rewrite (alive_later _ _ _ (ltac:(lia) : clock s <= clock s + d) Ea). intros E.
    by rewrite <- (left_left (clock s)), E, left_empty by lia.
  - revert E. unfold live_fields. cbn [hashes clock s_wait]. destruct (hashes s !! k) as [h|]; [|done].
    change (Some h ≫= h_until) with (h_until h). destruct (alive (clock s) (h_until h)); [|done]. intros _. by rewrite left_left by lia.
Qed.

Lemma live_until_wait d s k :
  0 <= d → live_until (s_wait d s) k = if decide (live_fields (s_wait d s) k = ∅) then None else live_until s k.
Proof.
  intros Hd. unfold live_until at 1. destruct (decide _) as [|H]; [done|]. rewrite live_fields_wait in H by done.
  unfold live_until in *. destruct (decide (live_fields s k = ∅)) as [E|]; [|done].
  rewrite E, left_empty in H. by destruct (alive _ _).
Qed.

Lemma live_str_wait d s k :
  0 <= d → live_str (s_wait d s) k = live_str s k ≫= λ vd, if clock s + d <? vd.2 then Some vd else None.
Proof.
  intros Hd. unfold live_str. cbn. destruct (strs s !! k) as [[v t]|]; [|done]. cbn.
  destruct (Z.ltb_spec (clock s) t); cbn; [done|]. destruct (Z.ltb_spec (clock s + d) t); [lia|done].
Qed.

Lemma live_str_setex k ttl v s k' :
  0 < ttl → live_str (s_setex k ttl v s) k' = if decide (k' = k) then Some (v, clock s + ttl * 1000) else live_str s k'.
Proof.
  intros Ht. unfold live_str. cbn. destruct (decide (k' = k)) as [->|H]; [rewrite lookup_insert_eq|by rewrite lookup_insert_ne].
  cbn. by rewrite (proj2 (Z.ltb_lt _ _)) by lia.
Qed.

Lemma live_str_with k u fs s k' : live_str (with_hash k u fs s) k' = live_str s k'.
Proof. done. Qed.

(** Removing a hash *)
Lemma live_removed s s' k :
  clock s' = clock s → hashes s' = delete k (hashes s) → ∀ k',
  live_fields s' k' = (if decide (k' = k) then ∅ else live_fields s k')
  ∧ live_until s' k' = if decide (k' = k) then None else live_until s k'.
Proof.
  intros Hc Hh k'.
  assert (E : live_fields s' k' = if decide (k' = k) then ∅ else live_fields s k').
  { unfold live_fields. rewrite Hc, Hh. destruct (decide (k' = k)) as [->|H]; [by rewrite lookup_delete_eq|by rewrite lookup_delete_ne]. }
  split; [done|]. unfold live_until at 1. rewrite E, Hh. destruct (decide (k' = k)) as [->|H]; [by rewrite decide_True|].
  by rewrite lookup_delete_ne.
Qed.

Lemma live_str_del k s k' : live_str (s_del k s) k' = if decide (k' = k) then None else live_str s k'.
Proof.
  unfold live_str. cbn. destruct (decide (k' = k)) as [->|H]; [by rewrite lookup_delete_eq|by rewrite lookup_delete_ne].
Qed.

(** ** The commands respect the equivalence *)

(** What is at [k] is the same in equivalent stores. *)
Ltac along E k :=
  rewrite ?(clock_proper _ _ E), ?(live_str_proper _ _ E k k eq_refl), ?(live_fields_proper _ _ E k k eq_refl),
    ?(live_until_proper _ _ E k k eq_refl).

#[global] Instance with_hash_proper k u fs : Proper ((≡) ==> (≡)) (with_hash k u fs).
Proof.
  intros s s' E. split; [exact (clock_proper _ _ E)|]. intros k'.
  rewrite !live_until_with, !live_fields_with, !live_str_with. rewrite !(decide_True (P := k = k)) by done.
  by along E k'.
Qed.

Lemma s_wait_proper d : 0 <= d → Proper ((≡) ==> (≡)) (s_wait d).
Proof.
  intros Hd s s' E. split; [cbn; by rewrite (clock_proper _ _ E)|]. intros k.
  rewrite !live_until_wait, !live_fields_wait, !live_str_wait by done.
  by along E k.
Qed.

Lemma s_setex_proper k ttl v : 0 < ttl → Proper ((≡) ==> (≡)) (s_setex k ttl v).
Proof.
  intros Ht s s' E. split; [exact (clock_proper _ _ E)|]. intros k'. rewrite !live_str_setex by done.
  destruct (live_removed s (s_setex k ttl v s) k eq_refl eq_refl k') as [-> ->].
  destruct (live_removed s' (s_setex k ttl v s') k eq_refl eq_refl k') as [-> ->].
  by along E k'.
Qed.

#[global] Instance s_hset_proper k fs : Proper ((≡) ==> (≡)) (s_hset k fs).
Proof.
  intros s s' E. unfold s_hset.
  along E k. by apply with_hash_proper.
Qed.

#[global] Instance s_hsetex_proper k fs ttl : Proper ((≡) ==> (≡)) (s_hsetex k fs ttl).
Proof.
  intros s s' E. unfold s_hsetex.
  along E k. by apply with_hash_proper.
Qed.

#[global] Instance s_pexpire_proper k px : Proper ((≡) ==> (≡)) (s_pexpire k px).
Proof.
  intros s s' E. unfold s_pexpire. along E k.
  destruct (decide _); [done|by apply with_hash_proper].
Qed.

#[global] Instance s_hexpire_proper k sec fields : Proper ((≡) ==> (≡)) (s_hexpire k sec fields).
Proof.
  intros s s' E. unfold s_hexpire.
  along E k.
  destruct (decide _); [done|by apply with_hash_proper].
Qed.

#[global] Instance s_del_proper k : Proper ((≡) ==> (≡)) (s_del k).
Proof.
  intros s s' E. split; [exact (clock_proper _ _ E)|]. intros k'. rewrite !live_str_del.
  destruct (live_removed s (s_del k s) k eq_refl eq_refl k') as [-> ->].
  destruct (live_removed s' (s_del k s') k eq_refl eq_refl k') as [-> ->].
  by along E k'.
Qed.

#[global] Instance s_cmd_proper : Proper ((≡) ==> (=) ==> (≡)) s_cmd.
Proof. intros s s' E c ? <-. destruct c; cbn [s_cmd]; [by apply s_hexpire_proper|by apply s_del_proper]. Qed.

(** ** The interface *)

(** A command on a hash answers with an error when the key holds a string. *)
Class RedisTime (Rd : Type) `{!RedisOps Rd, !GatewayRedis Rd} := {
  view : Rd → store;
  rd_wait : Z → Rd → Rd;                         (* time passes *)
  time_wait rd d : 0 <= d → view (rd_wait d rd) ≡ s_wait d (view rd);
  time_get rd k : redis_get rd k = Ok (fst <$> live_str (view rd) k);
  time_hget rd k f : live_str (view rd) k = None → redis_hget rd k f = Ok (fst <$> live_fields (view rd) k !! f);
  time_hexists rd k f : live_str (view rd) k = None →
    redis_hexists rd k f = Ok (bool_decide (is_Some (live_fields (view rd) k !! f)));
  time_setex rd k ttl v : 0 < ttl → ∃ rd', redis_setex rd k ttl v = Ok rd' ∧ view rd' ≡ s_setex k ttl v (view rd);
  time_hset rd k fs : live_str (view rd) k = None →
    ∃ rd', redis_hset rd k fs = Ok rd' ∧ view rd' ≡ s_hset k (list_to_map fs) (view rd);
  time_pexpire rd k px : live_str (view rd) k = None → 0 < px →
    ∃ rd', redis_pexpire rd k px = Ok rd' ∧ view rd' ≡ s_pexpire k px (view rd);
  time_hsetex rd k fs ttl : live_str (view rd) k = None → 0 < ttl →
    ∃ rd' n, redis_hsetex rd k fs ttl = Ok (rd', n) ∧ view rd' ≡ s_hsetex k fs ttl (view rd);
  time_pipeline rd cmds : ∃ rd', redis_pipeline rd cmds = Ok rd' ∧ view rd' ≡ foldl s_cmd (view rd) cmds
}.

(** The store itself, as a server *)
#[export] Instance store_redis : RedisOps store := {
  redis_get s k := Ok (fst <$> live_str s k);
  redis_hget s k f := Ok (fst <$> live_fields s k !! f);
  redis_hsetex s k fs ttl := Ok (s_hsetex k fs ttl s, 1);
  redis_xadd s _ _ _ := Ok (s, "1-0");
  redis_pipeline s cmds := Ok (foldl s_cmd s cmds)
}.

#[export] Instance store_gateway : GatewayRedis store := {
  redis_setex s k ttl v := Ok (s_setex k ttl v s);
  redis_hexists s k f := Ok (bool_decide (is_Some (live_fields s k !! f)));
  redis_hset s k fs := Ok (s_hset k (list_to_map fs) s);
  redis_pexpire s k px := Ok (s_pexpire k px s);
  redis_script_load s _ := Ok (s, "sha")
}.

#[export] Program Instance store_time : RedisTime store := { view := id; rd_wait := s_wait }.
Solve Obligations with (intros; cbn; eauto).
