(* ===== verification/Presence.v ===== *)
(** * Who is online, in time

    The state of a user in Redis is a hash [status:<uid>].  The gateway makes it at a login
    and gives the key 60 seconds; the backend that accepts the token writes its own id into
    it, with 30 seconds for the fields; the uploader renews the fields of active users by
    another 30 seconds.  Nothing touches the deadline of the key.  The token lives for 50
    seconds.  A [life_ev] is time that passes or an upload of any backend. *)

From S2P Require Import Prelude Decimal CppString Snowflake Dbm DbmFacts RedisBase Timer StatusService Backend Gateway GatewayFacts RedisTime.

(** ** Places in a store *)

(** The server field of key [k] holds [v] until [F]; the key lives until [K] *)
Definition at_place (s : store) (k v : string) (K : Z) (F : option Z) : Prop :=
  live_str s k = None ∧ live_until s k = Some K ∧ live_fields s k !! "server_id" = Some (v, F).

Definition no_place (s : store) (k : string) : Prop := live_str s k = None ∧ live_fields s k !! "server_id" = None.

#[global] Instance at_place_proper : Proper ((≡) ==> (=) ==> (=) ==> (=) ==> (=) ==> iff) at_place.
Proof. intros s s' E k ? <- v ? <- K ? <- F ? <-. unfold at_place. by along E k. Qed.

#[global] Instance no_place_proper : Proper ((≡) ==> (=) ==> iff) no_place.
Proof. intros s s' E k ? <-. unfold no_place. by along E k. Qed.

Lemma at_place_alive s k v K F : at_place s k v K F → clock s < K ∧ alive (clock s) F = true.
Proof.
  intros (_ & Hu & Hf). split.
  - pose proof (live_until_alive s k) as H. rewrite Hu in H. by apply Z.ltb_lt.
  - rewrite <- live_left, lookup_left in Hf. destruct (live_fields s k !! "server_id") as [[v' F']|]; [|done].
    cbn in Hf. destruct (alive (clock s) F') eqn:E; [|done]. by injection Hf as _ <-.
Qed.

Lemma not_empty_lookup {A} (m : gmap string A) f x : m !! f = Some x → m ≠ ∅.
Proof. intros H ->. by rewrite lookup_empty in H. Qed.

Lemma at_place_wait d s k v K F :
  0 <= d → at_place s k v K F →
  if (clock s + d <? K) && alive (clock s + d) F then at_place (s_wait d s) k v K F else no_place (s_wait d s) k.
Proof.
  intros Hd (Hs & Hu & Hf).
  assert (Hs' : live_str (s_wait d s) k = None) by (by rewrite live_str_wait, Hs).
  assert (E : live_fields (s_wait d s) k = if clock s + d <? K then left_fields (clock s + d) (live_fields s k) else ∅)
    by (by rewrite live_fields_wait, Hu by done).
  destruct (clock s + d <? K); cbn [andb]; [|by split; [|rewrite E]].
  assert (El : live_fields (s_wait d s) k !! "server_id" = if alive (clock s + d) F then Some (v, F) else None)
    by (by rewrite E, lookup_left, Hf).
  destruct (alive (clock s + d) F); [|by split]. split_and!; [done| |done].
  rewrite live_until_wait, decide_False by (by eauto using not_empty_lookup). done.
Qed.

Lemma no_place_wait d s k : 0 <= d → no_place s k → no_place (s_wait d s) k.
Proof.
  intros Hd [Hs Hf]. split; [by rewrite live_str_wait, Hs|]. rewrite live_fields_wait by done.
  destruct (alive _ _); [|done]. by rewrite lookup_left, Hf.
Qed.

(** A command on another key *)
Lemma live_hexpire_ne k sec fields s k' :
  k' ≠ k → live_str (s_hexpire k sec fields s) k' = live_str s k' ∧ live_fields (s_hexpire k sec fields s) k' = live_fields s k'
    ∧ live_until (s_hexpire k sec fields s) k' = live_until s k'.
Proof.
  intros Hk. unfold s_hexpire. destruct (decide _); [done|].
  by rewrite live_str_with, live_fields_with, live_until_with, !decide_False.
Qed.

(** The fields that [HEXPIRE] names and that are there get the new deadline. *)
Lemma at_place_hexpire k sec fields s v K F :
  0 < sec → "server_id" ∈ fields → at_place s k v K F →
  at_place (s_hexpire k sec fields s) k v K (Some (clock s + sec * 1000)).
Proof.
  intros Hsec Hin (Hs & Hu & Hf). unfold s_hexpire. rewrite decide_False by (by eapply not_empty_lookup).
  set (fs := map_imap _ (live_fields s k)).
  assert (El : live_fields (with_hash k (live_until s k) fs s) k !! "server_id" = Some (v, Some (clock s + sec * 1000))).
  { rewrite live_fields_with, decide_True, live_until_alive, lookup_left by done. unfold fs. rewrite map_lookup_imap, Hf. cbn.
    rewrite decide_True by done. cbn. by rewrite (proj2 (Z.ltb_lt _ _)) by lia. }
  split_and!; [by rewrite live_str_with| |done].
  rewrite live_until_with, decide_True, decide_False by (by eauto using not_empty_lookup). done.
Qed.

Lemma no_place_hexpire k sec fields s : no_place s k → no_place (s_hexpire k sec fields s) k.
Proof.
  intros [Hs Hf]. unfold s_hexpire. destruct (decide _); [done|]. split; [done|].
  rewrite live_fields_with, decide_True, live_until_alive, lookup_left, map_lookup_imap, Hf by done. done.
Qed.

(** ** Uploads *)

Lemma status_key_inj u u' : is_u64 u → is_u64 u' → status_key u = status_key u' → u = u'.
Proof. intros Hu Hu' E. apply to_string_inj; [done..|]. unfold status_key in E. rewrite !str_app_cons in E. by simplify_eq. Qed.

Lemma token_not_status t u : token_key t ≠ status_key u.
Proof. done. Qed.

Lemma clock_cmd s c : clock (s_cmd s c) = clock s.
Proof. destruct c; cbn; [|done]. unfold s_hexpire. by destruct (decide _). Qed.

Lemma clock_cmds cmds : ∀ s, clock (foldl s_cmd s cmds) = clock s.
Proof. induction cmds as [|c cmds IH]; intros s; cbn; [done|]. by rewrite IH, clock_cmd. Qed.

(** What an upload of [on] and [gone] does to the place of a user who is not leaving *)
Definition renewed_until (uid : Z) (on : gset Z) (now : Z) (F : option Z) : option Z :=
  if decide (uid ∈ on) then Some (now + 30 * 1000) else F.

Section upload.
Context (order : gset Z → list Z) (Horder : ∀ X x, x ∈ order X ↔ x ∈ X).
Context (uid : Z) (Huid : is_u64 uid).

Abbreviation renewals us := ((λ u, HEXPIRE (status_key u) 30 ["server_id"; "status"]) <$> us).
Abbreviation removals us := ((λ u, DEL (status_key u)) <$> us).

Lemma place_removals us : ∀ s, Forall is_u64 us → uid ∉ us →
  (∀ v K F, at_place s (status_key uid) v K F → at_place (foldl s_cmd s (removals us)) (status_key uid) v K F)
  ∧ (no_place s (status_key uid) → no_place (foldl s_cmd s (removals us)) (status_key uid)).
Proof.
  induction us as [|u us IH]; intros s Hu Hn; cbn; [done|]. inversion_clear Hu as [|?? Hu1 Hu2].
  assert (Hk : status_key uid ≠ status_key u) by (intros E%status_key_inj; [set_solver|done..]).
  destruct (IH (s_del (status_key u) s) Hu2) as [IH1 IH2]; [set_solver|].
  destruct (live_removed s (s_del (status_key u) s) (status_key u) eq_refl eq_refl (status_key uid)) as [E1 E2].
  rewrite decide_False in E1 by done. rewrite decide_False in E2 by done.
  assert (E3 : live_str (s_del (status_key u) s) (status_key uid) = live_str s (status_key uid)) by (by rewrite live_str_del, decide_False).
  split.
  - intros v K F H. apply IH1. unfold at_place in *. by rewrite E1, E2, E3.
  - intros H. apply IH2. unfold no_place in *. by rewrite E1, E3.
Qed.

Lemma place_renewals us : ∀ s, Forall is_u64 us →
  (∀ v K F, at_place s (status_key uid) v K F →
     at_place (foldl s_cmd s (renewals us)) (status_key uid) v K (if decide (uid ∈ us) then Some (clock s + 30 * 1000) else F))
  ∧ (no_place s (status_key uid) → no_place (foldl s_cmd s (renewals us)) (status_key uid)).
Proof.
  induction us as [|u us IH]; intros s Hu; cbn [foldl fmap list_fmap];
    [split; [intros v K F H; by rewrite decide_False by set_solver|done]|].
  inversion_clear Hu as [|?? Hu1 Hu2]. cbn [s_cmd]. set (s1 := s_hexpire _ _ _ s).
  assert (Hc : clock s1 = clock s) by exact (clock_cmd s (HEXPIRE (status_key u) 30 ["server_id"; "status"])).
  destruct (IH s1 Hu2) as [IH1 IH2]. rewrite Hc in IH1. destruct (decide (u = uid)) as [->|Hne].
  - split.
    + intros v K F H. rewrite (decide_True (P := uid ∈ uid :: us)) by set_solver.
      apply (at_place_hexpire _ 30 ["server_id"; "status"]) in H; [|done|set_solver]. apply IH1 in H. by destruct (decide (uid ∈ us)).
    + intros H. by apply IH2, no_place_hexpire.
  - assert (Hk : status_key uid ≠ status_key u) by (intros E%status_key_inj; [set_solver|done..]).
    destruct (live_hexpire_ne _ 30 ["server_id"; "status"] s _ Hk) as (E1 & E2 & E3). fold s1 in E1, E2, E3. split.
    + intros v K F H. assert (H1 : at_place s1 (status_key uid) v K F) by (unfold at_place in *; by rewrite E1, E2, E3).
      apply IH1 in H1. rewrite (decide_ext (uid ∈ u :: us) (uid ∈ us)) by set_solver. done.
    + intros H. apply IH2. unfold no_place in *. by rewrite E1, E2.
Qed.

Lemma place_upload s on gone :
  (∀ u, u ∈ on ∪ gone → is_u64 u) → uid ∉ gone →
  (∀ v K F, at_place s (status_key uid) v K F →
     at_place (foldl s_cmd s (upload_cmds order on gone)) (status_key uid) v K (renewed_until uid on (clock s) F))
  ∧ (no_place s (status_key uid) → no_place (foldl s_cmd s (upload_cmds order on gone)) (status_key uid)).
Proof.
  intros Hu Hg. unfold upload_cmds. rewrite foldl_app.
  assert (H1 : Forall is_u64 (order on)) by (apply list.Forall_forall; intros u Hin%Horder; apply Hu; set_solver).
  assert (H2 : Forall is_u64 (order gone)) by (apply list.Forall_forall; intros u Hin%Horder; apply Hu; set_solver).
  destruct (place_renewals (order on) s H1) as [R1 R2].
  destruct (place_removals (order gone) (foldl s_cmd s (renewals (order on))) H2) as [D1 D2]; [by rewrite Horder|].
  split; [|auto]. intros v K F H. apply D1. apply R1 in H. unfold renewed_until.
  rewrite (decide_ext (uid ∈ on) (uid ∈ order on)) by (by rewrite Horder). done.
Qed.
End upload.

(** Strings other than the states are not touched. *)
Lemma token_upload order on gone s t :
  live_str (foldl s_cmd s (upload_cmds order on gone)) (token_key t) = live_str s (token_key t).
Proof.
  unfold upload_cmds. rewrite foldl_app. generalize (order gone), (order on). intros vs us.
  transitivity (live_str (foldl s_cmd s ((λ u, HEXPIRE (status_key u) 30 ["server_id"; "status"]) <$> us)) (token_key t)).
  - generalize (foldl s_cmd s ((λ u, HEXPIRE (status_key u) 30 ["server_id"; "status"]) <$> us)). clear s us.
    induction vs as [|u vs IH]; intros s; cbn; [done|]. by rewrite IH, live_str_del, decide_False.
  - revert s. induction us as [|u us IH]; intros s; cbn; [done|]. rewrite IH. unfold s_hexpire. by destruct (decide _).
Qed.

(** ** The code in time *)

Inductive life_ev := LWait (d : Z) | LUpload (u : OnlineStatusUploader).

Definition elapsed (es : list life_ev) : Z := foldr (λ e n, match e with LWait d => d + n | LUpload _ => n end) 0 es.

(** Any user's state may be renewed or removed, [uid]'s not removed *)
Definition life_ok (uid : Z) (e : life_ev) : Prop :=
  match e with
  | LWait d => 0 <= d
  | LUpload u => uid ∉ removal_sess_ u ∧ ∀ x, x ∈ on_sess_ u ∪ removal_sess_ u → is_u64 x
  end.

(** The user is in every upload that comes 30 seconds after the last one or after the start;
    [age]: how long ago that was *)
Fixpoint kept_fresh (uid age : Z) (es : list life_ev) : Prop :=
  match es with
  | [] => True
  | LWait d :: es' => age + d < 30000 ∧ kept_fresh uid (age + d) es'
  | LUpload u :: es' => kept_fresh uid (if negb (in_progress_ u) && bool_decide (uid ∈ on_sess_ u) then 0 else age) es'
  end.

(** Nobody is taken for the user *)
Definition not_online (uid : Z) (e : life_ev) : Prop := match e with LWait _ => True | LUpload u => uid ∉ on_sess_ u end.

Section life.
Context {D Rd Sv : Type} `{!RedisOps Rd, !GatewayRedis Rd, !RedisTime Rd}.
Context (order : gset Z → list Z) (Horder : ∀ X x, x ∈ order X ↔ x ∈ X).

Definition age_step (rd : Rd) (e : life_ev) : Rd :=
  match e with
  | LWait d => rd_wait d rd
  | LUpload u => default rd (redis_ (UploadImpl redis_pipeline order (u, mkMgr (Some rd))).1.2)
  end.

Definition age_run (es : list life_ev) (rd : Rd) : Rd := foldl age_step rd es.

Lemma life_upload rd u :
  let cmds := if in_progress_ u then [] else upload_cmds order (on_sess_ u) (removal_sess_ u) in
  view (age_step rd (LUpload u)) ≡ foldl s_cmd (view rd) cmds.
Proof.
  cbn zeta. unfold age_step, UploadImpl, GetRedis. destruct (in_progress_ u); [done|]. cbn [redis_].
  destruct (time_pipeline rd (upload_cmds order (on_sess_ u) (removal_sess_ u))) as (rd' & E & Hv).
  rewrite E. exact Hv.
Qed.

Context (uid : Z) (Huid : is_u64 uid).
Abbreviation key := (status_key uid).

Lemma place_life rd e :
  life_ok uid e →
  clock (view (age_step rd e)) = clock (view rd) + elapsed [e]
  ∧ (no_place (view rd) key → no_place (view (age_step rd e)) key)
  ∧ ∀ v K F, at_place (view rd) key v K F →
      match e with
      | LWait d => if (clock (view rd) + d <? K) && alive (clock (view rd) + d) F
                   then at_place (view (age_step rd e)) key v K F else no_place (view (age_step rd e)) key
      | LUpload u => at_place (view (age_step rd e)) key v K
                       (if in_progress_ u then F else renewed_until uid (on_sess_ u) (clock (view rd)) F)
      end.
Proof.
  destruct e as [d|u].
  - intros Hd. cbn [age_step]. pose proof (time_wait rd d Hd) as E. rewrite E. cbn [clock s_wait elapsed foldr].
    split_and!; [lia|by apply no_place_wait|]. intros v K F H. pose proof (at_place_wait d _ _ _ _ _ Hd H) as Hw.
    destruct (_ && _); by rewrite E.
  - intros [Hr Hu]. pose proof (life_upload rd u) as E. cbn zeta in E. rewrite E, clock_cmds. cbn [elapsed foldr].
    split; [lia|]. destruct (place_upload order Horder uid Huid (view rd) (on_sess_ u) (removal_sess_ u) Hu Hr) as [P1 P2].
    destruct (in_progress_ u); cbn [foldl] in *; (split; [auto|]); intros v K F H; rewrite E; auto.
Qed.

Lemma no_place_run es : ∀ rd, Forall (life_ok uid) es → no_place (view rd) key → no_place (view (age_run es rd)) key.
Proof.
  induction es as [|e es IH]; intros rd Hok H; [done|]. inversion_clear Hok as [|?? He Hes].
  apply IH; [done|]. by apply place_life.
Qed.

Lemma elapsed_cons e es : elapsed (e :: es) = elapsed [e] + elapsed es.
Proof. unfold elapsed. destruct e; cbn [foldr]; lia. Qed.

Lemma elapsed_nonneg es : Forall (life_ok uid) es → 0 <= elapsed es.
Proof. induction 1 as [|e es He _ IH]; [done|]. rewrite elapsed_cons. destruct e; cbn in *; lia. Qed.

(** Past the key's deadline the place is gone, whatever was renewed. *)
Lemma place_dies es : ∀ rd v K F,
  Forall (life_ok uid) es → at_place (view rd) key v K F → K <= clock (view rd) + elapsed es →
  no_place (view (age_run es rd)) key.
Proof.
  induction es as [|e es IH]; intros rd v K F Hok H HK.
  { destruct (at_place_alive _ _ _ _ _ H) as [Hlt _]. cbn in HK. lia. }
  inversion_clear Hok as [|?? He Hes]. destruct (place_life rd e He) as (Hc & _ & Hp). specialize (Hp _ _ _ H).
  rewrite elapsed_cons in HK. unfold age_run. cbn [foldl]. destruct e as [d|u].
  - destruct (_ && _); [|by apply no_place_run]. apply (IH _ v K F Hes Hp). lia.
  - apply (IH _ v K _ Hes Hp). lia.
Qed.

(** Before it the place is kept while the fields are renewed in time. *)
Lemma place_lives es : ∀ rd v K F age,
  Forall (life_ok uid) es → at_place (view rd) key v K (Some F) → F = clock (view rd) - age + 30000 → kept_fresh uid age es →
  clock (view rd) + elapsed es < K → ∃ F', at_place (view (age_run es rd)) key v K (Some F').
Proof.
  induction es as [|e es IH]; intros rd v K F age Hok H HF Hfr HK; [by exists F|].
  inversion_clear Hok as [|?? He Hes]. destruct (place_life rd e He) as (Hc & _ & Hp). specialize (Hp _ _ _ H).
  pose proof (elapsed_nonneg es Hes) as He0. rewrite elapsed_cons in HK. unfold age_run. cbn [foldl]. destruct e as [d|u].
  - destruct Hfr as [Hage Hfr]. change (elapsed [LWait d]) with (d + 0) in *. cbn [life_ok] in He. cbn [alive] in Hp.
    rewrite (proj2 (Z.ltb_lt _ _)), (proj2 (Z.ltb_lt _ _)) in Hp by lia.
    apply (IH _ v K F (age + d) Hes Hp); [lia|done|lia].
  - change (elapsed [LUpload u]) with 0 in *. cbn [kept_fresh] in Hfr. unfold renewed_until in Hp. destruct (in_progress_ u); cbn [negb andb] in Hfr.
    { apply (IH _ v K F age Hes Hp); [lia|done|lia]. }
    destruct (decide (uid ∈ on_sess_ u)) as [Hin|Hin].
    + rewrite bool_decide_eq_true_2 in Hfr by done. apply (IH _ v K _ 0 Hes Hp); [lia|done|lia].
    + rewrite bool_decide_eq_false_2 in Hfr by done. apply (IH _ v K F age Hes Hp); [lia|done|lia].
Qed.

(** *** The operations *)

Lemma hget_place rd v K F : at_place (view rd) key v K F → redis_hget rd key "server_id" = Ok (Some v).
Proof. intros (Hs & _ & Hf). by rewrite time_hget, Hf. Qed.

Lemma hget_no_place rd : no_place (view rd) key → redis_hget rd key "server_id" = Ok None.
Proof. intros (Hs & Hf). by rewrite time_hget, Hf. Qed.

Implicit Types g : Gateway D Rd Sv.

(** A free user is taken for 60 seconds; strings stay. *)
Lemma login_takes_only g rd :
  g_redis_ g = mkMgr (Some rd) → no_place (view rd) key →
  ∃ rd', UserLoginAttempt (to_string uid) g = (with_rd g rd', Ok (true, None))
    ∧ at_place (view rd') key "unset" (clock (view rd) + 60000) None ∧ clock (view rd') = clock (view rd)
    ∧ ∀ k, live_str (view rd') k = live_str (view rd) k.
Proof.
  intros Hg [Hs Hf]. destruct (time_hset rd key [("server_id", "unset"); ("status", "verifyed")] Hs) as (rd1 & E1 & V1).
  set (fs := ((λ v, (v, None)) <$> (list_to_map [("server_id", "unset"); ("status", "verifyed")] : gmap string string)) ∪ live_fields (view rd) key) in V1.
  assert (Hs1 : live_str (view rd1) key = None) by (by rewrite V1).
  assert (Hf1 : live_fields (view rd1) key !! "server_id" = Some ("unset", None)).
  { rewrite V1. unfold s_hset. rewrite live_fields_with, decide_True, live_until_alive, lookup_left by done.
    rewrite (lookup_union_Some_l _ _ "server_id" ("unset", None)) by (by vm_compute). done. }
  assert (Hc1 : clock (view rd1) = clock (view rd)) by (by rewrite V1).
  destruct (time_pexpire rd1 key 60000 Hs1) as (rd2 & E2 & V2); [done|].
  exists rd2. split_and!.
  - unfold UserLoginAttempt. rewrite (st_bind_Ok _ _ _ _ _ (GetRedis_g_Ok _ _ Hg)).
    assert (E : login_script rd ("status:" +:+ to_string uid) 60000 = Ok (rd2, "")).
    { unfold login_script. change ("status:" +:+ to_string uid) with key. rewrite (time_hexists rd key "server_id" Hs), Hf. cbn [mbind res_bind].
      rewrite bool_decide_eq_false_2 by (by intros [? ?]). rewrite E1. cbn [mbind res_bind]. by rewrite E2. }
    rewrite E. done.
  - rewrite V2. unfold s_pexpire. rewrite decide_False by (by eapply not_empty_lookup).
    assert (Hl : live_fields (with_hash key (Some (clock (view rd1) + 60000)) (live_fields (view rd1) key) (view rd1)) key = live_fields (view rd1) key).
    { rewrite live_fields_with, decide_True by done. cbn [alive]. rewrite (proj2 (Z.ltb_lt _ _)) by lia. apply live_left. }
    split_and!; [done| |by rewrite Hl]. rewrite live_until_with, decide_True, Hl by done.
    rewrite decide_False by (by eapply not_empty_lookup). by rewrite Hc1.
  - rewrite V2. unfold s_pexpire. by destruct (decide _).
  - intros k. assert (live_str (view rd1) k = live_str (view rd) k) as <- by (by rewrite V1).
    rewrite V2. unfold s_pexpire. by destruct (decide _).
Qed.

Lemma login_takes g rd :
  g_redis_ g = mkMgr (Some rd) → no_place (view rd) key →
  ∃ rd', UserLoginAttempt (to_string uid) g = (with_rd g rd', Ok (true, None))
    ∧ at_place (view rd') key "unset" (clock (view rd) + 60000) None ∧ clock (view rd') = clock (view rd).
Proof. intros Hg H. destruct (login_takes_only g rd Hg H) as (rd' & ? & ? & ? & _). by exists rd'. Qed.

(** A user who is taken is not, and the attempt says by whom. *)
Lemma login_refused g rd v K F :
  g_redis_ g = mkMgr (Some rd) → at_place (view rd) key v K F → v ≠ "" →
  UserLoginAttempt (to_string uid) g = (with_rd g rd, Ok (false, Some v)).
Proof.
  intros Hg (Hs & _ & Hf) Hv. unfold UserLoginAttempt. rewrite (st_bind_Ok _ _ _ _ _ (GetRedis_g_Ok _ _ Hg)).
  assert (E : login_script rd ("status:" +:+ to_string uid) 60000 = Ok (rd, v)).
  { unfold login_script. change ("status:" +:+ to_string uid) with key. rewrite (time_hexists rd key "server_id" Hs), Hf. cbn [mbind res_bind].
    rewrite bool_decide_eq_true_2 by done. by rewrite (time_hget rd key "server_id" Hs), Hf. }
  rewrite E. unfold st_bind, st_res, put_redis_g, st_mod. cbn. by rewrite bool_decide_eq_false_2.
Qed.

(** The server's entry: 30 seconds for the fields, the key keeps its deadline. *)
Lemma status_update (w : World Rd) rd sid v K F :
  w_redis_ w = mkMgr (Some rd) → at_place (view rd) key v K F →
  ∃ rd' b, UpdateUserStatus sid uid w = (set_redis w (mkMgr (Some rd')), Ok b)
    ∧ at_place (view rd') key sid K (Some (clock (view rd) + 30000)) ∧ clock (view rd') = clock (view rd).
Proof.
  intros Hw (Hs & Hu & Hf).
  destruct (time_hsetex rd key (<["server_id" := sid]> (<["status" := "online"]> ∅)) 30 Hs) as (rd' & n & E & V); [done|].
  exists rd', (n =? 1). split_and!.
  - unfold UpdateUserStatus, GetRedis_w, GetRedis, st_bind, st_res. rewrite Hw. cbn [redis_]. by rewrite E.
  - rewrite V. unfold s_hsetex.
    set (fs := _ ∪ live_fields (view rd) key).
    assert (Hl : live_fields (with_hash key (live_until (view rd) key) fs (view rd)) key !! "server_id" = Some (sid, Some (clock (view rd) + 30000))).
    { rewrite live_fields_with, decide_True, live_until_alive, lookup_left by done. unfold fs.
      rewrite (lookup_union_Some_l _ _ "server_id" (sid, Some (clock (view rd) + 30 * 1000)))
        by (by rewrite lookup_fmap, lookup_insert_eq).
      cbn. by rewrite (proj2 (Z.ltb_lt _ _)) by lia. }
    split_and!; [done| |done]. rewrite live_until_with, decide_True, decide_False by (by eauto using not_empty_lookup). done.
  - by rewrite V.
Qed.

(** *** Tokens *)

Lemma token_registered g rd token ttl :
  g_redis_ g = mkMgr (Some rd) → 0 < ttl →
  ∃ rd', RegisterUserToken token (to_string uid) ttl g = (with_rd g rd', Ok tt)
    ∧ live_str (view rd') (token_key token) = Some (to_string uid, clock (view rd) + ttl * 1000)
    ∧ clock (view rd') = clock (view rd)
    ∧ ∀ v K F, at_place (view rd) key v K F → at_place (view rd') key v K F.
Proof.
  intros Hg Ht. destruct (time_setex rd (token_key token) ttl (to_string uid) Ht) as (rd' & E & V). exists rd'. split_and!.
  - unfold RegisterUserToken. rewrite (st_bind_Ok _ _ _ _ _ (GetRedis_g_Ok _ _ Hg)). by rewrite E.
  - rewrite V, live_str_setex, decide_True by done. done.
  - by rewrite V.
  - intros v K F (Hs & Hu & Hf). rewrite V.
    destruct (live_removed (view rd) (s_setex (token_key token) ttl (to_string uid) (view rd)) (token_key token) eq_refl eq_refl key) as [E1 E2].
    rewrite decide_False in E1 by done. rewrite decide_False in E2 by done. unfold at_place.
    by rewrite E1, E2, live_str_setex, decide_False.
Qed.

Lemma token_stays_gone es : ∀ rd token,
  Forall (life_ok uid) es → live_str (view rd) (token_key token) = None → live_str (view (age_run es rd)) (token_key token) = None.
Proof.
  induction es as [|e es IH]; intros rd token Hok H; [exact H|]. inversion_clear Hok as [|?? He Hes]. apply IH; [done|].
  destruct e as [d|u]; [cbn [age_step]; by rewrite (time_wait rd d He), live_str_wait, H|].
  rewrite (life_upload rd u). destruct (in_progress_ u); [exact H|]. by rewrite token_upload.
Qed.

Lemma token_life es : ∀ rd token v T,
  Forall (life_ok uid) es → live_str (view rd) (token_key token) = Some (v, T) → clock (view rd) < T →
  live_str (view (age_run es rd)) (token_key token) = if clock (view rd) + elapsed es <? T then Some (v, T) else None.
Proof.
  induction es as [|e es IH]; intros rd token v T Hok H HT.
  { cbn. by rewrite H, Z.add_0_r, (proj2 (Z.ltb_lt _ _)). }
  inversion_clear Hok as [|?? He Hes]. unfold age_run. cbn [foldl]. rewrite elapsed_cons.
  pose proof (elapsed_nonneg es Hes). destruct (place_life rd e He) as (Hc & _ & _). destruct e as [d|u].
  - change (elapsed [LWait d]) with (d + 0) in *.
    assert (Hd : live_str (view (age_step rd (LWait d))) (token_key token) = if clock (view rd) + d <? T then Some (v, T) else None)
      by (cbn [age_step]; by rewrite (time_wait rd d He), live_str_wait, H).
    destruct (Z.ltb_spec (clock (view rd) + d) T) as [Hlt|Hge].
    + specialize (IH _ token v T Hes Hd ltac:(lia)). unfold age_run in IH. rewrite IH, Hc, <- Z.add_assoc. done.
    + rewrite (proj2 (Z.ltb_ge _ _)) by lia. exact (token_stays_gone es _ token Hes Hd).
  - change (elapsed [LUpload u]) with 0 in *.
    assert (Hd : live_str (view (age_step rd (LUpload u))) (token_key token) = Some (v, T))
      by (rewrite (life_upload rd u); destruct (in_progress_ u); [done|]; by rewrite token_upload).
    specialize (IH _ token v T Hes Hd ltac:(lia)). unfold age_run in IH. rewrite IH, Hc, <- Z.add_assoc. done.
Qed.

(** *** A login and its acceptance *)

(** Without a deadline of its own the field lasts as long as the key. *)
Lemma place_waits es : ∀ rd v K,
  Forall (life_ok uid) es → Forall (not_online uid) es → at_place (view rd) key v K None → clock (view rd) + elapsed es < K →
  at_place (view (age_run es rd)) key v K None ∧ clock (view (age_run es rd)) = clock (view rd) + elapsed es.
Proof.
  induction es as [|e es IH]; intros rd v K Hok Hno H HK; [cbn; split; [done|lia]|].
  inversion_clear Hok as [|?? He Hes]. inversion_clear Hno as [|?? Hn Hns].
  destruct (place_life rd e He) as (Hc & _ & Hp). specialize (Hp _ _ _ H).
  pose proof (elapsed_nonneg es Hes). rewrite elapsed_cons in HK |- *. unfold age_run. cbn [foldl].
  assert (H1 : at_place (view (age_step rd e)) key v K None).
  { destruct e as [d|u].
    - change (elapsed [LWait d]) with (d + 0) in *. cbn [alive] in Hp. rewrite (proj2 (Z.ltb_lt _ _)) in Hp by lia. exact Hp.
    - unfold renewed_until in Hp. rewrite decide_False in Hp by exact Hn. by destruct (in_progress_ u). }
  destruct (IH _ v K Hes Hns H1) as [H2 H3]; [lia|]. unfold age_run in *. split; [done|lia].
Qed.

(** The gateway takes the user, [es1] happens, the server accepts, [es2] happens *)
Definition accepted_login (sid : string) (es1 es2 : list life_ev) (g : Gateway D Rd Sv) (w : World Rd) : option Rd :=
  match UserLoginAttempt (to_string uid) g with
  | (g1, Ok (true, _)) =>
      match redis_ (g_redis_ g1) with
      | Some rd1 =>
          match UpdateUserStatus sid uid (set_redis w (mkMgr (Some (age_run es1 rd1)))) with
          | (w1, Ok _) => age_run es2 <$> redis_ (w_redis_ w1)
          | _ => None
          end
      | None => None
      end
  | _ => None
  end.

Lemma accepted_login_Ok sid es1 es2 g (w : World Rd) rd :
  g_redis_ g = mkMgr (Some rd) → no_place (view rd) key →
  Forall (life_ok uid) es1 → Forall (not_online uid) es1 → elapsed es1 < 60000 →
  ∃ rd2, accepted_login sid es1 es2 g w = Some (age_run es2 rd2)
    ∧ at_place (view rd2) key sid (clock (view rd2) - elapsed es1 + 60000) (Some (clock (view rd2) + 30000)).
Proof.
  intros Hg Hno Hok Hn Hel. destruct (login_takes g rd Hg Hno) as (rd1 & E1 & P1 & C1).
  rewrite <- C1 in P1. destruct (place_waits es1 rd1 _ _ Hok Hn P1) as [P1' C1']; [lia|].
  destruct (status_update (set_redis w (mkMgr (Some (age_run es1 rd1)))) (age_run es1 rd1) sid _ _ _ eq_refl P1') as (rd2 & b & E2 & P2 & C2).
  exists rd2. split.
  - unfold accepted_login. rewrite E1. cbn [with_rd g_redis_ set_g_redis redis_]. by rewrite E2.
  - rewrite C2, C1' in *. replace (clock (view rd1) + elapsed es1 - elapsed es1 + 60000) with (clock (view rd1) + 60000) by lia. done.
Qed.
End life.


(** ** Theorems *)

(** C14. An active user can be found: within 60 seconds of the login, once a server has accepted
    the token, every lookup gives that server as the user's place, as long as the user is in
    an upload at least every 30 seconds (clients send a heartbeat every five, servers upload
    every ten); and a second login is refused with that server's id, to which the kick is
    sent. *)
Theorem active_user_located {D Rd Sv} `{!RedisOps Rd, !GatewayRedis Rd, !RedisTime Rd} order uid sid
    (g : Gateway D Rd Sv) (w : World Rd) rd es1 es2 :
  (∀ X x, x ∈ order X ↔ x ∈ X) → is_u64 uid → sid ≠ "" →
  g_redis_ g = mkMgr (Some rd) → no_place (view rd) (status_key uid) →
  Forall (life_ok uid) es1 → Forall (not_online uid) es1 → Forall (life_ok uid) es2 → kept_fresh uid 0 es2 →
  elapsed es1 + elapsed es2 < 60000 →
  ∃ rd', accepted_login order uid sid es1 es2 g w = Some rd'
    ∧ (GetUserLocation uid (set_redis w (mkMgr (Some rd')))).2 = Ok (Some sid)
    ∧ (UserLoginAttempt (to_string uid) (with_rd g rd')).2 = Ok (false, Some sid).
Proof.
  intros Ho Hu Hsid Hg Hno Hok1 Hn1 Hok2 Hfr Hel. pose proof (elapsed_nonneg uid es2 Hok2).
  destruct (accepted_login_Ok order Ho uid Hu sid es1 es2 g w rd Hg Hno Hok1 Hn1) as (rd2 & E & P); [lia|].
  destruct (place_lives order Ho uid Hu es2 rd2 _ _ _ 0 Hok2 P) as (F & P'); [lia|done|lia|].
  eexists. split_and!; [exact E| |].
  - unfold GetUserLocation, GetRedis_w, GetRedis, st_bind, st_res. cbn. exact (hget_place uid _ _ _ _ P').
  - by rewrite (login_refused uid (with_rd g (age_run order es2 rd2)) _ _ _ _ eq_refl P' Hsid).
Qed.

Definition demo_online : OnlineStatusUploader := mkOnline {[77]} ∅ false (SetTimer 10000 true).

Definition demo_day : list life_ev := [LWait 10000; LUpload demo_online; LWait 10000; LUpload demo_online; LWait 9000].

Definition demo_time_gateway : Gateway unit store unit := mkGateway (DBM_new demo_params tt) (mkMgr (Some (mkStore 0 ∅ ∅))) tt (UIDGenerator_init 0 0).

Definition demo_time_world : World store := mkWorld ∅ ∅ ∅ [] true [] (OnlineStatusUploader_new 10) (mkMgr None) [].

Lemma demo_day_ok : Forall (life_ok 77) demo_day.
Proof.
  assert (life_ok 77 (LUpload demo_online)).
  { split; [set_solver|]. intros x Hx. assert (x = 77) as -> by set_solver. done. }
  repeat (apply Forall_cons_2; [done|]). apply Forall_nil_2; done.
Qed.

Lemma active_user_located_witness :
  ∃ rd', accepted_login elements 77 "1" [LWait 2000] demo_day demo_time_gateway demo_time_world = Some rd'
    ∧ (GetUserLocation 77 (set_redis demo_time_world (mkMgr (Some rd')))).2 = Ok (Some "1")
    ∧ (UserLoginAttempt "77" (with_rd demo_time_gateway rd')).2 = Ok (false, Some "1").
Proof.
  apply (active_user_located elements 77 "1" demo_time_gateway demo_time_world (mkStore 0 ∅ ∅) [LWait 2000] demo_day);
    try done; [apply elem_of_elements|by repeat constructor|by repeat constructor|apply demo_day_ok].
Defined.

(** And after 60 seconds forgotten: the deadline of the key, set at the login, is never moved,
    because [HSETEX] and [HEXPIRE] act on fields.  So 60 seconds after the login the place is
    gone however often the user was renewed, messages from other servers find nobody, and the
    next login of the same user is let in beside the session that is online. *)
Theorem online_user_forgotten {D Rd Sv} `{!RedisOps Rd, !GatewayRedis Rd, !RedisTime Rd} order uid sid
    (g : Gateway D Rd Sv) (w : World Rd) rd es1 es2 :
  (∀ X x, x ∈ order X ↔ x ∈ X) → is_u64 uid →
  g_redis_ g = mkMgr (Some rd) → no_place (view rd) (status_key uid) →
  Forall (life_ok uid) es1 → Forall (not_online uid) es1 → elapsed es1 < 60000 → Forall (life_ok uid) es2 →
  60000 <= elapsed es1 + elapsed es2 →
  ∃ rd', accepted_login order uid sid es1 es2 g w = Some rd'
    ∧ (GetUserLocation uid (set_redis w (mkMgr (Some rd')))).2 = Ok None
    ∧ (UserLoginAttempt (to_string uid) (with_rd g rd')).2 = Ok (true, None).
Proof.
  intros Ho Hu Hg Hno Hok1 Hn1 Hel1 Hok2 Hel.
  destruct (accepted_login_Ok order Ho uid Hu sid es1 es2 g w rd Hg Hno Hok1 Hn1 Hel1) as (rd2 & E & P).
  pose proof (place_dies order Ho uid Hu es2 rd2 _ _ _ Hok2 P ltac:(lia)) as Hgone.
  eexists. split_and!; [exact E| |].
  - unfold GetUserLocation, GetRedis_w, GetRedis, st_bind, st_res. cbn. exact (hget_no_place uid _ Hgone).
  - by destruct (login_takes uid (with_rd g (age_run order es2 rd2)) _ eq_refl Hgone) as (rd3 & -> & _).
Qed.

Lemma online_user_forgotten_witness :
  ∃ rd', accepted_login elements 77 "1" [LWait 2000] (demo_day ++ demo_day) demo_time_gateway demo_time_world = Some rd'
    ∧ (GetUserLocation 77 (set_redis demo_time_world (mkMgr (Some rd')))).2 = Ok None
    ∧ (UserLoginAttempt "77" (with_rd demo_time_gateway rd')).2 = Ok (true, None).
Proof.
  apply (online_user_forgotten elements 77 "1" demo_time_gateway demo_time_world (mkStore 0 ∅ ∅) [LWait 2000] (demo_day ++ demo_day));
    try done; [apply elem_of_elements|by repeat constructor|by repeat constructor|].
  apply Forall_app; split; apply demo_day_ok.
Defined.
