(* ===== verification/LoginRace.v ===== *)
(** * Logins of one user at the same time (src/src/http/req_handler.cpp, redis/gateway_redis.cpp)

    Threads of the gateway pool that have accepted the password of the same user run the rest
    of [LoginLogic] at the same time; between their Redis commands other threads, processes and
    time go on.  [login_cmd] is that rest cut at its commands.  The one command that decides is
    a script, which Redis runs at once. *)

From S2P Require Import Prelude Decimal CppString Security Snowflake Dbm DbmFacts RedisBase Timer StatusService Backend Gateway GatewayFacts RedisTime Presence.
From Stdlib Require Import Sorted Ascii.

(** Which command of [LoginLogic] comes next *)
Inductive login_pc :=
  | LInfo
  | LAttempt
  | LKick (server : string)
  | LToken (token : string)
  | LDone (resp : http_response).

Section login.
Context {D Rd Sv J : Type}.
Context `{!RedisOps Rd, !GatewayRedis Rd, !MinimalRPC Sv, !JsonLib J}.
Context (base64 : list Z → string) (ndebug : bool).
Abbreviation M := (st (Gateway D Rd Sv)).
Open Scope cpp_scope.

(** What a thread knows behind the call of the status service *)
Record login_thread := mkLogin {
  l_env : req_env;
  l_req : http_request;
  l_name : string;
  l_addr : string;
  l_pc : login_pc
}.

Definition set_pc (th : login_thread) (pc : login_pc) : login_thread := mkLogin (l_env th) (l_req th) (l_name th) (l_addr th) pc.

(** The next command, and what the code does up to the one after it *)
Definition login_cmd (uid : Z) (th : login_thread) : M login_pc :=
  match l_pc th with
  | LInfo => UpdateUserInfo (timestamp_ms (l_env th)) (to_string uid) (l_name th) ;; st_ret LAttempt
  | LAttempt =>
      check_result <- UserLoginAttempt (to_string uid) ;;
      match check_result with
      | (false, None) => st_ret (LDone (ServerError (l_req th) "Server error"))
      | (false, Some server) =>
          if bool_decide (server = "unset")
          then st_ret (LDone (ForbiddenRequest (l_req th) "Another client is trying to login!"))
          else st_ret (LKick server)
      | (true, _) =>
          token <- st_res (TokenGenerator base64 ndebug (token_rnd (l_env th))) ;;
          st_ret (LToken token)
      end
  | LKick server =>
      SendServerKickCmd server uid ;;
      st_ret (LDone (reply_page 409 "application/json" (l_req th)
        (jwrite [("result", JStr "retry"); ("message", JStr "User already online, please retry later")])))
  | LToken token =>
      RegisterUserToken token (to_string uid) 50 ;;
      st_ret (LDone (reply_page 200 "application/json" (l_req th)
        (jwrite [("result", JStr "ok"); ("token", JStr token); ("server_addr", JStr (l_addr th)); ("uid", JUInt uid)])))
  | LDone resp => st_ret (LDone resp)
  end.

(** A thread alone: three commands are enough *)
Fixpoint login_alone (fuel : nat) (uid : Z) (th : login_thread) : M http_response :=
  match l_pc th, fuel with
  | LDone resp, _ => st_ret resp
  | _, O => st_res (UB no_progress)
  | _, S fuel' => pc <- login_cmd uid th ;; login_alone fuel' uid (set_pc th pc)
  end.

Definition login_cut (env : req_env) (req : http_request) (username : string) (uid : Z) : M http_response :=
  r <- on_rpc ;;
  if negb (rpc_ok r.1) then st_ret (ServerError req "Server error")
  else login_alone 3 uid (mkLogin env req username r.2 LInfo).

Definition cmds_left (pc : login_pc) : nat :=
  match pc with LInfo => 3 | LAttempt => 2 | LKick _ | LToken _ => 1 | LDone _ => 0 end.

Lemma login_cmd_closer uid th g g' pc :
  login_cmd uid th g = (g', Ok pc) → (0 < cmds_left (l_pc th))%nat → (cmds_left pc < cmds_left (l_pc th))%nat.
Proof.
  unfold login_cmd. destruct (l_pc th) as [| |server|token|resp]; cbn [cmds_left]; intros E Hl; [..|lia].
  - apply st_bind_inv in E as (? & ? & _ & [= _ <-]). cbn. lia.
  - apply st_bind_inv in E as (g1 & [[] [server|]] & _ & E).
    1, 2: apply st_bind_inv in E as (? & ? & _ & [= _ <-]); cbn; lia.
    + case_bool_decide; injection E as _ <-; cbn; lia.
    + injection E as _ <-. cbn. lia.
  - apply st_bind_inv in E as (? & ? & _ & [= _ <-]). cbn. lia.
  - apply st_bind_inv in E as (? & ? & _ & [= _ <-]). cbn. lia.
Qed.

(** Cutting changes nothing: a thread that is not interrupted does what [LoginLogic] does. *)
Lemma login_cut_verified env req username uid g :
  login_cut env req username uid g = login_verified (J := J) base64 ndebug env req username uid g.
Proof.
  unfold login_cut, login_verified, st_bind. destruct (on_rpc g) as [g1 [[s addr]| |]]; [|done..]. cbn [fst snd].
  destruct (negb (rpc_ok s)); [done|]. cbn [login_alone l_pc]. unfold st_bind, login_cmd, set_pc. cbn [l_pc l_env l_req l_name l_addr].
  unfold st_bind, st_ret at 1. destruct (UpdateUserInfo _ _ _ g1) as [g2 [b| |]]; [|done..]. cbn [login_alone l_pc].
  unfold st_bind. destruct (UserLoginAttempt _ g2) as [g3 [[[] [server|]]| |]]; try done.
  all: try (destruct (TokenGenerator base64 ndebug (token_rnd env)) as [token| |]; [|done..]).
  1, 2: unfold st_res, st_ret; cbn [login_alone l_pc]; by destruct (RegisterUserToken token (to_string uid) 50 g3) as [g4 [[]| |]].
  case_bool_decide; [done|]. unfold st_ret. cbn [login_alone l_pc]. by destruct (SendServerKickCmd server uid g3) as [g4 [id| |]].
Qed.
End login.
Arguments login_thread : clear implicits.

(** ** Any number of logins of the user *)

(** What another client of Redis may do: anything but write the state of the user *)
Definition same_place (s s' : store) (k : string) : Prop :=
  clock s' = clock s ∧ live_str s' k = live_str s k ∧ live_fields s' k = live_fields s k ∧ live_until s' k = live_until s k.

Definition info_key (uid : Z) : string := "userinfo:" +:+ to_string uid.

Definition granted (th : login_thread) : bool :=
  match l_pc th with LToken _ => true | LDone resp => result resp =? 200 | _ => false end.

(** The script let the thread in at time [now] *)
Definition grants_after (pc pc' : login_pc) (now : Z) (gs : list Z) : list Z :=
  match pc, pc' with LAttempt, LToken _ => now :: gs | _, _ => gs end.

Section race.
Context {D Rd Sv J : Type}.
Context `{!RedisOps Rd, !GatewayRedis Rd, !RedisTime Rd, !JsonLib J}.
Context (base64 : list Z → string) (ndebug : bool) (order : gset Z → list Z) (uid : Z).

Record race := mkRace {
  r_g : Gateway D Rd Sv;
  r_threads : list login_thread;
  r_grants : list Z              (* when the script let a thread in, newest first *)
}.

Inductive race_step : race → race → Prop :=
  | race_new g ths gs th : l_pc th = LInfo → is_Some (token_rnd (l_env th)) → race_step (mkRace g ths gs) (mkRace g (ths ++ [th]) gs)
  | race_cmd g ths gs t th g' pc rd :
      ths !! t = Some th → redis_ (g_redis_ g) = Some rd → login_cmd (J := J) base64 ndebug uid th g = (g', Ok pc) →
      race_step (mkRace g ths gs)
        (mkRace g' (<[t := set_pc th pc]> ths) (grants_after (l_pc th) pc (clock (view rd)) gs))
  | race_life g ths gs rd e :
      redis_ (g_redis_ g) = Some rd → life_ok uid e → not_online uid e →
      race_step (mkRace g ths gs) (mkRace (with_rd g (age_step order rd e)) ths gs)
  | race_other g ths gs rd rd' :
      redis_ (g_redis_ g) = Some rd → same_place (view rd) (view rd') (status_key uid) → live_str (view rd') (info_key uid) = None →
      race_step (mkRace g ths gs) (mkRace (with_rd g rd') ths gs).

(** Two grants, the newer first *)
Definition apart (T T' : Z) : Prop := T' + 60000 <= T.

Inductive place_of (s : store) : list Z → Prop :=
  | place_free gs : no_place s (status_key uid) → Forall (apart (clock s)) gs → place_of s gs
  | place_taken T gs : at_place s (status_key uid) "unset" (T + 60000) None → T <= clock s → Forall (apart T) gs → place_of s (T :: gs).

Record race_inv (s : race) : Prop := {
  race_place : ∃ rd, g_redis_ (r_g s) = mkMgr (Some rd) ∧ live_str (view rd) (info_key uid) = None ∧ place_of (view rd) (r_grants s);
  race_apart : StronglySorted apart (r_grants s);
  race_count : length (List.filter granted (r_threads s)) = length (r_grants s);
  race_threads : ∀ th, th ∈ r_threads s → is_Some (token_rnd (l_env th)) ∧ ∀ server, l_pc th ≠ LKick server
}.

(** ** Lemmas *)

Lemma place_same s s' gs : same_place s s' (status_key uid) → place_of s gs → place_of s' gs.
Proof.
  intros (Hc & Hs & Hf & Hu) H. destruct H as [gs [H1 H2] H3|T gs (H1 & H2 & H3) H4 H5].
  - apply place_free; [by split; congruence|by rewrite Hc].
  - apply place_taken; [by split_and!; congruence|by rewrite Hc|done].
Qed.

Lemma apart_trans T T' gs : T <= T' → Forall (apart T) gs → Forall (apart T') gs.
Proof. intros HT H. eapply list.Forall_impl; [exact H|]. unfold apart. intros x Hx. lia. Qed.

Lemma count_insert (ths : list login_thread) t th th' :
  ths !! t = Some th →
  (length (List.filter granted (<[t := th']> ths)) + Nat.b2n (granted th)
    = length (List.filter granted ths) + Nat.b2n (granted th'))%nat.
Proof.
  revert t. induction ths as [|x ths IH]; intros [|t] Ht; [done..| |]; cbn in Ht.
  - injection Ht as ->. change (<[0%nat := th']> (th :: ths)) with (th' :: ths). cbn [List.filter].
    destruct (granted th), (granted th'); cbn; lia.
  - specialize (IH t Ht). change (<[S t := th']> (x :: ths)) with (x :: <[t := th']> ths). cbn [List.filter].
    destruct (granted x); cbn [length]; lia.
Qed.

Lemma strings_stay_gone cmds k : ∀ s, live_str s k = None → live_str (foldl s_cmd s cmds) k = None.
Proof.
  induction cmds as [|c cmds IH]; intros s H; cbn; [done|]. apply IH. destruct c as [k' sec fs|k']; cbn.
  - unfold s_hexpire. by destruct (decide _).
  - rewrite live_str_del. by destruct (decide _).
Qed.

Context (Horder : ∀ X x, x ∈ order X ↔ x ∈ X) (Huid : is_u64 uid).

Lemma life_strings rd e k : life_ok uid e → live_str (view rd) k = None → live_str (view (age_step order rd e)) k = None.
Proof.
  intros He H. destruct e as [d|u]; [cbn [age_step]; by rewrite (time_wait rd d He), live_str_wait, H|].
  rewrite (life_upload order rd u). by apply strings_stay_gone.
Qed.

Lemma life_place rd e gs : life_ok uid e → not_online uid e → place_of (view rd) gs → place_of (view (age_step order rd e)) gs.
Proof.
  intros He Hn H. destruct (place_life order Horder uid Huid rd e He) as (Hc & Hno & Hat).
  assert (0 <= elapsed [e]) by (destruct e; cbn in *; lia).
  destruct H as [gs H1 H2|T gs H1 H2 H3].
  - apply place_free; [by apply Hno|]. apply (apart_trans (clock (view rd))); [lia|done].
  - specialize (Hat _ _ _ H1). destruct e as [d|u].
    + cbn [alive] in Hat. rewrite andb_true_r in Hat. change (elapsed [LWait d]) with (d + 0) in *.
      destruct (Z.ltb_spec (clock (view rd) + d) (T + 60000)); [apply place_taken; [done|lia|done]|].
      apply place_free; [done|]. constructor; [unfold apart; lia|]. by apply (apart_trans T); [lia|].
    + unfold renewed_until in Hat. rewrite decide_False in Hat by exact Hn.
      apply place_taken; [by destruct (in_progress_ u)|lia|done].
Qed.

Implicit Types g : Gateway D Rd Sv.

Lemma info_keeps g rd now name :
  g_redis_ g = mkMgr (Some rd) → live_str (view rd) (info_key uid) = None →
  ∃ rd' b, UpdateUserInfo now (to_string uid) name g = (with_rd g rd', Ok b)
    ∧ same_place (view rd) (view rd') (status_key uid) ∧ live_str (view rd') (info_key uid) = None.
Proof.
  intros Hg Hs. set (fs := <["user_name" := name]> (<["last_login" := to_string now]> (∅ : gmap string string))).
  destruct (time_hsetex rd (info_key uid) fs 3600 Hs ltac:(done)) as (rd' & n & E & V).
  exists rd', (n =? 1). split_and!.
  - unfold UpdateUserInfo. rewrite (st_bind_Ok _ _ _ _ _ (GetRedis_g_Ok _ _ Hg)).
    change ("userinfo:" +:+ to_string uid) with (info_key uid). fold fs. unfold st_bind, st_res. by rewrite E.
  - unfold same_place. rewrite V. unfold s_hsetex. rewrite live_str_with, live_fields_with, live_until_with.
    by rewrite !decide_False.
  - by rewrite V.
Qed.

Lemma token_keeps g rd token :
  g_redis_ g = mkMgr (Some rd) →
  ∃ rd', RegisterUserToken token (to_string uid) 50 g = (with_rd g rd', Ok tt)
    ∧ same_place (view rd) (view rd') (status_key uid) ∧ live_str (view rd') (info_key uid) = live_str (view rd) (info_key uid).
Proof.
  intros Hg. destruct (time_setex rd (token_key token) 50 (to_string uid) ltac:(done)) as (rd' & E & V). exists rd'. split_and!.
  - unfold RegisterUserToken. rewrite (st_bind_Ok _ _ _ _ _ (GetRedis_g_Ok _ _ Hg)). by rewrite E.
  - unfold same_place. rewrite V.
    destruct (live_removed (view rd) (s_setex (token_key token) 50 (to_string uid) (view rd)) (token_key token) eq_refl eq_refl (status_key uid)) as [-> ->].
    by rewrite live_str_setex, !decide_False.
  - by rewrite V, live_str_setex, decide_False.
Qed.

(** One command of a thread, from a state in which the user is free or taken *)
Lemma login_cmd_place g rd th gs :
  g_redis_ g = mkMgr (Some rd) → live_str (view rd) (info_key uid) = None → place_of (view rd) gs →
  StronglySorted apart gs → (∀ server, l_pc th ≠ LKick server) → is_Some (token_rnd (l_env th)) →
  ∃ rd' pc, login_cmd (J := J) base64 ndebug uid th g = (with_rd g rd', Ok pc)
    ∧ live_str (view rd') (info_key uid) = None ∧ (∀ server, pc ≠ LKick server)
    ∧ place_of (view rd') (grants_after (l_pc th) pc (clock (view rd)) gs)
    ∧ StronglySorted apart (grants_after (l_pc th) pc (clock (view rd)) gs)
    ∧ (Nat.b2n (granted (set_pc th pc)) + length gs
       = Nat.b2n (granted th) + length (grants_after (l_pc th) pc (clock (view rd)) gs))%nat.
Proof.
  intros Hg Hs Hp Hso Hk [bytes Htok]. destruct th as [env req name addr pc]. cbn [l_pc l_env] in *. unfold login_cmd, set_pc, granted.
  cbn [l_pc l_env l_req l_name l_addr]. destruct pc as [| |server|token|resp].
  - destruct (info_keeps g rd (timestamp_ms env) name Hg Hs) as (rd' & b & E & Hsame & Hs').
    exists rd', LAttempt. rewrite (st_bind_Ok _ _ _ _ _ E). split_and!; try done. by eapply place_same.
  - destruct Hp as [gs Hno Hap|T gs Hat HT Hap].
    + destruct (login_takes_only uid g rd Hg Hno) as (rd' & E & Hat & Hc & Hstr).
      assert (Ht : ∃ token, TokenGenerator base64 ndebug (token_rnd env) = Ok token).
      { unfold TokenGenerator, rand_buffer. rewrite Htok. destruct ndebug; cbn; by eexists. }
      destruct Ht as [token Ht]. exists rd', (LToken token). rewrite (st_bind_Ok _ _ _ _ _ E). unfold st_bind, st_res. rewrite Ht.
      split_and!; [done|by rewrite Hstr|done| |by constructor|cbn; lia].
      apply place_taken; [done|lia|done].
    + exists rd, (LDone (ForbiddenRequest req "Another client is trying to login!")).
      rewrite (st_bind_Ok _ _ _ _ _ (login_refused uid g rd _ _ _ Hg Hat ltac:(done))). rewrite bool_decide_eq_true_2 by done.
      split_and!; try done. by apply place_taken.
  - by destruct (Hk server).
  - destruct (token_keeps g rd token Hg) as (rd' & E & Hsame & Hs'). exists rd'. eexists.
    rewrite (st_bind_Ok _ _ _ _ _ E). split_and!; [done|by rewrite Hs'|done|by eapply place_same|done|done].
  - exists rd, (LDone resp). split_and!; try done. unfold with_rd. rewrite <- Hg. by destruct g.
Qed.

Lemma race_step_inv s s' : race_step s s' → race_inv s → race_inv s'.
Proof.
  intros Hst [(rd0 & Hg & Hs & Hp) Hso Hc Hth].
  destruct Hst as [g ths gs th Hpc Htok|g ths gs t th g' pc rd Ht Hrd Hcmd|g ths gs rd e Hrd He Hn|g ths gs rd rd' Hrd Hsame Hs'];
    cbn [r_g r_threads r_grants] in *; try (rewrite Hg in Hrd; injection Hrd as <-).
  - constructor; cbn [r_g r_threads r_grants]; [by exists rd0|done| |].
    + rewrite List.filter_app, length_app. cbn. unfold granted at 2. rewrite Hpc. cbn. lia.
    + intros th' [Hin| ->%list_elem_of_singleton]%elem_of_app; [by apply Hth|]. split; [done|]. by rewrite Hpc.
  - destruct (Hth th) as [Htok Hk]; [by eapply list_elem_of_lookup_2|].
    destruct (login_cmd_place g rd0 th gs Hg Hs Hp Hso Hk Htok) as (rd' & pc' & E & Hs' & Hk' & Hp' & Hso' & Hcnt).
    rewrite E in Hcmd. injection Hcmd as <- <-. constructor; cbn [r_g r_threads r_grants]; [by exists rd'|done| |].
    + pose proof (count_insert ths t th (set_pc th pc') Ht). lia.
    + intros th' [i Hi]%list_elem_of_lookup. apply list_lookup_insert_Some in Hi as [(_ & <- & _)|[_ Hi]]; [done|].
      apply Hth. by eapply list_elem_of_lookup_2.
  - constructor; cbn [r_g r_threads r_grants]; try done. exists (age_step order rd0 e).
    split_and!; [done|by apply life_strings|by apply life_place].
  - constructor; cbn [r_g r_threads r_grants]; try done. exists rd'. split_and!; [done..|by eapply place_same].
Qed.

(** The states reached from no login at all *)
Definition race_reach (g : Gateway D Rd Sv) : race → Prop := rtc race_step (mkRace g [] []).

Lemma race_reach_inv g rd s :
  g_redis_ g = mkMgr (Some rd) → live_str (view rd) (info_key uid) = None → no_place (view rd) (status_key uid) →
  race_reach g s → race_inv s.
Proof.
  intros Hg Hs Hno Hr. unfold race_reach in Hr. remember (mkRace g [] []) as s0 eqn:E.
  assert (H0 : race_inv s0).
  { subst s0. constructor; cbn; [exists rd; split_and!; [done..|by apply place_free]|constructor|done|by intros th ?%elem_of_nil]. }
  clear E. induction Hr as [|s1 s2 s3 H12 _ IH]; [done|]. apply IH. by eapply race_step_inv.
Qed.

(** *** Runs that can be computed *)

Inductive race_ev := RNew (th : login_thread) | RCmd (t : nat) | RLife (e : life_ev).

Definition race_ev_ok (e : race_ev) : Prop :=
  match e with
  | RNew th => l_pc th = LInfo ∧ is_Some (token_rnd (l_env th))
  | RCmd _ => True
  | RLife e => life_ok uid e ∧ not_online uid e
  end.

Definition race_do (e : race_ev) (s : race) : option race :=
  match e with
  | RNew th => Some (mkRace (r_g s) (r_threads s ++ [th]) (r_grants s))
  | RCmd t =>
      th ← r_threads s !! t;
      rd ← redis_ (g_redis_ (r_g s));
      match login_cmd (J := J) base64 ndebug uid th (r_g s) with
      | (g', Ok pc) => Some (mkRace g' (<[t := set_pc th pc]> (r_threads s)) (grants_after (l_pc th) pc (clock (view rd)) (r_grants s)))
      | _ => None
      end
  | RLife e => rd ← redis_ (g_redis_ (r_g s)); Some (mkRace (with_rd (r_g s) (age_step order rd e)) (r_threads s) (r_grants s))
  end.

Definition race_run (es : list race_ev) (s : race) : option race := foldl (λ o e, s ← o; race_do e s) (Some s) es.

Lemma race_do_step e s s' : race_ev_ok e → race_do e s = Some s' → race_step s s'.
Proof.
  destruct s as [g ths gs]. destruct e as [th|t|e]; cbn [race_ev_ok race_do r_g r_threads r_grants].
  - intros [H1 H2] [= <-]. by apply race_new.
  - intros _. destruct (ths !! t) as [th|] eqn:Et; [|done]. cbn [mbind option_bind].
    destruct (redis_ (g_redis_ g)) as [rd|] eqn:Er; [|done]. cbn [mbind option_bind].
    destruct (login_cmd _ _ _ _ _) as [g' [pc| |]] eqn:E; [|done..]. intros [= <-]. by apply race_cmd.
  - intros [H1 H2]. destruct (redis_ (g_redis_ g)) as [rd|] eqn:Er; [|done]. cbn [mbind option_bind]. intros [= <-]. by apply race_life.
Qed.

Lemma race_run_reach es s s' : Forall race_ev_ok es → race_run es s = Some s' → rtc race_step s s'.
Proof.
  intros Hok. revert s'. induction es as [|e es IH] using rev_ind; intros s' Hr; [injection Hr as <-; apply rtc_refl|].
  apply Forall_app in Hok as [Hes He]. inversion_clear He as [|?? He' _]. unfold race_run in *. rewrite foldl_snoc in Hr.
  destruct (foldl _ (Some s) es) as [s1|]; [|done]. eapply rtc_r; [by apply IH|]. by eapply race_do_step.
Qed.
End race.

(** ** Theorems *)

(** Cutting a login at its Redis commands changes nothing: a thread that is not interrupted
    does exactly what [LoginLogic] does behind the password check, in every state and on
    every branch, in at most three commands. *)
Theorem login_cut_equiv {D Rd Sv J} `{!RedisOps Rd, !GatewayRedis Rd, !MinimalRPC Sv, !JsonLib J}
    base64 ndebug env req username uid (g : Gateway D Rd Sv) :
  login_cut (J := J) base64 ndebug env req username uid g = login_verified (J := J) base64 ndebug env req username uid g.
Proof. apply login_cut_verified. Qed.

(** C4. One login of a user at a time: however many logins of a user run at the same time, and
    however their commands, time, uploads and the commands of other clients of Redis
    interleave, as long as no server has taken the user up the grants are at least 60 seconds
    apart, exactly as many threads have been let in as there were grants, and nobody is
    kicked. *)
Theorem logins_exclusive {D Rd Sv J} `{!RedisOps Rd, !GatewayRedis Rd, !RedisTime Rd, !JsonLib J}
    base64 ndebug order uid (g : Gateway D Rd Sv) rd s :
  (∀ X x, x ∈ order X ↔ x ∈ X) → is_u64 uid → g_redis_ g = mkMgr (Some rd) →
  live_str (view rd) (info_key uid) = None → no_place (view rd) (status_key uid) →
  race_reach (J := J) base64 ndebug order uid g s →
  StronglySorted apart (r_grants s)
  ∧ length (List.filter granted (r_threads s)) = length (r_grants s)
  ∧ ∀ th server, th ∈ r_threads s → l_pc th ≠ LKick server.
Proof.
  intros Ho Hu Hg Hs Hno Hr. destruct (race_reach_inv base64 ndebug order uid Ho Hu g rd s Hg Hs Hno Hr) as [_ Hso Hc Hth].
  split_and!; [done..|]. intros th server Hin. by apply Hth.
Qed.

(** Two logins at the same time, one of which is let in, and a third one a minute later *)
Definition demo_thread : login_thread := mkLogin demo_env (demo_login "pw") "bob" "10.0.0.1:2000" LInfo.

Definition demo_race : list race_ev :=
  [RNew demo_thread; RNew demo_thread; RCmd 1; RCmd 0; RCmd 1; RCmd 0; RCmd 1; RLife (LWait 60000);
   RNew demo_thread; RCmd 2; RCmd 2].

Definition demo_race_end : option (race (D := unit) (Rd := store) (Sv := unit)) :=
  race_run (J := list (string * jval)) hex_upper false elements 77 demo_race (mkRace demo_time_gateway [] []).

Lemma demo_race_ok : Forall (race_ev_ok 77) demo_race.
Proof. unfold demo_race. repeat (apply Forall_cons_2; [by repeat split|]). by apply Forall_nil_2. Qed.

Lemma logins_exclusive_witness :
  ∃ s, demo_race_end = Some s ∧ r_grants s = [60000; 0]
    ∧ StronglySorted apart (r_grants s)
    ∧ length (List.filter granted (r_threads s)) = length (r_grants s)
    ∧ ∀ th server, th ∈ r_threads s → l_pc th ≠ LKick server.
Proof.
  destruct demo_race_end as [s|] eqn:E; [|by vm_compute in E]. exists s. split; [done|]. split.
  - assert (H : (r_grants <$> demo_race_end) = Some [60000; 0]) by (vm_compute; reflexivity). rewrite E in H. by injection H.
  - assert (Hr : race_reach (J := list (string * jval)) hex_upper false elements 77 demo_time_gateway s)
      by exact (race_run_reach hex_upper false elements 77 demo_race _ s demo_race_ok E).
    clear E. exact (logins_exclusive (J := list (string * jval)) hex_upper false elements 77 demo_time_gateway (mkStore 0 ∅ ∅) s
      (λ X x, elem_of_elements X x) ltac:(done) eq_refl eq_refl ltac:(done) Hr).
Defined.

(** And every login gets its answer: in each of these states a thread that has not finished
    can do its next command, and it comes closer to the end. *)
Theorem logins_finish {D Rd Sv J} `{!RedisOps Rd, !GatewayRedis Rd, !RedisTime Rd, !JsonLib J}
    base64 ndebug order uid (g : Gateway D Rd Sv) rd s t th :
  (∀ X x, x ∈ order X ↔ x ∈ X) → is_u64 uid → g_redis_ g = mkMgr (Some rd) →
  live_str (view rd) (info_key uid) = None → no_place (view rd) (status_key uid) →
  race_reach (J := J) base64 ndebug order uid g s → r_threads s !! t = Some th → (0 < cmds_left (l_pc th))%nat →
  ∃ pc s', race_step (J := J) base64 ndebug order uid s s' ∧ r_threads s' !! t = Some (set_pc th pc)
    ∧ (cmds_left pc < cmds_left (l_pc th))%nat.
Proof.
  intros Ho Hu Hg Hs Hno Hr Ht Hl.
  destruct (race_reach_inv base64 ndebug order uid Ho Hu g rd s Hg Hs Hno Hr) as [(rd1 & Hg1 & Hs1 & Hp1) Hso Hc Hth].
  destruct (Hth th) as [Htok Hk]; [by eapply list_elem_of_lookup_2|].
  destruct (login_cmd_place (J := J) base64 ndebug uid (r_g s) rd1 th (r_grants s) Hg1 Hs1 Hp1 Hso Hk Htok)
    as (rd' & pc & E & _ & Hk' & _).
  destruct s as [g1 ths gs]. cbn [r_g r_threads r_grants] in *. eexists pc, _. split_and!.
  - eapply race_cmd; [exact Ht|by rewrite Hg1|exact E].
  - cbn [r_threads]. apply list_lookup_insert_eq. by eapply lookup_lt_Some.
  - by eapply login_cmd_closer.
Qed.

Lemma logins_finish_witness :
  ∃ s th pc s', demo_race_end = Some s ∧ r_threads s !! 2%nat = Some th ∧ (cmds_left (l_pc th) = 1)%nat
    ∧ race_step (J := list (string * jval)) hex_upper false elements 77 s s' ∧ r_threads s' !! 2%nat = Some (set_pc th pc)
    ∧ (cmds_left pc < cmds_left (l_pc th))%nat.
Proof.
  destruct demo_race_end as [s|] eqn:E; [|by vm_compute in E].
  assert (Hr : race_reach (J := list (string * jval)) hex_upper false elements 77 demo_time_gateway s)
    by exact (race_run_reach hex_upper false elements 77 demo_race _ s demo_race_ok E).
  assert (H : (λ s, (λ th, cmds_left (l_pc th)) <$> r_threads s !! 2%nat) <$> demo_race_end = Some (Some 1%nat)) by (vm_compute; reflexivity).
  rewrite E in H. clear E. cbn in H. injection H as H. destruct (r_threads s !! 2%nat) as [th|] eqn:Et; [|done]. cbn in H. injection H as H.
  assert (Hl : (0 < cmds_left (l_pc th))%nat) by (rewrite H; constructor).
  destruct (logins_finish (J := list (string * jval)) hex_upper false elements 77 demo_time_gateway (mkStore 0 ∅ ∅) s 2 th
    (λ X x, elem_of_elements X x) ltac:(done) eq_refl eq_refl ltac:(done) Hr Et Hl) as (pc & s' & H1 & H2 & H3).
  exists s, th, pc, s'. exact (conj eq_refl (conj Et (conj H (conj H1 (conj H2 H3))))).
Defined.

(** ** A login that is not taken up *)

Section unused.
Context {D Rd Sv J : Type}.
Context `{!MySql D, !MySqlLaws D, C : Crypto, !CryptoLaws C, !RedisOps Rd, !GatewayRedis Rd, !RedisTime Rd, !MinimalRPC Sv, !JsonLib J}.
Context (base64 : list Z → string) (hash_junk : nat → list Z) (order : gset Z → list Z) (uid : Z).
Context (Horder : ∀ X x, x ∈ order X ↔ x ∈ X) (Huid : is_u64 uid).
Implicit Types g : Gateway D Rd Sv.

(** Behind the password check *)
Lemma LoginLogic_verified g a env req name pass :
  asks (J := J) req name pass → implements hash_junk (dbm_ g) a → authentic a name pass = Some uid →
  ∃ m', implements hash_junk m' a
    ∧ LoginLogic (J := J) base64 false env req g = login_verified (J := J) base64 false env req name uid (set_dbm g m').
Proof.
  intros (readed & Hp & Hc) Hi Hau. unfold LoginLogic. rewrite Hp.
  rewrite (st_bind_Ok _ _ g g (Some (name, pass))) by (unfold st_res; by rewrite Hc).
  destruct (implements_verify hash_junk (dbm_ g) a name pass 0 Hi) as (m' & c & u & E & Hstep & Hi').
  exists m'. split; [done|]. rewrite (st_bind_Ok _ _ g (set_dbm g m') (c, u)) by (unfold on_dbm; by rewrite E).
  cbn [fst snd]. unfold authentic in Hau. rewrite Hstep in Hau.
  destruct (c =? GATEWAY_SUCCESS); [|done]. by injection Hau as ->.
Qed.

(** A free user is let in, with a token for as long as the code says. *)
Lemma login_verified_free g rd env req name sv s addr bytes :
  g_redis_ g = mkMgr (Some rd) → live_str (view rd) (info_key uid) = None → no_place (view rd) (status_key uid) →
  rpc_minimal (rpc_ g) = Ok (sv, s, addr) → rpc_ok s = true → token_rnd env = Some bytes →
  let token := erase_char "="%char (url_safe (base64 bytes)) in
  ∃ rd' resp, login_verified (J := J) base64 false env req name uid g = (with_rd (set_rpc g sv) rd', Ok resp)
    ∧ result resp = 200
    ∧ live_str (view rd') (token_key token) = Some (to_string uid, clock (view rd) + 50000)
    ∧ live_str (view rd') (info_key uid) = None
    ∧ at_place (view rd') (status_key uid) "unset" (clock (view rd) + 60000) None
    ∧ clock (view rd') = clock (view rd).
Proof.
  intros Hg Hs [Hno1 Hno2] Hrpc Hok Htok token. unfold login_verified. set (g1 := set_rpc g sv).
  rewrite (st_bind_Ok _ _ g g1 (s, addr)) by (unfold on_rpc; by rewrite Hrpc). cbn [fst snd]. rewrite Hok. cbn [negb].
  destruct (info_keeps uid g1 rd (timestamp_ms env) name Hg Hs) as (rd1 & b & E1 & (Hc1 & Hs1 & Hf1 & Hu1) & Hi1).
  rewrite (st_bind_Ok _ _ _ _ _ E1).
  destruct (login_takes_only uid (with_rd g1 rd1) rd1 eq_refl) as (rd2 & E2 & P2 & C2 & S2); [by split; congruence|].
  rewrite (st_bind_Ok _ _ _ _ _ E2).
  assert (Ht : TokenGenerator base64 false (token_rnd env) = Ok token).
  { unfold TokenGenerator, rand_buffer. by rewrite Htok. }
  rewrite (st_bind_Ok _ _ _ (with_rd (with_rd g1 rd1) rd2) token) by (unfold st_res; by rewrite Ht).
  destruct (token_registered uid (with_rd (with_rd g1 rd1) rd2) rd2 token 50 eq_refl ltac:(done)) as (rd3 & E3 & T3 & C3 & P3).
  destruct (token_keeps uid (with_rd (with_rd g1 rd1) rd2) rd2 token eq_refl) as (rd3' & E3' & _ & I3).
  rewrite E3 in E3'. injection E3' as <-.
  rewrite (st_bind_Ok _ _ _ _ _ E3). exists rd3. eexists. split; [reflexivity|]. split; [done|].
  rewrite T3, C3, C2, Hc1, I3, S2. split_and!; [done|done| |done]. rewrite Hc1 in P2. by apply P3.
Qed.

(** One who is being logged in is not. *)
Lemma login_verified_busy g rd env req name sv s addr K F :
  g_redis_ g = mkMgr (Some rd) → live_str (view rd) (info_key uid) = None →
  at_place (view rd) (status_key uid) "unset" K F →
  rpc_minimal (rpc_ g) = Ok (sv, s, addr) → rpc_ok s = true →
  (login_verified (J := J) base64 false env req name uid g).2 = Ok (ForbiddenRequest req "Another client is trying to login!").
Proof.
  intros Hg Hs (P1 & P2 & P3) Hrpc Hok. unfold login_verified. set (g1 := set_rpc g sv).
  rewrite (st_bind_Ok _ _ g g1 (s, addr)) by (unfold on_rpc; by rewrite Hrpc). cbn [fst snd]. rewrite Hok. cbn [negb].
  destruct (info_keeps uid g1 rd (timestamp_ms env) name Hg Hs) as (rd1 & b & E1 & (Hc1 & Hs1 & Hf1 & Hu1) & Hi1).
  rewrite (st_bind_Ok _ _ _ _ _ E1).
  rewrite (st_bind_Ok _ _ _ _ _ (login_refused uid (with_rd g1 rd1) rd1 "unset" K F eq_refl ltac:(by split_and!; congruence) ltac:(done))).
  done.
Qed.

Lemma life_strings_run es : ∀ (rd : Rd) k,
  Forall (life_ok uid) es → live_str (view rd) k = None → live_str (view (age_run order es rd)) k = None.
Proof.
  induction es as [|e es IH]; intros rd k Hok H; [done|]. inversion_clear Hok as [|?? He Hes].
  unfold age_run. cbn [foldl]. apply IH; [done|]. by eapply life_strings.
Qed.

(** The answer to a second login while the first is waiting, and later *)
Lemma second_login g a rd K env req name pass sv s addr bytes es :
  g_redis_ g = mkMgr (Some rd) → live_str (view rd) (info_key uid) = None →
  at_place (view rd) (status_key uid) "unset" K None → Forall (life_ok uid) es → Forall (not_online uid) es →
  asks (J := J) req name pass → implements hash_junk (dbm_ g) a → authentic a name pass = Some uid →
  rpc_minimal (rpc_ g) = Ok (sv, s, addr) → rpc_ok s = true → token_rnd env = Some bytes →
  ∃ resp, (LoginLogic (J := J) base64 false env req (with_rd g (age_run order es rd))).2 = Ok resp
    ∧ if clock (view rd) + elapsed es <? K then resp = ForbiddenRequest req "Another client is trying to login!"
      else result resp = 200.
Proof.
  intros Hg Hs Hat Hok Hn Hask Hi Hau Hrpc Hrok Htok.
  destruct (LoginLogic_verified (with_rd g (age_run order es rd)) a env req name pass Hask Hi Hau) as (m' & _ & ->).
  pose proof (life_strings_run es rd (info_key uid) Hok Hs) as Hs'.
  destruct (Z.ltb_spec (clock (view rd) + elapsed es) K) as [Hlt|Hge].
  - destruct (place_waits order Horder uid Huid es rd _ _ Hok Hn Hat Hlt) as [P2 _]. eexists. split; [|reflexivity].
    by eapply (login_verified_busy (set_dbm (with_rd g (age_run order es rd)) m')).
  - pose proof (place_dies order Horder uid Huid es rd _ _ _ Hok Hat Hge) as Hgone.
    destruct (login_verified_free (set_dbm (with_rd g (age_run order es rd)) m') _ env req name sv s addr bytes eq_refl Hs' Hgone Hrpc Hrok Htok)
      as (rd' & resp & E & Hr & _). exists resp. by rewrite E.
Qed.
End unused.

(** C39. A login that is not taken up: the token that [LoginLogic] hands out is good for 50 seconds
    exactly; for 60 seconds other logins of the user, with the right password, are refused as
    "trying to login", and then a new one is let in, when the token has been dead for ten.  So
    without a server's help a user never has two live tokens. *)
Theorem login_slot_outlives_token {D Rd Sv J} `{!MySql D, !MySqlLaws D, C : Crypto, !CryptoLaws C, !RedisOps Rd, !GatewayRedis Rd, !RedisTime Rd, !MinimalRPC Sv, !JsonLib J}
    base64 hash_junk order uid (g : Gateway D Rd Sv) a (w : World Rd) rd es
    env req name pass sv s addr bytes env2 req2 name2 pass2 sv2 s2 addr2 bytes2 :
  (∀ X x, x ∈ order X ↔ x ∈ X) → is_u64 uid → g_redis_ g = mkMgr (Some rd) →
  live_str (view rd) (info_key uid) = None → no_place (view rd) (status_key uid) →
  implements hash_junk (dbm_ g) a →
  asks (J := J) req name pass → authentic a name pass = Some uid → token_rnd env = Some bytes →
  rpc_minimal (rpc_ g) = Ok (sv, s, addr) → rpc_ok s = true →
  asks (J := J) req2 name2 pass2 → authentic a name2 pass2 = Some uid → token_rnd env2 = Some bytes2 →
  rpc_minimal sv = Ok (sv2, s2, addr2) → rpc_ok s2 = true →
  Forall (life_ok uid) es → Forall (not_online uid) es →
  ∃ g' rd1 resp, LoginLogic (J := J) base64 false env req g = (g', Ok resp) ∧ result resp = 200
    ∧ g_redis_ g' = mkMgr (Some rd1)
    ∧ let rd' := age_run order es rd1 in
      (VerifyUser (erase_char "="%char (url_safe (base64 bytes))) (set_redis w (mkMgr (Some rd')))).2
        = Ok (if elapsed es <? 50000 then Some uid else None)
    ∧ ∃ resp2, (LoginLogic (J := J) base64 false env2 req2 (with_rd g' rd')).2 = Ok resp2
        ∧ if elapsed es <? 60000 then resp2 = ForbiddenRequest req2 "Another client is trying to login!"
          else result resp2 = 200.
Proof.
  intros Ho Hu Hg Hs Hno Hi Hask Hau Htok Hrpc Hrok Hask2 Hau2 Htok2 Hrpc2 Hrok2 Hok Hn.
  destruct (LoginLogic_verified base64 hash_junk uid g a env req name pass Hask Hi Hau) as (m' & Hi' & E).
  destruct (login_verified_free (J := J) base64 uid (set_dbm g m') rd env req name sv s addr bytes Hg Hs Hno Hrpc Hrok Htok)
    as (rd1 & resp & E1 & Hr & T1 & I1 & P1 & C1). rewrite E.
  exists (with_rd (set_rpc (set_dbm g m') sv) rd1), rd1, resp. cbn zeta. split_and!; try done.
  - unfold VerifyUser, GetRedis_w, GetRedis, st_bind, st_res. cbn [w_redis_ set_redis redis_].
    change ("token:" +:+ ?t) with (token_key t).
    rewrite time_get, (token_life order Ho uid Hu es rd1 _ _ _ Hok T1) by lia. rewrite C1.
    destruct (Z.ltb_spec (clock (view rd) + elapsed es) (clock (view rd) + 50000)), (Z.ltb_spec (elapsed es) 50000);
      try lia; [|done]. cbn -[to_string]. by rewrite stoull_to_string.
  - destruct (second_login (J := J) base64 hash_junk order uid Ho Hu (with_rd (set_rpc (set_dbm g m') sv) rd1) a rd1 _
      env2 req2 name2 pass2 sv2 s2 addr2 bytes2 es eq_refl I1 P1 Hok Hn Hask2 Hi' Hau2 Hrpc2 Hrok2 Htok2) as (resp2 & E2 & H2).
    exists resp2. split; [done|]. rewrite C1 in H2.
    destruct (Z.ltb_spec (clock (view rd) + elapsed es) (clock (view rd) + 60000)), (Z.ltb_spec (elapsed es) 60000); done || lia.
Qed.

Definition demo_timed : Gateway demo_db store unit :=
  mkGateway (demo_dbm {["bob" := (77, demo_hash)]}) (mkMgr (Some (mkStore 0 ∅ ∅))) tt (UIDGenerator_init 0 0).

Lemma login_slot_outlives_token_witness :
  ∃ g' rd1 resp, LoginLogic (J := list (string * jval)) hex_upper false demo_env (demo_login "pw") demo_timed = (g', Ok resp)
    ∧ result resp = 200 ∧ g_redis_ g' = mkMgr (Some rd1)
    ∧ let rd' := age_run elements [LWait 55000] rd1 in
      (VerifyUser (erase_char "="%char (url_safe (hex_upper [1; 2; 3]))) (set_redis demo_time_world (mkMgr (Some rd')))).2
        = Ok (if 55000 <? 50000 then Some 77 else None)
    ∧ ∃ resp2, (LoginLogic (J := list (string * jval)) hex_upper false demo_env (demo_login "pw") (with_rd g' rd')).2 = Ok resp2
        ∧ if 55000 <? 60000 then resp2 = ForbiddenRequest (demo_login "pw") "Another client is trying to login!"
          else result resp2 = 200.
Proof.
  eapply (login_slot_outlives_token hex_upper (λ _, []) elements 77 demo_timed demo_accounts demo_time_world (mkStore 0 ∅ ∅)
    [LWait 55000] demo_env (demo_login "pw") "bob" "pw" tt Status_OK "10.0.0.1:2000" [1; 2; 3]
    demo_env (demo_login "pw") "bob" "pw" tt Status_OK "10.0.0.1:2000" [1; 2; 3]).
  - apply elem_of_elements.
  - done.
  - reflexivity.
  - reflexivity.
  - done.
  - exact demo_implements.
  - apply demo_asks. repeat constructor; done.
  - vm_compute. reflexivity.
  - reflexivity.
  - reflexivity.
  - reflexivity.
  - apply demo_asks. repeat constructor; done.
  - vm_compute. reflexivity.
  - reflexivity.
  - reflexivity.
  - reflexivity.
  - by repeat constructor.
  - by repeat constructor.
Defined.
