(* ===== verification/Http.v ===== *)
(** * HTTP connections of the gateway
      (src/src/http/http_server.cpp, http_server.hpp, req_handler.hpp)

    A connection reads a request, hands it to the request handler's thread pool, writes the
    response and reads the next request.  [phase] says which operation is outstanding; an
    event is the completion of that operation.  The parsing and writing of HTTP is Beast's. *)

From S2P Require Import Prelude Decimal CppString Security Dbm Snowflake RedisBase Backend StatusService DbmFacts Gateway GatewayFacts.

Inductive http_phase := HIdle | HReading | HHandling | HWriting.

#[global] Instance http_phase_eq_dec : EqDecision http_phase.
Proof. solve_decision. Defined.

Record HTTPConnection := mkHttp {
  phase : http_phase;
  req_ : option http_request;
  shut : bool
}.

Definition HTTPConnection_new : HTTPConnection := mkHttp HIdle None false.

(** What a connection asks of the others *)
Inductive http_out :=
  | HPost (req : http_request)            (* handler_->PostRequest *)
  | HWrite (resp : http_response).        (* boost::beast::async_write *)

Definition ReadRequest (c : HTTPConnection) : HTTPConnection := mkHttp HReading None (shut c).

Definition http_Start (c : HTTPConnection) : HTTPConnection := ReadRequest c.

(** [shutdown_send] *)
Definition http_Close (c : HTTPConnection) : HTTPConnection := mkHttp HIdle (req_ c) true.

(** The callback of [async_read]; [None] is an error, the end of the stream included *)
Definition read_cb (c : HTTPConnection) (r : option http_request) : HTTPConnection * list http_out :=
  match r with
  | None => (http_Close c, [])
  | Some req => (mkHttp HHandling None (shut c), [HPost req])
  end.

Definition SendResponse (c : HTTPConnection) (msg : http_response) : HTTPConnection * list http_out :=
  (mkHttp HWriting (req_ c) (shut c), [HWrite msg]).

(** The callback of [async_write] *)
Definition write_done (c : HTTPConnection) (err : bool) : HTTPConnection * list http_out :=
  if err then (http_Close c, []) else (ReadRequest c, []).

Inductive http_ev := EvRead (r : option http_request) | EvHandled (resp : http_response) | EvWrote (err : bool).

(** An event is possible only for the outstanding operation *)
Definition http_step (c : HTTPConnection) (e : http_ev) : option (HTTPConnection * list http_out) :=
  match phase c, e with
  | HReading, EvRead r => Some (read_cb c r)
  | HHandling, EvHandled resp => Some (SendResponse c resp)
  | HWriting, EvWrote err => Some (write_done c err)
  | _, _ => None
  end.

Fixpoint http_run (c : HTTPConnection) (es : list http_ev) : option (HTTPConnection * list http_out) :=
  match es with
  | [] => Some (c, [])
  | e :: es' =>
      r ← http_step c e;
      r' ← http_run r.1 es';
      Some (r'.1, r.2 ++ r'.2)
  end.

(** *** [HTTPServer] *)

(** The constructor: the error messages of the four calls, in order; the first one throws *)
Definition HTTPServer_new (open reuse bind listen : option string) : res unit :=
  match open with Some e => Throw (runtime_error ("Failed to open acceptor: " +:+ e)) | None =>
  match reuse with Some e => Throw (runtime_error ("Failed to set reuse_address: " +:+ e)) | None =>
  match bind with Some e => Throw (runtime_error ("Failed to bind acceptor: " +:+ e)) | None =>
  match listen with Some e => Throw (runtime_error ("Failed to listen on acceptor: " +:+ e)) | None => Ok tt
  end end end end.

(** The callback of [Acceptor]: the new connection, started, or none after an error; [true]
    when the next accept is issued *)
Definition accept_cb (err : bool) : option HTTPConnection * bool :=
  if err then (None, false) else (Some (http_Start HTTPConnection_new), true).

Section gateway.
Context {D Rd Sv J : Type}.
Context `{!MySql D, !Crypto, !RedisOps Rd, !GatewayRedis Rd, !MinimalRPC Sv, !JsonLib J}.
Context (base64 : list Z → string) (ndebug : bool) (junk : nat → list Z).
Open Scope cpp_scope.

(** [PostRequest]: the pool runs the handler and gives its result to the callback *)
Definition PostRequest (env : req_env) (c : HTTPConnection) (req : http_request) :
    st (Gateway D Rd Sv) (HTTPConnection * list http_out) :=
  resp <- RequestHandler (J := J) base64 ndebug junk env req ;;
  st_ret (SendResponse c resp).

(** A connection served without errors of the network: each request is read, handled and
    answered *)
Fixpoint serve (c : HTTPConnection) (reqs : list (req_env * http_request)) :
    st (Gateway D Rd Sv) (HTTPConnection * list http_out) :=
  match reqs with
  | [] => st_ret (c, [])
  | (env, req) :: reqs' =>
      let '(c, posts) := read_cb c (Some req) in
      r <- PostRequest env c req ;;
      let '(c, _) := write_done r.1 false in
      r' <- serve c reqs' ;;
      st_ret (r'.1, posts ++ r.2 ++ r'.2)
  end.

(** The handler on one request after the other *)
Fixpoint handle_all (reqs : list (req_env * http_request)) : st (Gateway D Rd Sv) (list http_response) :=
  match reqs with
  | [] => st_ret []
  | (env, req) :: reqs' =>
      resp <- RequestHandler (J := J) base64 ndebug junk env req ;;
      rest <- handle_all reqs' ;;
      st_ret (resp :: rest)
  end.

(** Requests with the responses they get *)
Fixpoint dialogue (reqs : list (req_env * http_request)) (resps : list http_response) : list http_out :=
  match reqs, resps with
  | (_, req) :: reqs', resp :: resps' => HPost req :: HWrite resp :: dialogue reqs' resps'
  | _, _ => []
  end.

Lemma serve_dialogue reqs : ∀ c (g g' : Gateway D Rd Sv) resps,
  phase c = HReading → handle_all reqs g = (g', Ok resps) →
  ∃ c', serve c reqs g = (g', Ok (c', dialogue reqs resps)) ∧ phase c' = HReading ∧ shut c' = shut c.
Proof.
  induction reqs as [|[env req] reqs IH]; intros c g g' resps Hph Hh; cbn [handle_all serve] in *.
  { injection Hh as <- <-. by exists c. }
  unfold st_bind in Hh. destruct (RequestHandler base64 ndebug junk env req g) as [g1 [resp| |]] eqn:E; [|done..].
  destruct (handle_all reqs g1) as [g2 [rest| |]] eqn:E2; [|done..]. injection Hh as <- <-.
  cbn [read_cb]. unfold PostRequest.
  set (c1 := mkHttp HHandling None (shut c)). set (c2 := (SendResponse c1 resp).1).
  destruct (IH (ReadRequest c2) g1 g2 rest eq_refl E2) as (c' & Es & Hp & Hs). exists c'.
  rewrite (st_bind_Ok _ _ g g1 (SendResponse c1 resp)) by (by rewrite (st_bind_Ok _ _ g g1 resp)).
  cbn [SendResponse write_done fst snd]. rewrite (st_bind_Ok _ _ _ _ _ Es). done.
Qed.
End gateway.

(** ** Facts *)

Definition is_post (o : http_out) : bool := match o with HPost _ => true | HWrite _ => false end.

(** Posts and writes alternate, starting with a post; [true]: a post is next *)
Fixpoint alternates (post_next : bool) (l : list http_out) : Prop :=
  match l with
  | [] => True
  | o :: l' => is_post o = post_next ∧ alternates (negb post_next) l'
  end.

Definition next_is_post (c : HTTPConnection) : bool := bool_decide (phase c ≠ HHandling).

Lemma http_step_out c e c' out :
  http_step c e = Some (c', out) →
  (out = [] ∧ next_is_post c' = next_is_post c)
  ∨ (∃ o, out = [o] ∧ is_post o = next_is_post c ∧ next_is_post c' = negb (next_is_post c)).
Proof.
  unfold http_step, next_is_post. destruct (phase c), e; try done; cbn.
  - destruct r; intros [= <- <-]; cbn; [right; eauto|by left].
  - intros [= <- <-]. cbn. right. eauto.
  - unfold write_done. destruct err; intros [= <- <-]; by left.
Qed.

Lemma http_run_alternates es : ∀ c c' out,
  http_run c es = Some (c', out) → alternates (next_is_post c) out.
Proof.
  induction es as [|e es IH]; intros c c' out H; cbn [http_run] in H; [by injection H as <- <-|].
  destruct (http_step c e) as [[c1 o1]|] eqn:E1; [|done]. cbn in H.
  destruct (http_run c1 es) as [[c2 o2]|] eqn:E2; [|done]. injection H as <- <-. cbn [fst snd].
  specialize (IH _ _ _ E2). destruct (http_step_out _ _ _ _ E1) as [[-> Hn]|(o & -> & Ho & Hn)]; cbn.
  - by rewrite <- Hn.
  - by rewrite <- Hn.
Qed.

(** A connection that was shut down has nothing outstanding, so nothing happens on it. *)
Lemma http_run_shut es : ∀ c c' out,
  (shut c = true → phase c = HIdle) → http_run c es = Some (c', out) → shut c' = true → phase c' = HIdle.
Proof.
  induction es as [|e es IH]; intros c c' out Hc H; cbn [http_run] in H; [by injection H as <- <-|].
  destruct (http_step c e) as [[c1 o1]|] eqn:E1; [|done]. cbn in H.
  destruct (http_run c1 es) as [[c2 o2]|] eqn:E2; [|done]. injection H as <- <-. cbn [fst snd].
  apply (IH _ _ _) with (2 := E2). revert E1. unfold http_step.
  destruct (phase c) eqn:Hph, e; try done; cbn.
  - destruct r; intros [= <- <-]; cbn; [|done]. intros Hs. by specialize (Hc Hs).
  - intros [= <- <-]; cbn. intros Hs. by specialize (Hc Hs).
  - unfold write_done. destruct err; intros [= <- <-]; cbn; [done|]. intros Hs. by specialize (Hc Hs).
Qed.

(** A connection works on one request at a time: for every sequence of completions,
    requests are handed over and responses written strictly in turn, beginning with a
    request; and once the connection is shut down no operation is outstanding on it. *)
Theorem http_one_at_a_time es c out :
  http_run (http_Start HTTPConnection_new) es = Some (c, out) →
  alternates true out ∧ (shut c = true → phase c = HIdle).
Proof.
  intros H. split; [exact (http_run_alternates es _ _ _ H)|]. by eapply http_run_shut; [|exact H].
Qed.

Definition ping : http_request := mkRequest GET "/ping" 11 true "".

Lemma http_one_at_a_time_witness :
  alternates true [HPost ping; HWrite (reply_page 200 "text/html" ping "pong")]
  ∧ (true = true → HIdle = HIdle).
Proof.
  apply (http_one_at_a_time [EvRead (Some ping); EvHandled (reply_page 200 "text/html" ping "pong"); EvWrote false; EvRead None]
    (mkHttp HIdle None true)). reflexivity.
Defined.

(** Requests of one connection are answered in order: when the handler returns on each of
    them, the connection hands over every request and writes the handler's response to it
    before it reads the next one, and goes on reading. *)
Theorem http_answers_in_order {D Rd Sv J} `{!MySql D, !Crypto, !RedisOps Rd, !GatewayRedis Rd, !MinimalRPC Sv, !JsonLib J}
    base64 ndebug junk (g g' : Gateway D Rd Sv) reqs resps :
  handle_all (J := J) base64 ndebug junk reqs g = (g', Ok resps) →
  ∃ c, serve (J := J) base64 ndebug junk (http_Start HTTPConnection_new) reqs g = (g', Ok (c, dialogue reqs resps))
    ∧ phase c = HReading ∧ shut c = false.
Proof. intros Hh. by apply (serve_dialogue base64 ndebug junk reqs). Qed.

Lemma http_answers_in_order_witness :
  let g := demo_gateway (mkDemoRd ∅ ∅ ∅) in
  let r := handle_all (J := list (string * jval)) hex_upper false (λ _, []) [(demo_env, ping); (demo_env, demo_login "no")] g in
  let resps := match r.2 with Ok l => l | _ => [] end in
  (result <$> resps = [200; 403]) ∧
  ∃ c, serve (J := list (string * jval)) hex_upper false (λ _, []) (http_Start HTTPConnection_new)
      [(demo_env, ping); (demo_env, demo_login "no")] g
      = (r.1, Ok (c, dialogue [(demo_env, ping); (demo_env, demo_login "no")] resps))
    ∧ phase c = HReading ∧ shut c = false.
Proof.
  cbn zeta. split; [vm_compute; reflexivity|]. apply http_answers_in_order. vm_compute. reflexivity.
Defined.
