(* ===== verification/GatewayApp.v ===== *)
(** * The gateway process
      (src/src/include/http/gateway_class.hpp, src/src/http/gateway_class.cpp,
       src/src/http/gateway_main.cpp, src/src/http/http_server.cpp)

    [Initialize] builds the parts, [Run] starts the pool of database connections and the
    acceptor, [main] does both with its constants.  Opening a Redis connection and the four
    calls that set up the listening socket are arguments.  [MySqlStart] states what starting
    relies on of a MySQL server that is up. *)

From S2P Require Import Prelude Decimal CppString Security Dbm DbmPool DbmFacts Snowflake RedisBase Backend StatusService Gateway GatewayFacts Http.

Record DBConfigure := mkDBConf {
  conf_mysql_addr_ : string;
  conf_mysql_port_ : Z;
  conf_username_ : string;
  conf_password_ : string;
  conf_db_name_ : string
}.

(** The default arguments *)
Definition DBConfigure_default : DBConfigure := mkDBConf "" 0 "" "" "".

(** The error messages of opening, [SO_REUSEADDR], binding and listening *)
Record acceptor_env := mkAccEnv { acc_open : option string; acc_reuse : option string; acc_bind : option string; acc_listen : option string }.

Record GatewayClass (D Rd Sv : Type) := mkApp { handler_ : Gateway D Rd Sv; accepting : bool }.
Arguments mkApp {D Rd Sv}.
Arguments handler_ {D Rd Sv} _.
Arguments accepting {D Rd Sv} _.

Section app.
Context {D Rd Sv : Type}.
Context `{!MySql D, !RedisOps Rd, !GatewayRedis Rd}.
Open Scope cpp_scope.

(** [db] and [stub] are the MySQL server and the stub of the channel to [status_ep] *)
Definition Initialize (db_conf : DBConfigure) (acc : acceptor_env) (redis_open : res Rd) (db : D) (stub : Sv) :
    res (GatewayClass D Rd Sv) :=
  let dbm := DBM_new (mkParams (conf_username_ db_conf) (conf_password_ db_conf) (conf_db_name_ db_conf)
                       (conf_mysql_addr_ db_conf) (conf_mysql_port_ db_conf)) db in
  let '(redis_mgr, connected) :=
    ConnectTo (λ _ : unit, redis_open) (λ m, r ← RegisterScript m; Ok r.1) (mkMgr None) tt in
  _ ← connected;
  let handler := ReqHandler_new dbm redis_mgr stub 0 in
  _ ← HTTPServer_new (acc_open acc) (acc_reuse acc) (acc_bind acc) (acc_listen acc);
  Ok (mkApp handler false).

(** [GatewayClass::Run]: the pool is started on the handler's [dbm_] *)
Definition Run (db_conn : Z) : st (GatewayClass D Rd Sv) unit := λ app,
  match Dbm.Start db_conn db_conn (dbm_ (handler_ app)) with
  | (m, Ok true) => (mkApp (set_dbm (handler_ app) m) true, Ok tt)
  | (m, Ok false) => (mkApp (set_dbm (handler_ app) m) false, Throw (runtime_error "Error when starting dbm"))
  | (m, Throw e) => (mkApp (set_dbm (handler_ app) m) false, Throw e)
  | (m, UB w) => (mkApp (set_dbm (handler_ app) m) false, UB w)
  end.

(** [HTTPServer::Stop] closes the acceptor; connections stay *)
Definition HTTPServer_Stop (app : GatewayClass D Rd Sv) : GatewayClass D Rd Sv := mkApp (handler_ app) false.

(** The constants of [main] *)
Definition main_conf : DBConfigure := mkDBConf "192.168.56.101" 3306 "lance" "123456" "chat".

(** [main], up to [http_ctx.run()]; an exception ends the process *)
Definition gateway_main (acc : acceptor_env) (redis_open : res Rd) (db : D) (stub : Sv) : res (GatewayClass D Rd Sv) :=
  app ← Initialize main_conf acc redis_open db stub;
  let '(app, r) := Run 10 app in
  _ ← r;
  Ok app.
End app.

(** ** Starting the pool *)

Class MySqlStart (D : Type) `{!MySql D, !MySqlLaws D} := {
  my_up : D → ConnParams → Prop;               (* the server accepts these parameters *)
  my_connect_up d p ps : my_up d ps →
    ∃ d', my_connect d p ps = (d', false) ∧ my_up d' ps ∧ my_users d' = my_users d
      ∧ ∀ q t sql, q ≠ p → my_stmt d q t sql → my_stmt d' q t sql;
  my_prepare_up d p ps sql : my_up d ps →
    ∃ d' s, my_prepare d p sql = (d', Some s) ∧ my_up d' ps ∧ my_users d' = my_users d
      ∧ my_stmt d' p s sql ∧ ∀ q t sql', my_stmt d q t sql' → my_stmt d' q t sql'
}.

Section start.
Context {D : Type} `{!MySql D, !MySqlLaws D, !MySqlStart D}.

(** From [m] to [m'] the pool keeps its parameters and users, and its ready connections. *)
Definition extends (m m' : DBM D) : Prop :=
  params_ m' = params_ m ∧ users_of m' = users_of m ∧ my_up (mysql m') (params_ m')
  ∧ conns_ m' = conns_ m ∧ free_queue_ m' = free_queue_ m ∧ Dbm.running_ m' = Dbm.running_ m.

Lemma Connect_ready (m : DBM D) p :
  cells m !! p = Some DBConn_new → my_up (mysql m) (params_ m) →
  ∃ m', Connect p m = (m', Ok true) ∧ extends m m' ∧ conn_ready m' p ∧ next_cell m' = next_cell m
    ∧ ∀ q, q ≠ p → cells m' !! q = cells m !! q ∧ (conn_ready m q → conn_ready m' q).
Proof.
  intros Hp Hup.
  destruct (my_connect_up (mysql m) p (params_ m) Hup) as (d1 & E1 & Hup1 & Hu1 & Hs1).
  destruct (my_prepare_up d1 p (params_ m) LOGIN_SQL Hup1) as (d2 & s2 & E2 & Hup2 & Hu2 & Hst2 & Hs2).
  destruct (my_prepare_up d2 p (params_ m) EXIST_SQL Hup2) as (d3 & s3 & E3 & Hup3 & Hu3 & Hst3 & Hs3).
  destruct (my_prepare_up d3 p (params_ m) REGISTER_SQL Hup3) as (d4 & s4 & E4 & Hup4 & Hu4 & Hst4 & Hs4).
  assert (Hrun : ∃ cs, cs !! p = Some (mkDBConn true s2 s4 s3) ∧ (∀ q, q ≠ p → cs !! q = cells m !! q)
    ∧ Connect p m = (mkDBM (conns_ m) (free_queue_ m) (pool_size_ m) (pool_max_cap_ m) (Dbm.running_ m) (params_ m) cs (next_cell m) d4, Ok true)).
  { eexists. split; [|split; [|
      unfold Connect, ReconnectImpl, InitStmt, set_valid, st_bind, my_call, get_conn, put_conn, st_mod, st_get, st_ret;
      rewrite Hp; cbn [valid_ DBConn_new mysql params_ set_mysql set_cells cells]; rewrite E1; cbn [mysql set_mysql];
      rewrite E2; cbn [mysql set_mysql set_cells cells]; rewrite Hp; cbn [mysql set_mysql set_cells cells];
      rewrite E3; cbn [mysql set_mysql set_cells cells]; rewrite lookup_insert_eq; cbn [mysql set_mysql set_cells cells];
      rewrite E4; cbn [mysql set_mysql set_cells cells]; rewrite lookup_insert_eq; cbn [mysql set_mysql set_cells cells];
      rewrite lookup_insert_eq; reflexivity]].
    - by rewrite lookup_insert_eq.
    - intros q Hq. cbn. by rewrite !lookup_insert_ne by done. }
  destruct Hrun as (cs & Hcs & Hother & ->). eexists. split; [reflexivity|]. split; [|split; [|split]].
  - unfold extends, users_of. cbn. split_and!; try done. by rewrite Hu4, Hu3, Hu2, Hu1.
  - eexists. cbn. split; [exact Hcs|]. cbn. auto.
  - done.
  - intros q Hq. split; [by apply Hother|]. intros (c & Hc & H1 & H2 & H3). exists c. cbn.
    split; [by rewrite Hother|]. split_and!; auto 10.
Qed.

Lemma start_conns_ready n : ∀ (m : DBM D),
  my_up (mysql m) (params_ m) → (∀ p, p ∈ conns_ m → (p < next_cell m)%nat ∧ conn_ready m p) →
  ∃ m', start_conns n m = (m', Ok true) ∧ users_of m' = users_of m ∧ free_queue_ m' = free_queue_ m
    ∧ length (conns_ m') = (length (conns_ m) + n)%nat ∧ ∀ p, p ∈ conns_ m' → conn_ready m' p.
Proof.
  induction n as [|n IH]; intros m Hup Hc.
  { exists m. split_and!; [done..|lia|by intros p Hp; apply Hc]. }
  set (p := next_cell m). set (m0 := set_conns (alloc_conn m) (conns_ m ++ [p])).
  destruct (Connect_ready m0 p) as (m1 & E & (Hps & Hu & Hup1 & Hcs & Hf & _) & Hrdy & Hn & Hother).
  { cbn. by rewrite lookup_insert_eq. } { done. }
  destruct (IH m1) as (m' & E' & Hu' & Hf' & Hl & Hr').
  - done.
  - rewrite Hcs, Hn. cbn. intros q [Hq| ->%list_elem_of_singleton]%elem_of_app; [|split; [unfold p; lia|done]].
    destruct (Hc q Hq) as [Hlt Hqr]. split; [lia|]. apply Hother; [unfold p; lia|].
    destruct Hqr as (c & Hcell & Hst). exists c. split; [|done]. cbn. rewrite lookup_insert_ne by (unfold p; lia). done.
  - exists m'. cbn [start_conns]. split_and!; [|by rewrite Hu', Hu|by rewrite Hf', Hf|rewrite Hl, Hcs; cbn; rewrite length_app; cbn; lia|done].
    rewrite (st_bind_Ok _ _ m m p) by done. rewrite (st_bind_Ok _ _ m (alloc_conn m) tt) by done.
    rewrite (st_bind_Ok _ _ (alloc_conn m) m0 tt) by done. by rewrite (st_bind_Ok _ _ m0 m1 true) by done.
Qed.

(** Starting a new pool of at least one connection makes it ready. *)
Lemma Start_ready ps (d : D) n :
  my_up d ps → 0 < n →
  ∃ m', Dbm.Start n n (DBM_new ps d) = (m', Ok true) ∧ ready m' ∧ users_of m' = my_users d.
Proof.
  intros Hup Hn.
  destruct (start_conns_ready (Z.to_nat n) (DBM_new ps d)) as (m1 & E & Hu & Hf & Hl & Hr); [done|by intros p ?%elem_of_nil|].
  unfold Dbm.Start. rewrite (st_bind_Ok _ _ _ _ _ (eq_refl (DBM_new ps d, Ok false))). rewrite Z.ltb_irrefl.
  rewrite (st_bind_Ok _ _ _ m1 true) by done. eexists. split; [reflexivity|]. cbn in Hf, Hl. split; [|done].
  split_and!; cbn; rewrite ?Hf; [done| |].
  - destruct (conns_ m1); [cbn in Hl; lia|done].
  - intros p Hp. destruct (Hr p Hp) as (c & Hc). by exists c.
Qed.
End start.

(** ** Theorems *)

(** The rows of the table belong to the accounts. *)
Definition table_holds `{!Crypto} (junk : nat → list Z) (u : users) (a : accounts) : Prop :=
  dom u = dom a ∧
  ∀ name uid salt pass, a !! name = Some (uid, (salt, pass)) →
    Forall is_byte salt ∧ ∃ h, u !! name = Some (uid, h) ∧ HashPassword false (Some salt) junk pass 200000 = Ok h.

Definition acceptor_ok : acceptor_env := mkAccEnv None None None None.

Definition main_params : ConnParams :=
  mkParams (conf_username_ main_conf) (conf_password_ main_conf) (conf_db_name_ main_conf)
    (conf_mysql_addr_ main_conf) (conf_mysql_port_ main_conf).

Lemma Initialize_Ok {D Rd Sv} `{!MySql D, !RedisOps Rd, !GatewayRedis Rd} conf (rd rd' : Rd) sha (db : D) (stub : Sv) :
  redis_script_load rd get_server_by_userid = Ok (rd', sha) →
  Initialize conf acceptor_ok (Ok rd) db stub
    = Ok (mkApp (ReqHandler_new (DBM_new (mkParams (conf_username_ conf) (conf_password_ conf) (conf_db_name_ conf)
        (conf_mysql_addr_ conf) (conf_mysql_port_ conf)) db) (mkMgr (Some rd')) stub 0) false).
Proof.
  intros H. unfold Initialize, ConnectTo, RegisterScript, IsConnected. rewrite bool_decide_eq_true_2 by done.
  cbn [GetRedis redis_ mbind res_bind]. by rewrite H.
Qed.

(** C30. The gateway comes up serving what is stored: with a Redis and a MySQL server that accept
    it, [main] reaches its event loop with the acceptor running, ten connections in the pool,
    a user store that implements exactly the accounts whose hashes are in the table, and an
    id generator in range; so every theorem about a ready gateway applies from the first
    request on. *)
Theorem gateway_main_ready {D Rd Sv} `{!MySql D, !MySqlLaws D, !MySqlStart D, !Crypto, !RedisOps Rd, !GatewayRedis Rd}
    junk (rd rd' : Rd) sha (db : D) (stub : Sv) a :
  my_up db main_params → redis_script_load rd get_server_by_userid = Ok (rd', sha) →
  table_holds junk (my_users db) a →
  ∃ app, gateway_main acceptor_ok (Ok rd) db stub = Ok app
    ∧ accepting app = true ∧ implements junk (dbm_ (handler_ app)) a
    ∧ g_redis_ (handler_ app) = mkMgr (Some rd') ∧ rpc_ (handler_ app) = stub ∧ gen_wf (uid_gen_ (handler_ app)).
Proof.
  intros Hup Hload [Hdom Ha]. unfold gateway_main. rewrite (Initialize_Ok main_conf rd rd' sha db stub Hload).
  cbn [mbind res_bind]. unfold Run. cbn [handler_ dbm_ ReqHandler_new].
  destruct (Start_ready main_params db 10 Hup ltac:(lia)) as (m & E & Hr & Hu).
  change (mkParams _ _ _ _ _) with main_params. rewrite E. cbn [mbind res_bind].
  eexists. split; [reflexivity|]. cbn. split_and!; try done; [|apply UIDGenerator_init_wf..].
  split_and!; [done|by rewrite Hu|by rewrite Hu].
Qed.

#[export] Program Instance demo_mysql_start : MySqlStart demo_db := {
  my_up d _ := refuse_prepare d = false
}.
Next Obligation. intros d p ps Hd. by exists d. Qed.
Next Obligation. intros d p ps sql Hd. exists d, (demo_stmt sql). cbn [my_prepare demo_mysql]. by rewrite Hd. Qed.

Lemma gateway_main_ready_witness :
  ∃ app, gateway_main acceptor_ok (Ok (mkDemoRd ∅ ∅ ∅)) (mkDemoDb {["bob" := (77, demo_hash)]} false) tt = Ok app
    ∧ accepting app = true ∧ implements (λ _, []) (dbm_ (handler_ app)) demo_accounts
    ∧ g_redis_ (handler_ app) = mkMgr (Some (mkDemoRd ∅ ∅ ∅)) ∧ rpc_ (handler_ app) = tt ∧ gen_wf (uid_gen_ (handler_ app)).
Proof.
  eapply (gateway_main_ready (λ _, []) (mkDemoRd ∅ ∅ ∅)); [reflexivity|reflexivity|].
  split; [reflexivity|]. intros name uid salt pass Hn. unfold demo_accounts in Hn.
  apply lookup_singleton_Some in Hn as [<- [= <- <- <-]].
  split; [repeat constructor; done|]. exists demo_hash. split; reflexivity.
Defined.

(** Start-up fails with the first cause: without Redis, or with an acceptor that cannot be
    opened, configured, bound or made to listen, [main] ends by that exception before any
    connection to MySQL is made. *)
Theorem gateway_main_errors {D Rd Sv} `{!MySql D, !RedisOps Rd, !GatewayRedis Rd} acc (rd rd' : Rd) sha (db : D) (stub : Sv) e :
  redis_script_load rd get_server_by_userid = Ok (rd', sha) →
  gateway_main acc (@Throw Rd e) db stub = Throw e
  ∧ (∀ why, HTTPServer_new (acc_open acc) (acc_reuse acc) (acc_bind acc) (acc_listen acc) = Throw why →
       gateway_main acc (Ok rd) db stub = Throw why).
Proof.
  intros Hload. split; [done|]. intros why Hh. unfold gateway_main, Initialize, ConnectTo, RegisterScript, IsConnected.
  rewrite bool_decide_eq_true_2 by done. cbn [GetRedis redis_ mbind res_bind]. rewrite Hload. cbn [mbind res_bind].
  by rewrite Hh.
Qed.

Lemma gateway_main_errors_witness :
  gateway_main (mkAccEnv None None (Some "address in use") None) (Ok (mkDemoRd ∅ ∅ ∅)) (mkDemoDb ∅ false) tt
    = Throw (runtime_error "Failed to bind acceptor: address in use").
Proof.
  apply (gateway_main_errors (mkAccEnv None None (Some "address in use") None) (mkDemoRd ∅ ∅ ∅) (mkDemoRd ∅ ∅ ∅)
    "sha" (mkDemoDb ∅ false) tt (runtime_error "")); reflexivity.
Defined.
