(* ===== verification/GatewayPool.v ===== *)
(** * The gateway under its threads
      (src/src/include/http/req_handler.hpp, src/src/http/http_server.cpp,
       src/src/http/gateway_main.cpp)

    [main] runs the event loop of the connections and the acceptor; the thread pool of the
    request handler runs the functions given to [PostRequest].  A state has the connections,
    each with the completions it has seen and what it asked for, the functions in the pool and
    the threads that run them.  Nothing is assumed of the handler here: what it returned, or
    threw, is part of the event, so that the theorems hold for all its interleavings with the
    handlers of the other threads. *)

From S2P Require Import Prelude Decimal CppString Security Dbm DbmFacts Snowflake RedisBase Backend StatusService Gateway GatewayFacts Http.

Record conn_hist := mkHist { h_conn : HTTPConnection; h_evs : list http_ev; h_out : list http_out }.

(** What [PostRequest] gives to the pool: the connection in the callback, and the request *)
Abbreviation task := (nat * http_request)%type.

Record gw_state := mkGw {
  conns : list conn_hist;                        (* accepted so far *)
  posted : list task;                            (* in the pool, not taken *)
  workers : list (option task);                  (* its threads *)
  acceptor : bool;                               (* an async_accept is outstanding *)
  in_run : bool;                                 (* main is inside http_ctx.run() *)
  calls : list (http_request * http_response)    (* calls of RequestHandler that returned *)
}.

(** [ReqHandler] with [pool_size] threads, after [HTTPServer::Start] *)
Definition gw_start (pool_size : nat) : gw_state := mkGw [] [] (replicate pool_size None) true true [].

Inductive gw_ev :=
  | GAccept (err : bool)                         (* the accept ends *)
  | GRead (c : nat) (r : option http_request)    (* the read of connection c ends *)
  | GWrote (c : nat) (err : bool)                (* the write of connection c ends *)
  | GTake (t i : nat)                            (* thread t takes the i-th function *)
  | GReturn (t : nat) (out : res http_response)  (* RequestHandler ends on thread t *)
  | GRunEnds.                                    (* http_ctx.run() returns, and main *)

Definition post_of (c : nat) (o : http_out) : list task := match o with HPost req => [(c, req)] | HWrite _ => [] end.

(** A completion on connection [c] *)
Definition conn_step (c : nat) (e : http_ev) (s : gw_state) : option gw_state :=
  h ← conns s !! c;
  r ← http_step (h_conn h) e;
  Some (mkGw (<[c := mkHist r.1 (h_evs h ++ [e]) (h_out h ++ r.2)]> (conns s)) (posted s ++ (r.2 ≫= post_of c)) (workers s)
    (acceptor s) (in_run s) (calls s)).

(** The callback of [async_accept] *)
Definition accept_step (err : bool) (s : gw_state) : gw_state :=
  let '(c, again) := accept_cb err in
  mkGw (conns s ++ ((λ c, mkHist c [] []) <$> option_list c)) (posted s) (workers s) again (in_run s) (calls s).

(** Operations the event loop waits for *)
Definition has_op (h : conn_hist) : bool := bool_decide (phase (h_conn h) = HReading ∨ phase (h_conn h) = HWriting).

Definition loop_work (s : gw_state) : bool := acceptor s || existsb has_op (conns s).

(** [None]: the event cannot happen now.  An exception that leaves a function in the pool ends
    the process.  When [run()] has returned, [main] destroys the io_context, and a write on a
    socket of it is a use after its life time. *)
Definition gw_step (e : gw_ev) (s : gw_state) : option (res gw_state) :=
  match e with
  | GAccept err => if in_run s && acceptor s then Some (Ok (accept_step err s)) else None
  | GRead c r => if in_run s then Ok <$> conn_step c (EvRead r) s else None
  | GWrote c err => if in_run s then Ok <$> conn_step c (EvWrote err) s else None
  | GTake t i =>
      w ← workers s !! t;
      job ← posted s !! i;
      match w with
      | Some _ => None
      | None => Some (Ok (mkGw (conns s) (delete i (posted s)) (<[t := Some job]> (workers s)) (acceptor s) (in_run s) (calls s)))
      end
  | GReturn t out =>
      w ← workers s !! t;
      job ← w;
      match out with
      | Throw e => Some (Throw e)
      | UB u => Some (UB u)
      | Ok resp =>
          if in_run s then
            Ok <$> conn_step job.1 (EvHandled resp)
              (mkGw (conns s) (posted s) (<[t := None]> (workers s)) (acceptor s) (in_run s) ((job.2, resp) :: calls s))
          else Some (UB destroyed)
      end
  | GRunEnds =>
      if in_run s && negb (loop_work s) then Some (Ok (mkGw (conns s) (posted s) (workers s) false false (calls s))) else None
  end.

Fixpoint gw_run (es : list gw_ev) (s : gw_state) : option (res gw_state) :=
  match es with
  | [] => Some (Ok s)
  | e :: es' =>
      r ← gw_step e s;
      match r with
      | Ok s' => gw_run es' s'
      | Throw e => if decide (es' = []) then Some (Throw e) else None
      | UB u => if decide (es' = []) then Some (UB u) else None
      end
  end.

(** ** What the pool owes to the connections *)

(** Requests with their responses, and the request that has none yet *)
Definition talk_step (x : list (http_request * http_response) * option http_request) (o : http_out) :
    list (http_request * http_response) * option http_request :=
  match o, x.2 with
  | HPost req, _ => (x.1, Some req)
  | HWrite resp, Some req => (x.1 ++ [(req, resp)], None)
  | HWrite _, None => x
  end.

Definition talk (out : list http_out) : list (http_request * http_response) * option http_request :=
  foldl talk_step ([], None) out.

Definition answered (h : conn_hist) : list (http_request * http_response) := (talk (h_out h)).1.

Definition asked (h : conn_hist) : option http_request := (talk (h_out h)).2.

(** What [f] gives for the elements of a list and their positions *)
Fixpoint gather {A B} (f : nat → A → list B) (k : nat) (l : list A) : list B :=
  match l with
  | [] => []
  | x :: l' => f k x ++ gather f (S k) l'
  end.

Definition owed (c : nat) (h : conn_hist) : list task := pair c <$> option_list (asked h).

(** The tasks in the pool *)
Definition jobs (s : gw_state) : list task := posted s ++ (workers s ≫= option_list).

Record gw_inv (s : gw_state) : Prop := {
  gw_hist : ∀ c h, conns s !! c = Some h →
    http_run (http_Start HTTPConnection_new) (h_evs h) = Some (h_conn h, h_out h)
    ∧ (is_Some (asked h) ↔ phase (h_conn h) = HHandling);
  gw_jobs : jobs s ≡ₚ gather owed 0 (conns s);
  gw_calls : calls s ≡ₚ conns s ≫= answered;
  gw_open : acceptor s = true → in_run s = true
}.

(** ** Lemmas *)

Section gather.
Context {A B : Type} (f : nat → A → list B).

Lemma gather_insert l i x y new old : ∀ k,
  l !! i = Some x → f (k + i)%nat y ++ old ≡ₚ new ++ f (k + i)%nat x →
  gather f k (<[i := y]> l) ++ old ≡ₚ new ++ gather f k l.
Proof.
  revert i. induction l as [|z l IH]; intros [|i] k Hi Hf; cbn in *; simplify_eq.
  - rewrite Nat.add_0_r in Hf. by rewrite <- app_assoc, (Permutation_app_comm (gather _ _ _) old), app_assoc, Hf, app_assoc.
  - rewrite <- app_assoc, (IH i (S k) Hi) by (by rewrite Nat.add_succ_comm). by rewrite !app_assoc, (Permutation_app_comm new).
Qed.

Lemma gather_snoc l x : ∀ k, gather f k (l ++ [x]) = gather f k l ++ f (k + length l)%nat x.
Proof.
  induction l as [|y l IH]; intros k; cbn; [by rewrite Nat.add_0_r, app_nil_r|].
  by rewrite IH, <- Nat.add_succ_comm, app_assoc.
Qed.

Lemma elem_of_gather l b : ∀ k, b ∈ gather f k l ↔ ∃ i x, l !! i = Some x ∧ b ∈ f (k + i)%nat x.
Proof.
  induction l as [|y l IH]; intros k; cbn.
  - split; [by intros ?%elem_of_nil|]. by intros (i & x & ? & _).
  - rewrite elem_of_app, IH. split.
    + intros [Hb|(i & x & Hi & Hb)]; [exists 0%nat, y; by rewrite Nat.add_0_r|].
      exists (S i), x. by rewrite <- Nat.add_succ_comm.
    + intros ([|i] & x & Hi & Hb); cbn in Hi; simplify_eq; [left; by rewrite Nat.add_0_r in Hb|].
      right. exists i, x. by rewrite Nat.add_succ_comm.
Qed.
End gather.

Lemma gather_bind {A B} (f : A → list B) l : ∀ k, gather (λ _, f) k l = l ≫= f.
Proof. induction l as [|x l IH]; intros k; cbn; [done|]. by rewrite IH. Qed.

Lemma owed_distinct l : ∀ k, NoDup (fst <$> gather owed k l) ∧ Forall (λ c, k <= c)%nat (fst <$> gather owed k l).
Proof.
  induction l as [|h l IH]; intros k; cbn [gather]; [by split; constructor|].
  destruct (IH (S k)) as [Hnd Hge]. unfold owed at 1 3. destruct (asked h) as [req|]; cbn.
  - split.
    + constructor; [|done]. intros Hin. eapply list.Forall_forall in Hge; [|exact Hin]. cbn in Hge. lia.
    + constructor; [lia|]. eapply list.Forall_impl; [exact Hge|]. cbn. lia.
  - split; [done|]. eapply list.Forall_impl; [exact Hge|]. cbn. lia.
Qed.

Lemma talk_snoc out o : talk (out ++ [o]) = talk_step (talk out) o.
Proof. unfold talk. by rewrite foldl_app. Qed.

Lemma http_run_snoc es e : ∀ c c1 o1 c2 o2,
  http_run c es = Some (c1, o1) → http_step c1 e = Some (c2, o2) → http_run c (es ++ [e]) = Some (c2, o1 ++ o2).
Proof.
  induction es as [|e' es IH]; intros c c1 o1 c2 o2 H1 H2; cbn [http_run app] in *.
  - injection H1 as <- <-. rewrite H2. cbn. by rewrite app_nil_r.
  - destruct (http_step c e') as [[c' o']|] eqn:E; [|done]. cbn in *.
    destruct (http_run c' es) as [[c'' o'']|] eqn:E'; [|done]. injection H1 as <- <-. cbn in *.
    rewrite (IH _ _ _ _ _ E' H2). cbn. by rewrite app_assoc.
Qed.

Lemma workers_insert (ws : list (option task)) t w w' :
  ws !! t = Some w → (<[t := w']> ws ≫= option_list) ++ option_list w ≡ₚ option_list w' ++ (ws ≫= option_list).
Proof.
  intros Ht. rewrite <- (gather_bind option_list (<[t := w']> ws) 0), <- (gather_bind option_list ws 0).
  by apply (gather_insert (λ _, option_list) _ _ w).
Qed.

(** A step of a connection that is not being handled posts what it is then owed; the end of
    the handler answers what was owed. *)
Lemma conn_step_hist c e h h' r :
  http_run (http_Start HTTPConnection_new) (h_evs h) = Some (h_conn h, h_out h) →
  (is_Some (asked h) ↔ phase (h_conn h) = HHandling) →
  http_step (h_conn h) e = Some r → h' = mkHist r.1 (h_evs h ++ [e]) (h_out h ++ r.2) →
  (http_run (http_Start HTTPConnection_new) (h_evs h') = Some (h_conn h', h_out h')
    ∧ (is_Some (asked h') ↔ phase (h_conn h') = HHandling))
  ∧ match e with
    | EvHandled resp => ∃ req, asked h = Some req ∧ asked h' = None ∧ answered h' = answered h ++ [(req, resp)]
                          ∧ r.2 ≫= post_of c = []
    | _ => answered h' = answered h ∧ owed c h = [] ∧ owed c h' = r.2 ≫= post_of c
    end.
Proof.
  intros Hrun Hph Hst ->. cbn [h_evs h_conn h_out]. destruct r as [c' o']. cbn [fst snd].
  rewrite (http_run_snoc _ _ _ _ _ _ _ Hrun Hst). unfold owed, asked, answered in *. cbn [h_out].
  assert (Hidle : phase (h_conn h) ≠ HHandling → (talk (h_out h)).2 = None).
  { intros Hp. destruct (talk (h_out h)).2 eqn:E; [|done]. destruct Hp. apply Hph. by eexists. }
  unfold http_step in Hst. destruct (phase (h_conn h)) eqn:Ep, e; try done; cbn in Hst.
  - destruct r as [req|]; injection Hst as <- <-; cbn; [rewrite talk_snoc|rewrite app_nil_r]; cbn;
      rewrite Hidle by done; split_and!; done.
  - injection Hst as <- <-. destruct (proj2 Hph eq_refl) as [req E]. rewrite talk_snoc. cbn. rewrite E. cbn.
    split_and!; try done. exists req. by split_and!.
  - unfold write_done in Hst. destruct err; injection Hst as <- <-; cbn; rewrite app_nil_r, Hidle by done; split_and!; done.
Qed.

Lemma conn_step_inv c e s s' :
  (∀ resp, e ≠ EvHandled resp) → conn_step c e s = Some s' → gw_inv s → gw_inv s'.
Proof.
  intros He Hst [Hh Hj Hc Ho]. unfold conn_step in Hst. destruct (conns s !! c) as [h|] eqn:El; [|done]. cbn in Hst.
  destruct (http_step (h_conn h) e) as [r|] eqn:Er; [|done]. injection Hst as <-.
  destruct (Hh c h El) as [Hrun Hph].
  destruct (conn_step_hist c e h _ r Hrun Hph Er eq_refl) as [Hinv Hacc].
  assert (answered (mkHist r.1 (h_evs h ++ [e]) (h_out h ++ r.2)) = answered h ∧ owed c h = []
    ∧ owed c (mkHist r.1 (h_evs h ++ [e]) (h_out h ++ r.2)) = r.2 ≫= post_of c) as (Ha & Hn & Hw).
  { destruct e; [done|by destruct (He resp)|done]. }
  constructor; cbn [conns posted workers acceptor in_run calls].
  - intros c' h' [(<- & <- & _)|[_ H']]%list_lookup_insert_Some; [done|by apply Hh in H'].
  - unfold jobs in *. cbn [posted workers]. rewrite <- app_assoc, (Permutation_app_comm (_ ≫= post_of c)), app_assoc, Hj.
    symmetry. rewrite <- (app_nil_r (gather _ _ (<[_ := _]> _))), (Permutation_app_comm (gather _ _ (conns s))).
    apply (gather_insert owed _ _ h); [done|]. cbn [Nat.add]. by rewrite Hn, Hw.
  - rewrite Hc, <- !(gather_bind answered _ 0), <- (app_nil_r (gather _ _ (<[_ := _]> _))). symmetry.
    apply (gather_insert (λ _, answered) _ _ h _ [] [] 0 El). by rewrite Ha, app_nil_r.
  - done.
Qed.

(** The job a thread has is the request its connection waits for. *)
Lemma job_owed s t c req :
  gw_inv s → workers s !! t = Some (Some (c, req)) → ∃ h, conns s !! c = Some h ∧ asked h = Some req.
Proof.
  intros [_ Hj _ _] Ht. assert (Hin : (c, req) ∈ gather owed 0 (conns s)).
  { rewrite <- Hj. unfold jobs. apply elem_of_app. right. apply list_elem_of_bind. exists (Some (c, req)).
    split; [by left|]. by eapply list_elem_of_lookup_2. }
  apply elem_of_gather in Hin as (i & h & Hi & Ho). unfold owed in Ho. destruct (asked h) eqn:E; [|by apply elem_of_nil in Ho].
  apply list_elem_of_singleton in Ho as [= -> ->]. by exists h.
Qed.

Lemma gw_return_inv t c req resp s s' :
  workers s !! t = Some (Some (c, req)) →
  conn_step c (EvHandled resp)
    (mkGw (conns s) (posted s) (<[t := None]> (workers s)) (acceptor s) (in_run s) ((req, resp) :: calls s)) = Some s' →
  gw_inv s → gw_inv s'.
Proof.
  intros Ht Hst Hinv. destruct (job_owed s t c req Hinv Ht) as (h & El & Has). destruct Hinv as [Hh Hj Hc Ho].
  unfold conn_step in Hst. cbn [conns] in Hst. rewrite El in Hst. cbn in Hst.
  destruct (http_step (h_conn h) _) as [r|] eqn:Er; [|done]. injection Hst as <-.
  destruct (Hh c h El) as [Hrun Hph].
  destruct (conn_step_hist c _ h _ r Hrun Hph Er eq_refl) as [Hi (req' & Has' & Hn & Ha & Hp)].
  rewrite Has in Has'. injection Has' as <-.
  constructor; cbn [conns posted workers acceptor in_run calls].
  - intros c' h' [(<- & <- & _)|[_ H']]%list_lookup_insert_Some; [done|by apply Hh in H'].
  - unfold jobs in *. cbn [posted workers]. rewrite Hp, app_nil_r.
    apply (Permutation_app_inv_r [(c, req)]). rewrite <- app_assoc.
    rewrite (workers_insert _ _ _ None Ht). cbn [option_list app]. rewrite Hj. symmetry.
    apply (gather_insert owed _ _ h _ [] [(c, req)] 0 El). unfold owed. by rewrite Has, Hn.
  - rewrite Hc, <- !(gather_bind answered _ 0), <- (app_nil_r (gather _ _ (<[_ := _]> _))). symmetry.
    apply (gather_insert (λ _, answered) _ _ h _ [(req, resp)] [] 0 El). rewrite Ha, app_nil_r. apply Permutation_app_comm.
  - done.
Qed.

Lemma gw_take_inv t i job s :
  workers s !! t = Some None → posted s !! i = Some job → gw_inv s →
  gw_inv (mkGw (conns s) (delete i (posted s)) (<[t := Some job]> (workers s)) (acceptor s) (in_run s) (calls s)).
Proof.
  intros Ht Hi [Hh Hj Hc Ho]. constructor; cbn [conns posted workers acceptor in_run calls]; try done.
  unfold jobs in *. cbn [posted workers]. rewrite <- Hj. pose proof (workers_insert _ _ _ (Some job) Ht) as Hw.
  cbn [option_list] in Hw. rewrite app_nil_r in Hw. rewrite Hw.
  change (option_list (Some job)) with [job]. cbn [app]. rewrite <- Permutation_middle, app_comm_cons. f_equiv. symmetry. by apply delete_Permutation.
Qed.

Lemma accept_inv err s : in_run s = true → gw_inv s → gw_inv (accept_step err s).
Proof.
  intros Hr [Hh Hj Hc Ho]. destruct err; cbn -[http_Start].
  { rewrite app_nil_r. by constructor. }
  constructor; cbn [conns posted workers acceptor in_run calls]; [| | |done].
  - intros c h [Hl|[_ Hl]]%lookup_app_Some; [by apply Hh in Hl|]. apply list_lookup_singleton_Some in Hl as [_ <-].
    split; [done|]. cbn. split; [by intros []|done].
  - rewrite gather_snoc. cbn. by rewrite app_nil_r.
  - rewrite bind_app. cbn. by rewrite app_nil_r.
Qed.

Lemma gw_step_inv e s s' : gw_step e s = Some (Ok s') → gw_inv s → gw_inv s'.
Proof.
  intros Hst Hinv. destruct e as [err|c r|c err|t i|t out|]; cbn [gw_step] in Hst.
  - destruct (in_run s) eqn:Er, (acceptor s); try done. injection Hst as <-. by apply accept_inv.
  - destruct (in_run s); [|done]. apply fmap_Some in Hst as (s1 & Hst & [= ->]). by eapply conn_step_inv in Hst.
  - destruct (in_run s); [|done]. apply fmap_Some in Hst as (s1 & Hst & [= ->]). by eapply conn_step_inv in Hst.
  - destruct (workers s !! t) as [[|]|] eqn:Et; [|cbn in Hst|done]; [cbn in Hst; by destruct (posted s !! i)|].
    destruct (posted s !! i) eqn:Ei; [|done]. injection Hst as <-. by apply gw_take_inv.
  - destruct (workers s !! t) as [[[c req]|]|] eqn:Et; [|done..]. cbn [mbind option_bind fst snd] in Hst.
    destruct out as [resp|e|u]; [|done..]. destruct (in_run s) eqn:Er; [|done].
    apply fmap_Some in Hst as (s1 & Hst & [= ->]). rewrite <- Er in Hst. by eapply gw_return_inv.
  - destruct (in_run s) eqn:Er, (loop_work s); try done. injection Hst as <-.
    destruct Hinv as [Hh Hj Hc Ho]. by constructor.
Qed.

Lemma gw_start_inv n : gw_inv (gw_start n).
Proof.
  constructor; cbn; [done| |done|done]. unfold jobs. cbn. induction n; cbn; [done|]. done.
Qed.

(** A property of the steps that do not end the process holds along runs. *)
Lemma gw_run_ind (R : gw_state → gw_state → Prop) :
  PreOrder R → (∀ e s s', gw_step e s = Some (Ok s') → R s s') → ∀ es s s', gw_run es s = Some (Ok s') → R s s'.
Proof.
  intros ? HR es. induction es as [|e es IH]; intros s s' Hr; cbn [gw_run] in Hr; [by injection Hr as <-|].
  destruct (gw_step e s) as [[s1|x|u]|] eqn:E; [| | |done]; cbn in Hr; [|by case_decide..].
  transitivity s1; eauto.
Qed.

Lemma gw_run_inv es s s' : gw_run es s = Some (Ok s') → gw_inv s → gw_inv s'.
Proof.
  revert es s s'. apply (gw_run_ind (λ s s', gw_inv s → gw_inv s')); [|exact gw_step_inv].
  split; [by intros ? ?|intros ? ? ?; tauto].
Qed.

(** *** The pool goes on *)

(** A thread takes a function, or its handler returns *)
Definition pool_ok (e : gw_ev) : Prop :=
  match e with GTake _ _ | GReturn _ (Ok _) => True | _ => False end.

Definition busy (s : gw_state) : nat := length (workers s ≫= option_list).

Definition pool_left (s : gw_state) : nat := (2 * length (posted s) + busy s)%nat.

Lemma busy_insert (ws : list (option task)) t w w' :
  ws !! t = Some w →
  (length (<[t := w']> ws ≫= option_list) + length (option_list w)
    = length (option_list w') + length (ws ≫= option_list))%nat.
Proof. intros Ht. rewrite <- !length_app. by apply Permutation_length, workers_insert. Qed.

Lemma pool_step_less e s s' :
  pool_ok e → gw_inv s → gw_step e s = Some (Ok s') →
  (S (pool_left s') <= pool_left s)%nat ∧ in_run s' = in_run s ∧ length (workers s') = length (workers s).
Proof.
  intros Hok Hinv Hst. unfold pool_left, busy. destruct e as [err|c r|c err|t i|t out|]; try done; cbn [gw_step] in Hst.
  - destruct (workers s !! t) as [[|]|] eqn:Et; [by cbn in Hst; destruct (posted s !! i)| |done].
    destruct (posted s !! i) as [job|] eqn:Ei; [|done]. injection Hst as <-. cbn [posted workers in_run].
    pose proof (busy_insert _ _ _ (Some job) Et) as Hb. cbn in Hb. rewrite length_delete by (by eexists).
    pose proof (lookup_lt_Some _ _ _ Ei). rewrite length_insert. split_and!; [lia|done..].
  - destruct out as [resp| |]; try done.
    destruct (workers s !! t) as [[[c req]|]|] eqn:Et; [|done..]. cbn [mbind option_bind fst snd] in Hst.
    destruct (job_owed s t c req Hinv Et) as (h & El & Has). destruct (gw_hist s Hinv c h El) as [_ Hph].
    destruct (in_run s) eqn:Er; [|done]. apply fmap_Some in Hst as (s1 & Hst & [= ->]).
    unfold conn_step in Hst. cbn [conns] in Hst. rewrite El in Hst. cbn in Hst. unfold http_step in Hst.
    rewrite (proj1 Hph) in Hst by (by eexists). injection Hst as <-. cbn [posted workers in_run].
    pose proof (busy_insert _ _ _ None Et) as Hb. cbn in Hb. rewrite length_app, length_insert. cbn. split_and!; [lia|done..].
Qed.

(** A thread that has a job can return from it. *)
Lemma busy_returns s t job resp :
  gw_inv s → in_run s = true → workers s !! t = Some (Some job) →
  ∃ s', gw_step (GReturn t (Ok resp)) s = Some (Ok s').
Proof.
  intros Hinv Hr Ht. destruct job as [c req]. destruct (job_owed s t c req Hinv Ht) as (h & El & Has).
  destruct (gw_hist s Hinv c h El) as [_ Hph]. cbn [gw_step]. rewrite Ht, Hr. cbn.
  unfold conn_step. cbn [conns]. rewrite El. cbn. unfold http_step. rewrite (proj1 Hph) by (by eexists). cbn. by eexists.
Qed.

Lemma pool_progress s resp :
  gw_inv s → in_run s = true → workers s ≠ [] → jobs s ≠ [] →
  ∃ e s', pool_ok e ∧ gw_step e s = Some (Ok s') ∧ ∀ t out, e = GReturn t out → out = Ok resp.
Proof.
  intros Hinv Hr Hw Hj. destruct (workers s ≫= option_list) as [|job l] eqn:Eb.
  - unfold jobs in Hj. rewrite Eb, app_nil_r in Hj. destruct (posted s) as [|job l] eqn:Ep; [done|].
    destruct (workers s) as [|w ws] eqn:Ew; [done|]. destruct w; [done|].
    eexists (GTake 0 0), _. split; [done|]. split; [cbn; by rewrite Ew, Ep|done].
  - assert (Hin : job ∈ workers s ≫= option_list) by (rewrite Eb; by left).
    apply list_elem_of_bind in Hin as (w & Hjob & Hin). apply list_elem_of_lookup in Hin as [t Ht].
    destruct w as [job'|]; [|by apply elem_of_nil in Hjob].
    destruct (busy_returns s t job' resp Hinv Hr Ht) as [s' E].
    exists (GReturn t (Ok resp)), s'. split_and!; [done|done|]. by intros ? ? [= _ <-].
Qed.

Lemma pool_run es : ∀ s s',
  gw_inv s → Forall pool_ok es → gw_run es s = Some (Ok s') →
  gw_inv s' ∧ in_run s' = in_run s ∧ length (workers s') = length (workers s)
  ∧ (length es + pool_left s' <= pool_left s)%nat.
Proof.
  induction es as [|e es IH]; intros s s' Hinv Hok Hr; cbn [gw_run] in Hr; [injection Hr as <-; cbn; split_and!; done|].
  inversion_clear Hok as [|?? He Hes].
  destruct (gw_step e s) as [[s1|x|u]|] eqn:E; [| | |done]; cbn in Hr; [|by case_decide..].
  destruct (pool_step_less _ _ _ He Hinv E) as (Hl & Hi & Hw).
  destruct (IH s1 s' (gw_step_inv _ _ _ E Hinv) Hes Hr) as (Hinv' & Hi' & Hw' & Hl').
  cbn [length]. split_and!; [done|congruence|congruence|lia].
Qed.

(** *** When the gateway ends *)

(** No accept fails and no handler throws *)
Definition tame (e : gw_ev) : Prop :=
  match e with GAccept true | GReturn _ (Throw _) | GReturn _ (UB _) => False | _ => True end.

Lemma conn_step_keeps c e s s' :
  conn_step c e s = Some s' →
  acceptor s' = acceptor s ∧ in_run s' = in_run s ∧ length (conns s') = length (conns s) ∧ length (workers s') = length (workers s).
Proof.
  unfold conn_step. destruct (conns s !! c); [|done]. cbn. destruct (http_step _ _); [|done].
  intros [= <-]. cbn. by rewrite length_insert.
Qed.

Lemma tame_step e s r :
  tame e → acceptor s = true → in_run s = true → gw_step e s = Some r →
  ∃ s', r = Ok s' ∧ acceptor s' = true ∧ in_run s' = true.
Proof.
  intros He Ha Hr Hst. destruct e as [[]|c x|c err|t i|t [resp| |]|]; try done; cbn [gw_step] in Hst; rewrite ?Hr, ?Ha in Hst.
  - injection Hst as <-. by eexists.
  - apply fmap_Some in Hst as (s1 & (E1 & E2 & _)%conn_step_keeps & ->). exists s1. by rewrite E1, E2.
  - apply fmap_Some in Hst as (s1 & (E1 & E2 & _)%conn_step_keeps & ->). exists s1. by rewrite E1, E2.
  - destruct (workers s !! t) as [[|]|]; [by cbn in Hst; destruct (posted s !! i)| |done].
    destruct (posted s !! i); [|done]. injection Hst as <-. by eexists.
  - destruct (workers s !! t) as [[job|]|]; [|done..]. cbn [mbind option_bind] in Hst.
    apply fmap_Some in Hst as (s1 & (E1 & E2 & _)%conn_step_keeps & ->). exists s1. by rewrite E1, E2.
  - unfold loop_work in Hst. by rewrite Ha in Hst.
Qed.

Lemma tame_run es : ∀ s r,
  Forall tame es → acceptor s = true → in_run s = true → gw_run es s = Some r →
  ∃ s', r = Ok s' ∧ acceptor s' = true ∧ in_run s' = true.
Proof.
  induction es as [|e es IH]; intros s r Ht Ha Hi Hr; cbn [gw_run] in Hr; [injection Hr as <-; by eexists|].
  inversion_clear Ht as [|?? He Hes]. destruct (gw_step e s) as [x|] eqn:E; [|done].
  destruct (tame_step _ _ _ He Ha Hi E) as (s1 & -> & Ha1 & Hi1). by eapply IH.
Qed.

(** Without an outstanding accept there is no other connection. *)
Lemma closed_step e s s' :
  acceptor s = false → gw_step e s = Some (Ok s') → acceptor s' = false ∧ length (conns s') = length (conns s).
Proof.
  intros Ha Hst. destruct e as [err|c x|c err|t i|t out|]; cbn [gw_step] in Hst.
  - by rewrite Ha, andb_false_r in Hst.
  - destruct (in_run s); [|done]. apply fmap_Some in Hst as (s1 & (E1 & _ & E2 & _)%conn_step_keeps & [= ->]). by rewrite E1, E2.
  - destruct (in_run s); [|done]. apply fmap_Some in Hst as (s1 & (E1 & _ & E2 & _)%conn_step_keeps & [= ->]). by rewrite E1, E2.
  - destruct (workers s !! t) as [[|]|]; [by cbn in Hst; destruct (posted s !! i)| |done].
    destruct (posted s !! i); [|done]. by injection Hst as <-.
  - destruct (workers s !! t) as [[job|]|]; [|done..]. cbn [mbind option_bind] in Hst.
    destruct out; [|done..]. destruct (in_run s); [|done].
    apply fmap_Some in Hst as (s1 & (E1 & _ & E2 & _)%conn_step_keeps & [= ->]). by rewrite E1, E2.
  - destruct (_ && _); [|done]. by injection Hst as <-.
Qed.

Lemma gw_run_app es es' : ∀ s s2,
  gw_run (es ++ es') s = Some (Ok s2) → ∃ s1, gw_run es s = Some (Ok s1) ∧ gw_run es' s1 = Some (Ok s2).
Proof.
  induction es as [|e es IH]; intros s s2 Hr; cbn [gw_run app] in *; [by eexists|].
  destruct (gw_step e s) as [[s1|x|u]|] eqn:E; [| | |done]; cbn in *; [by apply IH|by case_decide..].
Qed.

Lemma closed_run es s s' :
  gw_run es s = Some (Ok s') → acceptor s = false → acceptor s' = false ∧ length (conns s') = length (conns s).
Proof.
  revert es s s'. apply (gw_run_ind (λ s s', acceptor s = false → acceptor s' = false ∧ length (conns s') = length (conns s))).
  - split; [done|]. intros s1 s2 s3 H1 H2 H. destruct (H1 H) as [H' <-]. by apply H2.
  - intros e s s' Hst Ha. by eapply closed_step.
Qed.

Lemma gw_step_workers e s s' : gw_step e s = Some (Ok s') → length (workers s') = length (workers s).
Proof.
  intros Hst. destruct e as [err|c x|c err|t i|t out|]; cbn [gw_step] in Hst.
  - destruct (_ && _); [|done]. injection Hst as <-. by destruct err.
  - destruct (in_run s); [|done]. by apply fmap_Some in Hst as (s1 & (_ & _ & _ & E)%conn_step_keeps & [= ->]).
  - destruct (in_run s); [|done]. by apply fmap_Some in Hst as (s1 & (_ & _ & _ & E)%conn_step_keeps & [= ->]).
  - destruct (workers s !! t) as [[|]|]; [by cbn in Hst; destruct (posted s !! i)| |done].
    destruct (posted s !! i); [|done]. injection Hst as <-. cbn. by rewrite length_insert.
  - destruct (workers s !! t) as [[job|]|]; [|done..]. cbn [mbind option_bind] in Hst.
    destruct out; [|done..]. destruct (in_run s); [|done].
    apply fmap_Some in Hst as (s1 & (_ & _ & _ & Hw)%conn_step_keeps & [= ->]). rewrite Hw. cbn. by rewrite length_insert.
  - destruct (_ && _); [|done]. by injection Hst as <-.
Qed.

Lemma gw_run_workers es s s' : gw_run es s = Some (Ok s') → length (workers s') = length (workers s).
Proof.
  revert es s s'. apply (gw_run_ind (λ s s', length (workers s') = length (workers s))); [|exact gw_step_workers].
  split; [by intros ?|intros ? ? ?; congruence].
Qed.

(** ** Theorems *)

(** C8. Every connection of the gateway behaves as if it were alone: whatever the order in which
    the event loop and the threads of the pool work, each connection runs the protocol of
    one connection, requests and responses in turn; the pool holds a request of it exactly
    while it waits for the response, and never two, so no two threads use its socket; and
    the calls of the handler are, one for one, the requests of the connections with the
    responses that were written back to them. *)
Theorem pool_serves_connections n es s :
  gw_run es (gw_start n) = Some (Ok s) →
  (∀ c h, conns s !! c = Some h →
     http_run (http_Start HTTPConnection_new) (h_evs h) = Some (h_conn h, h_out h)
     ∧ alternates true (h_out h)
     ∧ ((∃ req, (c, req) ∈ jobs s) ↔ phase (h_conn h) = HHandling))
  ∧ NoDup (fst <$> jobs s)
  ∧ calls s ≡ₚ conns s ≫= answered.
Proof.
  intros Hr. pose proof (gw_run_inv es _ _ Hr (gw_start_inv n)) as [Hh Hj Hc _]. split_and!; [| |done].
  - intros c h Hl. destruct (Hh c h Hl) as [Hrun Hph]. split_and!; [done|exact (http_run_alternates _ _ _ _ Hrun)|].
    rewrite <- Hph. split.
    + intros (req & Hin). rewrite Hj in Hin. apply elem_of_gather in Hin as (i & h' & Hi & Ho). unfold owed in Ho.
      destruct (asked h') eqn:E; [|by apply elem_of_nil in Ho]. apply list_elem_of_singleton in Ho as [= -> ->].
      rewrite Hl in Hi. injection Hi as ->. by eexists.
    + intros [req E]. exists req. rewrite Hj. apply elem_of_gather. exists c, h. split; [done|]. unfold owed.
      rewrite E. by left.
  - rewrite Hj. apply owed_distinct.
Qed.

Definition pong (req : http_request) : http_response := reply_page 200 "text/html" req "pong".

Definition ping0 : http_request := mkRequest GET "/ping" 10 false "".

(** Two connections on two threads, answered in the other order *)
Definition demo_traffic : list gw_ev :=
  [GAccept false; GAccept false; GRead 0 (Some ping); GRead 1 (Some ping0); GTake 1 0; GTake 0 0;
   GReturn 0 (Ok (pong ping0)); GWrote 1 false; GReturn 1 (Ok (pong ping)); GRead 1 (Some ping)].

Lemma pool_serves_connections_witness :
  ∃ s, gw_run demo_traffic (gw_start 4) = Some (Ok s) ∧ (fst <$> jobs s) = [1%nat] ∧
  (∀ c h, conns s !! c = Some h →
     http_run (http_Start HTTPConnection_new) (h_evs h) = Some (h_conn h, h_out h)
     ∧ alternates true (h_out h)
     ∧ ((∃ req, (c, req) ∈ jobs s) ↔ phase (h_conn h) = HHandling))
  ∧ NoDup (fst <$> jobs s)
  ∧ calls s ≡ₚ conns s ≫= answered.
Proof.
  eexists. split; [vm_compute; reflexivity|]. split; [reflexivity|].
  apply (pool_serves_connections 4 demo_traffic). vm_compute. reflexivity.
Defined.

(** C19. Every posted request gets its response: while the event loop runs, the threads make at
    most two steps for each request in the pool, in whatever order, and as long as one is
    left a step is possible; so no connection is left waiting. *)
Theorem pool_answers_all n es s es' s' :
  (0 < n)%nat → gw_run es (gw_start n) = Some (Ok s) → in_run s = true →
  Forall pool_ok es' → gw_run es' s = Some (Ok s') →
  (length es' <= pool_left s)%nat
  ∧ ((∀ c h, conns s' !! c = Some h → phase (h_conn h) ≠ HHandling)
     ∨ ∀ resp, ∃ e s'', pool_ok e ∧ gw_step e s' = Some (Ok s'') ∧ ∀ t out, e = GReturn t out → out = Ok resp).
Proof.
  intros Hn Hr Hi Hok Hr'. pose proof (gw_run_inv es _ _ Hr (gw_start_inv n)) as Hinv.
  destruct (pool_run es' s s' Hinv Hok Hr') as (Hinv' & Hi' & Hw & Hl). split; [lia|].
  destruct (decide (jobs s' = [])) as [E|E].
  - left. intros c h Hc Hph. destruct (gw_hist s' Hinv' c h Hc) as [_ [_ H2]]. destruct (H2 Hph) as [req Ha].
    assert (Hin : (c, req) ∈ jobs s').
    { rewrite (gw_jobs s' Hinv'). apply elem_of_gather. exists c, h. split; [done|]. unfold owed. rewrite Ha. by left. }
    rewrite E in Hin. by apply elem_of_nil in Hin.
  - right. intros resp. apply pool_progress; [done|congruence| |done]. intros Ew.
    rewrite (gw_run_workers es _ _ Hr), Ew in Hw. cbn in Hw. rewrite length_replicate in Hw. lia.
Qed.

Lemma pool_answers_all_witness :
  ∃ s s', gw_run demo_traffic (gw_start 4) = Some (Ok s) ∧ gw_run [GTake 2 0; GReturn 2 (Ok (pong ping))] s = Some (Ok s')
    ∧ (2 <= pool_left s)%nat
    ∧ ((∀ c h, conns s' !! c = Some h → phase (h_conn h) ≠ HHandling)
       ∨ ∀ resp, ∃ e s'', pool_ok e ∧ gw_step e s' = Some (Ok s'') ∧ ∀ t out, e = GReturn t out → out = Ok resp).
Proof.
  eexists _, _. split; [vm_compute; reflexivity|]. split; [vm_compute; reflexivity|].
  apply (pool_answers_all 4 demo_traffic _ [GTake 2 0; GReturn 2 (Ok (pong ping))]);
    [lia|vm_compute; reflexivity|reflexivity|by repeat constructor|vm_compute; reflexivity].
Defined.

(** The gateway stays up: as long as no accept fails and no handler throws, no order of
    events ends the process, and it goes on accepting. *)
Theorem gateway_stays_up n es r :
  Forall tame es → gw_run es (gw_start n) = Some r →
  ∃ s, r = Ok s ∧ acceptor s = true ∧ in_run s = true ∧ gw_step GRunEnds s = None ∧ is_Some (gw_step (GAccept false) s).
Proof.
  intros Ht Hr. destruct (tame_run es (gw_start n) r Ht eq_refl eq_refl Hr) as (s & -> & Ha & Hi).
  exists s. cbn [gw_step]. unfold loop_work. rewrite Ha, Hi. split_and!; try done.
Qed.

Lemma gateway_stays_up_witness :
  ∃ s, gw_run demo_traffic (gw_start 4) = Some (Ok s) ∧ acceptor s = true ∧ gw_step GRunEnds s = None.
Proof.
  destruct (gateway_stays_up 4 demo_traffic (default (Throw (runtime_error "")) (gw_run demo_traffic (gw_start 4))))
    as (s & E & Ha & _ & Hn & _); [by repeat constructor|vm_compute; reflexivity|].
  exists s. split_and!; [rewrite <- E; vm_compute; reflexivity|done|done].
Defined.

(** One failed accept is final: no connection is accepted after it.  And when the connections
    that are left have no operation on the event loop, it returns although a request is
    being handled: [main] ends, and the response is written to a socket of the destroyed
    io_context. *)
Theorem accept_error_final n es es' s s' resp :
  gw_run (es ++ [GAccept true]) (gw_start n) = Some (Ok s) → gw_run es' s = Some (Ok s') →
  length (conns s') = length (conns s)
  ∧ gw_run [GAccept false; GRead 0 (Some ping); GTake 0 0; GAccept true; GRunEnds; GReturn 0 (Ok resp)] (gw_start 4)
    = Some (UB destroyed).
Proof.
  intros Hr Hr'. split; [|reflexivity]. apply gw_run_app in Hr as (s0 & _ & Hr). cbn [gw_run gw_step] in Hr.
  apply (closed_run es' s s' Hr'). destruct (_ && _); [|done]. by injection Hr as <-.
Qed.

Lemma accept_error_final_witness :
  ∃ s s', gw_run ([GAccept false] ++ [GAccept true]) (gw_start 4) = Some (Ok s) ∧ gw_run [GRead 0 (Some ping)] s = Some (Ok s')
    ∧ length (conns s') = length (conns s)
    ∧ gw_run [GAccept false; GRead 0 (Some ping); GTake 0 0; GAccept true; GRunEnds; GReturn 0 (Ok (pong ping))] (gw_start 4)
      = Some (UB destroyed).
Proof.
  eexists _, _. split; [vm_compute; reflexivity|]. split; [vm_compute; reflexivity|].
  by apply (accept_error_final 4 [GAccept false] [GRead 0 (Some ping)]); vm_compute.
Defined.

(** A Redis error during a login ends the gateway: behind the right password, an exception of
    the first Redis command leaves [LoginLogic], [RequestHandler] and the function in the
    pool, none of which catches it, and the process is terminated, with all other
    connections. *)
Theorem redis_error_ends_gateway {D Rd Sv J} `{!MySql D, !MySqlLaws D, C : Crypto, !CryptoLaws C, !RedisOps Rd, !GatewayRedis Rd, !MinimalRPC Sv, !JsonLib J}
    base64 junk (g : Gateway D Rd Sv) a rd env req name pass uid sv s addr e st t c :
  method req = POST → target req = "/login" → asks (J := J) req name pass →
  implements junk (dbm_ g) a → authentic a name pass = Some uid →
  g_redis_ g = mkMgr (Some rd) → (∀ k fs ttl, redis_hsetex rd k fs ttl = Throw e) →
  rpc_minimal (rpc_ g) = Ok (sv, s, addr) → rpc_ok s = true →
  workers st !! t = Some (Some (c, req)) →
  gw_step (GReturn t (RequestHandler (J := J) base64 false junk env req g).2) st = Some (Throw e).
Proof.
  intros Hm Ht (readed & Hp & Hc) Hi Hau Hr Hred Hrpc Hok Hw.
  assert (E : (RequestHandler (J := J) base64 false junk env req g).2 = Throw e); [|by rewrite E; cbn [gw_step]; rewrite Hw].
  unfold RequestHandler, PostHandler, LoginLogic. rewrite Hm, bool_decide_eq_true_2, Hp by done.
  rewrite (st_bind_Ok _ _ g g (Some (name, pass))) by (unfold st_res; by rewrite Hc).
  destruct (implements_verify junk (dbm_ g) a name pass 0 Hi) as (m' & c' & u & E & Hstep & Hi').
  rewrite (st_bind_Ok _ _ g (set_dbm g m') (c', u)) by (unfold on_dbm; by rewrite E). cbn [fst snd].
  unfold authentic in Hau. rewrite Hstep in Hau. destruct (c' =? GATEWAY_SUCCESS); [|done].
  unfold login_verified. set (g2 := set_rpc (set_dbm g m') sv).
  rewrite (st_bind_Ok _ _ _ g2 (s, addr)) by (unfold on_rpc; cbn [rpc_ set_dbm]; by rewrite Hrpc).
  cbn [fst snd]. rewrite Hok. cbn [negb]. unfold UpdateUserInfo, GetRedis_g, GetRedis, st_bind, st_res.
  change (g_redis_ g2) with (g_redis_ g). rewrite Hr. cbn [redis_]. by rewrite Hred.
Qed.

(** A Redis that does not answer *)
Definition redis_down : exn := runtime_error "Failed to get reply: Connection reset by peer".

#[local] Instance down_redis : RedisOps unit := {
  redis_get _ _ := Throw redis_down; redis_hget _ _ _ := Throw redis_down; redis_hsetex _ _ _ _ := Throw redis_down;
  redis_xadd _ _ _ _ := Throw redis_down; redis_pipeline _ _ := Throw redis_down
}.

#[local] Instance down_gateway : GatewayRedis unit := {
  redis_setex _ _ _ _ := Throw redis_down; redis_hexists _ _ _ := Throw redis_down; redis_hset _ _ _ := Throw redis_down;
  redis_pexpire _ _ _ := Throw redis_down; redis_script_load _ _ := Throw redis_down
}.

Definition down_demo : Gateway demo_db unit unit :=
  ReqHandler_new (demo_dbm {["bob" := (77, demo_hash)]}) (mkMgr (Some tt)) tt 0.

(** Another connection is being served when this happens. *)
Definition down_traffic : list gw_ev :=
  [GAccept false; GAccept false; GRead 0 (Some ping); GRead 1 (Some (demo_login "pw")); GTake 0 0; GTake 1 0].

Lemma redis_error_ends_gateway_witness :
  ∃ s, gw_run down_traffic (gw_start 4) = Some (Ok s)
    ∧ gw_step (GReturn 1 (RequestHandler (J := list (string * jval)) hex_upper false (λ _, []) demo_env (demo_login "pw") down_demo).2) s
      = Some (Throw redis_down).
Proof.
  eexists. split; [lazy; reflexivity|].
  eapply (redis_error_ends_gateway hex_upper (λ _, []) down_demo demo_accounts tt demo_env (demo_login "pw") "bob" "pw" 77 tt Status_OK
    "10.0.0.1:2000" redis_down _ 1 1); try reflexivity.
  - apply demo_asks. repeat constructor; done.
  - exact demo_implements.
Defined.

(** [Connection: close] is announced and not kept: the response to a request that asks for it
    says that the connection closes, and the connection goes on reading. *)
Theorem close_not_kept req resp :
  resp = pong req → keep_alive req = false →
  resp_keep_alive resp = false
  ∧ ∃ c, http_run (http_Start HTTPConnection_new) [EvRead (Some req); EvHandled resp; EvWrote false] = Some (c, [HPost req; HWrite resp])
      ∧ phase c = HReading ∧ shut c = false.
Proof. intros -> Hk. split; [done|]. eexists. by split_and!. Qed.

Lemma close_not_kept_witness :
  resp_keep_alive (pong ping0) = false
  ∧ ∃ c, http_run (http_Start HTTPConnection_new) [EvRead (Some ping0); EvHandled (pong ping0); EvWrote false]
        = Some (c, [HPost ping0; HWrite (pong ping0)])
      ∧ phase c = HReading ∧ shut c = false.
Proof. by apply (close_not_kept ping0 (pong ping0)). Defined.
