(* ===== verification/Client.v ===== *)
(** * The client (src/src/client/client_class.cpp, client_class.hpp, client_main.cpp)

    [AsyncClient] is one connection to a backend: its callbacks are functions on the state,
    [boost::asio::async_read] completes a read with exactly the bytes asked for or with an
    error, and [screen] is what was written to [cout].  [GatewayHelper] talks to the gateway
    through a transport: the argument [exchange] sends one request on a fresh connection and
    returns the status and body of the response.  The console is a string of characters. *)

From S2P Require Import Prelude Decimal CppString FieldOp MsgNode Session Gateway.
From Stdlib Require Import Ascii.

(** ** [AsyncClient] *)

Record AsyncClient := mkClient {
  recv_buf_ : MsgNode;
  cli_send_q_ : list MsgNode;
  cli_sending_ : option MsgNode;
  cli_running_ : bool;
  sock_open : bool;
  cli_reading : read_phase;
  screen : list string
}.

Definition set_recv_buf (c : AsyncClient) (m : MsgNode) : AsyncClient :=
  mkClient m (cli_send_q_ c) (cli_sending_ c) (cli_running_ c) (sock_open c) (cli_reading c) (screen c).

Definition set_cli_reading (c : AsyncClient) (r : read_phase) : AsyncClient :=
  mkClient (recv_buf_ c) (cli_send_q_ c) (cli_sending_ c) (cli_running_ c) (sock_open c) r (screen c).

Definition set_sock (c : AsyncClient) (running open : bool) : AsyncClient :=
  mkClient (recv_buf_ c) (cli_send_q_ c) (cli_sending_ c) running open (cli_reading c) (screen c).

Definition set_cli_queue (c : AsyncClient) (q : list MsgNode) (cur : option MsgNode) : AsyncClient :=
  mkClient (recv_buf_ c) q cur (cli_running_ c) (sock_open c) (cli_reading c) (screen c).

Definition show (c : AsyncClient) (lines : list string) : AsyncClient :=
  mkClient (recv_buf_ c) (cli_send_q_ c) (cli_sending_ c) (cli_running_ c) (sock_open c) (cli_reading c)
    (screen c ++ lines).

Section client.
Context (host : byte_order) (junk : nat → Z).

Definition AsyncClient_new : AsyncClient :=
  mkClient (MsgNode_sized junk 1024) [] None false false RNone [].

Definition cli_Close (c : AsyncClient) : AsyncClient :=
  if cli_running_ c then set_sock c false false else c.

Definition Running (c : AsyncClient) : bool := cli_running_ c.

Definition cli_ReceiveHead (c : AsyncClient) : AsyncClient := set_cli_reading c RHead.

Definition cli_ReceiveContent (c : AsyncClient) : AsyncClient := set_cli_reading c RContent.

Definition Receiver (c : AsyncClient) : AsyncClient :=
  if cur_pos_ (recv_buf_ c) <? HEAD_LEN then cli_ReceiveHead c else cli_ReceiveContent c.

(** The worker thread starts here *)
Definition ConnectedHandler (c : AsyncClient) : AsyncClient := set_sock c true (sock_open c).

(** The completion of [async_connect] in [Start]; the error code is not looked at *)
Definition on_connected (c : AsyncClient) (err : bool) : AsyncClient :=
  Receiver (ConnectedHandler (set_sock c (cli_running_ c) (negb err))).

Definition cli_ReceiveHandler (c : AsyncClient) (len tag : Z) : res AsyncClient :=
  b ← block (recv_buf_ c);
  content ← memcpy_from b (Z.to_nat HEAD_LEN) (Z.to_nat (ctx_len_ (recv_buf_ c)));
  let content := string_of_bytes content in
  if tag =? tag_value VERIFY_DONE then Ok (show c ["Verify done: " +:+ content])
  else if tag =? tag_value CHAT_MSG_TOCLI then
    data ← GetContent (recv_buf_ c);
    from_uid ← ReadNetField64 host data 0;
    text ← substr content 8 (String.length content);
    Ok (show c ["From UID:" +:+ to_string from_uid; text])
  else Ok c.

(** The size of the buffer given to the outstanding read *)
Definition cli_want (c : AsyncClient) : nat :=
  match cli_reading c with
  | RNone => 0
  | RHead => Z.to_nat (u32 (HEAD_LEN - cur_pos_ (recv_buf_ c)))
  | RContent => Z.to_nat (u32 (ctx_len_ (recv_buf_ c) + HEAD_LEN - cur_pos_ (recv_buf_ c)))
  end.

Definition cli_head_cb (c : AsyncClient) (r : read_result) : res AsyncClient :=
  match r with
  | REof | RError => Ok (cli_Close (set_cli_reading c RNone))
  | RData bs =>
      m ← fill (recv_buf_ c) bs;
      let c := set_cli_reading c RNone in
      let m := advance m bs in
      if HEAD_LEN <=? cur_pos_ m then
        r ← UpdateContentLenField host m;
        let '(content_len, m) := r in
        if MAX_CTX_LEN <? content_len then Ok (set_sock (set_recv_buf c m) (cli_running_ c) false)
        else
          m ← (if max_len_ m <? u32 (content_len + HEAD_LEN)
               then Reallocate junk m (u32 (content_len + HEAD_LEN)) else Ok m);
          Ok (cli_ReceiveContent (set_recv_buf c m))
      else Ok (cli_ReceiveHead (set_recv_buf c m))
  end.

Definition cli_content_cb (c : AsyncClient) (r : read_result) : res AsyncClient :=
  match r with
  | REof | RError => Ok (cli_Close (set_cli_reading c RNone))
  | RData bs =>
      m ← fill (recv_buf_ c) bs;
      let m := advance m bs in
      let c := set_recv_buf (set_cli_reading c RNone) m in
      if u32 (ctx_len_ m + HEAD_LEN) <=? cur_pos_ m then
        tag ← GetTagField host m;
        c ← cli_ReceiveHandler c (ctx_len_ m) tag;
        Ok (cli_ReceiveHead (set_recv_buf c (Zero (recv_buf_ c))))
      else Ok (cli_ReceiveContent c)
  end.

(** The completion of the outstanding read *)
Definition cli_read (c : AsyncClient) (r : read_result) : res AsyncClient :=
  match cli_reading c with
  | RHead => cli_head_cb c r
  | RContent => cli_content_cb c r
  | RNone => Ok c
  end.

(** [async_read] on a stream: [n] reads, each of all the bytes it asks for *)
Fixpoint cli_deliver (n : nat) (c : AsyncClient) (stream : list Z) : res (AsyncClient * list Z) :=
  match n with
  | O => Ok (c, stream)
  | S n' =>
      let k := cli_want c in
      c' ← cli_read c (RData (take k stream));
      cli_deliver n' c' (drop k stream)
  end.

(** *** Sending *)

Definition cli_Send (c : AsyncClient) (msg : list Z) (msg_len tag : Z) : res AsyncClient :=
  send_msg ← MsgNode_of host junk msg msg_len tag;
  Ok (set_cli_queue c (cli_send_q_ c ++ [send_msg]) (cli_sending_ c)).

(** The bytes given to [boost::asio::write] *)
Definition cli_write_bytes (m : MsgNode) : res (list Z) :=
  b ← block m;
  memcpy_from b 0 (Z.to_nat (u32 (ctx_len_ m + HEAD_LEN))).

(** One round of [WorkerFn]: [None] when it waits or ends, else the bytes it wrote;
    [ec] is the error code of the write *)
Definition WorkerFn (c : AsyncClient) (ec : bool) : res (AsyncClient * option (list Z)) :=
  if cli_running_ c then
    match cli_send_q_ c with
    | [] => Ok (c, None)
    | m :: q =>
        let c := set_cli_queue c q (Some m) in
        bs ← cli_write_bytes m;
        if ec then Ok (cli_Close c, None) else Ok (c, Some bs)
    end
  else Ok (c, None).

Context {J : Type} `{!JsonLib J}.

Definition verify_text (uid : Z) (token : string) : string := jwrite [("uid", JUInt uid); ("token", JStr token)].

Definition cli_Verify (c : AsyncClient) (uid : Z) (token : string) : res AsyncClient :=
  let msg := bytes_of_string (verify_text uid token) in
  cli_Send c msg (u32 (Z.of_nat (length msg))) (tag_value VERIFY).

(** ** [GatewayHelper] *)

Section helper.
Context {S : Type} (exchange : string → string → st S (Z * string)).   (* target, body *)
Open Scope cpp_scope.

Definition wait_time : list Z := [1; 1; 2; 3].

(** The retry loop: the seconds slept, and the response that ended it, if any did *)
Fixpoint login_retry (waits : list Z) (text : string) : st S (list Z * option (Z * string)) :=
  match waits with
  | [] => st_ret ([], None)
  | t :: waits' =>
      resp <- exchange "/login" text ;;
      if resp.1 =? 200 then st_ret ([t], Some resp)
      else if resp.1 =? 409 then
        r <- login_retry waits' text ;;
        st_ret (t :: r.1, r.2)
      else st_ret ([t], Some resp)
  end.

Record login_data := mkLoginData { ld_token : string; ld_server_addr : string; ld_uid : Z }.

(** Reading the three fields; [None] when one of them throws *)
Definition read_login (readed : J) : res (option login_data) :=
  match jstring readed "token", jstring readed "server_addr", juint64 readed "uid" with
  | UB w, _, _ => UB w
  | Throw _, _, _ => Ok None
  | Ok _, UB w, _ => UB w
  | Ok _, Throw _, _ => Ok None
  | Ok _, Ok _, UB w => UB w
  | Ok _, Ok _, Throw _ => Ok None
  | Ok t, Ok a, Ok u => Ok (Some (mkLoginData t a u))
  end.

Definition parse_login (text : string) : res (option login_data) :=
  match jparse text with None => Ok None | Some readed => read_login readed end.

Definition credentials (username passcode : string) : string :=
  jwrite [("username", JStr username); ("passcode", JStr passcode)].

(** The seconds slept, and the login data when the call returns [true] *)
Definition Login (username passcode : string) : st S (list Z * option login_data) :=
  let text := credentials username passcode in
  resp <- exchange "/login" text ;;
  if resp.1 =? 200 then d <- st_res (parse_login resp.2) ;; st_ret ([], d)
  else if resp.1 =? 409 then
    r <- login_retry wait_time text ;;
    match r.2 with
    | Some resp =>
        if resp.1 =? 200 then d <- st_res (parse_login resp.2) ;; st_ret (r.1, d)
        else st_ret (r.1, None)
    | None => st_ret (r.1, None)
    end
  else st_ret ([], None).

Definition Register (username passcode : string) : st S bool :=
  resp <- exchange "/register" (credentials username passcode) ;;
  st_ret (resp.1 =? 200).
End helper.
End client.

(** ** The console ([main]) *)

(** [server_addr] as host and port *)
Definition split_addr (server_addr : string) : res (option (string * string)) :=
  match find_char ":"%char server_addr with
  | Some pos =>
      h ← substr server_addr 0 pos;
      p ← substr server_addr (S pos) (String.length server_addr);
      Ok (Some (h, p))
  | None => Ok None
  end.

(** The loop that splits the arguments at spaces; an empty last piece is dropped.  The loop
    runs at most once per character. *)
Fixpoint split_args (fuel : nat) (arg_str : string) : list string :=
  match fuel with
  | O => []
  | S fuel' =>
      match find_char " "%char arg_str with
      | Some e => str_take e arg_str :: split_args fuel' (str_drop (S e) arg_str)
      | None => if bool_decide (arg_str = "") then [] else [arg_str]
      end
  end.

(** A line that starts with a backslash: the command and its arguments *)
Definition split_command (line : string) : string * list string :=
  match find_char " "%char line with
  | Some sep =>
      let arg_str := str_drop (S sep) line in
      (str_drop 1 (str_take sep line), split_args (S (String.length arg_str)) arg_str)
  | None => (str_drop 1 line, [])
  end.

(** What a line makes the client do *)
Inductive line_act :=
  | ActNone                                     (* an empty line *)
  | ActClosed                                   (* the connection is gone *)
  | ActUsage | ActUnknown (command : string) | ActBadUid (arg : string)
  | ActExit
  | ActSend (msg : list Z) (tag : TagType).

(** [WriteNetField64] into a zeroed string, and the text behind it *)
Definition chat_data (host : byte_order) (whom_uid : Z) (text : string) : res (list Z) :=
  let msg_data := replicate (String.length text + 8) 0 in
  b ← WriteNetField64 host msg_data 0 whom_uid;
  memcpy_to b 8 (bytes_of_string text).

Definition line_action (host : byte_order) (running : bool) (line : string) : res line_act :=
  match line with
  | EmptyString => Ok ActNone
  | String c _ =>
      if negb running then Ok ActClosed
      else if decide (c = "\"%char) then
        let '(command, args) := split_command line in
        if bool_decide (command = "send") then
          match args with
          | [whom; text] =>
              match stoull whom with
              | Ok whom_uid => msg ← chat_data host whom_uid text; Ok (ActSend msg CHAT_MSG)
              | Throw _ => Ok (ActBadUid whom)
              | UB w => UB w
              end
          | _ => Ok ActUsage
          end
        else if bool_decide (command = "exit") then Ok ActExit
        else Ok (ActUnknown command)
      else Ok (ActSend (bytes_of_string line) DEBUG)
  end.

(** [cin.getline(inp, 255)]: the stored line, the rest of the input and the fail bit *)
Fixpoint getline (room : nat) (inp : string) : string * string * bool :=
  match inp with
  | EmptyString => ("", "", false)                  (* end of file after some characters *)
  | String c inp' =>
      if decide (c = char_of 10) then ("", inp', false)
      else match room with
           | O => ("", inp, true)                   (* no room for the character *)
           | S room' => let '(l, rest, f) := getline room' inp' in (String c l, rest, f)
           end
  end.

Record console := mkConsole { input : string; failbit : bool }.

(** [strlen]: the characters before the first null one *)
Fixpoint upto_nul (s : string) : string :=
  match s with
  | EmptyString => EmptyString
  | String c s' => if decide (c = char_of 0) then EmptyString else String c (upto_nul s')
  end.

(** [cin.getline(inp, 255); end_pos = strlen(inp)] *)
Definition read_line (k : console) : string * console :=
  if failbit k then ("", k)
  else match input k with
       | EmptyString => ("", mkConsole "" true)
       | inp => let '(l, rest, f) := getline 254 inp in (upto_nul l, mkConsole rest f)
       end.

(** One round of the loop of [main]: the new states, or [None] when the loop ends *)
Definition main_round (host : byte_order) (junk : nat → Z) (k : console) (c : AsyncClient) :
    res (console * option AsyncClient) :=
  let '(line, k) := read_line k in
  act ← line_action host (Running c) line;
  match act with
  | ActNone => Ok (k, Some c)
  | ActClosed => Ok (k, None)
  | ActUsage | ActUnknown _ | ActBadUid _ => Ok (k, Some c)
  | ActExit => Ok (k, None)
  | ActSend msg tag => c' ← cli_Send host junk c msg (u32 (Z.of_nat (length msg))) (tag_value tag); Ok (k, Some c')
  end.
