(* ===== verification/ClientThreads.v ===== *)
(** * The client's worker among the other threads (src/src/client/client_class.cpp)

    [Send] is called by the console and by the heartbeat, [Close] by the console, by the
    callbacks of the socket and by the worker itself; the worker sleeps on [cv_].  [Send] is
    one step, for it holds [mtx_] throughout.  [Close] holds no lock: clearing the flag and
    [notify_all] are two steps, and other threads run in between.  The worker's points are
    those at which it has just read [running_], taken or given up the lock, or written. *)

From S2P Require Import Prelude FieldOp MsgNode Session Client.

Inductive cw_pc :=
  | CTop                        (* while (running_) *)
  | CGet                        (* waits for the lock *)
  | CLocked                     (* has it: while (running_ && send_q_.empty()) *)
  | CTested                     (* has it: about to call cv_.wait *)
  | CSleep                      (* in cv_.wait, the lock given up *)
  | CChecked                    (* has it, behind the inner loop *)
  | CWrite (m : MsgNode)        (* the lock given up, writing *)
  | CExit.

#[global] Instance MsgNode_eq_dec : EqDecision MsgNode.
Proof. solve_decision. Defined.

#[global] Instance cw_pc_eq_dec : EqDecision cw_pc.
Proof. solve_decision. Defined.

(** [closing]: calls of [Close] between their two steps.  The last three are history: what
    was given to [Send], written, and lost by a failed write. *)
Record cli_threads := mkCT {
  ct_client : AsyncClient;
  ct_pc : cw_pc;
  closing : nat;
  sent : list MsgNode;
  wrote : list MsgNode;
  failed : list MsgNode
}.

Definition at_pc (pc : cw_pc) (s : cli_threads) : cli_threads := mkCT (ct_client s) pc (closing s) (sent s) (wrote s) (failed s).

Definition has_lock (pc : cw_pc) : bool := match pc with CLocked | CTested | CChecked => true | _ => false end.

(** [notify_one] and [notify_all] do the same to the one thread that ever waits *)
Definition notify (s : cli_threads) : cli_threads := if decide (ct_pc s = CSleep) then at_pc CGet s else s.

(** One step of the worker; [ec] is the error code of the write; [None] while it sleeps and
    after its end *)
Definition cw_step (ec : bool) (s : cli_threads) : res (option cli_threads) :=
  let c := ct_client s in
  match ct_pc s with
  | CTop => Ok (Some (at_pc (if cli_running_ c then CGet else CExit) s))
  | CGet => Ok (Some (at_pc CLocked s))
  | CLocked =>
      Ok (Some (at_pc (if cli_running_ c && bool_decide (cli_send_q_ c = []) then CTested else CChecked) s))
  | CTested => Ok (Some (at_pc CSleep s))
  | CChecked =>
      if negb (cli_running_ c) then Ok (Some (at_pc CExit s))
      else match cli_send_q_ c with
           | [] => UB out_of_bounds
           | m :: q => Ok (Some (mkCT (set_cli_queue c q (Some m)) (CWrite m) (closing s) (sent s) (wrote s) (failed s)))
           end
  | CWrite m =>
      if ec then Ok (Some (mkCT (cli_Close c) CExit (closing s) (sent s) (wrote s) (failed s ++ [m])))
      else Ok (Some (mkCT c CTop (closing s) (sent s) (wrote s ++ [m]) (failed s)))
  | CSleep | CExit => Ok None
  end.

(** [Send], with the node made before the lock is taken *)
Definition cli_push (c : AsyncClient) (m : MsgNode) : AsyncClient := set_cli_queue c (cli_send_q_ c ++ [m]) (cli_sending_ c).

Definition send_locked (m : MsgNode) (s : cli_threads) : cli_threads :=
  let s' := mkCT (cli_push (ct_client s) m) (ct_pc s) (closing s) (sent s ++ [m]) (wrote s) (failed s) in
  if (length (cli_send_q_ (ct_client s')) =? 1)%nat then notify s' else s'.

(** [running_.exchange(false)] with [sock_.close()] *)
Definition close_flag (s : cli_threads) : cli_threads :=
  mkCT (cli_Close (ct_client s)) (ct_pc s) (if cli_running_ (ct_client s) then S (closing s) else closing s)
    (sent s) (wrote s) (failed s).

Inductive cli_ev := EWorker (ec : bool) | ESend (m : MsgNode) | EClose | ENotify | ESpurious.

(** [Ok None]: the event cannot happen now *)
Definition ct_step (e : cli_ev) (s : cli_threads) : res (option cli_threads) :=
  match e with
  | EWorker ec => cw_step ec s
  | ESend m => Ok (if has_lock (ct_pc s) then None else Some (send_locked m s))
  | EClose => Ok (Some (close_flag s))
  | ENotify =>
      match closing s with
      | O => Ok None
      | S n => Ok (Some (notify (mkCT (ct_client s) (ct_pc s) n (sent s) (wrote s) (failed s))))
      end
  | ESpurious => Ok (if decide (ct_pc s = CSleep) then Some (at_pc CGet s) else None)
  end.

(** The worker starts in [ConnectedHandler]; messages may be queued already *)
Definition ct_start (c : AsyncClient) : cli_threads := mkCT (ConnectedHandler c) CTop 0 (cli_send_q_ c) [] [].

Inductive ct_reach (s0 : cli_threads) : cli_threads → Prop :=
  | ct_here : ct_reach s0 s0
  | ct_next e s s' : ct_reach s0 s → ct_step e s = Ok (Some s') → ct_reach s0 s'.

Fixpoint ct_run (es : list cli_ev) (s : cli_threads) : res (option cli_threads) :=
  match es with
  | [] => Ok (Some s)
  | e :: es' => r ← ct_step e s; match r with Some s' => ct_run es' s' | None => Ok None end
  end.

(** The worker alone, without errors *)
Definition worker_alone (n : nat) : list cli_ev := replicate n (EWorker false).

(** [WorkerJoin]: it returns when the worker has ended *)
Definition WorkerJoin (s : cli_threads) : res unit := if decide (ct_pc s = CExit) then Ok tt else UB blocked.

(** A pass of the worker that nobody disturbs is one round of [WorkerFn] as Client.v has it. *)
Lemma worker_round c k se wr fa m q c' bs :
  cli_running_ c = true → cli_send_q_ c = m :: q → WorkerFn c false = Ok (c', Some bs) →
  ct_run (worker_alone 5) (mkCT c CTop k se wr fa) = Ok (Some (mkCT c' CTop k se (wr ++ [m]) fa)) ∧ cli_write_bytes m = Ok bs.
Proof.
  intros Hr Hq. unfold WorkerFn. rewrite Hr, Hq. destruct (cli_write_bytes m) as [bs'| |]; [|done..]. intros [= <- <-].
  split; [|done]. cbn. rewrite Hr. cbn. rewrite Hr, Hq. cbn. rewrite Hr, Hq. done.
Qed.

(** [Send] puts the node it makes at the end of the queue. *)
Lemma cli_Send_push host junk c msg len tag c' :
  cli_Send host junk c msg len tag = Ok c' → ∃ m, MsgNode_of host junk msg len tag = Ok m ∧ c' = cli_push c m.
Proof. unfold cli_Send. destruct (MsgNode_of host junk msg len tag) as [m| |]; [|done..]. intros [= <-]. by exists m. Qed.

(** ** The invariant *)

(** The message the worker has in hand *)
Definition in_hand (pc : cw_pc) : list MsgNode := match pc with CWrite m => [m] | _ => [] end.

Definition queue_of (s : cli_threads) : list MsgNode := cli_send_q_ (ct_client s).

(** About to sleep or sleeping *)
Definition idle (pc : cw_pc) : bool := match pc with CTested | CSleep => true | _ => false end.

Record ct_inv (s : cli_threads) : Prop := {
  ct_account : sent s = wrote s ++ failed s ++ in_hand (ct_pc s) ++ queue_of s;
  ct_idle : idle (ct_pc s) = true → queue_of s = [];
  ct_checked : ct_pc s = CChecked → cli_running_ (ct_client s) = true → queue_of s ≠ [];
  ct_failed : ct_pc s = CExit ∨ failed s = [];
  ct_one : (length (failed s) <= 1)%nat
}.

Lemma ct_inv_start c : ct_inv (ct_start c).
Proof. split; cbn; auto; naive_solver. Qed.

Lemma at_pc_inv s pc :
  ct_inv s → in_hand pc = in_hand (ct_pc s) → (idle pc = true → queue_of s = []) →
  (pc = CChecked → cli_running_ (ct_client s) = true → queue_of s ≠ []) → (pc = CExit ∨ failed s = []) → ct_inv (at_pc pc s).
Proof. intros [Ha _ _ _ Ho] Hp Hi Hc Hf. split; try done. cbn. by rewrite Hp. Qed.

(** Waking the worker is always in order. *)
Lemma notify_inv s : ct_inv s → ct_inv (notify s).
Proof.
  intros Hs. unfold notify. destruct (decide (ct_pc s = CSleep)) as [E|]; [|done].
  apply at_pc_inv; [done|by rewrite E|done|done|]. right. by destruct (ct_failed s Hs) as [E'|]; [rewrite E in E'|].
Qed.

Lemma send_locked_inv m s : has_lock (ct_pc s) = false → ct_inv s → ct_inv (send_locked m s).
Proof.
  intros Hl [Ha Hi Hc Hf Ho]. unfold send_locked, queue_of in *. cbn [ct_client cli_push set_cli_queue cli_send_q_].
  set (s' := mkCT (cli_push (ct_client s) m) (ct_pc s) (closing s) (sent s ++ [m]) (wrote s) (failed s)).
  assert (Hacc : sent s' = wrote s' ++ failed s' ++ in_hand (ct_pc s') ++ queue_of s').
  { unfold queue_of. cbn. rewrite Ha, <- !app_assoc. done. }
  destruct (decide (ct_pc s = CSleep)) as [E|E].
  - rewrite (Hi ltac:(by rewrite E)). cbn [length app Nat.eqb]. unfold notify. cbn [ct_pc s']. rewrite decide_True by done.
    split; [|done|done| |done]; [by cbn in *; rewrite E in Hacc|]. right. by destruct Hf as [E'|]; [rewrite E in E'|].
  - assert (Hn : notify s' = s') by (unfold notify; cbn [ct_pc s']; by rewrite decide_False).
    rewrite Hn. clear Hn. assert (Hinv : ct_inv s'); [|by destruct (_ =? 1)%nat].
    split; try done; cbn; intros Hp; destruct (ct_pc s); done.
Qed.

Lemma close_flag_inv s : ct_inv s → ct_inv (close_flag s).
Proof.
  intros [Ha Hi Hc Hf Ho]. unfold close_flag, cli_Close, queue_of in *.
  destruct (cli_running_ (ct_client s)) eqn:E; split; try done. cbn in *. rewrite E. done.
Qed.

(** The worker never takes from an empty queue. *)
Lemma cw_step_inv ec s :
  ct_inv s → match cw_step ec s with Ok (Some s') => ct_inv s' | Ok None => True | _ => False end.
Proof.
  intros Hs. pose proof Hs as [Ha Hi Hc Hf Ho]. unfold cw_step. revert Ha Hi Hc Hf.
  destruct (ct_pc s) as [| | | | | |m|] eqn:E; intros Ha Hi Hc Hf; try done; (destruct Hf as [|Hf]; [done|]).
  - apply at_pc_inv; rewrite ?E; auto; by destruct (cli_running_ _).
  - by apply at_pc_inv; rewrite ?E; auto.
  - destruct (cli_running_ (ct_client s) && bool_decide _) eqn:Eb; apply at_pc_inv; rewrite ?E; auto; try done.
    + intros _. apply andb_prop in Eb as [_ Eb]. by apply bool_decide_eq_true_1 in Eb.
    + intros _ Hr. rewrite Hr in Eb. by apply bool_decide_eq_false_1 in Eb.
  - by apply at_pc_inv; rewrite ?E; auto.
  - destruct (cli_running_ (ct_client s)) eqn:Er; cbn [negb]; [|by apply at_pc_inv; rewrite ?E; auto].
    specialize (Hc eq_refl eq_refl). unfold queue_of in *. destruct (cli_send_q_ (ct_client s)) as [|m q] eqn:Eq; [done|].
    split; auto; done.
  - cbn in Ha. unfold queue_of in *. rewrite Hf in *. destruct ec; split; cbn; auto; try done.
    + rewrite Ha. unfold queue_of, cli_Close. cbn. by destruct (cli_running_ _).
    + rewrite Ha. unfold queue_of. cbn. by rewrite <- app_assoc.
Qed.

Lemma ct_step_inv e s s' : ct_inv s → ct_step e s = Ok (Some s') → ct_inv s'.
Proof.
  intros Hs. destruct e as [ec|m| | |]; cbn [ct_step].
  - intros E. pose proof (cw_step_inv ec s Hs) as H. by rewrite E in H.
  - destruct (has_lock (ct_pc s)) eqn:El; [done|]. intros [= <-]. by apply send_locked_inv.
  - intros [= <-]. by apply close_flag_inv.
  - destruct (closing s); [done|]. intros [= <-]. by apply notify_inv; destruct Hs.
  - destruct (decide _) as [E|]; [|done]. intros [= <-]. pose proof (notify_inv s Hs) as H. unfold notify in H.
    by rewrite decide_True in H.
Qed.

Lemma ct_reach_inv c s : ct_reach (ct_start c) s → ct_inv s.
Proof. induction 1; [apply ct_inv_start|]. eauto using ct_step_inv. Qed.

(** ** Closing *)

(** The flag is cleared, and the worker will see it or be woken *)
Definition will_end (s : cli_threads) : Prop :=
  cli_running_ (ct_client s) = false ∧ ct_pc s ≠ CTested ∧ (ct_pc s = CSleep → (0 < closing s)%nat).

Lemma cli_Close_idle c : cli_running_ c = false → cli_Close c = c.
Proof. intros E. unfold cli_Close. by rewrite E. Qed.

Lemma will_end_step e s s' : will_end s → ct_step e s = Ok (Some s') → will_end s'.
Proof.
  intros (Hr & Ht & Hc). destruct e as [ec|m| | |]; cbn [ct_step].
  - unfold cw_step. rewrite Hr. cbn [andb negb].
    destruct (ct_pc s) as [| | | | | |m|]; try destruct ec; try done; intros [= <-];
      rewrite ?cli_Close_idle by done; by split_and!.
  - destruct (has_lock (ct_pc s)); [done|]. intros [= <-]. unfold send_locked, notify. cbn [ct_client ct_pc].
    destruct (_ =? 1)%nat; [destruct (decide _)|]; by split_and!.
  - intros [= <-]. unfold close_flag. rewrite Hr, cli_Close_idle by done. by split_and!.
  - destruct (closing s) as [|n] eqn:En; [done|]. intros [= <-]. unfold notify. cbn [ct_pc].
    destruct (decide _); by split_and!.
  - destruct (decide _); [|done]. intros [= <-]. by split_and!.
Qed.

Lemma will_end_reach s s' : ct_reach s s' → will_end s → will_end s'.
Proof. induction 1; eauto using will_end_step. Qed.

(** A worker that is awake ends by itself. *)
Lemma awake_ends s :
  cli_running_ (ct_client s) = false → ct_pc s ≠ CTested → ct_pc s ≠ CSleep →
  ∃ n s', (n <= 3)%nat ∧ ct_run (worker_alone n) s = Ok (Some s') ∧ WorkerJoin s' = Ok tt.
Proof.
  intros Hr Ht Hs. destruct s as [c pc k se wr fa]. cbn in Hr, Ht, Hs.
  destruct pc; try done;
    [exists 1%nat|exists 3%nat|exists 2%nat|exists 1%nat|exists 2%nat|exists 0%nat];
    eexists; (split; [lia|]); cbn; rewrite ?Hr; cbn; rewrite ?Hr; cbn; rewrite ?Hr; by split.
Qed.

(** Asleep after [Close] is done *)
Definition stranded (s : cli_threads) : Prop :=
  ct_pc s = CSleep ∧ cli_running_ (ct_client s) = false ∧ closing s = 0%nat.

Definition no_wake (e : cli_ev) : Prop := match e with ESend _ | ESpurious => False | _ => True end.

Lemma stranded_step e s s' : stranded s → no_wake e → ct_step e s = Ok (Some s') → stranded s'.
Proof.
  intros (Hp & Hr & Hc) Hn. destruct e as [ec|m| | |]; try done; cbn [ct_step].
  - unfold cw_step. by rewrite Hp.
  - intros [= <-]. unfold close_flag. rewrite Hr, cli_Close_idle by done. done.
  - by rewrite Hc.
Qed.

(** ** Theorems *)

(** C20. The client's messages under threads: in every interleaving of senders, closers, worker and
    spurious wake-ups the worker never takes from an empty queue; what was sent is what was
    written, then the one message of a failed write, then the one in hand, then the queue, in
    this order; and while the connection runs a queued message never finds the worker
    asleep. *)
Theorem client_worker_fifo c s ec :
  ct_reach (ct_start c) s →
  (∀ w, cw_step ec s ≠ UB w)
  ∧ sent s = wrote s ++ failed s ++ in_hand (ct_pc s) ++ cli_send_q_ (ct_client s)
  ∧ (length (failed s) <= 1)%nat ∧ (failed s ≠ [] → ct_pc s = CExit)
  ∧ (cli_send_q_ (ct_client s) ≠ [] → ct_pc s = CExit ∨ ∃ s', cw_step ec s = Ok (Some s')).
Proof.
  intros Hr. pose proof (ct_reach_inv c s Hr) as Hs. pose proof (cw_step_inv ec s Hs) as Hw. pose proof Hs as [Ha Hi _ Hf Ho].
  split_and!; [|done|done|naive_solver|].
  - intros w E. by rewrite E in Hw.
  - intros Hq. destruct (decide (ct_pc s = CExit)) as [|He]; [by left|right].
    destruct (cw_step ec s) as [[s'|]| |] eqn:E; [by exists s'| |done..]. exfalso. revert E Hi He. unfold cw_step.
    destruct (ct_pc s); try done; try (destruct ec; done).
    + intros _ Hi _. by apply Hq, Hi.
    + destruct (negb _); [done|]. by destruct (cli_send_q_ _).
Qed.

(** C21. [Close] ends the worker: if the flag is not cleared just when the worker has found the
    queue empty and has not begun to wait, then once the call has notified, whatever happened
    meanwhile, the worker reaches its end after at most three more steps of its own, so
    [WorkerJoin] returns. *)
Theorem client_close_ends s s' :
  cli_running_ (ct_client s) = true → ct_pc s ≠ CTested → ct_reach (close_flag s) s' → closing s' = 0%nat →
  ∃ n s'', (n <= 3)%nat ∧ ct_run (worker_alone n) s' = Ok (Some s'') ∧ WorkerJoin s'' = Ok tt.
Proof.
  intros Hr Ht Hreach Hc. destruct (will_end_reach _ _ Hreach) as (Hr' & Ht' & Hs').
  - unfold close_flag, cli_Close. rewrite Hr. split_and!; [done|done|]. cbn. lia.
  - apply awake_ends; [done|done|]. intros E. specialize (Hs' E). lia.
Qed.

(** In that one case the wake-up is lost: [Close] takes no lock, so its notification can come
    before the wait; the worker then sleeps for ever, if nothing else is sent, and
    [WorkerJoin] does not return. *)
Theorem client_close_stranded s s' es :
  cli_running_ (ct_client s) = true → ct_pc s = CTested → closing s = 0%nat →
  ct_run [EClose; ENotify; EWorker false] s = Ok (Some s') → Forall no_wake es →
  stranded s' ∧ ∀ s'', ct_run es s' = Ok (Some s'') → stranded s'' ∧ WorkerJoin s'' = UB blocked.
Proof.
  intros Hr Hp Hc E Hes. assert (Hs : stranded s').
  { destruct s as [c pc k se wr fa]. cbn in Hr, Hp, Hc. subst pc k.
    cbn in E. unfold cli_Close in E. rewrite Hr in E. by injection E as <-. }
  split; [done|]. clear E. revert s' Hs. induction Hes as [|e es He _ IH]; intros s' Hs s''; cbn [ct_run].
  - intros [= <-]. split; [done|]. unfold WorkerJoin. destruct Hs as [-> _]. by rewrite decide_False.
  - destruct (ct_step e s') as [[s1|]| |] eqn:E1; cbn [mbind res_bind]; try done. apply IH. by eapply stranded_step.
Qed.

(** ** Witnesses *)

Section demo.
Definition demo_start : cli_threads := ct_start (AsyncClient_new (λ _, 0)).

(** The worker has found the queue empty *)
Definition demo_tested : cli_threads :=
  mkCT (ConnectedHandler (AsyncClient_new (λ _, 0))) CTested 0 [] [] [].

Definition demo_node : MsgNode := MsgNode_sized (λ _, 0) 16.

Definition demo_schedule : list cli_ev :=
  worker_alone 4 ++ [ESend demo_node; ESend demo_node] ++ worker_alone 4.

Definition demo_sending : cli_threads :=
  mkCT (set_cli_queue (ConnectedHandler (AsyncClient_new (λ _, 0))) [demo_node] (Some demo_node)) CTop 0 [demo_node; demo_node] [demo_node] [].

Lemma ct_reach_run es : ∀ s0 s s', ct_reach s0 s → ct_run es s = Ok (Some s') → ct_reach s0 s'.
Proof.
  induction es as [|e es IH]; intros s0 s s' Hr; cbn [ct_run]; [by intros [= <-]|].
  destruct (ct_step e s) as [[s1|]| |] eqn:E; cbn [mbind res_bind]; try done. apply IH. by eapply ct_next.
Qed.
End demo.

Lemma client_worker_fifo_witness :
  (∀ w, cw_step false demo_sending ≠ UB w)
  ∧ [demo_node; demo_node] = [demo_node] ++ [] ++ [] ++ [demo_node]
  ∧ (0 <= 1)%nat ∧ (failed demo_sending ≠ [] → ct_pc demo_sending = CExit)
  ∧ ([demo_node] ≠ [] → ct_pc demo_sending = CExit ∨ ∃ s', cw_step false demo_sending = Ok (Some s')).
Proof.
  apply (client_worker_fifo (AsyncClient_new (λ _, 0)) demo_sending false).
  apply (ct_reach_run demo_schedule _ demo_start); [apply ct_here|vm_compute; reflexivity].
Defined.

Lemma client_close_ends_witness :
  let s' := mkCT (cli_Close (ct_client demo_start)) CGet 0 [] [] [] in
  ∃ n s'', (n <= 3)%nat ∧ ct_run (worker_alone n) s' = Ok (Some s'') ∧ WorkerJoin s'' = Ok tt.
Proof.
  cbn zeta. apply (client_close_ends (at_pc CSleep demo_start)); [done|done| |done].
  apply (ct_reach_run [ENotify] _ (close_flag (at_pc CSleep demo_start))); [apply ct_here|vm_compute; reflexivity].
Defined.

Lemma client_close_stranded_witness :
  let s' := mkCT (cli_Close (ct_client demo_start)) CSleep 0 [] [] [] in
  ct_run (worker_alone 3) demo_start = Ok (Some demo_tested)
  ∧ stranded s' ∧ ∀ s'', ct_run [EClose] s' = Ok (Some s'') → stranded s'' ∧ WorkerJoin s'' = UB blocked.
Proof.
  cbn zeta. split; [vm_compute; reflexivity|].
  apply (client_close_stranded demo_tested); [done|done|done|vm_compute; reflexivity|by repeat constructor].
Defined.
