(* ===== verification/ClientFacts.v ===== *)
(** * Correctness of the client, and the way between client, gateway and backend
      (src/src/client/client_class.cpp, client_main.cpp)

    Reception and display of what a backend sends; what the client sends reaches the
    backend's session as the same messages; the login dialogue with the gateway; the
    commands of the console. *)

From S2P Require Import Prelude Decimal CppString FieldOp MsgNode Session SessionFacts Security Dbm DbmPool DbmFacts.
From S2P Require Import Snowflake RedisBase Timer Backend BackendFacts StatusService Gateway GatewayFacts TokenFacts Client.
From Stdlib Require Import Ascii.

(** ** Receiving one message *)

Section receive.
Context (host : byte_order) (junk : nat → Z).

(** Between two messages, with a header read outstanding *)
Definition listening (c : AsyncClient) : Prop :=
  cli_reading c = RHead ∧ node_wf (recv_buf_ c) ∧ cur_pos_ (recv_buf_ c) = 0
  ∧ INITIAL_NODE_SIZE <= max_len_ (recv_buf_ c).

(** What the user sees of a message *)
Definition display (m : Z * list Z) : list string :=
  if m.1 =? tag_value VERIFY_DONE then ["Verify done: " +:+ string_of_bytes m.2]
  else if m.1 =? tag_value CHAT_MSG_TOCLI then
    ["From UID:" +:+ to_string (be_value (take 8 m.2)); string_of_bytes (drop 8 m.2)]
  else [].

(** Messages the client can show: within the limit, chat messages with a sender *)
Definition showable (m : Z * list Z) : Prop :=
  msg_ok m ∧ (m.1 = tag_value CHAT_MSG_TOCLI → (8 <= length m.2)%nat).

Lemma string_of_bytes_app l k : string_of_bytes (l ++ k) = string_of_bytes l +:+ string_of_bytes k.
Proof. induction l as [|b l IH]; [done|]. cbn [app string_of_bytes]. by rewrite IH. Qed.

Lemma string_of_bytes_length l : String.length (string_of_bytes l) = length l.
Proof. induction l as [|b l IH]; [done|]. cbn. by rewrite IH. Qed.

(** [ReceiveHandler] on a buffer that starts with the frame of the message *)
Lemma cli_ReceiveHandler_Ok c m b :
  showable m → data_ (recv_buf_ c) = Some b → Forall is_byte b →
  ctx_len_ (recv_buf_ c) = Z.of_nat (length m.2) →
  take (8 + length m.2) b = frame m.1 m.2 →
  cli_ReceiveHandler host c (Z.of_nat (length m.2)) m.1 = Ok (show c (display m)).
Proof.
  intros [(Ht & Hb & Hmax) Hchat] Hd Hbytes Hctx Hfr.
  assert (Hlen : (8 + length m.2 <= length b)%nat).
  { apply (f_equal length) in Hfr. rewrite length_take, length_frame in Hfr.
    change (Z.to_nat HEAD_LEN) with 8%nat in Hfr. lia. }
  assert (Hcont : take (length m.2) (drop 8 b) = m.2).
  { rewrite take_drop_commute. replace (8 + length m.2)%nat with (8 + length m.2)%nat by done.
    rewrite Hfr. exact (frame_content m.1 m.2). }
  unfold cli_ReceiveHandler, block. rewrite Hd. cbn [mbind res_bind].
  rewrite Hctx, Nat2Z.id. change (Z.to_nat HEAD_LEN) with 8%nat.
  rewrite memcpy_from_Ok by lia. cbn [mbind res_bind]. rewrite Hcont. unfold display.
  case_if; [done|]. case_if; [|destruct c; unfold show; cbn; by rewrite app_nil_r].
  specialize (Hchat ltac:(done)). unfold GetContent, block. rewrite Hd. cbn [mbind res_bind].
  change (Z.to_nat HEAD_LEN) with 8%nat.
  rewrite ReadNetField64_Ok by (first [by apply Forall_drop | rewrite length_drop; lia]). cbn [mbind res_bind].
  rewrite drop_0. replace (take 8 (drop 8 b)) with (take 8 m.2)
    by (rewrite <- Hcont, take_take; f_equal; lia).
  assert (E8 : String.length (string_of_bytes (take 8 m.2)) = 8%nat) by (rewrite string_of_bytes_length, length_take; lia).
  assert (Hsub : substr (string_of_bytes m.2) 8 (String.length (string_of_bytes m.2)) = Ok (string_of_bytes (drop 8 m.2))).
  { pose proof (substr_rest (string_of_bytes (take 8 m.2)) (string_of_bytes (drop 8 m.2))
      (String.length (string_of_bytes m.2))) as Hr.
    rewrite E8, <- string_of_bytes_app, take_drop in Hr. apply Hr. rewrite !string_of_bytes_length, length_drop. lia. }
  by rewrite Hsub.
Qed.

(** The header read, then the content read *)
Lemma cli_head_Ok c m :
  listening c → msg_ok m →
  ∃ c1 b, cli_read host junk c (RData (take 8 (frame m.1 m.2))) = Ok c1
    ∧ cli_reading c1 = RContent ∧ node_wf (recv_buf_ c1) ∧ data_ (recv_buf_ c1) = Some b
    ∧ cur_pos_ (recv_buf_ c1) = 8 ∧ ctx_len_ (recv_buf_ c1) = Z.of_nat (length m.2)
    ∧ INITIAL_NODE_SIZE <= max_len_ (recv_buf_ c1) ∧ 8 + Z.of_nat (length m.2) <= max_len_ (recv_buf_ c1)
    ∧ take 8 b = take 8 (frame m.1 m.2)
    ∧ (cli_running_ c1, sock_open c1, cli_send_q_ c1, screen c1) = (cli_running_ c, sock_open c, cli_send_q_ c, screen c).
Proof.
  intros (Hph & Hwf & Hcur & Hcap) (Ht & Hb & Hmax). unfold INITIAL_NODE_SIZE, MAX_CTX_LEN in *.
  destruct (node_wf_data _ Hwf ltac:(lia)) as (b & Hd & Hbytes & Hl).
  pose proof (length_frame m.1 m.2) as Hfl. change (Z.to_nat HEAD_LEN) with 8%nat in Hfl.
  set (h := take 8 (frame m.1 m.2)). assert (Hh : length h = 8%nat) by (unfold h; rewrite length_take; lia).
  assert (Hhb : Forall is_byte h) by (by apply Forall_take, frame_byte).
  unfold cli_read, cli_head_cb. rewrite Hph. rewrite (fill_Ok _ b) by (done || lia). rewrite Hcur. change (Z.to_nat 0) with 0%nat.
  cbn [mbind res_bind]. set (b1 := splice b 0 h). assert (Hl1 : length b1 = length b) by (apply length_splice; lia).
  assert (Hb1 : Forall is_byte b1) by (by apply Forall_splice).
  assert (Ht1 : take 8 b1 = h).
  { pose proof (take_splice b h 0 ltac:(lia)) as E. rewrite Hh in E. exact E. }
  unfold advance, set_cur_pos, set_data. cbn [cur_pos_ data_ max_len_ ctx_len_]. rewrite Hcur, Hh.
  change (u32 (0 + Z.of_nat 8)) with 8. set (n := mkMsgNode (Some b1) 8 _ _).
  change (HEAD_LEN <=? cur_pos_ n) with true. cbn iota.
  rewrite (UpdateContentLenField_Ok host n b1) by (done || lia). cbn [mbind res_bind].
  destruct (field_of_prefix b1 h 8) as [Hf1 _]; [lia|done|].
  destruct (field_of_prefix (frame m.1 m.2) h 8) as [Hf2 _]; [lia|done|].
  rewrite Hf1, <- Hf2, frame_len by (unfold is_u32; lia). rewrite (proj2 (Z.ltb_ge _ _)) by (unfold MAX_CTX_LEN; lia).
  unfold HEAD_LEN, TAG_LEN, LENGTH_LEN. change (4 + 4) with 8. rewrite u32_id by (unfold is_u32; lia).
  pose proof Hwf as (Hu & _ & Hctx0 & _).
  destruct (make_room junk (set_ctx_len n (Z.of_nat (length m.2))) b1 (Z.of_nat (length m.2)))
    as (m' & E & Hwf2 & Hmx & Hfit & Hcur2 & Hctx2 & Htake).
  { apply set_ctx_len_wf; [|unfold is_u32; lia]. apply node_wf_mk; [done|unfold is_u32; lia|done|lia|done]. }
  { done. } { lia. } { unfold is_u32; lia. } { done. }
  rewrite E. cbn [mbind res_bind].
  assert (Hmax' : 1024 <= max_len_ m') by (cbn in Hmx; lia).
  destruct (node_wf_data m' Hwf2 ltac:(lia)) as (b' & Hd' & _ & _). rewrite Hd' in Htake. cbn [from_option id] in Htake.
  eexists _, b'. split; [reflexivity|]. cbn [cli_reading recv_buf_ cli_ReceiveContent set_cli_reading set_recv_buf].
  split_and!; try done; first [lia | by rewrite Htake].
Qed.

Lemma cli_content_Ok c1 m b :
  showable m → cli_reading c1 = RContent → node_wf (recv_buf_ c1) → data_ (recv_buf_ c1) = Some b →
  cur_pos_ (recv_buf_ c1) = 8 → ctx_len_ (recv_buf_ c1) = Z.of_nat (length m.2) →
  INITIAL_NODE_SIZE <= max_len_ (recv_buf_ c1) → 8 + Z.of_nat (length m.2) <= max_len_ (recv_buf_ c1) →
  take 8 b = take 8 (frame m.1 m.2) →
  ∃ c2, cli_read host junk c1 (RData m.2) = Ok c2 ∧ listening c2
    ∧ (cli_running_ c2, sock_open c2, cli_send_q_ c2, screen c2)
      = (cli_running_ c1, sock_open c1, cli_send_q_ c1, screen c1 ++ display m).
Proof.
  intros Hsh Hph Hwf Hd Hcur Hctx Hcap Hfit Ht8. pose proof Hsh as [(Ht & Hb & Hmax) _].
  destruct (node_wf_block _ b Hwf Hd) as [Hl Hbytes]. unfold INITIAL_NODE_SIZE, MAX_CTX_LEN in *.
  unfold cli_read, cli_content_cb. rewrite Hph, (fill_Ok _ b) by (done || lia). rewrite Hcur. change (Z.to_nat 8) with 8%nat.
  cbn [mbind res_bind]. set (b1 := splice b 8 m.2). assert (Hl1 : length b1 = length b) by (apply length_splice; lia).
  assert (Hb1 : Forall is_byte b1) by (by apply Forall_splice).
  assert (Hfr : take (8 + length m.2) b1 = frame m.1 m.2).
  { unfold b1. rewrite take_splice by lia. rewrite Ht8. rewrite <- (take_drop 8 (frame m.1 m.2)) at 2.
    by rewrite <- (frame_content m.1 m.2) at 1. }
  unfold advance, set_cur_pos, set_data. cbn [cur_pos_ data_ max_len_ ctx_len_]. rewrite Hcur, Hctx.
  rewrite !u32_id by (unfold is_u32, HEAD_LEN, TAG_LEN, LENGTH_LEN; lia).
  rewrite (proj2 (Z.leb_le _ _)) by (unfold HEAD_LEN, TAG_LEN, LENGTH_LEN; lia).
  set (n := mkMsgNode (Some b1) _ _ _).
  rewrite (GetTagField_Ok host n b1) by (done || lia). cbn [mbind res_bind].
  assert (Htag : be_value (take 4 b1) = m.1).
  { rewrite <- (frame_tag m.1 m.2 Ht), <- Hfr, take_take. by rewrite Nat.min_l by lia. }
  rewrite Htag, (cli_ReceiveHandler_Ok _ m b1) by done. cbn [mbind res_bind].
  eexists. split; [reflexivity|]. cbn. split; [|done].
  pose proof Hwf as (Hu & _). split_and!; cbn; try done. 
  apply node_wf_mk; [done|auto with chat|auto with chat|exact (eq_trans (f_equal Z.of_nat Hl1) Hl)|done].
Qed.

Lemma cli_message_Ok c m rest :
  listening c → showable m →
  ∃ c2, cli_deliver host junk 2 c (frame m.1 m.2 ++ rest) = Ok (c2, rest) ∧ listening c2
    ∧ (cli_running_ c2, sock_open c2, cli_send_q_ c2, screen c2)
      = (cli_running_ c, sock_open c, cli_send_q_ c, screen c ++ display m).
Proof.
  intros Hl Hsh. pose proof Hsh as [Hm _]. pose proof Hm as (_ & _ & Hmax). unfold MAX_CTX_LEN in Hmax.
  pose proof (length_frame m.1 m.2) as Hfl. change (Z.to_nat HEAD_LEN) with 8%nat in Hfl.
  destruct (cli_head_Ok c m Hl Hm) as (c1 & b & E1 & Hph & Hwf & Hd & Hcur & Hctx & Hcap & Hfit & Ht8 & Hrest).
  destruct (cli_content_Ok c1 m b) as (c2 & E2 & Hl2 & Hrest2); [done..|].
  exists c2. split; [|split; [done|congruence]].
  assert (Hw : cli_want c = 8%nat) by (destruct Hl as (Hp & _ & H0 & _); unfold cli_want; rewrite Hp, H0; reflexivity).
  assert (Hw1 : cli_want c1 = length m.2).
  { unfold cli_want. rewrite Hph, Hcur, Hctx. unfold HEAD_LEN, TAG_LEN, LENGTH_LEN.
    rewrite u32_id by (unfold is_u32; lia). lia. }
  cbn [cli_deliver]. rewrite Hw, (take_app_le (frame _ _)) by lia. rewrite E1. cbn [mbind res_bind].
  rewrite Hw1, (drop_app_le (frame _ _)) by lia. change 8%nat with (Z.to_nat HEAD_LEN). rewrite frame_content.
  rewrite take_app_length, E2. cbn [mbind res_bind]. by rewrite drop_app_length.
Qed.

Lemma cli_deliver_add n k c stream c1 stream1 :
  cli_deliver host junk n c stream = Ok (c1, stream1) →
  cli_deliver host junk (n + k) c stream = cli_deliver host junk k c1 stream1.
Proof.
  revert c stream; induction n as [|n IH]; intros c stream H; cbn [cli_deliver Nat.add] in *; [by inv_res|].
  inv_res. rewrite Hm. cbn [mbind res_bind]. by apply IH.
Qed.

Lemma cli_messages_Ok ms : ∀ c,
  listening c → Forall showable ms →
  ∃ c2, cli_deliver host junk (2 * length ms) c (wire ms) = Ok (c2, []) ∧ listening c2
    ∧ screen c2 = screen c ++ concat (display <$> ms).
Proof.
  induction ms as [|m ms IH]; intros c Hl Hms.
  { exists c. split_and!; [done|done|cbn; by rewrite app_nil_r]. }
  inversion_clear Hms as [|?? Hm Hms'].
  destruct (cli_message_Ok c m (wire ms) Hl Hm) as (c1 & E1 & Hl1 & Hs1).
  destruct (IH c1 Hl1 Hms') as (c2 & E2 & Hl2 & Hs2). exists c2.
  replace (2 * length (m :: ms))%nat with (2 + 2 * length ms)%nat by (cbn; lia).
  rewrite wire_cons, (cli_deliver_add _ _ _ _ _ _ E1). split_and!; [done|done|].
  rewrite Hs2. injection Hs1 as _ _ _ ->. cbn. by rewrite app_assoc.
Qed.
End receive.

(** ** Sending *)

Section send.
Context (host : byte_order) (junk : nat → Z).

(** Calls of [Send] with whole buffers, and rounds of the worker whose writes succeed *)
Fixpoint cli_sends (c : AsyncClient) (ms : list (Z * list Z)) : res AsyncClient :=
  match ms with
  | [] => Ok c
  | m :: ms' => c' ← cli_Send host junk c m.2 (Z.of_nat (length m.2)) m.1; cli_sends c' ms'
  end.

Fixpoint cli_work (n : nat) (c : AsyncClient) : res (AsyncClient * list Z) :=
  match n with
  | O => Ok (c, [])
  | S n' =>
      r ← WorkerFn c false;
      r' ← cli_work n' r.1;
      Ok (r'.1, default [] r.2 ++ r'.2)
  end.

Definition sendable (m : Z * list Z) : Prop := msg_ok m ∧ m.2 ≠ [].

(** The node of a message *)
Definition node_of (m : Z * list Z) : MsgNode :=
  mkMsgNode (Some (frame m.1 m.2)) 0 (Z.of_nat (length m.2)) (HEAD_LEN + Z.of_nat (length m.2)).

Lemma cli_sends_Ok ms : ∀ c, Forall sendable ms →
  cli_sends c ms = Ok (set_cli_queue c (cli_send_q_ c ++ (node_of <$> ms)) (cli_sending_ c)).
Proof.
  induction ms as [|m ms IH]; intros c Hms.
  { destruct c. unfold set_cli_queue. cbn. by rewrite app_nil_r. }
  inversion_clear Hms as [|?? Hm Hms']. destruct Hm as [(Ht & Hb & Hmax) Hne]. cbn [cli_sends]. unfold cli_Send. unfold MAX_CTX_LEN in Hmax.
  assert (0 < Z.of_nat (length m.2)) by (destruct m.2; [done|cbn; lia]).
  rewrite MsgNode_of_Ok by (first [done | lia | unfold HEAD_LEN, TAG_LEN, LENGTH_LEN; lia]). cbn [mbind res_bind].
  rewrite Nat2Z.id, take_ge by done. rewrite IH by done. unfold set_cli_queue. cbn. by rewrite <- app_assoc.
Qed.

Lemma cli_work_Ok ms : ∀ c, Forall sendable ms → cli_running_ c = true → cli_send_q_ c = node_of <$> ms →
  ∃ c', cli_work (length ms) c = Ok (c', wire ms) ∧ cli_send_q_ c' = [] ∧ cli_running_ c' = true.
Proof.
  induction ms as [|m ms IH]; intros c Hms Hr Hq; [by exists c|].
  inversion_clear Hms as [|?? Hm Hms']. destruct Hm as [(Ht & Hb & Hmax) Hne]. cbn [length cli_work]. unfold WorkerFn. rewrite Hr, Hq.
  cbn [fmap list_fmap]. unfold cli_write_bytes, block. cbn [data_ node_of mbind res_bind ctx_len_].
  unfold MAX_CTX_LEN in Hmax. pose proof (length_frame m.1 m.2) as Hfl. change (Z.to_nat HEAD_LEN) with 8%nat in Hfl.
  rewrite u32_id by (unfold is_u32, HEAD_LEN, TAG_LEN, LENGTH_LEN; lia).
  rewrite memcpy_from_Ok by (unfold HEAD_LEN, TAG_LEN, LENGTH_LEN; lia). cbn [mbind res_bind].
  rewrite drop_0, take_ge by (unfold HEAD_LEN, TAG_LEN, LENGTH_LEN; lia). cbn [fst snd].
  destruct (IH (set_cli_queue c (node_of <$> ms) (Some (node_of m)))) as (c' & E & Hq' & Hr'); [done..|].
  exists c'. rewrite E. done.
Qed.
End send.

(** C12. What the client sends arrives: the messages given to [Send], in order, are written by
    the worker as one byte stream with nothing in between, and a backend session that reads
    the stream posts exactly these messages to its handler, whatever the byte orders of the
    two machines. *)
Theorem client_to_server host1 junk1 host2 junk2 mgr_ok c ms (N : nat) :
  cli_running_ c = true → cli_send_q_ c = [] → Forall sendable ms → (Z.to_nat (HEAD_LEN + MAX_CTX_LEN) <= N)%nat →
  ∃ c1 c2 stream s' nodes,
    cli_sends host1 junk1 c ms = Ok c1
    ∧ cli_work (length ms) c1 = Ok (c2, stream) ∧ cli_send_q_ c2 = []
    ∧ deliver host2 junk2 true mgr_ok (replicate (2 * length ms) N) (Session.Start (Session_new junk2)) stream
      = Ok (s', SPost ∘ Some <$> nodes, [])
    ∧ Forall2 (node_holds host2) nodes ms.
Proof.
  intros Hr Hq Hms HN. rewrite cli_sends_Ok by done. rewrite Hq. cbn [app].
  destruct (cli_work_Ok ms (set_cli_queue c (node_of <$> ms) (cli_sending_ c))) as (c2 & E & Hq2 & _); [done..|].
  destruct (all_messages_held host2 junk2 mgr_ok ms N) as (s' & nodes & E2 & Hf).
  { revert Hms. apply List.Forall_impl. by intros m []. }
  { done. }
  eexists _, c2, (wire ms), s', nodes. by split_and!.
Qed.

Lemma client_to_server_witness :
  let c := on_connected (AsyncClient_new (λ _, 0)) false in
  ∃ c1 c2 stream s' nodes,
    cli_sends LITTLE_ENDIAN (λ _, 0) c [(3, [1; 2]); (6, [80])] = Ok c1
    ∧ cli_work 2 c1 = Ok (c2, stream) ∧ cli_send_q_ c2 = []
    ∧ deliver BIG_ENDIAN (λ _, 7) true true (replicate 4 (Z.to_nat 2000000)) (Session.Start (Session_new (λ _, 7))) stream
      = Ok (s', SPost ∘ Some <$> nodes, [])
    ∧ Forall2 (node_holds BIG_ENDIAN) nodes [(3, [1; 2]); (6, [80])].
Proof.
  apply (client_to_server LITTLE_ENDIAN (λ _, 0) BIG_ENDIAN (λ _, 7) true _ [(3, [1; 2]); (6, [80])] (Z.to_nat 2000000));
    [reflexivity|reflexivity| |apply Z2Nat.inj_le; done].
  repeat constructor; done.
Defined.

(** A client that has just connected *)
Lemma listening_start junk : listening (on_connected (AsyncClient_new junk) false).
Proof.
  split_and!; [done| |done|done]. apply node_wf_mk; [unfold is_u32; lia..|by rewrite length_new_char|auto with chat].
Qed.

(** The client shows what a backend sent: connected to a backend, it reads a stream of
    messages, two reads each, and writes to the screen for each of them, in order, the
    welcome text or the sender's id and the text of a chat message; then it waits for the
    next message. *)
Theorem client_shows_messages host junk ms :
  Forall showable ms →
  ∃ c, cli_deliver host junk (2 * length ms) (on_connected (AsyncClient_new junk) false) (wire ms) = Ok (c, [])
    ∧ listening c ∧ screen c = concat (display <$> ms).
Proof.
  intros Hms. destruct (cli_messages_Ok host junk ms _ (listening_start junk) Hms) as (c & E & Hl' & Hs). by exists c.
Qed.

Lemma client_shows_messages_witness :
  ∃ c, cli_deliver LITTLE_ENDIAN (λ _, 9) 4 (on_connected (AsyncClient_new (λ _, 9)) false)
      (wire [(2, bytes_of_string "Welcome"); (4, be_bytes 8 77 ++ bytes_of_string "hi")]) = Ok (c, [])
    ∧ listening c ∧ screen c = ["Verify done: Welcome"; "From UID:77"; "hi"].
Proof.
  apply (client_shows_messages LITTLE_ENDIAN (λ _, 9) [(2, bytes_of_string "Welcome"); (4, be_bytes 8 77 ++ bytes_of_string "hi")]).
  repeat constructor; try done; vm_compute; lia.
Defined.
