(* ===== verification/ClientLogin.v ===== *)
(** * The client's login dialogue and its console
      (src/src/client/client_class.cpp, client_main.cpp)

    [GatewayHelper::Login] against a scripted transport and against the gateway of this
    repository, and the lines typed by the user. *)

From S2P Require Import Prelude Decimal CppString FieldOp MsgNode Session Security Dbm DbmPool DbmFacts.
From S2P Require Import Snowflake RedisBase Backend StatusService Gateway GatewayFacts TokenFacts Client.
From Stdlib Require Import Ascii.

(** ** The retry loop *)

(** A transport that answers from a list of responses *)
Definition scripted (target text : string) : st (list (Z * string)) (Z * string) := λ rs,
  match rs with
  | r :: rs' => (rs', Ok r)
  | [] => ([], Throw (runtime_error "connect"))
  end.

Section retry.
Context {J : Type} `{!JsonLib J}.

Definition conflict (text : string) : Z * string := (409, text).

(** The loop stops at the first answer that is not a conflict, or when the waits run out. *)
Lemma login_retry_stops text busy waits code body rest :
  (length busy < length waits)%nat → code ≠ 409 →
  login_retry scripted waits text ((conflict <$> busy) ++ (code, body) :: rest)
    = (rest, Ok (take (S (length busy)) waits, Some (code, body))).
Proof.
  revert waits; induction busy as [|b busy IH]; intros [|t waits] Hl Hc; cbn in Hl; try lia.
  - cbn [login_retry fmap list_fmap app length]. rewrite (st_bind_Ok _ _ _ rest (code, body)) by done. cbn [fst].
    destruct (code =? 200); [done|]. rewrite (proj2 (Z.eqb_neq _ _)) by done. done.
  - rewrite fmap_cons. cbn [login_retry app]. rewrite (st_bind_Ok _ _ _ ((conflict <$> busy) ++ (code, body) :: rest) (409, b)) by done.
    cbn [fst]. change (409 =? 200) with false. change (409 =? 409) with true. cbn iota.
    rewrite (st_bind_Ok _ _ _ _ _ (IH waits ltac:(lia) Hc)). done.
Qed.

Lemma login_retry_exhausted text busy waits rest :
  length busy = length waits →
  login_retry scripted waits text ((conflict <$> busy) ++ rest) = (rest, Ok (waits, None)).
Proof.
  revert waits; induction busy as [|b busy IH]; intros [|t waits] Hl; cbn in Hl; try lia; [done|].
  rewrite fmap_cons. cbn [login_retry app]. rewrite (st_bind_Ok _ _ _ ((conflict <$> busy) ++ rest) (409, b)) by done.
  cbn [fst]. change (409 =? 200) with false. change (409 =? 409) with true. cbn iota.
  by rewrite (st_bind_Ok _ _ _ _ _ (IH waits ltac:(lia))).
Qed.

(** What [Login] makes of its last response *)
Definition login_answer (code : Z) (body : string) : res (option login_data) :=
  if code =? 200 then parse_login (J := J) body else Ok None.

Lemma Login_first name pass code body rest :
  code ≠ 409 →
  Login (J := J) scripted name pass ((code, body) :: rest) = (rest, pair [] <$> login_answer code body).
Proof.
  intros Hc. unfold Login. rewrite (st_bind_Ok _ _ _ rest (code, body)) by done. cbn [fst snd]. unfold login_answer.
  destruct (code =? 200) eqn:E.
  - unfold st_bind, st_res. by destruct (parse_login body).
  - by rewrite (proj2 (Z.eqb_neq _ _)).
Qed.

Lemma Login_retries name pass b busy code body rest :
  (length busy < 4)%nat → code ≠ 409 →
  Login (J := J) scripted name pass (conflict b :: (conflict <$> busy) ++ (code, body) :: rest)
    = (rest, pair (take (S (length busy)) wait_time) <$> login_answer code body).
Proof.
  intros Hl Hc. unfold Login. rewrite (st_bind_Ok _ _ _ ((conflict <$> busy) ++ (code, body) :: rest) (409, b)) by done.
  cbn [fst]. change (409 =? 200) with false. change (409 =? 409) with true. cbn iota.
  rewrite (st_bind_Ok _ _ _ _ _ (login_retry_stops _ busy wait_time code body rest Hl Hc)). cbn [fst snd].
  unfold login_answer. destruct (code =? 200); [|done]. unfold st_bind, st_res. by destruct (parse_login body).
Qed.

Lemma Login_dialogue name pass busy code body rest :
  code ≠ 409 →
  let answers := (conflict <$> busy) ++ (code, body) :: rest in
  Login (J := J) scripted name pass answers =
    (if (length busy <=? 4)%nat
     then (rest, pair (take (length busy) wait_time) <$> login_answer code body)
     else (drop 5 answers, Ok (wait_time, None))).
Proof.
  intros Hc answers. destruct busy as [|b busy]; [by apply Login_first|].
  destruct (Nat.leb_spec (length (b :: busy)) 4) as [Hl|Hl]; cbn in Hl.
  - apply (Login_retries name pass b busy); [lia|done].
  - unfold Login, answers. rewrite fmap_cons. cbn [app].
    rewrite (st_bind_Ok _ _ _ ((conflict <$> busy) ++ (code, body) :: rest) (409, b)) by done.
    cbn [fst]. change (409 =? 200) with false. change (409 =? 409) with true. cbn iota.
    rewrite <- (take_drop 4 busy) at 1. rewrite fmap_app, <- app_assoc.
    rewrite (st_bind_Ok _ _ _ _ _ (login_retry_exhausted _ (take 4 busy) wait_time _ ltac:(rewrite length_take; change (length wait_time) with 4%nat; lia))).
    unfold st_ret. do 2 f_equal. rewrite skipn_cons, drop_app_le by (rewrite length_fmap; lia). by rewrite fmap_drop.
Qed.
End retry.

(** C37. The login dialogue is bounded: [Login] makes at most five requests and sleeps at most
    seven seconds.  It asks again only after a 409, waiting 1, 1, 2 and 3 seconds; the first
    other answer decides (login data from a 200 whose fields can be read, failure
    otherwise), and after five conflicts it gives up. *)
Theorem login_dialogue_bounded {J} `{!JsonLib J} name pass busy code body rest :
  code ≠ 409 →
  let answers := (conflict <$> busy) ++ (code, body) :: rest in
  Login (J := J) scripted name pass answers =
    (if (length busy <=? 4)%nat
     then (rest, pair (take (length busy) [1; 1; 2; 3]) <$> login_answer (J := J) code body)
     else (drop 5 answers, Ok ([1; 1; 2; 3], None)))
  ∧ (length (Login (J := J) scripted name pass answers).1 + 5 >= length answers)%nat
  ∧ ∀ waits r, (Login (J := J) scripted name pass answers).2 = Ok (waits, r) → foldr Z.add 0 waits <= 7.
Proof.
  intros Hc answers. assert (E := Login_dialogue name pass busy code body rest Hc). fold answers in E.
  split; [exact E|]. rewrite E. destruct (Nat.leb_spec (length busy) 4) as [Hl|Hl]; cbn [fst snd].
  - split; [unfold answers; rewrite length_app, length_fmap; cbn [length]; lia|].
    intros waits r Hw. destruct (login_answer code body) as [x| |]; [|done..]. injection Hw as <- _.
    do 5 (destruct busy as [|? busy]; [done|]). cbn in Hl. lia.
  - split; [rewrite length_drop; lia|]. by intros waits r [= <- _].
Qed.

Lemma login_dialogue_bounded_witness :
  Login (J := list (string * jval)) scripted "bob" "pw" [(409, ""); (409, ""); (403, "no"); (200, "")]
    = ([(200, "")], Ok ([1; 1], None)).
Proof. apply (login_dialogue_bounded "bob" "pw" [""; ""] 403 "no" [(200, "")]). done. Defined.

(** ** Client and gateway together *)

(** The request [GatewayHelper] sends, answered by the gateway *)
Definition helper_request (target text : string) : http_request := mkRequest POST target 11 true text.

Section texts.
Context {J : Type} `{!JsonLib J, !JsonLaws J}.

Lemma asks_credentials name pass target :
  printable name → printable pass →
  asks (J := J) (helper_request target (credentials name pass)) name pass.
Proof.
  intros Hn Hp. destruct (json_object (J := J) [("username", JStr name); ("passcode", JStr pass)] "") as (j & Hj & Hs & _).
  { repeat constructor; set_solver. }
  { do 2 (apply List.Forall_cons; [done|]). apply List.Forall_nil. }
  rewrite str_app_nil_r in Hj. exists j. split; [done|]. unfold read_credentials.
  rewrite (Hs "username" name), (Hs "passcode" pass) by set_solver. done.
Qed.

(** The body of a granted login *)
Lemma parse_login_granted token addr uid :
  printable token → printable addr → is_u64 uid →
  parse_login (J := J)
    (jwrite [("result", JStr "ok"); ("token", JStr token); ("server_addr", JStr addr); ("uid", JUInt uid)])
  = Ok (Some (mkLoginData token addr uid)).
Proof.
  intros Ht Ha Hu.
  destruct (json_object (J := J) [("result", JStr "ok"); ("token", JStr token); ("server_addr", JStr addr); ("uid", JUInt uid)] "")
    as (j & Hj & Hs & Hn).
  { repeat constructor; set_solver. }
  { assert (printable "ok") by (unfold printable; repeat constructor; done).
    do 4 (apply List.Forall_cons; [done|]). apply List.Forall_nil. }
  rewrite str_app_nil_r in Hj. unfold parse_login. rewrite Hj. unfold read_login.
  rewrite (Hs "token" token), (Hs "server_addr" addr), (Hn "uid" uid) by set_solver. done.
Qed.

Lemma url_safe_printable s : str_forall url_safe_char s → printable s.
Proof.
  induction s as [|c s IH]; [constructor|]. intros [Hc Hs]. constructor; [|by apply IH].
  destruct Hc as [Hc|[-> | ->]]; [|done..]. unfold alnum, in_range in Hc.
  repeat (apply orb_true_iff in Hc as [Hc|Hc]); apply andb_true_iff in Hc as [H1 H2]; decide_bool; lia.
Qed.
End texts.

(** The gateway as a transport *)
Definition gateway_exchange {D Rd Sv J} `{!MySql D, !Crypto, !RedisOps Rd, !GatewayRedis Rd, !MinimalRPC Sv, !JsonLib J}
    (base64 : list Z → string) (hash_junk : nat → list Z) (env : req_env) (target text : string) : st (Gateway D Rd Sv) (Z * string) :=
  st_bind (RequestHandler (J := J) base64 false hash_junk env (helper_request target text))
    (λ resp, st_ret (result resp, resp_body resp)).

(** A login that is granted, with the state of both programs after it. *)
Lemma Login_granted {D Rd Sv J} `{!MySql D, !MySqlLaws D, C : Crypto, !CryptoLaws C, !RedisOps Rd, !GatewayRedis Rd, !RedisLaws Rd, !MinimalRPC Sv, !JsonLib J, !JsonLaws J}
    base64 `{!Base64Laws base64} hash_junk (g : Gateway D Rd Sv) a rd env name pass sv s addr bytes uid :
  printable name → printable pass → printable addr → is_u64 uid →
  implements hash_junk (dbm_ g) a → g_redis_ g = mkMgr (Some rd) →
  rpc_minimal (rpc_ g) = Ok (sv, s, addr) → rpc_ok s = true →
  token_rnd env = Some bytes → length bytes = TOKEN_BYTES → Forall is_byte bytes →
  authentic a name pass = Some uid → location rd uid = None →
  ∃ g' rd' token,
    Login (J := J) (gateway_exchange (J := J) base64 hash_junk env) name pass g = (g', Ok ([], Some (mkLoginData token addr uid)))
    ∧ g_redis_ g' = mkMgr (Some rd') ∧ redis_string rd' (token_key token) = Some (to_string uid)
    ∧ location rd' uid = Some "unset" ∧ token = url_safe (base64 bytes) ∧ implements hash_junk (dbm_ g') a.
Proof.
  intros Hn Hp Ha Hu Hi Hr Hrpc Hok Htok Hlen Hb Hauth Hloc. set (token := url_safe (base64 bytes)).
  set (req := helper_request "/login" (credentials (J := J) name pass)).
  destruct (LoginLogic_Ok (J := J) base64 hash_junk g a rd env req name pass sv s addr bytes)
    as (g' & rd' & resp & E & Hr' & Hi' & Ho); [by apply asks_credentials|done..|].
  rewrite Hauth, Hloc in Ho. unfold login_outcome in Ho. rewrite Hok in Ho.
  assert (Het : erase_char "="%char (url_safe (base64 bytes)) = token).
  { pose proof (TokenGenerator_Ok base64 bytes Hlen Hb) as Ht. unfold TokenGenerator in Ht. by injection Ht. }
  rewrite Het in Ho. destruct Ho as (Hresp & Hstr & Hplace & _).
  assert (Hpt : printable token) by (apply url_safe_printable, url_safe_forall; by apply base64_text).
  exists g', rd', token. split_and!; [|done|done|auto|done|done].
  unfold Login. rewrite (st_bind_Ok _ _ g g' (200, resp_body resp)).
  - cbn [fst snd]. change (200 =? 200) with true. cbn iota. subst resp. cbn [resp_body reply_page].
    unfold st_bind, st_res. by rewrite parse_login_granted.
  - unfold gateway_exchange. rewrite (st_bind_Ok _ _ g g' resp) by exact E. by rewrite Hresp.
Qed.

(** Logging in through both programs: with the right password of a user who is not online
    the client's [Login], answered by the gateway, returns at once with the token the gateway
    drew, the address of the status service's server and the user's id, and the gateway has
    bound that token to that id. *)
Theorem client_login_end_to_end {D Rd Sv J} `{!MySql D, !MySqlLaws D, C : Crypto, !CryptoLaws C, !RedisOps Rd, !GatewayRedis Rd, !RedisLaws Rd, !MinimalRPC Sv, !JsonLib J, !JsonLaws J}
    base64 `{!Base64Laws base64} hash_junk (g : Gateway D Rd Sv) a rd env name pass sv s addr bytes uid :
  printable name → printable pass → printable addr → is_u64 uid →
  implements hash_junk (dbm_ g) a → g_redis_ g = mkMgr (Some rd) →
  rpc_minimal (rpc_ g) = Ok (sv, s, addr) → rpc_ok s = true →
  token_rnd env = Some bytes → length bytes = TOKEN_BYTES → Forall is_byte bytes →
  authentic a name pass = Some uid → location rd uid = None →
  ∃ g' rd' token,
    Login (J := J) (gateway_exchange (J := J) base64 hash_junk env) name pass g = (g', Ok ([], Some (mkLoginData token addr uid)))
    ∧ g_redis_ g' = mkMgr (Some rd') ∧ redis_string rd' (token_key token) = Some (to_string uid)
    ∧ location rd' uid = Some "unset".
Proof.
  intros Hn Hp Ha Hu Hi Hr Hrpc Hok Htok Hlen Hb Hauth Hloc.
  destruct (Login_granted base64 hash_junk g a rd env name pass sv s addr bytes uid Hn Hp Ha Hu Hi Hr Hrpc Hok Htok Hlen Hb Hauth Hloc)
    as (g' & rd' & token & E & Hr' & Hs & Hl & _). by exists g', rd', token.
Qed.

Lemma client_login_end_to_end_witness :
  let env := mkEnv [] 5 None (Some (replicate 24 255)) in
  ∃ g' rd' token,
    Login (J := list (string * jval)) (gateway_exchange (J := list (string * jval)) b64 (λ _, []) env) "bob" "pw" (demo_gateway (mkDemoRd ∅ ∅ ∅))
      = (g', Ok ([], Some (mkLoginData token "10.0.0.1:2000" 77)))
    ∧ g_redis_ g' = mkMgr (Some rd') ∧ redis_string rd' (token_key token) = Some (to_string 77)
    ∧ location rd' 77 = Some "unset".
Proof.
  eapply (client_login_end_to_end b64 (λ _, []) (demo_gateway (mkDemoRd ∅ ∅ ∅)) demo_accounts (mkDemoRd ∅ ∅ ∅)
    (mkEnv [] 5 None (Some (replicate 24 255))) "bob" "pw" tt Status_OK "10.0.0.1:2000" (replicate 24 255) 77).
  - unfold printable. repeat constructor; done.
  - unfold printable. repeat constructor; done.
  - unfold printable. repeat constructor; done.
  - done.
  - exact demo_implements.
  - reflexivity.
  - reflexivity.
  - reflexivity.
  - reflexivity.
  - reflexivity.
  - repeat constructor; done.
  - vm_compute. reflexivity.
  - reflexivity.
Defined.

(** ** The console *)

Lemma split_args_word fuel w : no_char " " w → w ≠ "" → (0 < fuel)%nat → split_args fuel w = [w].
Proof.
  intros Hw Hne Hf. destruct fuel as [|fuel]; [lia|]. cbn [split_args]. rewrite find_char_None by done.
  by rewrite bool_decide_eq_false_2.
Qed.

(** The loop cuts the arguments at the first space. *)
Lemma split_args_cons fuel w rest :
  no_char " " w → split_args (S fuel) (w +:+ String " " rest) = w :: split_args fuel rest.
Proof.
  intros Hw. cbn [split_args]. rewrite find_char_app by done. f_equal; [apply str_take_app|].
  f_equal. replace (S (String.length w)) with (String.length w + 1)%nat by lia. rewrite str_drop_app_add. exact (str_drop_0 rest).
Qed.

(** Words joined by single spaces *)
Fixpoint join (ws : list string) : string :=
  match ws with
  | [] => ""
  | [w] => w
  | w :: ws' => w +:+ String " " (join ws')
  end.

(** The arguments come back from their joined form; the fuel of [split_command] is enough. *)
Lemma split_args_join ws : ∀ fuel,
  Forall (λ w, no_char " " w ∧ w ≠ "") ws → (length ws < fuel)%nat → split_args fuel (join ws) = ws.
Proof.
  induction ws as [|w ws IH]; intros [|fuel] Hws Hf; cbn in Hf; try lia; [done|].
  inversion_clear Hws as [|?? Hw Hws']. destruct Hw as [Hw Hne]. destruct ws as [|w' ws].
  - apply (split_args_word (S fuel) w); [done|done|lia].
  - change (join (w :: w' :: ws)) with (w +:+ String " " (join (w' :: ws))).
    rewrite split_args_cons by done. f_equal. apply IH; [done|cbn in *; lia].
Qed.

Lemma length_join ws : Forall (λ w, no_char " " w ∧ w ≠ "") ws → (length ws <= String.length (join ws))%nat.
Proof.
  induction ws as [|w ws IH]; intros Hws; [cbn; lia|]. inversion_clear Hws as [|?? Hw Hws']. destruct Hw as [_ Hne].
  assert (1 <= String.length w)%nat by (destruct w; [done|cbn; lia]).
  destruct ws as [|w' ws]; [cbn; lia|]. specialize (IH Hws').
  change (join (w :: w' :: ws)) with (w +:+ String " " (join (w' :: ws))). rewrite str_length_app.
  change (length (w :: w' :: ws)) with (S (length (w' :: ws))).
  change (String.length (String " " (join (w' :: ws)))) with (S (String.length (join (w' :: ws)))). lia.
Qed.

Lemma split_command_Ok command w ws :
  no_char " " command → Forall (λ w, no_char " " w ∧ w ≠ "") (w :: ws) →
  split_command (String "\" command +:+ String " " (join (w :: ws))) = (command, w :: ws).
Proof.
  intros Hc Hws. unfold split_command. rewrite find_char_app by done. cbn [String.length]. f_equal.
  - change (S (String.length command)) with (String.length (String "\" command)). rewrite str_take_app. by destruct command.
  - assert (E : str_drop (S (S (String.length command))) (String "\" command +:+ String " " (join (w :: ws))) = join (w :: ws)).
    { change (S (S (String.length command))) with (S (String.length (String "\" command))).
      replace (S (String.length (String "\" command))) with (String.length (String "\" command) + 1)%nat by lia.
      rewrite str_drop_app_add. exact (str_drop_0 _). }
    rewrite E. apply split_args_join; [done|]. pose proof (length_join (w :: ws) Hws). lia.
Qed.

Lemma chat_data_Ok host uid text :
  is_u64 uid → chat_data host uid text = Ok (be_bytes 8 uid ++ bytes_of_string text).
Proof.
  intros Hu. unfold chat_data. set (l := replicate (String.length text + 8) 0).
  assert (Hl : length l = (String.length text + 8)%nat) by apply length_replicate.
  rewrite WriteNetField64_Ok by (done || lia). cbn [mbind res_bind].
  assert (E : splice l 0 (be_bytes 8 uid) = be_bytes 8 uid ++ drop 8 l) by (unfold splice; by rewrite length_be_bytes).
  assert (Hl2 : length (be_bytes 8 uid ++ drop 8 l) = (8 + String.length text)%nat)
    by (rewrite length_app, length_be_bytes, length_drop; lia).
  rewrite E, memcpy_to_Ok by (rewrite Hl2, bytes_of_string_length; lia). f_equal. unfold splice.
  rewrite (drop_ge (be_bytes 8 uid ++ drop 8 l)) by (rewrite Hl2, bytes_of_string_length; lia).
  by rewrite app_nil_r, take_app_length' by (by rewrite length_be_bytes).
Qed.

Lemma to_string_word uid : is_u64 uid → no_char " " (to_string uid) ∧ to_string uid ≠ "".
Proof.
  intros Hu. split; [apply no_char_to_string; [done|unfold is_u64 in Hu; lia]|].
  intros E. pose proof (stoull_to_string uid Hu) as H. by rewrite E in H.
Qed.

(** The send command: a line with the command, a user id and one word sends a chat message
    whose content is the id in eight bytes, network order, and the word, as the backend
    expects it; with a text of several words the command only prints its usage. *)
Theorem send_command_correct host uid text more :
  is_u64 uid → Forall (λ w, no_char " " w ∧ w ≠ "") (text :: more) →
  line_action host true (String "\" "send" +:+ String " " (join (to_string uid :: text :: more))) =
    match more with
    | [] => Ok (ActSend (be_bytes 8 uid ++ bytes_of_string text) CHAT_MSG)
    | _ => Ok ActUsage
    end.
Proof.
  intros Hu Hws. set (line := String "\" "send" +:+ _). unfold line_action.
  assert (E : line = String "\" ("send" +:+ String " " (join (to_string uid :: text :: more)))) by done.
  rewrite E at 1. cbn [negb]. rewrite (decide_True (P := "\"%char = "\"%char)) by done.
  unfold line. rewrite split_command_Ok; [|by vm_compute|constructor; [by apply to_string_word|done]].
  rewrite bool_decide_eq_true_2 by done. destruct more; [|done].
  rewrite stoull_to_string by done. by rewrite chat_data_Ok.
Qed.

Lemma send_command_correct_witness :
  line_action LITTLE_ENDIAN true "\send 258 hi" = Ok (ActSend [0; 0; 0; 0; 0; 0; 1; 2; 104; 105] CHAT_MSG).
Proof.
  apply (send_command_correct LITTLE_ENDIAN 258 "hi" []); [done|].
  repeat constructor; done.
Defined.

(** Once the console has failed, the client's loop spins: every further round reads an
    empty line, ends by [continue] and changes nothing, so the program neither sends nor
    notices that the connection is gone.  A line of more than 254 characters and the end of
    the input make the console fail. *)
Theorem console_failure_spins host junk (k : console) (c : AsyncClient) :
  (failbit k = true → main_round host junk k c = Ok (k, Some c))
  ∧ (input k = "" → failbit (read_line k).2 = true)
  ∧ (∀ l rest, no_char (char_of 10) l → String.length l = 254%nat → ∀ x, x ≠ char_of 10 →
       input k = l +:+ String x rest → failbit (read_line k).2 = true).
Proof.
  split_and!.
  - intros Hf. unfold main_round, read_line. rewrite Hf. done.
  - intros Hi. unfold read_line. destruct (failbit k) eqn:Hf; [done|]. by rewrite Hi.
  - intros l rest Hl Hlen x Hx Hi. unfold read_line. destruct (failbit k) eqn:Hf; [done|].
    assert (Hg : ∀ n s, no_char (char_of 10) s → String.length s = n →
      getline n (s +:+ String x rest) = (s, String x rest, true)).
    { intros n s; revert n; induction s as [|d s IH]; intros n Hs Hn; cbn in Hn; subst n.
      - rewrite str_app_nil. cbn [getline]. by destruct (decide (x = char_of 10)).
      - destruct Hs as [Hd Hs]. rewrite str_app_cons. cbn [getline].
        destruct (decide (d = char_of 10)); [done|]. by rewrite (IH _ Hs eq_refl). }
    specialize (Hg 254%nat l Hl Hlen). rewrite Hi. destruct l as [|d l]; [done|].
    rewrite str_app_cons in Hg |- *. by rewrite Hg.
Qed.

Lemma console_failure_spins_witness :
  main_round LITTLE_ENDIAN (λ _, 0) (mkConsole "" true) (AsyncClient_new (λ _, 0))
    = Ok (mkConsole "" true, Some (AsyncClient_new (λ _, 0))).
Proof.
  apply (proj1 (console_failure_spins LITTLE_ENDIAN (λ _, 0) (mkConsole "" true) (AsyncClient_new (λ _, 0)))). reflexivity.
Defined.
