(* ===== verification/ChatEnd.v ===== *)
(** * From the keyboard of one user to the screen of another
      (src/src/client/client_main.cpp, client_class.cpp, src/src/server/session.cpp, msg_handler.cpp,
       mq_handler.cpp, redis/server_redis.cpp)

    The pieces of a chat message's way put together: the console line, the client's worker,
    the reads of the sender's session, the message handler, the stream of the receiver's
    server and its queue handler, the write to the receiver's socket, the receiver's client.
    [RedisStreams] is the read side of Redis streams, and [StreamLaws] what a consumer group has
    still to be given of a stream: how XGROUP CREATE makes a group, how XADD adds to what every
    group of the stream has to be given, and how XREADGROUP takes from one group, or fails when
    there is no such group. *)

From S2P Require Import Prelude Decimal CppString FieldOp MsgNode Session SessionFacts RedisBase Timer Backend ServerSetup BackendFacts Registry.
From S2P Require Import Snowflake Security Dbm StatusService Gateway GatewayFacts Client ClientFacts ClientLogin.
From Stdlib Require Import Ascii.

(** An entry as the client library gives it out *)
Abbreviation item := (option (gmap string string)).

Class RedisStreams (Rd : Type) := {
  redis_xreadgroup : Rd → string → string → list (string * string) → Z → res (Rd * list (string * list item));
  is_timeout : exn → bool                          (* TimeoutError *)
}.

(** What a group has still to be given of a stream *)
Definition to_item (fs : list (string * string)) : item := Some (list_to_map fs).

(** The streams of a reply, those without news left out *)
Definition reply_of (stms : list (string * list (list (string * string)))) : list (string * list item) :=
  map (λ kv : string * list (list (string * string)), (kv.1, to_item <$> kv.2)) (filter (λ kv, kv.2 ≠ []) stms).

Class StreamLaws (Rd : Type) `{!RedisOps Rd, !RedisStreams Rd} (xgroup_create : Rd → string → string → string → Rd * bool) := {
  unread : Rd → string → string → option (list (list (string * string)));   (* key, group *)
  law_xgroup_create rd k g id :
    (∃ u, unread (xgroup_create rd k g id).1 k g = Some u)
    ∧ ∀ k' g', is_Some (unread rd k' g') ∨ k' ≠ k ∨ g' ≠ g → unread (xgroup_create rd k g id).1 k' g' = unread rd k' g';
  law_xadd_unread rd k fs n : ∃ rd' id, redis_xadd rd k fs n = Ok (rd', id)
    ∧ (∀ g u, unread rd k g = Some u → Z.of_nat (length u) < n → unread rd' k g = Some (u ++ [fs]))
    ∧ (∀ k' g, k' ≠ k → unread rd' k' g = unread rd k' g);
  law_xreadgroup rd g c k1 k2 n u1 u2 : k1 ≠ k2 → 0 < n → unread rd k1 g = Some u1 → unread rd k2 g = Some u2 →
    ∃ rd' stms, redis_xreadgroup rd g c [(k1, ">"); (k2, ">")] n = Ok (rd', stms)
    ∧ stms ≡ₚ reply_of [(k1, take (Z.to_nat n) u1); (k2, take (Z.to_nat n) u2)]
    ∧ unread rd' k1 g = Some (drop (Z.to_nat n) u1) ∧ unread rd' k2 g = Some (drop (Z.to_nat n) u2)
    ∧ (∀ k' g', g' ≠ g ∨ (k' ≠ k1 ∧ k' ≠ k2) → unread rd' k' g' = unread rd k' g');
  law_nogroup rd g c k1 k2 n : unread rd k1 g = None ∨ unread rd k2 g = None →
    ∃ e, redis_xreadgroup rd g c [(k1, ">"); (k2, ">")] n = Throw e ∧ is_timeout e = false
}.

(** ** The stages *)

Section stages.
Context (host : byte_order) (junk : nat → Z).

(** A round of the client's [main] and one of its worker: the bytes written *)
Definition client_says (k : console) (c : AsyncClient) : res (console * AsyncClient * list Z) :=
  r ← main_round host junk k c;
  match r.2 with
  | None => Ok (r.1, c, [])
  | Some c => x ← WorkerFn c false; Ok (r.1, x.1, default [] x.2)
  end.

Context {Rd : Type}.
Abbreviation M := (st (World Rd)).
Open Scope cpp_scope.

(** Reads of session [p] complete with the next bytes of [stream], as [deliver] for a session
    alone *)
Fixpoint node_reads (sizes : list nat) (p : nat) (stream : list Z) : M (list Z) :=
  match sizes with
  | [] => st_ret stream
  | n :: sizes' =>
      s <- get_obj p ;;
      let k := Nat.min n (want s) in
      on_read host junk p (RData (take k stream)) ;;
      node_reads sizes' p (drop k stream)
  end.

Context `{!RedisStreams Rd} (server_id_ : string).

(** One round of [MQHandler::WorkerFn]; only a timeout is caught *)
Definition MQ_WorkerFn : M unit := λ w,
  match RecvFromMsgQueueNoACK redis_xreadgroup (w_redis_ w) server_id_ "0" 2000 10 with
  | Ok (m, stms) => MQ_dispatch host junk server_id_ stms (set_redis w m)
  | Throw e => if is_timeout e then (w, Ok tt) else (w, Throw e)
  | UB u => (w, UB u)
  end.
End stages.

(** ** The sender's client *)

Lemma getline_Ok l rest : ∀ room,
  no_char (char_of 10) l → (String.length l <= room)%nat → getline room (l +:+ String (char_of 10) rest) = (l, rest, false).
Proof.
  induction l as [|c l IH]; intros room Hl Hn.
  - rewrite str_app_nil. destruct room; cbn [getline]; by rewrite decide_True.
  - destruct Hl as [Hc Hl]. rewrite str_app_cons. cbn [String.length] in Hn. destruct room as [|room]; [lia|].
    cbn [getline]. rewrite decide_False by done. by rewrite (IH room Hl) by lia.
Qed.

Lemma upto_nul_id s : no_char (char_of 0) s → upto_nul s = s.
Proof. induction s as [|c s IH]; [done|]. intros [Hc Hs]. cbn [upto_nul]. by rewrite decide_False, IH by done. Qed.

(** The line of the send command *)
Definition send_line (uid : Z) (text : string) : string :=
  String "\" "send" +:+ String " " (join [to_string uid; text]).

Lemma line_action_send host uid text :
  is_u64 uid → no_char " " text → text ≠ "" →
  line_action host true (send_line uid text) = Ok (ActSend (be_bytes 8 uid ++ bytes_of_string text) CHAT_MSG).
Proof.
  intros Hu Ht Hne. apply (send_command_correct host uid text []); [done|]. by repeat constructor.
Qed.

Lemma client_says_Ok host junk k c uid text rest :
  failbit k = false → input k = send_line uid text +:+ String (char_of 10) rest →
  no_char (char_of 10) (send_line uid text) → no_char (char_of 0) (send_line uid text) →
  (String.length (send_line uid text) <= 254)%nat →
  is_u64 uid → no_char " " text → text ≠ "" →
  cli_running_ c = true → cli_send_q_ c = [] →
  ∃ c', client_says host junk k c
      = Ok (mkConsole rest false, c', frame (tag_value CHAT_MSG) (be_bytes 8 uid ++ bytes_of_string text))
    ∧ cli_running_ c' = true ∧ cli_send_q_ c' = [].
Proof.
  intros Hf Hi Hnl Hnul Hlen Hu Ht Hne Hr Hq.
  set (m := (tag_value CHAT_MSG, be_bytes 8 uid ++ bytes_of_string text)).
  assert (Hlt : (String.length text <= 254)%nat).
  { unfold send_line in Hlen. cbn [join] in Hlen. rewrite str_length_app in Hlen. cbn [String.length] in Hlen.
    rewrite str_length_app in Hlen. cbn [String.length] in Hlen. lia. }
  assert (Hml : Z.of_nat (length m.2) <= MAX_CTX_LEN).
  { unfold m, MAX_CTX_LEN. cbn [snd]. rewrite length_app, length_be_bytes, bytes_of_string_length. lia. }
  assert (Hm : sendable m).
  { split; [split_and!; [by vm_compute; split; congruence| |done]|done]. unfold m. cbn [snd]. apply Forall_app.
    split; [apply be_bytes_byte|apply bytes_of_string_byte]. }
  pose proof (cli_sends_Ok host junk [m] c ltac:(by constructor)) as Hs. cbn [cli_sends] in Hs.
  apply bind_Ok_inv in Hs as (c1 & Hs & [= ->]).
  destruct (cli_work_Ok [m] (set_cli_queue c (cli_send_q_ c ++ (node_of <$> [m])) (cli_sending_ c))) as (c2 & Ew & Hq2 & Hr2);
    [by constructor|done|by rewrite Hq|].
  cbn [length cli_work] in Ew. apply bind_Ok_inv in Ew as (x & Ex & Ew). cbn in Ew. injection Ew as <- Hbs.
  rewrite !app_nil_r in Hbs.
  exists x.1. split; [|done]. unfold client_says, main_round, read_line. rewrite Hf, Hi.
  destruct (send_line uid text +:+ String (char_of 10) rest) as [|a l] eqn:El; [by destruct (send_line uid text)|].
  rewrite <- El, getline_Ok, upto_nul_id by done. unfold Running. rewrite Hr, line_action_send by done. cbn [mbind res_bind fst snd].
  rewrite u32_id by (unfold is_u32, MAX_CTX_LEN in *; cbn [snd m] in Hml; lia).
  change (be_bytes 8 uid ++ bytes_of_string text) with m.2. change (tag_value CHAT_MSG) with m.1. rewrite Hs. cbn [mbind res_bind fst snd].
  change (node_of <$> [m]) with [node_of m] in Ex. rewrite Ex. cbn [mbind res_bind]. by rewrite Hbs.
Qed.

(** ** The sender's session *)

Lemma deliver_same_user host junk h g sizes : ∀ s stream s' out rest,
  deliver host junk h g sizes s stream = Ok (s', out, rest) → same_user s s'.
Proof.
  induction sizes as [|n sizes IH]; intros s stream s' out rest E; cbn [deliver] in E; [by inv_res|].
  inv_res. destruct a as [s1 o1]. destruct a0 as [[s2 o2] r2]. cbn [fst snd] in *. intros Hv.
  destruct (recv_step_same_user _ _ _ _ _ _ _ _ Hm Hv) as [Hv1 Hu1].
  destruct (IH _ _ _ _ _ Hm0 Hv1) as [Hv2 Hu2]. split; [done|congruence].
Qed.

Section session.
Context (host : byte_order) (junk : nat → Z) {Rd : Type}.
Implicit Types w : World Rd.

(** The world when session [p] has become [s'] and posted these messages *)
Definition has_posted w (p : nat) (s' : Session) (nodes : list MsgNode) : World Rd :=
  set_q (set_objs w (<[p := s']> (objs w))) (q_ w ++ ((λ n, (Some p, Some n)) <$> nodes)).

Lemma run_posts p nodes : ∀ w, LHandler ∉ held w →
  run_outs p (SPost ∘ Some <$> nodes) w = (set_q w (q_ w ++ ((λ n, (Some p, Some n)) <$> nodes)), Ok tt).
Proof.
  induction nodes as [|n nodes IH]; intros w Hh.
  - cbn. rewrite app_nil_r. by destruct w.
  - cbn [fmap list_fmap run_outs run_out compose]. unfold st_bind at 1 2. rewrite PostMessage_Ok by done.
    cbn [st_ret]. fold (fmap (M := list) (SPost ∘ Some) nodes). rewrite IH by done. cbn [q_ set_q].
    unfold set_q. cbn. by rewrite <- app_assoc.
Qed.

Lemma node_reads_Ok sizes p : ∀ w s stream s' nodes rest,
  LHandler ∉ held w → objs w !! p = Some s →
  deliver host junk true true sizes s stream = Ok (s', SPost ∘ Some <$> nodes, rest) →
  node_reads host junk sizes p stream w = (has_posted w p s' nodes, Ok rest).
Proof.
  induction sizes as [|n sizes IH]; intros w s stream s' nodes rest Hh Hp E; cbn [deliver node_reads] in *.
  - injection E as -> E ->. symmetry in E. apply fmap_nil_inv in E as ->. unfold has_posted. rewrite insert_id by done.
    cbn. rewrite app_nil_r. by destruct w.
  - apply bind_Ok_inv in E as ([s1 o1] & E1 & E). apply bind_Ok_inv in E as ([[s2 o2] r2] & E2 & E).
    cbn [fst snd] in *. injection E as -> Eo ->. symmetry in Eo. apply fmap_app_inv in Eo as (n1 & n2 & -> & -> & ->).
    rewrite (st_bind_Ok _ _ w w s) by (by apply get_obj_Ok). unfold st_bind at 1, on_read.
    rewrite (st_bind_Ok _ _ w w s) by (by apply get_obj_Ok). rewrite (st_bind_Ok _ _ w w (s1, SPost ∘ Some <$> n1)).
    2: { unfold st_res. by rewrite E1. }
    cbn [fst snd]. unfold st_bind, put_obj, st_mod. rewrite run_posts by done.
    rewrite (IH _ s1 _ s' n2 rest); [|done|cbn; apply lookup_insert_eq|done].
    unfold has_posted. cbn. f_equal. unfold set_q, set_objs. cbn. by rewrite insert_insert_eq, fmap_app, app_assoc.
Qed.

(** One whole message, cut in any way, with all of it read *)
Lemma session_posts_message sizes p w s m s' out :
  LHandler ∉ held w → objs w !! p = Some s → rinv s → buffered s = [] → msg_ok m →
  deliver host junk true true sizes s (frame m.1 m.2) = Ok (s', out, []) → reading_ s' = RHead →
  ∃ n, node_reads host junk sizes p (frame m.1 m.2) w = (has_posted w p s' [n], Ok []) ∧ node_holds host n m
    ∧ same_user s s'.
Proof.
  intros Hh Hp Hr Hb Hm E Hph.
  assert (Hw : wire [m] = frame m.1 m.2) by (unfold wire; cbn; by rewrite app_nil_r).
  destruct (deliver_spec host junk true sizes s (frame m.1 m.2) [m]) as (s1 & nodes & n & rest & E1 & Hr1 & Hf & Hwr);
    [done|by constructor|by rewrite Hb|].
  rewrite E1 in E. injection E as -> _ ->. rewrite app_nil_r in Hwr.
  destruct n as [|n].
  - exfalso. rewrite drop_0, Hw in Hwr. pose proof (length_buffered s' Hr1) as Hl. rewrite <- Hwr, length_frame in Hl.
    destruct Hr1 as [_ _ _ Hphase]. rewrite Hph in Hphase. unfold HEAD_LEN, TAG_LEN, LENGTH_LEN in *. lia.
  - cbn [take] in Hf. rewrite take_nil in Hf. apply Forall2_cons_inv_r in Hf as (nd & nds & Hnd & Hnil & ->).
    apply Forall2_nil_inv_r in Hnil as ->. exists nd. split_and!; [by eapply node_reads_Ok|done|by eapply deliver_same_user].
Qed.
End session.

(** ** The receiver's client *)

Lemma client_shows_chat host junk c from text :
  listening c → is_u64 from → Z.of_nat (8 + String.length text) <= MAX_CTX_LEN →
  ∃ c', cli_deliver host junk 2 c (chat_frame from (bytes_of_string text)) = Ok (c', []) ∧ listening c'
    ∧ screen c' = screen c ++ ["From UID:" +:+ to_string from; text].
Proof.
  intros Hl Hf Hmax. set (m := (tag_value CHAT_MSG_TOCLI, be_bytes 8 from ++ bytes_of_string text)).
  assert (Hlen : length m.2 = (8 + String.length text)%nat)
    by (cbn [m snd]; by rewrite length_app, length_be_bytes, bytes_of_string_length).
  assert (Hsh : showable m).
  { split; [split_and!|intros _; lia]; [by vm_compute; split; congruence| |by rewrite Hlen].
    cbn [m snd]. apply Forall_app. split; [apply be_bytes_byte|apply bytes_of_string_byte]. }
  destruct (cli_message_Ok host junk c m [] Hl Hsh) as (c' & E & Hl' & Hs). rewrite app_nil_r in E.
  exists c'. split_and!; [exact E|done|]. injection Hs as _ _ _ ->. f_equal. unfold display, m.
  cbn [fst snd]. change (tag_value CHAT_MSG_TOCLI =? tag_value VERIFY_DONE) with false.
  change (tag_value CHAT_MSG_TOCLI =? tag_value CHAT_MSG_TOCLI) with true. cbn iota.
  rewrite take_app_length' by (by rewrite length_be_bytes). rewrite drop_app_length' by (by rewrite length_be_bytes).
  by rewrite be_value_bytes, string_of_bytes_of_string.
Qed.

(** ** The queue handler of the receiver's server *)

Lemma mq_keys_differ sid sid' : mq_key sid ≠ mq2_key sid'.
Proof. done. Qed.

Section queue.
Context (host : byte_order) (junk : nat → Z) {Rd : Type} `{!RedisOps Rd, !RedisStreams Rd}.
Context (xgroup_create : Rd → string → string → string → Rd * bool) `{!StreamLaws Rd xgroup_create}.

(** The streams of a server *)
Definition own_stream (sid key : string) : Prop := key = mq_key sid ∨ key = mq2_key sid.

(** Registering makes the group that the handler reads for, on both streams. *)
Lemma RegisterMsgQueue_groups rd0 rd1 sid begin :
  RegisterMsgQueue xgroup_create (mkMgr (Some rd0)) sid begin = Ok (mkMgr (Some rd1)) →
  is_Some (unread rd1 (mq_key sid) (group_name sid)) ∧ is_Some (unread rd1 (mq2_key sid) (group_name sid)).
Proof.
  unfold RegisterMsgQueue, GetRedis. cbn [redis_ mbind res_bind]. intros [= <-].
  set (id := if begin then "0" else "$"). set (rd2 := (xgroup_create rd0 (mq_key sid) (group_name sid) id).1).
  destruct (law_xgroup_create rd0 (mq_key sid) (group_name sid) id) as [[u1 H1] _].
  destruct (law_xgroup_create rd2 (mq2_key sid) (group_name sid) id) as [[u2 H2] H3].
  rewrite (H3 (mq_key sid)) by (left; eauto). eauto.
Qed.

(** The group has one new message *)
Lemma MQ_WorkerFn_message (w : World Rd) rd sid from to text tp ts :
  held w = [] → redis_ (w_redis_ w) = Some rd →
  unread rd (mq_key sid) (group_name sid) = Some [mq_fields from to text] → unread rd (mq2_key sid) (group_name sid) = Some [] →
  is_u64 from → is_u64 to → Z.of_nat (String.length text) <= MAX_CTX_LEN →
  sess_ w !! to = Some tp → objs w !! tp = Some ts → send_q_ ts = [] →
  ∃ w' n, MQ_WorkerFn host junk sid w = (w', Ok tt)
    ∧ writes w' = writes w ++ [(tp, n)] ∧ write_bytes n = Ok (chat_frame from (bytes_of_string text)).
Proof.
  intros Hh Hr Hu1 Hu2 Hf Ht Hlen Hs Htp Hq.
  destruct (law_xreadgroup rd (group_name sid) "server0" (mq_key sid) (mq2_key sid) 10 _ _ (mq_keys_differ sid sid) ltac:(done) Hu1 Hu2)
    as (rd' & stms & E & Hp & _).
  assert (stms = [(mq_key sid, [to_item (mq_fields from to text)])]) as -> by (apply Permutation_singleton_r; exact Hp).
  set (w1 := set_redis w (mkMgr (Some rd'))).
  destruct (MessageHandler_Ok host junk w1 from to (bytes_of_string text) tp ts) as (w' & n & Em & Hwr & Hbs);
    [by cbn; rewrite Hh; apply not_elem_of_nil|done|done|apply bytes_of_string_byte|by rewrite bytes_of_string_length|done..|].
  rewrite string_of_bytes_of_string in Em. exists w', n. split_and!; [|done|done].
  unfold MQ_WorkerFn, RecvFromMsgQueueNoACK, GetRedis. rewrite Hr. cbn [mbind res_bind].
  change ("server" +:+ "0") with "server0". rewrite E. cbn [mbind res_bind fst snd]. fold w1.
  unfold MQ_dispatch. cbn [for_each fst snd]. rewrite bool_decide_eq_true_2 by done. cbn [for_each].
  rewrite (st_bind_Ok _ _ w1 w' tt); [done|]. by rewrite (st_bind_Ok _ _ w1 w' tt) by exact Em.
Qed.

(** Without the group the round throws, which ends the thread. *)
Lemma MQ_WorkerFn_no_group (w : World Rd) rd sid :
  redis_ (w_redis_ w) = Some rd → unread rd (mq_key sid) (group_name sid) = None →
  ∃ e, MQ_WorkerFn host junk sid w = (w, Throw e).
Proof.
  intros Hr Hu. destruct (law_nogroup rd (group_name sid) "server0" (mq_key sid) (mq2_key sid) 10) as (e & E & He); [by left|].
  exists e. unfold MQ_WorkerFn, RecvFromMsgQueueNoACK, GetRedis. rewrite Hr. cbn [mbind res_bind].
  change ("server" +:+ "0") with "server0". rewrite E. cbn [mbind res_bind]. by rewrite He.
Qed.
End queue.

(** ** Redis with streams, for witnesses *)

(** A server that serves one group per stream *)
#[export] Instance demo_streams : RedisStreams demo_rd := {
  redis_xreadgroup rd _ _ ks n :=
    let news k := default [] (rd_streams rd !! k) in
    Ok (mkDemoRd (rd_strings rd) (rd_hashes rd)
          (foldr (λ k m, <[k := drop (Z.to_nat n) (news k)]> m) (rd_streams rd) (fst <$> ks)),
        reply_of ((λ k, (k, take (Z.to_nat n) (news k))) <$> (fst <$> ks)));
  is_timeout _ := false
}.

(** A server with groups: what each has still to be given *)
Record grouped := mkGrouped {
  g_data : demo_rd;
  g_unread : gmap (string * string) (list (list (string * string)))
}.

#[export] Instance grouped_ops : RedisOps grouped := {
  redis_get rd k := redis_get (g_data rd) k;
  redis_hget rd k f := redis_hget (g_data rd) k f;
  redis_hsetex rd k fs ttl := r ← redis_hsetex (g_data rd) k fs ttl; Ok (mkGrouped r.1 (g_unread rd), r.2);
  redis_xadd rd k fs n :=
    r ← redis_xadd (g_data rd) k fs n;
    Ok (mkGrouped r.1 (map_imap (λ kg u, Some (if decide (kg.1 = k) then u ++ [fs] else u)) (g_unread rd)), r.2);
  redis_pipeline rd cmds := d ← redis_pipeline (g_data rd) cmds; Ok (mkGrouped d (g_unread rd))
}.

Definition nogroup : exn := runtime_error "NOGROUP No such key or consumer group".

#[export] Instance grouped_streams : RedisStreams grouped := {
  redis_xreadgroup rd g _ ks n :=
    let news k := default [] (g_unread rd !! (k, g)) in
    if forallb (λ k, bool_decide (is_Some (g_unread rd !! (k, g)))) (fst <$> ks) then
      Ok (mkGrouped (g_data rd) (foldr (λ k m, <[(k, g) := drop (Z.to_nat n) (news k)]> m) (g_unread rd) (fst <$> ks)),
          reply_of ((λ k, (k, take (Z.to_nat n) (news k))) <$> (fst <$> ks)))
    else Throw nogroup;
  is_timeout _ := false
}.

(** A group made at the beginning of a stream has all of it to be given. *)
Definition grouped_create (rd : grouped) (k g id : string) : grouped * bool :=
  match g_unread rd !! (k, g) with
  | Some _ => (rd, true)
  | None =>
      let old := if bool_decide (id = "0") then default [] (rd_streams (g_data rd) !! k) else [] in
      (mkGrouped (g_data rd) (<[(k, g) := old]> (g_unread rd)), false)
  end.

#[export] Program Instance grouped_laws : StreamLaws grouped grouped_create := { unread rd k g := g_unread rd !! (k, g) }.
Next Obligation.
  intros rd k g id. unfold grouped_create. destruct (g_unread rd !! (k, g)) as [u|] eqn:E; [by eauto|]. cbn. split.
  - rewrite lookup_insert_eq. eauto.
  - intros k' g' H. rewrite lookup_insert_ne; [done|]. intros [= <- <-]. destruct H as [[? H]|[?|?]]; congruence.
Qed.
Next Obligation.
  intros rd k fs n. eexists _, _. split; [reflexivity|]. cbn [g_unread]. split.
  - intros g u Hu _. rewrite map_lookup_imap. cbn [g_unread] in *. rewrite Hu. cbn. by rewrite decide_True.
  - intros k' g Hk. rewrite map_lookup_imap. destruct (g_unread rd !! (k', g)); cbn; [|done]. by rewrite decide_False.
Qed.
Next Obligation.
  intros rd g c k1 k2 n u1 u2 Hk Hn H1 H2. eexists _, _. split.
  { unfold redis_xreadgroup, grouped_streams. cbn [fmap list_fmap fst forallb foldr].
    rewrite !bool_decide_eq_true_2 by eauto. reflexivity. }
  cbn [fmap list_fmap fst forallb foldr g_unread]. rewrite H1, H2. split; [done|].
  assert (Hne : (k1, g) ≠ (k2, g)) by congruence. rewrite lookup_insert_eq, lookup_insert_ne, lookup_insert_eq by done.
  split_and!; [done..|]. intros k' g' H. rewrite !lookup_insert_ne; [done|intros [= -> ->]; naive_solver..].
Qed.
Next Obligation.
  intros rd g c k1 k2 n H. exists nogroup. split; [|done].
  unfold redis_xreadgroup, grouped_streams. cbn [fmap list_fmap fst forallb].
  destruct H as [H|H]; rewrite H, (bool_decide_eq_false_2 (is_Some None)), ?andb_false_r by (intros [? [=]]); done.
Qed.

(** ** Theorems *)

(** C2. The way of a chat message through the system: a user logged in on one server types the
    send command; the line becomes bytes, the bytes, however the network cuts them, one
    message posted by the session, the message one entry in the stream of the receiver's
    server, the entry one write to the receiver's socket, and the receiver's client shows the
    sender's id, which is the one the sender's session was verified for, and the text as it
    was typed.  The receiver's server has made its consumer groups when it started ([rd0] to
    [rd1]), and every group made by then has been given all of that server's two streams when
    the message is sent ([rd]); the line has at most 254 characters, none of them null.  The
    four machines may have different byte orders. *)
Theorem chat_end_to_end {Rd Json} `{!RedisOps Rd, !RedisStreams Rd, !JsonReader Json} xgroup_create `{!StreamLaws Rd xgroup_create}
    hostA junkA k ca host1 junk1 order sid1 (w1 : World Rd) p s sizes s1 out rd0 rd1 rd
    host2 junk2 sid2 (w2 : World Rd) tp ts hostB junkB cb ub text rest :
  failbit k = false → input k = send_line ub text +:+ String (char_of 10) rest →
  no_char (char_of 10) (send_line ub text) → no_char (char_of 0) (send_line ub text) →
  (String.length (send_line ub text) <= 254)%nat →
  is_u64 ub → no_char " " text → text ≠ "" → cli_running_ ca = true → cli_send_q_ ca = [] →
  held w1 = [] → h_running_ w1 = true → q_ w1 = [] → objs w1 !! p = Some s → rinv s → buffered s = [] →
  verified_ s = true → is_u64 (user_id_ s) → sess_ w1 !! ub = None → redis_ (w_redis_ w1) = Some rd →
  deliver host1 junk1 true true sizes s (frame (tag_value CHAT_MSG) (be_bytes 8 ub ++ bytes_of_string text))
    = Ok (s1, out, []) → reading_ s1 = RHead →
  redis_hget rd (status_key ub) "server_id" = Ok (Some sid2) →
  RegisterMsgQueue xgroup_create (mkMgr (Some rd0)) sid2 true = Ok (mkMgr (Some rd1)) →
  (∀ key g, own_stream sid2 key → is_Some (unread rd1 key g) → unread rd key g = Some []) →
  held w2 = [] → sess_ w2 !! ub = Some tp → objs w2 !! tp = Some ts → send_q_ ts = [] → listening cb →
  ∃ ca' stream w1' w1'' rd' w2' n bs cb',
    client_says hostA junkA k ca = Ok (mkConsole rest false, ca', stream)
    ∧ node_reads host1 junk1 sizes p stream w1 = (w1', Ok [])
    ∧ Worker host1 junk1 order Json sid1 (set_held w1' [LHandler]) = (w1'', Ok WorkerBusy)
    ∧ redis_ (w_redis_ w1'') = Some rd'
    ∧ MQ_WorkerFn host2 junk2 sid2 (set_redis w2 (mkMgr (Some rd'))) = (w2', Ok tt)
    ∧ writes w2' = writes w2 ++ [(tp, n)] ∧ write_bytes n = Ok bs
    ∧ cli_deliver hostB junkB 2 cb bs = Ok (cb', []) ∧ listening cb'
    ∧ screen cb' = screen cb ++ ["From UID:" +:+ to_string (user_id_ s); text].
Proof.
  intros Hf Hi Hnl Hnul Hlen Hub Hword Hne Hca Hqa Hh1 Hrun Hq1 Hp Hr Hbuf Hv Hua Hs1 Hrd Hdel Hph Hloc Hreg Hcaught
    Hh2 Hs2 Htp Hsq Hl.
  destruct (RegisterMsgQueue_groups xgroup_create rd0 rd1 sid2 true Hreg) as [Hg1 Hg2].
  assert (Hun1 : unread rd (mq_key sid2) (group_name sid2) = Some []) by (apply Hcaught; [by left|done]).
  assert (Hun2 : unread rd (mq2_key sid2) (group_name sid2) = Some []) by (apply Hcaught; [by right|done]).
  destruct (client_says_Ok hostA junkA k ca ub text rest) as (ca' & Eca & _ & _); [done..|].
  assert (Hlt : (String.length text <= 254)%nat).
  { unfold send_line in Hlen. cbn [join] in Hlen. rewrite str_length_app in Hlen. cbn [String.length] in Hlen.
    rewrite str_length_app in Hlen. cbn [String.length] in Hlen. lia. }
  set (m := (tag_value CHAT_MSG, be_bytes 8 ub ++ bytes_of_string text)).
  assert (Hlenm : length m.2 = (8 + String.length text)%nat)
    by (cbn [m snd]; by rewrite length_app, length_be_bytes, bytes_of_string_length).
  assert (Hm : msg_ok m).
  { split_and!; [by vm_compute; split; congruence| |unfold MAX_CTX_LEN; rewrite Hlenm; lia].
    cbn [m snd]. apply Forall_app. split; [apply be_bytes_byte|apply bytes_of_string_byte]. }
  destruct (session_posts_message host1 junk1 sizes p w1 s m s1 out) as (nd & Erd & Hnd & Hsame);
    [by rewrite Hh1; apply not_elem_of_nil|done..|].
  destruct (Hsame Hv) as [Hv1 Hu1].
  destruct (law_xadd_unread rd (mq_key sid2) (mq_fields (user_id_ s) ub text) 1000) as (rd' & mid & Ex & Hx & Hxo).
  specialize (Hx _ _ Hun1 ltac:(done)).
  set (w1' := has_posted w1 p s1 [nd]) in *.
  destruct (Processor_remote (Json := Json) host1 junk1 order sid1 (set_q (set_held w1' [LHandler]) []) p s1 nd ub
    (bytes_of_string text) sid2 rd rd' mid) as [(w1'' & Ep & Hrd1 & _) _].
  { cbn. by intros ?%list_elem_of_singleton. }
  { apply lookup_insert_eq. } { done. } { by rewrite Hu1. } { done. } { done. } { apply bytes_of_string_byte. }
  { rewrite bytes_of_string_length. unfold MAX_CTX_LEN. lia. }
  { done. } { done. } { done. } { by rewrite string_of_bytes_of_string, Hu1. }
  destruct (MQ_WorkerFn_message host2 junk2 xgroup_create (set_redis w2 (mkMgr (Some rd'))) rd' sid2 (user_id_ s) ub text tp ts)
    as (w2' & n & Emq & Hwr & Hbs); [done|done|done|by rewrite Hxo|done|done|unfold MAX_CTX_LEN; lia|done..|].
  destruct (client_shows_chat hostB junkB cb (user_id_ s) text Hl Hua) as (cb' & Ecb & Hl' & Hsc); [unfold MAX_CTX_LEN; lia|].
  exists ca', (frame m.1 m.2), w1', w1'', rd', w2', n, (chat_frame (user_id_ s) (bytes_of_string text)), cb'.
  split_and!; try done.
  - unfold Worker. rewrite (st_bind_Ok _ _ _ (set_held w1' [LHandler]) true) by (unfold st_get; cbn; by rewrite Hrun).
    cbn [negb]. rewrite (st_bind_Ok _ _ _ (set_held w1' [LHandler]) [(Some p, Some nd)]) by (unfold st_get; cbn; by rewrite Hq1).
    rewrite (st_bind_Ok _ _ _ (set_q (set_held w1' [LHandler]) []) tt) by done. by rewrite (st_bind_Ok _ _ _ w1'' tt) by exact Ep.
  - by rewrite Hrd1.
Qed.

(** User 7 on server 1 writes to user 9 on server 2, which has registered its groups. *)
Definition demo_sender : Session := SetVerified (Session.Start (Session_new (λ _, 0))) 7.

Definition demo_place : demo_rd := mkDemoRd ∅ {[("status:9", "server_id") := "2"]} ∅.

Definition demo_groups : grouped :=
  mkGrouped demo_place {[("stream:server:2", "message_group2") := []; ("stream:serverctl:2", "message_group2") := []]}.

Definition demo_server1 : World grouped :=
  mkWorld {[5%nat := demo_sender]} {[7 := 5%nat]} ∅ [] true [] (OnlineStatusUploader_new 10) (mkMgr (Some demo_groups)) [].

Definition demo_server2 : World grouped :=
  mkWorld {[5%nat := demo_session 9 true]} {[9 := 5%nat]} ∅ [] true [] (OnlineStatusUploader_new 10) (mkMgr (Some demo_groups)) [].

Lemma demo_sender_rinv : rinv demo_sender.
Proof. destruct (rinv_start (λ _, 0)) as [H1 H2 H3 H4]. by split. Qed.

Lemma demo_registered :
  RegisterMsgQueue grouped_create (mkMgr (Some (mkGrouped demo_place ∅))) "2" true = Ok (mkMgr (Some demo_groups)).
Proof. vm_compute. reflexivity. Qed.

Lemma demo_caught_up key g : is_Some (unread demo_groups key g) → unread demo_groups key g = Some [].
Proof.
  intros [u Hu]. rewrite Hu. cbn in Hu. unfold demo_groups in Hu. cbn [g_unread] in Hu.
  apply lookup_insert_Some in Hu as [[_ <-]|[_ Hu]]; [done|]. apply lookup_singleton_Some in Hu as [_ <-]. done.
Qed.

Lemma chat_end_to_end_witness :
  ∃ ca' stream w1' w1'' rd' w2' n bs cb',
    client_says LITTLE_ENDIAN (λ _, 0) (mkConsole ("\send 9 hello" +:+ String (char_of 10) "\exit") false)
      (on_connected (AsyncClient_new (λ _, 0)) false) = Ok (mkConsole "\exit" false, ca', stream)
    ∧ node_reads BIG_ENDIAN (λ _, 0) [5; 9; 3; 20]%nat 5 stream demo_server1 = (w1', Ok [])
    ∧ Worker (JsonReader0 := BackendFacts.demo_json) BIG_ENDIAN (λ _, 0) elements string "1" (set_held w1' [LHandler]) = (w1'', Ok WorkerBusy)
    ∧ redis_ (w_redis_ w1'') = Some rd'
    ∧ MQ_WorkerFn LITTLE_ENDIAN (λ _, 0) "2" (set_redis demo_server2 (mkMgr (Some rd'))) = (w2', Ok tt)
    ∧ writes w2' = [] ++ [(5%nat, n)] ∧ write_bytes n = Ok bs
    ∧ cli_deliver BIG_ENDIAN (λ _, 0) 2 (on_connected (AsyncClient_new (λ _, 0)) false) bs = Ok (cb', []) ∧ listening cb'
    ∧ screen cb' = [] ++ ["From UID:7"; "hello"].
Proof.
  eapply (chat_end_to_end (JsonReader0 := BackendFacts.demo_json) grouped_create LITTLE_ENDIAN (λ _, 0)
    (mkConsole ("\send 9 hello" +:+ String (char_of 10) "\exit") false) (on_connected (AsyncClient_new (λ _, 0)) false)
    BIG_ENDIAN (λ _, 0) elements "1" demo_server1 5%nat demo_sender [5; 9; 3; 20]%nat _ _ (mkGrouped demo_place ∅) demo_groups
    demo_groups LITTLE_ENDIAN (λ _, 0) "2" demo_server2 5%nat (demo_session 9 true) BIG_ENDIAN (λ _, 0)
    (on_connected (AsyncClient_new (λ _, 0)) false) 9 "hello" "\exit");
    try first [exact demo_sender_rinv | apply listening_start | exact demo_registered | intros key g _; apply demo_caught_up
              | vm_compute; reflexivity | done | by vm_compute].
  apply Nat.leb_le. reflexivity.
Defined.
