(* ===== verification/QueueThread.v ===== *)
(** * The thread of the queue handler
      (src/src/include/server/mq_handler.hpp, mq_handler.cpp)

    [MQHandler]'s thread tests a flag and runs a round ([MQ_WorkerFn] of ChatEnd.v) again and
    again; the destructor clears the flag and joins.  Only a timeout of Redis is caught: any
    other exception leaves the thread's function, which ends the process. *)

From S2P Require Import Prelude Decimal CppString FieldOp MsgNode StatusService Session SessionFacts RedisBase Timer Backend.
From S2P Require Import ServerSetup BackendFacts Registry ServerClass Gateway GatewayFacts Client ClientFacts ClientLogin ChatEnd.

Section queue_thread.
Context {Rd : Type} `{!RedisStreams Rd} (host : byte_order) (junk : nat → Z) (server_id : string).

(** One step of the thread; a finished thread stays finished *)
Definition mq_step (s : MQHandler * World Rd) : res (MQHandler * World Rd) :=
  let '(h, w) := s in
  match mq_worker_ h with
  | QTest => Ok (mkMq (mq_running_ h) (if mq_running_ h then QRound else QDone), w)
  | QRound =>
      match MQ_WorkerFn host junk server_id w with
      | (w', Ok _) => Ok (mkMq (mq_running_ h) QTest, w')
      | (w', Throw _) => Ok (mkMq (mq_running_ h) QTerminated, w')
      | (_, UB u) => UB u
      end
  | _ => Ok s
  end.

Fixpoint mq_steps (n : nat) (s : MQHandler * World Rd) : res (MQHandler * World Rd) :=
  match n with O => Ok s | S n' => s ← mq_step s; mq_steps n' s end.

(** The destructor up to [join]; the thread is joinable from the constructor on *)
Definition MQHandler_stop (h : MQHandler) : MQHandler := mkMq false (mq_worker_ h).

(** [join] returns *)
Definition mq_joined (h : MQHandler) : bool := match mq_worker_ h with QDone => true | _ => false end.

(** The rounds that were begun when the flag was cleared *)
Definition rest_of (h : MQHandler) (w : World Rd) : World Rd :=
  match mq_worker_ h with QRound => (MQ_WorkerFn host junk server_id w).1 | _ => w end.

Lemma stopped_steps h w :
  mq_running_ h = false → mq_worker_ h ≠ QTerminated →
  (mq_worker_ h = QRound → (MQ_WorkerFn host junk server_id w).2 = Ok tt) →
  mq_steps 2 (h, w) = Ok (mkMq false QDone, rest_of h w).
Proof.
  intros Hr Ht Hw. destruct h as [run pc]. cbn in Hr, Ht, Hw. subst run. unfold rest_of. cbn [mq_worker_].
  destruct pc; try done. cbn [mq_steps mq_step mq_worker_]. specialize (Hw eq_refl).
  destruct (MQ_WorkerFn host junk server_id w) as [w' [[]| |]]; done.
Qed.
End queue_thread.

(** ** Theorems *)

(** The destructor returns: once the flag is cleared the thread finishes the round it is in,
    if it is in one, starts no other and ends after at most two steps; the world is the one
    that round leaves. *)
Theorem queue_thread_stops {Rd} `{!RedisStreams Rd} host junk server_id (h : MQHandler) (w : World Rd) :
  mq_worker_ h ≠ QTerminated →
  (mq_worker_ h = QRound → (MQ_WorkerFn host junk server_id w).2 = Ok tt) →
  ∃ h', mq_steps host junk server_id 2 (MQHandler_stop h, w) = Ok (h', rest_of host junk server_id h w)
    ∧ mq_joined h' = true
    ∧ ∀ n, mq_steps host junk server_id n (h', rest_of host junk server_id h w) = Ok (h', rest_of host junk server_id h w).
Proof.
  intros Ht Hw. exists (mkMq false QDone). split; [|split; [done|]].
  - by apply (stopped_steps host junk server_id (MQHandler_stop h) w).
  - induction n as [|n IH]; [done|]. cbn [mq_steps mq_step mq_worker_ mbind res_bind]. exact IH.
Qed.

Lemma queue_thread_stops_witness :
  let w := set_redis (demo_world demo_place (demo_session 9 true)) (mkMgr (Some demo_place)) in
  ∃ h', mq_steps LITTLE_ENDIAN (λ _, 0) "2" 2 (MQHandler_stop (mkMq true QRound), w)
      = Ok (h', rest_of LITTLE_ENDIAN (λ _, 0) "2" (mkMq true QRound) w)
    ∧ mq_joined h' = true
    ∧ ∀ n, mq_steps LITTLE_ENDIAN (λ _, 0) "2" n (h', rest_of LITTLE_ENDIAN (λ _, 0) "2" (mkMq true QRound) w)
        = Ok (h', rest_of LITTLE_ENDIAN (λ _, 0) "2" (mkMq true QRound) w).
Proof.
  cbn zeta. apply (queue_thread_stops LITTLE_ENDIAN (λ _, 0) "2" (mkMq true QRound)); [done|].
  intros _. vm_compute. reflexivity.
Defined.

(** One bad entry ends the server: when the first new entry of the message stream lacks the
    sender, the exception of [at] is caught nowhere and the process terminates; the entry is
    delivered to the group and will not be seen again. *)
Theorem malformed_entry_terminates {Rd} `{!RedisOps Rd, !RedisStreams Rd} xgroup_create `{!StreamLaws Rd xgroup_create}
    host junk sid run (w : World Rd) rd fs rest :
  redis_ (w_redis_ w) = Some rd →
  unread rd (mq_key sid) (group_name sid) = Some (fs :: rest) → unread rd (mq2_key sid) (group_name sid) = Some [] →
  (list_to_map fs : gmap string string) !! "from" = None →
  ∃ rd' w', mq_step host junk sid (mkMq run QRound, w) = Ok (mkMq run QTerminated, w')
    ∧ redis_ (w_redis_ w') = Some rd' ∧ unread rd' (mq_key sid) (group_name sid) = Some (drop 10 (fs :: rest)).
Proof.
  intros Hrd Hu Hc Hf.
  destruct (law_xreadgroup rd (group_name sid) "server0" (mq_key sid) (mq2_key sid) 10 _ _ (mq_keys_differ sid sid) ltac:(done) Hu Hc)
    as (rd' & stms & E & Hp & Hun & _).
  assert (stms = [(mq_key sid, to_item fs :: (to_item <$> take 9 rest))]) as -> by (apply Permutation_singleton_r; exact Hp).
  set (w' := set_redis w (mkMgr (Some rd'))). exists rd', w'. split; [|split; [done|]].
  - assert (Em : MessageHandler host junk (to_item fs) w' = (w', Throw (out_of_range "_Map_base::at"))).
    { unfold MessageHandler, to_item, st_bind at 1, st_res at 1, attr_at at 1. by rewrite Hf. }
    unfold mq_step, MQ_WorkerFn, RecvFromMsgQueueNoACK, GetRedis. cbn [mq_worker_]. rewrite Hrd. cbn [mbind res_bind].
    change ("server" +:+ "0") with "server0". rewrite E. cbn [mbind res_bind fst snd]. fold w'.
    unfold MQ_dispatch. cbn [for_each fst snd]. rewrite bool_decide_eq_true_2 by done. cbn [for_each].
    unfold st_bind. by rewrite Em.
  - exact Hun.
Qed.

(** The group of server 2 has an entry to be given that names no sender. *)
Definition demo_malformed : grouped :=
  mkGrouped demo_place {[("stream:server:2", "message_group2") := [[("to", "9")]]; ("stream:serverctl:2", "message_group2") := []]}.

Lemma malformed_entry_terminates_witness :
  ∃ rd' w', mq_step LITTLE_ENDIAN (λ _, 0) "2" (mkMq true QRound, set_redis demo_server2 (mkMgr (Some demo_malformed))) = Ok (mkMq true QTerminated, w')
    ∧ redis_ (w_redis_ w') = Some rd' ∧ unread rd' (mq_key "2") (group_name "2") = Some (drop 10 [[("to", "9")]]).
Proof.
  apply (malformed_entry_terminates grouped_create LITTLE_ENDIAN (λ _, 0) "2" true
    (set_redis demo_server2 (mkMgr (Some demo_malformed))) demo_malformed [("to", "9")] []); vm_compute; reflexivity.
Defined.
