(* ===== verification/Authentic.v ===== *)
(** * Nobody speaks under another user's name

    The invariant follows a user id from the password check at the gateway through the token,
    the verified session and the stream entry to the frame that is written to a receiver's
    socket: a chat frame names as its sender only a user of [V], the users whose password was
    accepted.  Every program of a backend and of the gateway keeps it; System.v puts the
    programs together.

    [OriginLaws] is what this needs of Redis: a command brings nothing into the strings and
    streams but what it was given.  Keys may vanish. *)

From S2P Require Import Prelude Preserve Decimal CppString FieldOp MsgNode Snowflake Security Dbm StatusService.
From S2P Require Import Gateway GatewayFacts Client ClientFacts ClientLogin ServerSetup ChatEnd.
From S2P Require Import Session SessionFacts RedisBase Timer Backend BackendFacts Registry.

(** ** What Redis may hold *)

Class RedisOrigin (Rd : Type) `{!RedisOps Rd} := { entries : Rd → string → list (list (string * string)) }.

(** Nothing has come in; strings and entries may be gone *)
Definition no_news {Rd} `{!RedisOps Rd, !RedisOrigin Rd} (rd rd' : Rd) : Prop :=
  (∀ k v, redis_get rd' k = Ok (Some v) → redis_get rd k = Ok (Some v))
  ∧ ∀ k fs, fs ∈ entries rd' k → fs ∈ entries rd k.

Class OriginLaws (Rd : Type) `{!RedisOps Rd, !GatewayRedis Rd, !RedisStreams Rd, !RedisOrigin Rd} := {
  origin_hsetex rd k fs ttl rd' n : redis_hsetex rd k fs ttl = Ok (rd', n) → no_news rd rd';
  origin_hset rd k fs rd' : redis_hset rd k fs = Ok rd' → no_news rd rd';
  origin_pexpire rd k px rd' : redis_pexpire rd k px = Ok rd' → no_news rd rd';
  origin_pipeline rd cmds rd' : redis_pipeline rd cmds = Ok rd' → no_news rd rd';
  origin_setex rd k ttl v rd' : redis_setex rd k ttl v = Ok rd' →
    (∀ k' v', redis_get rd' k' = Ok (Some v') → (k' = k ∧ v' = v) ∨ redis_get rd k' = Ok (Some v'))
    ∧ ∀ k' fs, fs ∈ entries rd' k' → fs ∈ entries rd k';
  origin_xadd rd k fs n rd' id : redis_xadd rd k fs n = Ok (rd', id) →
    (∀ k' v', redis_get rd' k' = Ok (Some v') → redis_get rd k' = Ok (Some v'))
    ∧ ∀ k' fs', fs' ∈ entries rd' k' → (k' = k ∧ fs' = fs) ∨ fs' ∈ entries rd k';
  origin_xreadgroup rd g c ks n rd' stms : redis_xreadgroup rd g c ks n = Ok (rd', stms) →
    no_news rd rd' ∧ ∀ k its it, (k, its) ∈ stms → it ∈ its → it = None ∨ ∃ fs, fs ∈ entries rd k ∧ it = to_item fs
}.

(** ** The sender named in a frame *)

Definition sender_of (bs : list Z) : Z := be_value (take 8 (drop 8 bs)).

(** A frame with this tag and room for a sender names one *)
Definition names_sender (bs : list Z) : Prop :=
  take 4 bs = be_bytes 4 (tag_value CHAT_MSG_TOCLI) ∧ (16 <= length bs)%nat.

Section auth.
Context (V : Z → Prop) (HV : ∀ x, V x → is_u64 x).

Definition node_auth (m : MsgNode) : Prop := ∀ bs, write_bytes m = Ok bs → names_sender bs → V (sender_of bs).

Lemma memcpy_to_inv dst off src b : memcpy_to dst off src = Ok b → b = splice dst off src ∧ (off + length src <= length dst)%nat.
Proof. unfold memcpy_to. case_if; [|done]. by intros [= <-]. Qed.

Lemma memcpy_from_inv src off n b : memcpy_from src off n = Ok b → b = take n (drop off src).
Proof. unfold memcpy_from. case_if; [|done]. by intros [= <-]. Qed.

Lemma length_to_mem host n x : length (to_mem host n x) = n.
Proof. unfold to_mem. by destruct host; rewrite ?length_rev, length_le_bytes. Qed.

(** Writing around the sender's field leaves it. *)
Lemma sender_kept (b s : list Z) off :
  (off + length s <= length b)%nat → (off + length s <= 8 ∨ 16 <= off)%nat →
  take 8 (drop 8 (splice b off s)) = take 8 (drop 8 b).
Proof.
  intros Hl [H|H].
  - by rewrite splice_after by lia.
  - rewrite !take_drop_commute. by rewrite splice_before by lia.
Qed.

(** A node whose block has a known user in the sender's field *)
Lemma node_auth_from m b from :
  data_ m = Some b → cur_pos_ m = 0 → take 8 (drop 8 b) = be_bytes 8 from → V from → node_auth m.
Proof.
  intros Hd Hc Hb Hv bs Hw [_ Hlen]. unfold write_bytes, block in Hw. rewrite Hd, Hc in Hw. cbn [mbind res_bind] in Hw.
  apply memcpy_from_inv in Hw. change (Z.to_nat 0) with 0%nat in Hw. rewrite drop_0 in Hw. subst bs.
  unfold sender_of. rewrite length_take in Hlen.
  rewrite take_drop_commute, take_take, Nat.min_l by lia. rewrite <- take_drop_commute, Hb, be_value_bytes; [done|by apply HV].
Qed.

(** The node of a local delivery *)
Lemma local_node_auth host msg m b b' from :
  SetTagField host (ResetCurPos msg) (tag_value CHAT_MSG_TOCLI) = Ok m → block m = Ok b →
  WriteNetField64 host b (Z.to_nat HEAD_LEN) from = Ok b' → V from → node_auth (set_data m b').
Proof.
  intros Hm Hb Hw Hv. apply (node_auth_from _ b' from); [done| | |done].
  - unfold SetTagField in Hm. inv_res. done.
  - unfold WriteNetField64 in Hw. rewrite to_mem_htonll in Hw by auto. apply memcpy_to_inv in Hw as [-> Hl].
    change (Z.to_nat HEAD_LEN) with 8%nat in *.
    rewrite <- (length_be_bytes 8 from) at 1. apply splice_read. done.
Qed.

(** The node made of a stream entry *)
Lemma mq_node_auth host junk from content m : mq_node host junk from content = Ok m → V from → node_auth m.
Proof.
  intros Hm Hv. unfold mq_node, write_content, SetTagField, SetContentLenField, block in Hm. inv_res.
  cbn [data_ set_data mbind res_bind] in *. inv_res. cbn [data_ set_data] in *. inv_res.
  unfold WriteNetField64, WriteNetField32 in *.
  repeat match goal with H : memcpy_to _ _ _ = Ok _ |- _ => apply memcpy_to_inv in H as [-> ?] end.
  rewrite to_mem_htonll in * by auto. change (Z.to_nat HEAD_LEN) with 8%nat in *. change (Z.to_nat TAG_LEN) with 4%nat in *.
  eapply (node_auth_from _ _ from); [reflexivity|done| |done].
  rewrite !sender_kept by (rewrite ?length_to_mem in *; first [done | lia]).
  rewrite <- (length_be_bytes 8 from) at 1. by apply splice_read.
Qed.

(** The welcome is no chat message. *)
Lemma welcome_auth host junk text m :
  MsgNode_of host junk (bytes_of_string text) (u32 (Z.of_nat (String.length text))) (tag_value VERIFY_DONE) = Ok m →
  0 < Z.of_nat (String.length text) < 2 ^ 20 → node_auth m.
Proof.
  intros Hm Hlen bs Hw [Ht _]. rewrite u32_id in Hm by (unfold is_u32; lia).
  rewrite MsgNode_of_Ok in Hm; [|apply bytes_of_string_byte|rewrite bytes_of_string_length; lia|unfold HEAD_LEN, TAG_LEN, LENGTH_LEN; lia|done].
  injection Hm as <-. unfold write_bytes, block in Hw. cbn [data_ cur_pos_ ctx_len_ mbind res_bind] in Hw.
  apply memcpy_from_inv in Hw. change (Z.to_nat 0) with 0%nat in Hw. rewrite drop_0 in Hw. subst bs.
  unfold HEAD_LEN, TAG_LEN, LENGTH_LEN in Ht. rewrite u32_id in Ht by (unfold is_u32; lia).
  rewrite take_take, Nat.min_l in Ht by lia. unfold frame in Ht. rewrite take_app_length' in Ht by (by rewrite length_be_bytes).
  by vm_compute in Ht.
Qed.

(** ** The invariant of a process *)

Definition rd_auth {Rd} `{!RedisOps Rd, !RedisOrigin Rd} (rd : Rd) : Prop :=
  (∀ token v uid, redis_get rd (token_key token) = Ok (Some v) → stoull v = Ok uid → V uid)
  ∧ ∀ sid fs f uid, fs ∈ entries rd (mq_key sid) →
      (list_to_map fs : gmap string string) !! "from" = Some f → stoull f = Ok uid → V uid.

Lemma rd_auth_no_news {Rd} `{!RedisOps Rd, !RedisOrigin Rd} (rd rd' : Rd) : no_news rd rd' → rd_auth rd → rd_auth rd'.
Proof. intros [Hs He] [Ht Hf]. split; eauto. Qed.

Definition sess_auth (s : Session) : Prop := (verified_ s = true → V (user_id_ s)) ∧ Forall node_auth (send_q_ s).

Record world_auth {Rd} `{!RedisOps Rd, !RedisOrigin Rd} (w : World Rd) : Prop := {
  wa_sess : ∀ p s, objs w !! p = Some s → sess_auth s;
  wa_writes : ∀ p m, (p, m) ∈ writes w → node_auth m;
  wa_redis : ∀ rd, redis_ (w_redis_ w) = Some rd → rd_auth rd
}.
End auth.

(** More users may be known. *)
Lemma node_auth_mono (V V' : Z → Prop) m : (∀ x, V x → V' x) → node_auth V m → node_auth V' m.
Proof. intros HV Hm bs Hb Hn. by apply HV, Hm. Qed.

Lemma rd_auth_mono {Rd} `{!RedisOps Rd, !RedisOrigin Rd} (V V' : Z → Prop) (rd : Rd) :
  (∀ x, V x → V' x) → rd_auth V rd → rd_auth V' rd.
Proof. intros HV [Ht Hf]. split; eauto. Qed.

Lemma world_auth_mono {Rd} `{!RedisOps Rd, !RedisOrigin Rd} (V V' : Z → Prop) (w : World Rd) :
  (∀ x, V x → V' x) → world_auth V w → world_auth V' w.
Proof.
  intros HV [Hs Hw Hr]. split.
  - intros p s Hp. destruct (Hs p s Hp) as [Hv Hq]. split; [auto|].
    eapply Forall_impl; [|exact Hq]. intros m. by apply node_auth_mono.
  - intros p m Hp. eapply node_auth_mono; eauto.
  - intros rd Hp. eapply rd_auth_mono; eauto.
Qed.

(** ** The programs of a backend *)

Section backend.
Context {Rd J : Type} `{!RedisOps Rd, !GatewayRedis Rd, !RedisStreams Rd, !RedisOrigin Rd, !OriginLaws Rd, !JsonReader J}.
Context (V : Z → Prop) (HV : ∀ x, V x → is_u64 x).
Context (host : byte_order) (junk : nat → Z) (order : gset Z → list Z) (server_id : string).

Abbreviation auth := (preserves (world_auth V (Rd := Rd))).

Lemma auth_mod (f : World Rd → World Rd) :
  (∀ w, objs (f w) = objs w) → (∀ w, writes (f w) = writes w) → (∀ w, w_redis_ (f w) = w_redis_ w) → auth (st_mod f).
Proof. intros H1 H2 H3. apply preserves_mod. intros w [Hs Hw Hr]. split; rewrite ?H1, ?H2, ?H3; done. Qed.

Lemma auth_lock l : auth (lock l).
Proof. intros w [Hs Hw Hr]. unfold lock. by destruct (decide _). Qed.

Lemma auth_unlock l : auth (unlock l).
Proof. intros w [Hs Hw Hr]. done. Qed.

Lemma auth_put_obj p s : sess_auth V s → auth (put_obj p s).
Proof.
  intros Ha w [Hs Hw Hr]. split; [|done|done]. intros q t. cbn. intros [[<- <-]|[_ Hq]]%lookup_insert_Some; eauto.
Qed.

Lemma auth_get_obj {A} p (k : Session → st (World Rd) A) :
  (∀ s, sess_auth V s → auth (k s)) → auth (st_bind (get_obj p) k).
Proof.
  intros Hk. eapply returns_bind; [|exact Hk]. intros w Hw. unfold get_obj.
  destruct (objs w !! p) as [s|] eqn:E; (split; [done|]); [|done]. intros a [= <-]. by eapply wa_sess.
Qed.

Lemma auth_put_redis rd : rd_auth V rd → auth (put_redis rd).
Proof. intros Ha w [Hs Hw Hr]. split; [done|done|]. by intros rd' [= <-]. Qed.

Lemma auth_redis {A} (k : Rd → st (World Rd) A) : (∀ rd, rd_auth V rd → auth (k rd)) → auth (st_bind GetRedis_w k).
Proof.
  intros Hk. eapply returns_bind; [|exact Hk]. intros w Hw. split; [done|]. unfold GetRedis_w, GetRedis. cbn.
  intros rd. destruct (redis_ (w_redis_ w)) as [rd'|] eqn:E; [|done]. intros [= <-]. by eapply wa_redis.
Qed.

Hint Resolve auth_lock auth_unlock : keeps.

(** Also steps that touch neither sessions, writes nor Redis *)
Ltac keep_auth := repeat (first [progress keep | apply auth_mod; done]).

Lemma auth_PostMessage s m : auth (PostMessage s m).
Proof. unfold PostMessage. keep_auth. Qed.

Lemma auth_RemoveSession uid : auth (RemoveSession uid).
Proof. unfold RemoveSession. keep_auth. Qed.

Lemma auth_RemoveTempSession p : auth (RemoveTempSession p).
Proof. unfold RemoveTempSession. keep_auth. Qed.

Lemma auth_AddTempSession p : auth (AddTempSession p).
Proof. unfold AddTempSession. keep_auth. Qed.

Lemma auth_AddSession uid p : auth (AddSession uid p).
Proof. unfold AddSession. keep_auth. Qed.

Lemma auth_GetSession uid : auth (GetSession uid).
Proof. unfold GetSession. keep_auth. Qed.

Hint Resolve auth_PostMessage auth_RemoveSession auth_RemoveTempSession auth_AddTempSession auth_AddSession auth_GetSession : keeps.

Lemma auth_run_outs p os : auth (run_outs p os).
Proof. induction os as [|o os IH]; cbn [run_outs]; [keep_auth|]. unfold run_out. keep_auth. Qed.

Hint Resolve auth_run_outs : keeps.

Lemma auth_Close p : auth (Close p).
Proof.
  unfold Close. apply auth_get_obj. intros s Hs.
  assert (Hc : sess_auth V (Session.Close true true s).1) by (unfold Session.Close; by destruct (down_ s)).
  destruct (Session.Close true true s) as [s' outs]. apply preserves_bind; [by apply auth_put_obj|]. intros _. keep_auth.
Qed.

Hint Resolve auth_Close : keeps.

Lemma auth_StopSession uid : auth (StopSession uid).
Proof. unfold StopSession. keep_auth. Qed.

Lemma auth_start_write p m : (∀ n, m = Some n → node_auth V n) → auth (start_write p m).
Proof.
  intros Hm. destruct m as [m|]; cbn [start_write]; [|keep_auth]. intros w [Hs Hw Hr]. split; [done| |done].
  intros q n. cbn. intros [Hin|Hin]%elem_of_app; [by eapply Hw|].
  apply list_elem_of_singleton in Hin. simplify_eq. by apply Hm.
Qed.

Lemma QueueSend_auth s :
  sess_auth V s → sess_auth V (QueueSend s).1 ∧ ∀ n, (QueueSend s).2 = Some n → node_auth V n.
Proof.
  intros [Hv Hq]. unfold QueueSend, queue_pop. destruct (send_q_ s) as [|m q] eqn:E.
  { split; [|done]. split; [done|]. cbn. rewrite E. constructor. }
  inversion_clear Hq as [|?? Hm Hq']. split; [by split|]. by intros n [= <-].
Qed.

Lemma auth_SendNode p m : node_auth V m → auth (SendNode p m).
Proof.
  intros Hm. unfold SendNode. apply auth_get_obj. intros s [Hv Hq].
  assert (Hs : sess_auth V (Send_node s m).1 ∧ ∀ n, (Send_node s m).2 = Some n → node_auth V n).
  { unfold Send_node, enqueue. set (s1 := set_queue _ _ _).
    assert (Hs1 : sess_auth V s1) by (split; [done|apply Forall_app; split; [done|by constructor]]).
    destruct (send_q_ s); [by apply QueueSend_auth|by split]. }
  destruct (Send_node s m) as [s' wr]. apply preserves_bind; [by apply auth_put_obj, Hs|]. intros _. by apply auth_start_write, Hs.
Qed.

Lemma auth_on_read p r : auth (on_read host junk p r).
Proof.
  unfold on_read. apply auth_get_obj. intros s [Hv Hq]. apply preserves_res_bind. intros [s' out] E.
  destruct (recv_step_kept _ _ _ _ _ _ _ _ E) as (Hu & Hve & Hsq).
  apply preserves_bind; [apply auth_put_obj; split; cbn [fst]; by rewrite ?Hve, ?Hu, ?Hsq|]. intros _. keep_auth.
Qed.

Lemma auth_on_accept p : auth (on_accept junk p).
Proof.
  unfold on_accept. apply preserves_bind; [by apply auth_put_obj; split|]. intros _.
  apply preserves_bind; [keep_auth|]. intros _. apply auth_get_obj. intros s Hs. by apply auth_put_obj.
Qed.

(** The completion of a write of session [p] *)
Definition on_written (p : nat) (err : bool) : st (World Rd) unit :=
  (s <- get_obj p ;;
   let '(s', outs, wr) := write_cb true true s err in
   put_obj p s' ;; run_outs p outs ;; start_write p wr)%cpp.

Lemma auth_on_written p err : auth (on_written p err).
Proof.
  unfold on_written. apply auth_get_obj. intros s Hs.
  assert (H : sess_auth V (write_cb true true s err).1.1 ∧ ∀ n, (write_cb true true s err).2 = Some n → node_auth V n).
  { unfold write_cb. destruct err; [cbn; unfold Session.Close; by destruct (down_ s)|].
    destruct (down_ s); [by split|]. pose proof (QueueSend_auth s Hs) as Hq. by destruct (QueueSend s). }
  destruct (write_cb true true s err) as [[s' outs] wr]. apply preserves_bind; [by apply auth_put_obj, H|]. intros _.
  apply preserves_bind; [keep_auth|]. intros _. by apply auth_start_write, H.
Qed.

(** *** Redis and the handler *)

Hint Resolve auth_start_write auth_StopSession : keeps.

Lemma VerifyUser_auth token : returns (world_auth V (Rd := Rd)) (VerifyUser token) (λ ans, ∀ uid, ans = Some uid → V uid).
Proof.
  intros w Hw. unfold VerifyUser, st_bind, GetRedis_w, GetRedis, st_res, st_ret. cbn.
  destruct (redis_ (w_redis_ w)) as [rd|] eqn:E; [|done].
  destruct (redis_get rd ("token:" +:+ token)) as [[v|]| |] eqn:Eg; [|by split; [|intros a [= <-]]|done..].
  destruct (stoull v) as [uid| |] eqn:Es; [|done..]. split; [done|]. intros a [= <-] uid' [= <-].
  exact (proj1 (wa_redis V w Hw rd E) token v uid Eg Es).
Qed.

Lemma auth_UpdateUserStatus sid uid : auth (UpdateUserStatus sid uid).
Proof.
  unfold UpdateUserStatus. apply auth_redis. intros rd Hrd. apply preserves_res_bind. intros [rd' n] E.
  apply preserves_bind; [|intros _; keep_auth]. apply auth_put_redis. eapply rd_auth_no_news; [by eapply origin_hsetex|done].
Qed.

Lemma auth_GetUserLocation uid : auth (GetUserLocation uid).
Proof. unfold GetUserLocation. apply auth_redis. intros rd _. keep_auth. Qed.

(** An entry put into a stream names the session's own user. *)
Lemma auth_SendToMsgQueue sid from to content : V from → auth (SendToMsgQueue sid from to content).
Proof.
  intros Hf. unfold SendToMsgQueue. apply auth_redis. intros rd [Ht He]. apply preserves_res_bind. intros [rd' id] E.
  apply preserves_bind; [|intros _; keep_auth]. apply auth_put_redis. destruct (origin_xadd _ _ _ _ _ _ E) as [Hs Hx].
  split; [eauto|]. intros sid' fs f uid Hin Hl Hst. apply Hx in Hin as [[_ ->]|Hin]; [|by eapply He].
  assert (f = to_string from) as -> by (revert Hl; generalize (to_string from), (to_string to); intros a b; cbn; by intros [= <-]).
  rewrite stoull_to_string in Hst by auto. by injection Hst as <-.
Qed.

Lemma auth_SendString p text tag :
  (∀ m, MsgNode_of host junk (bytes_of_string text) (u32 (Z.of_nat (String.length text))) tag = Ok m → node_auth V m) →
  auth (SendString host junk p text tag).
Proof. intros Hm. unfold SendString. apply preserves_res_bind. intros m E. by apply auth_SendNode, Hm. Qed.

Hint Resolve auth_UpdateUserStatus auth_GetUserLocation : keeps.

Lemma auth_reject p : auth (reject p).
Proof. unfold reject. keep_auth. Qed.

Lemma auth_on_verify p msg : auth (on_verify host junk J server_id p msg).
Proof.
  unfold on_verify. apply auth_get_obj. intros s [_ Hq]. destruct (IsVerified s) eqn:Hv; [keep_auth|].
  apply preserves_bind; [keep_auth|]. intros content. apply preserves_bind; [keep_auth|]. intros text.
  destruct (json_parse _) as [root|]; [|apply auth_reject]. apply preserves_bind; [keep_auth|].
  intros [[token uid]|]; [|apply auth_reject]. eapply returns_bind; [apply VerifyUser_auth|]. intros ans Hans.
  destruct (decide _) as [->|]; [|apply auth_reject]. specialize (Hans uid eq_refl).
  apply preserves_bind; [apply auth_put_obj; unfold SetVerified, IsVerified in *; by rewrite Hv|]. intros _.
  apply preserves_bind; [apply auth_AddSession|]. intros _. apply preserves_bind; [keep_auth|]. intros _.
  apply auth_SendString. intros m E. by apply (welcome_auth V host junk _ m E).
Qed.

Lemma auth_on_chat p msg : auth (on_chat host p msg).
Proof.
  unfold on_chat. apply auth_get_obj. intros s [Hs _]. destruct (IsVerified s) eqn:Hv; cbn [negb]; [|keep_auth].
  specialize (Hs Hv). apply preserves_bind; [keep_auth|]. intros content. apply preserves_bind; [keep_auth|]. intros target.
  apply preserves_bind; [apply auth_GetSession|]. intros [tp|].
  - apply preserves_res_bind. intros m Em. apply preserves_res_bind. intros b Eb. apply preserves_res_bind. intros b' Eb'.
    apply auth_SendNode. by eapply (local_node_auth V HV host msg m b b').
  - apply preserves_bind; [keep_auth|]. intros [sid|]; [|keep_auth]. apply preserves_bind; [keep_auth|]. intros tail.
    apply preserves_bind; [by apply auth_SendToMsgQueue|]. intros _. keep_auth.
Qed.

(** Uploads of the online users *)
Definition upload_auth (s : OnlineStatusUploader * BaseRedisMgr Rd) : Prop :=
  ∀ rd, redis_ s.2 = Some rd → rd_auth V rd.

Lemma auth_UploadImpl : preserves upload_auth (Timer.UploadImpl redis_pipeline order).
Proof.
  intros [u [rd0]] H. unfold UploadImpl, GetRedis. destruct (in_progress_ u); [done|].
  destruct rd0 as [rd|]; [|done]. cbn [redis_]. destruct (redis_pipeline rd (upload_cmds order (on_sess_ u) (removal_sess_ u))) as [rd'| |] eqn:E; [|done..].
  intros rd1 [= <-]. eapply rd_auth_no_news; [by eapply origin_pipeline|]. by apply H.
Qed.

Lemma auth_UpdateNow : preserves upload_auth (Timer.UpdateNow redis_pipeline order).
Proof. unfold UpdateNow. apply preserves_bind; [apply auth_UploadImpl|]. intros _. by apply preserves_mod. Qed.

Lemma auth_upload_world (w : World Rd) (prog : st (OnlineStatusUploader * BaseRedisMgr Rd) unit) :
  preserves upload_auth prog → world_auth V w →
  world_auth V (set_redis (set_uploader w (prog (status_uploader_ w, w_redis_ w)).1.1) (prog (status_uploader_ w, w_redis_ w)).1.2).
Proof. intros Hp [Hs Hw Hr]. split; [done|done|]. by apply (Hp (_, _)). Qed.

Lemma auth_uploader_UpdateNow : auth (uploader_UpdateNow order).
Proof.
  intros w Hw. pose proof (auth_upload_world w _ auth_UpdateNow Hw) as H. unfold uploader_UpdateNow.
  by destruct (Timer.UpdateNow _ _ _) as [[u m] r].
Qed.

(** The callback of the uploader's timer *)
Definition on_upload : st (World Rd) unit := λ w,
  let '((u, m), r) := Timer.UploadImpl redis_pipeline order (status_uploader_ w, w_redis_ w) in
  (set_redis (set_uploader w u) m, r).

Lemma auth_on_upload : auth on_upload.
Proof.
  intros w Hw. pose proof (auth_upload_world w _ auth_UploadImpl Hw) as H. unfold on_upload.
  by destruct (Timer.UploadImpl _ _ _) as [[u m] r].
Qed.

Hint Resolve auth_on_verify auth_on_chat auth_uploader_UpdateNow : keeps.

Lemma auth_Processor sess msg : auth (Processor host junk order J server_id sess msg).
Proof.
  unfold Processor, uploader_RemoveSession, uploader_AddSession. destruct sess as [p|]; [|keep_auth].
  apply auth_get_obj. intros s _. keep_auth.
Qed.

Hint Resolve auth_Processor : keeps.

Lemma auth_Worker : auth (Worker host junk order J server_id).
Proof. unfold Worker. keep_auth. Qed.

(** *** The queue handler *)

Definition item_auth (it : item) : Prop :=
  ∀ fs f uid, it = Some fs → fs !! "from" = Some f → stoull f = Ok uid → V uid.

Lemma auth_MessageHandler it : item_auth it → auth (MessageHandler host junk it).
Proof.
  intros Hit. unfold MessageHandler. destruct it as [fs|]; [|keep_auth].
  apply preserves_res_bind. intros f Ef. apply preserves_res_bind. intros from Efrom.
  assert (Hfrom : V from).
  { unfold attr_at in Ef. destruct (fs !! "from") as [f'|] eqn:E; [|done]. injection Ef as ->. by eapply Hit. }
  do 3 (apply preserves_bind; [keep_auth|intros ?]). apply preserves_res_bind. intros m Em.
  apply preserves_bind; [keep_auth|]. intros [tp|]; [|keep_auth]. apply auth_SendNode. by eapply (mq_node_auth V HV).
Qed.

Lemma auth_CtrlMsgHandler it : auth (CtrlMsgHandler it).
Proof. unfold CtrlMsgHandler. keep_auth. Qed.

Lemma auth_for_each {A} (f : A → st (World Rd) unit) l : (∀ x, x ∈ l → auth (f x)) → auth (for_each f l).
Proof.
  induction l as [|x l IH]; intros Hf; cbn [for_each]; [keep_auth|].
  apply preserves_bind; [apply Hf; set_solver|]. intros _. apply IH. intros y Hy. apply Hf. set_solver.
Qed.

Lemma auth_MQ_dispatch stms :
  (∀ its it, (mq_key server_id, its) ∈ stms → it ∈ its → item_auth it) → auth (MQ_dispatch host junk server_id stms).
Proof.
  intros Hst. unfold MQ_dispatch. apply auth_for_each. intros [k its] Hin. cbn [fst snd].
  case_bool_decide as Hk; [subst k|case_bool_decide]; [..|keep_auth]; apply auth_for_each; intros it Hit.
  - apply auth_MessageHandler. by eapply Hst.
  - apply auth_CtrlMsgHandler.
Qed.

Lemma auth_MQ_WorkerFn : auth (MQ_WorkerFn host junk server_id).
Proof.
  intros w Hw. unfold MQ_WorkerFn, RecvFromMsgQueueNoACK, GetRedis.
  destruct (redis_ (w_redis_ w)) as [rd|] eqn:Er; cbn [mbind res_bind]; [|by destruct (is_timeout _)].
  destruct (redis_xreadgroup _ _ _ _ _) as [[rd' stms]|e|] eqn:E; cbn [mbind res_bind]; [|by destruct (is_timeout e)|done].
  destruct (origin_xreadgroup _ _ _ _ _ _ _ E) as [Hnn Hitems]. pose proof (wa_redis V w Hw rd Er) as Hrd.
  apply auth_MQ_dispatch.
  - intros its it Hin Hit fs f uid -> Hf Hst. destruct (Hitems _ _ _ Hin Hit) as [|(fs' & Hfs & [= ->])]; [done|].
    by eapply (proj2 Hrd).
  - destruct Hw as [Hs Hwr _]. split; [done|done|]. cbn. intros rd0 [= <-]. by eapply rd_auth_no_news.
Qed.
End backend.

(** ** The gateway *)

Section gateway.
Context {D Rd Sv J : Type} `{!MySql D, C : Crypto, !RedisOps Rd, !GatewayRedis Rd, !RedisStreams Rd, !RedisOrigin Rd, !OriginLaws Rd, !MinimalRPC Sv, !JsonLib J}.
Context (V : Z → Prop) (HV : ∀ x, V x → is_u64 x).
Context (base64 : list Z → string) (ndebug : bool) (junk : nat → list Z).

Definition gate_auth (g : Gateway D Rd Sv) : Prop := ∀ rd, redis_ (g_redis_ g) = Some rd → rd_auth V rd.

Abbreviation gauth := (preserves gate_auth).

Lemma gate_redis {A} (k : Rd → st (Gateway D Rd Sv) A) : (∀ rd, rd_auth V rd → gauth (k rd)) → gauth (st_bind GetRedis_g k).
Proof.
  intros Hk. eapply returns_bind; [|exact Hk]. intros g Hg. split; [done|]. unfold GetRedis_g, GetRedis. cbn.
  intros rd. destruct (redis_ (g_redis_ g)) as [rd'|] eqn:E; [|done]. intros [= <-]. by apply Hg.
Qed.

Lemma gate_put rd : rd_auth V rd → gauth (put_redis_g rd).
Proof. intros Ha g Hg. by intros rd' [= <-]. Qed.

Lemma gate_on_dbm {A} (prog : st (DBM D) (option A)) : gauth (on_dbm prog).
Proof. intros g Hg. unfold on_dbm. by destruct (prog (dbm_ g)) as [m [[a|]| |]]. Qed.

Lemma gate_on_rpc : gauth on_rpc.
Proof. intros g Hg. unfold on_rpc. by destruct (rpc_minimal (rpc_ g)) as [[[sv st] addr]| |]. Qed.

Lemma gate_on_uid_gen clock : gauth (on_uid_gen clock).
Proof. intros g Hg. unfold on_uid_gen. by destruct (Generate (uid_gen_ g) clock) as [[[id u] c]|]. Qed.

Hint Resolve gate_on_dbm gate_on_rpc gate_on_uid_gen : keeps.

Lemma gate_UpdateUserInfo now uid name : gauth (UpdateUserInfo now uid name).
Proof.
  unfold UpdateUserInfo. apply gate_redis. intros rd Hrd. apply preserves_res_bind. intros [rd' n] E.
  apply preserves_bind; [|intros _; keep]. apply gate_put. eapply rd_auth_no_news; [by eapply origin_hsetex|done].
Qed.

Lemma login_script_no_news rd key px rd' old : login_script rd key px = Ok (rd', old) → no_news rd rd'.
Proof.
  unfold login_script. intros Hl. inv_res. destruct a; inv_res; [destruct a; by simplify_eq|].
  match goal with H1 : redis_hset _ _ _ = Ok _, H2 : redis_pexpire _ _ _ = Ok _ |- _ =>
    destruct (origin_hset _ _ _ _ H1), (origin_pexpire _ _ _ _ H2) end. split; eauto.
Qed.

Lemma gate_UserLoginAttempt uid : gauth (UserLoginAttempt uid).
Proof.
  unfold UserLoginAttempt. apply gate_redis. intros rd Hrd. apply preserves_res_bind. intros [rd' old] E.
  apply preserves_bind; [|intros _; keep]. apply gate_put. eapply rd_auth_no_news; [by eapply login_script_no_news|done].
Qed.

(** A token is registered for the user whose password was accepted. *)
Lemma gate_RegisterUserToken token uid ttl : V uid → gauth (RegisterUserToken token (to_string uid) ttl).
Proof.
  intros Hu. unfold RegisterUserToken. apply gate_redis. intros rd [Ht He]. apply preserves_res_bind. intros rd' E.
  apply gate_put. destruct (origin_setex _ _ _ _ _ E) as [Hs Hx]. split; [|eauto]. intros t v u Hg Hst.
  apply Hs in Hg as [[_ ->]|Hg]; [|by eapply Ht]. rewrite stoull_to_string in Hst by auto. by injection Hst as <-.
Qed.

(** Commands go to the other streams. *)
Lemma gate_SendServerKickCmd sid uid : gauth (SendServerKickCmd sid uid).
Proof.
  unfold SendServerKickCmd. apply gate_redis. intros rd [Ht He]. apply preserves_res_bind. intros [rd' id] E.
  apply preserves_bind; [|intros _; keep]. apply gate_put. destruct (origin_xadd _ _ _ _ _ _ E) as [Hs Hx].
  split; [eauto|]. intros sid' fs f u Hin Hl Hst. apply Hx in Hin as [[Hk _]|Hin]; [|by eapply He].
  by apply mq_keys_differ in Hk.
Qed.

Hint Resolve gate_UpdateUserInfo gate_UserLoginAttempt gate_SendServerKickCmd : keeps.

Lemma gate_login_verified env req name uid : V uid → gauth (login_verified (J := J) base64 ndebug env req name uid).
Proof. intros Hu. pose proof (λ t ttl, gate_RegisterUserToken t uid ttl Hu). unfold login_verified. keep. Qed.

(** The user whose password the request has right *)
Definition password_uid (req : http_request) (g : Gateway D Rd Sv) : option Z :=
  if negb (bool_decide (target req = "/login")) then None
  else match method req, jparse (J := J) (body req) with
  | POST, Some readed =>
      match read_credentials readed with
      | Ok (Some (username, passcode)) =>
          match (VerifyUserInfo username passcode 0 (dbm_ g)).2 with
          | Ok (Some (ret, uid)) => if ret =? GATEWAY_SUCCESS then Some uid else None
          | _ => None
          end
      | _ => None
      end
  | _, _ => None
  end.

Lemma gate_PostRegisterLogic env req : gauth (PostRegisterLogic (J := J) ndebug junk env req).
Proof. unfold PostRegisterLogic. keep. Qed.

Lemma gate_LoginLogic env req g :
  method req = POST → target req = "/login" → (∀ uid, password_uid req g = Some uid → V uid) →
  gate_auth g → gate_auth (LoginLogic (J := J) base64 ndebug env req g).1.
Proof.
  intros Hm Ht Hu Hg. unfold password_uid in Hu. rewrite Hm, bool_decide_eq_true_2 in Hu by done. cbn [negb] in Hu. unfold LoginLogic.
  destruct (jparse (body req)) as [readed|]; [|done]. unfold st_bind at 1, st_res.
  destruct (read_credentials readed) as [[[name pass]|]| |]; [|done..]. unfold st_bind at 1.
  pose proof (gate_on_dbm (VerifyUserInfo name pass 0) g Hg) as Hg'. unfold on_dbm in *.
  destruct (VerifyUserInfo name pass 0 (dbm_ g)) as [m [[[ret uid]|]| |]]; [|done..]. cbn [fst snd] in *.
  destruct (ret =? GATEWAY_SUCCESS); [by apply gate_login_verified; auto|]. by destruct (_ || _).
Qed.

Lemma gate_RequestHandler env req g :
  (∀ uid, password_uid req g = Some uid → V uid) →
  gate_auth g → gate_auth (RequestHandler (J := J) base64 ndebug junk env req g).1.
Proof.
  intros Hu Hg. unfold RequestHandler. destruct (method req) eqn:Hm; [..|done].
  - unfold GetHandler. by repeat case_bool_decide.
  - unfold PostHandler. repeat case_bool_decide; [by apply gate_LoginLogic|by apply gate_PostRegisterLogic|done..].
Qed.
End gateway.
