(* ===== verification/System.v ===== *)
(** * The whole system

    Any number of backend processes and a gateway around one Redis server, as a transition
    system.  A step is one callback, one round of a thread or one request, run to its end
    ([run_event] of Registry.v, [MQ_WorkerFn] of ChatEnd.v, [RequestHandler] of Gateway.v);
    clients send any bytes at any time, keys and stream entries vanish at any time, backends
    start ([ServerClass_new]) and die.  [logins] is a history variable: the users whose
    password the gateway found right.  A step that throws or goes wrong leaves the state it
    had reached. *)

From S2P Require Import Prelude Preserve Decimal CppString FieldOp MsgNode Snowflake Security Dbm StatusService.
From S2P Require Import Session SessionFacts RedisBase Timer Reporter Backend ServerSetup BackendFacts Registry ServerClass.
From S2P Require Import DbmFacts Gateway GatewayFacts Client ClientFacts ClientLogin ChatEnd Authentic.

(** ** A backend's steps *)

Inductive node_ev :=
  | NHere (e : backend_ev)
  | NPoll                                  (* a round of the queue handler *)
  | NWritten (p : nat) (err : bool)        (* a write of session p completes *)
  | NUpload.                               (* the uploader's timer *)

Section node.
Context {Rd : Type} (J : Type) `{!RedisOps Rd, !RedisStreams Rd, !JsonReader J}.
Context (host : byte_order) (junk : nat → Z) (order : gset Z → list Z) (server_id : string).

Definition run_node (e : node_ev) (w : World Rd) : World Rd :=
  match e with
  | NHere e => run_event J host junk order server_id e w
  | NPoll => (MQ_WorkerFn host junk server_id (set_held w [])).1
  | NWritten p err => (on_written p err (set_held w [])).1
  | NUpload => (on_upload order (set_held w [])).1
  end.

(** Entries come from Redis only. *)
Definition node_ok (e : node_ev) (w : World Rd) : Prop :=
  match e with
  | NHere (EvQueue _) => False
  | NHere e => event_ok e w
  | _ => True
  end.

Context `{!GatewayRedis Rd, !RedisOrigin Rd, !OriginLaws Rd}.
Context (V : Z → Prop) (HV : ∀ x, V x → is_u64 x).

Lemma world_auth_held (w : World Rd) l : world_auth V w → world_auth V (set_held w l).
Proof. intros [Hs Hw Hr]. done. Qed.

Lemma world_auth_redis (w : World Rd) rd : world_auth V w → rd_auth V rd → world_auth V (set_redis w (mkMgr (Some rd))).
Proof. intros [Hs Hw Hr] Hrd. split; [done|done|]. by intros rd' [= <-]. Qed.

Lemma run_node_auth e w : node_ok e w → world_auth V w → world_auth V (run_node e w).
Proof.
  intros Hok Hw. pose proof (λ l, world_auth_held w l Hw) as Hh.
  destruct e as [[p|p r| |stms|uid|p]| |p err|]; cbn [run_node run_event]; [..|]; try done.
  - by apply auth_on_accept.
  - by apply auth_on_read.
  - by apply auth_Worker.
  - by apply auth_StopSession.
  - by apply auth_Close.
  - by apply auth_MQ_WorkerFn.
  - by apply auth_on_written.
  - by apply auth_on_upload.
Qed.
End node.

(** ** The system *)

(** The user ids of the table are 64-bit numbers. *)
Class MySqlTyped (D : Type) `{!MySql D} :=
  my_u64 d p s fs d' r i row j x : my_execute d p s fs = (d', Some r) →
    rows r !! i = Some row → row !! j = Some (FU64 x) → is_u64 x.

Record System (D Rd Sv : Type) := mkSystem {
  sys_rd : Rd;
  sys_gw : Gateway D Rd Sv;
  sys_nodes : gmap string (World Rd);
  logins : list Z
}.
Arguments mkSystem {D Rd Sv}.
Arguments sys_rd {D Rd Sv} _.
Arguments sys_gw {D Rd Sv} _.
Arguments sys_nodes {D Rd Sv} _.
Arguments logins {D Rd Sv} _.

Section system.
Context {D Rd Sv J : Type}.
Context `{!MySql D, !MySqlTyped D, C : Crypto, !RedisOps Rd, !GatewayRedis Rd, !RedisStreams Rd, !RedisOrigin Rd, !OriginLaws Rd, !MinimalRPC Sv, !JsonLib J}.
Context (base64 : list Z → string) (ndebug : bool) (junk_g : nat → list Z).
Context (hosts : string → byte_order) (junk : nat → Z) (order : gset Z → list Z).
Context (xgroup_create : Rd → string → string → string → Rd * bool).

Abbreviation node sid := (run_node (JsonReader0 := reader_of_lib) J (hosts sid) junk order sid).

(** A process works on the state of the Redis server and leaves its own. *)
Definition do_node (sid : string) (e : node_ev) (w : World Rd) (s : System D Rd Sv) : System D Rd Sv :=
  let w' := node sid e (set_redis w (mkMgr (Some (sys_rd s)))) in
  mkSystem (default (sys_rd s) (redis_ (w_redis_ w'))) (sys_gw s) (<[sid := w']> (sys_nodes s)) (logins s).

Definition do_request (env : req_env) (req : http_request) (s : System D Rd Sv) : System D Rd Sv :=
  let g' := (RequestHandler (J := J) base64 ndebug junk_g env req (set_g_redis (sys_gw s) (mkMgr (Some (sys_rd s))))).1 in
  mkSystem (default (sys_rd s) (redis_ (g_redis_ g'))) g' (sys_nodes s)
    (option_list (password_uid (J := J) req (sys_gw s)) ++ logins s).

Definition do_start (server_id : Z) (srv : Server Rd) (s : System D Rd Sv) : System D Rd Sv :=
  mkSystem (default (sys_rd s) (redis_ (w_redis_ (srv_world srv)))) (sys_gw s)
    (<[to_string server_id := srv_world srv]> (sys_nodes s)) (logins s).

Inductive sys_step : System D Rd Sv → System D Rd Sv → Prop :=
  | step_node s sid e w :
      sys_nodes s !! sid = Some w → node_ok e w → sys_step s (do_node sid e w s)
  | step_request s env req :
      sys_step s (do_request env req s)
  | step_expire s rd' :
      no_news (sys_rd s) rd' → sys_step s (mkSystem rd' (sys_gw s) (sys_nodes s) (logins s))
  | step_start s server_id addr srv :
      sys_nodes s !! to_string server_id = None →
      ServerClass_new xgroup_create server_id addr (Ok (sys_rd s)) = Ok srv →
      sys_step s (do_start server_id srv s)
  | step_die s sid :
      sys_step s (mkSystem (sys_rd s) (sys_gw s) (delete sid (sys_nodes s)) (logins s)).

(** No process runs, nobody is logged in *)
Definition sys_init (s : System D Rd Sv) : Prop :=
  sys_nodes s = ∅ ∧ logins s = []
  ∧ (∀ token v, redis_get (sys_rd s) (token_key token) ≠ Ok (Some v))
  ∧ ∀ sid, entries (sys_rd s) (mq_key sid) = [].

(** ** The invariant *)

Record sys_auth (s : System D Rd Sv) : Prop := {
  sa_u64 : ∀ uid, uid ∈ logins s → is_u64 uid;
  sa_rd : rd_auth (λ uid, uid ∈ logins s) (sys_rd s);
  sa_nodes : ∀ sid w, sys_nodes s !! sid = Some w → world_auth (λ uid, uid ∈ logins s) w
}.

Lemma sys_auth_init s : sys_init s → sys_auth s.
Proof.
  intros (Hn & Hl & Ht & He). split.
  - rewrite Hl. set_solver.
  - split; [by intros t v uid Hg; apply Ht in Hg|]. intros sid fs f uid. rewrite He. set_solver.
  - rewrite Hn. by intros sid w Hw.
Qed.

Lemma conn_VerifyUserInfo_u64 p name pass (m m' : DBM D) ret :
  conn_VerifyUserInfo p name pass 0 m = (m', Ok ret) → is_u64 ret.2.
Proof.
  unfold conn_VerifyUserInfo. intros (m1 & c & _ & H)%st_bind_inv.
  apply st_bind_inv in H as (m2 & r & E & H). unfold my_call in E.
  destruct (my_execute _ _ _ _) as [d r'] eqn:Ex. injection E as <- <-.
  destruct r' as [r|]; [|by injection H as <- <-]. destruct (rows r) as [|row0 rs] eqn:Er; [by injection H as <- <-|].
  apply st_bind_inv in H as (m3 & h & _ & H). apply st_bind_inv in H as (m4 & uid & Eu & H).
  apply st_bind_inv in H as (m5 & mat & _ & H). destruct mat; injection H as <- <-; [|done].
  injection Eu as _ Eu. unfold field_at, get_uint64 in Eu. rewrite Er in Eu. cbn [lookup list_lookup] in Eu.
  destruct (row0 !! 0%nat) as [[| |]|] eqn:E0; try done. injection Eu as <-.
  eapply (my_u64 _ _ _ _ _ _ 0%nat); [exact Ex|by rewrite Er|done].
Qed.

Lemma password_uid_u64 req (g : Gateway D Rd Sv) uid : password_uid (J := J) req g = Some uid → is_u64 uid.
Proof.
  unfold password_uid. destruct (negb _); [done|]. destruct (method req); try done. destruct (jparse _) as [j|]; [|done].
  destruct (read_credentials j) as [[[name pass]|]| |]; try done. unfold VerifyUserInfo.
  destruct (st_bind _ _ (dbm_ g)) as [m' [[[ret u]|]| |]] eqn:E; try done. cbn [snd].
  destruct (ret =? GATEWAY_SUCCESS); [|done]. intros [= ->].
  apply st_bind_inv in E as (m1 & got & _ & E). destruct got as [p| |]; [|by injection E as _ _ <-|done].
  apply st_bind_inv in E as (m2 & r & Hr & E). apply st_bind_inv in E as (m3 & b & _ & E). injection E as _ ->.
  by apply (conn_VerifyUserInfo_u64 p name pass m1 m2 (ret, uid)).
Qed.

(** What the laws say of [XGROUP CREATE] *)
Context (Hgroup : ∀ rd k g i, no_news rd (xgroup_create rd k g i).1).

Lemma node_step_auth s sid w e :
  sys_auth s → sys_nodes s !! sid = Some w → node_ok e w → sys_auth (do_node sid e w s).
Proof.
  intros [Hu Hr Hn] Hw Hok. unfold do_node. set (w' := node sid e _). pose proof (world_auth_redis _ w (sys_rd s) (Hn _ _ Hw) Hr) as Ha.
  eapply (run_node_auth (JsonReader0 := reader_of_lib) J (hosts sid) junk order sid _ Hu e) in Ha; [|by destruct e as [[]| | |]].
  change (world_auth (λ uid, uid ∈ logins s) w') in Ha. clearbody w'. split; cbn; [done| |].
  - destruct (redis_ (w_redis_ w')) as [rd'|] eqn:Er; [|done]. by apply (wa_redis _ w' Ha).
  - intros sid' w0 [[<- <-]|[_ Hl]]%lookup_insert_Some; [done|by eapply Hn].
Qed.

Lemma request_step_auth s env req : sys_auth s → sys_auth (do_request env req s).
Proof.
  intros [Hu Hr Hn]. unfold do_request. destruct (RequestHandler _ _ _ _ _ _) as [g' r] eqn:E. cbn [fst]. set (l := option_list _ ++ logins s).
  assert (Hsub : ∀ x, x ∈ logins s → x ∈ l) by set_solver.
  assert (Hin : ∀ uid, password_uid (J := J) req (sys_gw s) = Some uid → uid ∈ l)
    by (intros uid Hp; unfold l; rewrite Hp; set_solver).
  assert (Hu' : ∀ x, x ∈ l → is_u64 x).
  { intros x [Hx|Hx]%elem_of_app; [|by apply Hu]. destruct (password_uid _ _) eqn:Ep; [|set_solver].
    apply list_elem_of_singleton in Hx as ->. by eapply password_uid_u64. }
  pose proof (rd_auth_mono _ (λ x, x ∈ l) _ Hsub Hr) as Hr'.
  assert (Hg : gate_auth (λ x, x ∈ l) g').
  { pose proof (gate_RequestHandler (λ x, x ∈ l) Hu' base64 ndebug junk_g env req (set_g_redis (sys_gw s) (mkMgr (Some (sys_rd s))))) as Hg.
    rewrite E in Hg. apply Hg; [exact Hin|]. by intros rd [= <-]. }
  split; cbn; [done| |].
  - destruct (redis_ (g_redis_ g')) as [rd'|] eqn:Er; [by apply Hg|done].
  - intros sid w Hw. eapply world_auth_mono; [exact Hsub|by eapply Hn].
Qed.

Lemma world_init_auth V (rd : Rd) : rd_auth V rd → world_auth V (world_init rd).
Proof. intros Hr. split; [done| |by intros rd' [= <-]]. intros p m. cbn. set_solver. Qed.

Lemma start_step_auth s server_id addr srv :
  sys_auth s → ServerClass_new xgroup_create server_id addr (Ok (sys_rd s)) = Ok srv → sys_auth (do_start server_id srv s).
Proof.
  intros [Hu Hr Hn] E. unfold do_start. generalize (to_string server_id). intros sid.
  destruct (ServerClass_new_Ok xgroup_create server_id addr (sys_rd s)) as (m & E' & _). rewrite E in E'. injection E' as ->.
  cbn [srv_world world_init w_redis_ redis_ default].
  assert (Hg : rd_auth (λ uid, uid ∈ logins s) (with_groups xgroup_create server_id (sys_rd s))).
  { unfold with_groups. do 2 (eapply rd_auth_no_news; [apply Hgroup|]). done. }
  generalize dependent (with_groups xgroup_create server_id (sys_rd s)). intros rd _ Hg. split; cbn [logins sys_rd sys_nodes]; [done|done|].
  intros sid' w [[<- <-]|[_ Hl]]%lookup_insert_Some; [by apply world_init_auth|by eapply Hn].
Qed.

Lemma step_auth s s' : sys_step s s' → sys_auth s → sys_auth s'.
Proof.
  intros [s0 sid e w Hw Hok|s0 env req|s0 rd' Hnn|s0 server_id addr srv Hf E|s0 sid] Ha.
  - by apply node_step_auth.
  - by apply request_step_auth.
  - destruct Ha as [Hu Hr Hn]. split; cbn; [done|by eapply rd_auth_no_news|done].
  - by eapply start_step_auth.
  - destruct Ha as [Hu Hr Hn]. split; cbn; [done..|]. intros sid' w [_ Hl]%lookup_delete_Some. by eapply Hn.
Qed.

Lemma reach_auth s s' : rtc sys_step s s' → sys_auth s → sys_auth s'.
Proof. induction 1; [done|]. eauto using step_auth. Qed.
End system.

(** ** Libraries for witnesses *)

#[export] Instance demo_origin : RedisOrigin demo_rd := { entries rd k := default [] (rd_streams rd !! k) }.

Lemma demo_reply_of stms k its it :
  (k, its) ∈ reply_of stms → it ∈ its → ∃ fss fs, (k, fss) ∈ stms ∧ fs ∈ fss ∧ it = to_item fs.
Proof.
  unfold reply_of. intros (kv & [= -> ->] & Hkv)%list_elem_of_fmap (fs & -> & Hfs)%list_elem_of_fmap.
  apply list_elem_of_filter in Hkv as [_ Hkv]. exists kv.2, fs. by destruct kv.
Qed.

Lemma demo_drop n (news : string → list (list (string * string))) ks (m : gmap string (list (list (string * string)))) k fs :
  (∀ k fs, fs ∈ default [] (m !! k) → fs ∈ news k) →
  fs ∈ default [] (foldr (λ k m, <[k := drop n (news k)]> m) m ks !! k) → fs ∈ news k.
Proof.
  intros Hm. induction ks as [|k' ks IH]; cbn [foldr]; [apply Hm|].
  destruct (decide (k = k')) as [->|Hk]; [rewrite lookup_insert_eq|by rewrite lookup_insert_ne by done].
  cbn. intros Hd. rewrite <- (take_drop n (news k')). set_solver.
Qed.

#[export] Instance demo_origin_laws : OriginLaws demo_rd.
Proof.
  split.
  - by intros rd k fs ttl rd' n [= <- <-].
  - by intros rd k fs rd' [= <-].
  - by intros rd k px rd' [= <-].
  - by intros rd cmds rd' [= <-].
  - intros rd k ttl v rd' [= <-]. split; [|done]. cbn. intros k' v' [= H]. apply lookup_insert_Some in H as [[<- <-]|[_ ->]]; auto.
  - intros rd k fs n rd' id [= <- <-]. split; [done|]. cbn. intros k' fs'.
    destruct (decide (k' = k)) as [->|Hk]; [rewrite lookup_insert_eq|rewrite lookup_insert_ne by done; auto].
    cbn. rewrite elem_of_app, list_elem_of_singleton. intuition auto.
  - intros rd g c ks n rd' stms [= <- <-]. split.
    + split; [done|]. intros k fs. cbn. by apply demo_drop.
    + intros k its it Hin Hit. right. destruct (demo_reply_of _ _ _ _ Hin Hit) as (fss & fs & Hf & Hfs & ->).
      exists fs. split; [|done]. apply list_elem_of_fmap in Hf as (k' & [= -> ->] & _). cbn. apply elem_of_take in Hfs as (i & Hi & _). by eapply list_elem_of_lookup_2.
Qed.

(** A server whose numbers have 64 bits *)
Record typed_db := mkTyped { untyped : demo_db }.

Definition u64_field (f : field) : field := match f with FU64 x => FU64 (u64 x) | _ => f end.

#[export] Instance typed_mysql : MySql typed_db := {
  my_connect d _ _ := (d, false);
  my_prepare d _ sql := (d, Some (demo_stmt sql));
  my_close_statement d _ _ := (d, false);
  my_close d _ := (d, false);
  my_execute d _ s fs :=
    let '(d', r) := demo_execute (untyped d) s fs in
    (mkTyped d', option_map (λ r, mkResults (map (map u64_field) (rows r)) (has_value r)) r)
}.

#[export] Instance typed_mysql_typed : MySqlTyped typed_db.
Proof.
  intros d p s fs d' r i row j x. cbn [my_execute typed_mysql]. destruct (demo_execute _ _ _) as [d0 [r0|]]; [|done]. cbn [option_map].
  intros [= <- <-]. cbn [rows]. rewrite (list_lookup_fmap (map u64_field)). destruct (rows r0 !! i) as [row0|]; [|done]. intros [= <-].
  rewrite (list_lookup_fmap u64_field). destruct (row0 !! j) as [[| |]|]; try done. cbn. intros [= <-]. apply u64_bound.
Qed.

(** Bob logs in at the gateway, connects to server 1, shows his token and writes to himself. *)
Section demo.
Abbreviation demo_j := (list (string * jval)).
Abbreviation here := (do_node (D := typed_db) (Sv := unit) (J := demo_j) (λ _, LITTLE_ENDIAN) (λ _, 0) elements "1").

Definition sys0 : System typed_db demo_rd unit :=
  mkSystem (mkDemoRd ∅ ∅ ∅)
    (ReqHandler_new (Dbm.Start 1 1 (DBM_new demo_params (mkTyped (mkDemoDb {["bob" := (77, demo_hash)]} false)))).1 (mkMgr None) tt 0) ∅ [].

Definition demo_xgroup (rd : demo_rd) (_ _ _ : string) : demo_rd * bool := (rd, true).

Definition bob_verify : list Z :=
  let body := bytes_of_string (jwrite (J := demo_j) [("token", JStr "010203"); ("uid", JUInt 77)]) in
  be_bytes 4 (tag_value VERIFY) ++ be_bytes 4 (Z.of_nat (length body)) ++ body.

Definition bob_chat : list Z :=
  let body := be_bytes 8 77 ++ bytes_of_string "hi" in
  be_bytes 4 (tag_value CHAT_MSG) ++ be_bytes 4 (Z.of_nat (length body)) ++ body.

Definition demo_srv (s : System typed_db demo_rd unit) : Server demo_rd :=
  match ServerClass_new demo_xgroup 1 "10.0.0.1:2000" (Ok (sys_rd s)) with
  | Ok srv => srv
  | _ => mkSrv world_new (mkTimerMgr ∅ 0) 0 (mkReporter "" 0 0 0 false) false
  end.

Definition here_now (e : node_ev) (s : System typed_db demo_rd unit) : System typed_db demo_rd unit :=
  here e (default world_new (sys_nodes s !! "1")) s.

Definition sys1 := do_request (J := demo_j) hex_upper false (λ _, []) demo_env (demo_login "pw") sys0.
Definition sys2 := do_start 1 (demo_srv sys1) sys1.
Definition demo_events : list node_ev :=
  [NHere (EvAccept 5); NHere (EvRead 5 (RData (take 8 bob_verify))); NHere (EvRead 5 (RData (drop 8 bob_verify)));
   NHere EvWorker; NWritten 5 false; NHere (EvRead 5 (RData (take 8 bob_chat))); NHere (EvRead 5 (RData (drop 8 bob_chat)));
   NHere EvWorker].
Definition sys3 := foldl (λ s e, here_now e s) sys2 demo_events.

Abbreviation demo_step := (sys_step (D := typed_db) (Sv := unit) (J := demo_j) hex_upper false (λ _, []) (λ _, LITTLE_ENDIAN) (λ _, 0) elements demo_xgroup).

(** The server runs and each new session gets an address of its own *)
Fixpoint here_ok (es : list node_ev) (s : System typed_db demo_rd unit) : bool :=
  match es with
  | [] => true
  | e :: es' =>
      match sys_nodes s !! "1" with
      | Some w => match e with
                  | NHere (EvQueue _) => false
                  | NHere (EvAccept p) => bool_decide (objs w !! p = None)
                  | _ => true
                  end
      | None => false
      end && here_ok es' (here_now e s)
  end.

Lemma here_run es : ∀ s, here_ok es s = true → rtc demo_step s (foldl (λ s e, here_now e s) s es).
Proof.
  induction es as [|e es IH]; intros s; cbn [here_ok foldl]; [by intros _; apply rtc_refl|].
  intros [Hw Hok]%andb_prop. apply (rtc_l _ _ (here_now e s)); [|by apply IH]. unfold here_now.
  destruct (sys_nodes s !! "1") as [w|] eqn:E; [|done]. cbn [default]. apply step_node; [done|].
  destruct e as [[]| | |]; try done. cbn. by apply bool_decide_eq_true_1 in Hw.
Qed.
End demo.

(** ** Theorems *)

(** C1. Nobody speaks under another user's name: whatever the clients send to the gateway and to
    the backends, in whatever order callbacks, threads and requests run, however entries and
    keys vanish and processes start and die, every chat frame any backend ever hands to a
    socket names as its sender a user whose password the gateway had found right. *)
Theorem sender_authentic {D Rd Sv J} `{!MySql D, !MySqlTyped D, C : Crypto, !RedisOps Rd, !GatewayRedis Rd, !RedisStreams Rd, !RedisOrigin Rd, !OriginLaws Rd, !MinimalRPC Sv, !JsonLib J}
    base64 ndebug junk_g hosts junk order xgroup_create (s0 s : System D Rd Sv) sid w p m bs :
  (∀ rd k g i, no_news rd (xgroup_create rd k g i).1) →
  sys_init s0 → rtc (sys_step (J := J) base64 ndebug junk_g hosts junk order xgroup_create) s0 s →
  sys_nodes s !! sid = Some w → (p, m) ∈ writes w → write_bytes m = Ok bs → names_sender bs →
  sender_of bs ∈ logins s.
Proof.
  intros Hg Hi Hr Hw Hm Hb Hn.
  pose proof (reach_auth base64 ndebug junk_g hosts junk order xgroup_create Hg s0 s Hr (sys_auth_init s0 Hi)) as [_ _ Ha].
  exact (wa_writes _ w (Ha sid w Hw) p m Hm bs Hb Hn).
Qed.

Lemma sender_authentic_witness :
  let w := default world_new (sys_nodes sys3 !! "1") in
  let bs := be_bytes 4 4 ++ be_bytes 4 10 ++ be_bytes 8 77 ++ [104; 105] in
  writes w !! 1%nat = Some (5%nat, default (MsgNode_sized (λ _, 0) 0) (snd <$> writes w !! 1%nat))
  ∧ sender_of bs ∈ logins sys3.
Proof.
  cbn zeta. split; [vm_compute; reflexivity|].
  apply (sender_authentic (J := list (string * jval)) hex_upper false (λ _, []) (λ _, LITTLE_ENDIAN) (λ _, 0) elements demo_xgroup
    sys0 sys3 "1" (default world_new (sys_nodes sys3 !! "1")) 5%nat
    (default (MsgNode_sized (λ _, 0) 0) (snd <$> writes (default world_new (sys_nodes sys3 !! "1")) !! 1%nat))).
  - done.
  - split_and!; try done.
  - apply (rtc_l _ _ sys1); [apply step_request|]. apply (rtc_l _ _ sys2).
    + apply (step_start _ _ _ _ _ _ _ _ 1 "10.0.0.1:2000"); vm_compute; reflexivity.
    + apply here_run. vm_compute. reflexivity.
  - vm_compute. reflexivity.
  - apply (list_elem_of_lookup_2 _ 1). vm_compute. reflexivity.
  - vm_compute. reflexivity.
  - split; [vm_compute; reflexivity|]. apply Nat.leb_le. vm_compute. reflexivity.
Defined.
