(* ===== verification/ClientMain.v ===== *)
(** * The client program before the chat (src/src/client/client_main.cpp)

    [main] reads the address of the gateway, then commands until a login succeeds, then
    connects to the server it was given.  Words are read with [cin >> s]: white space is
    skipped, a word ends at white space, and at the end of the input the read fails, leaves
    the (empty) string and sets the fail bit.  Calls of the gateway go through the transport
    [exchange] of [Client].  A round of the command loop is one function; what it printed is
    its result. *)

From S2P Require Import Prelude Decimal CppString FieldOp MsgNode Session Gateway GatewayFacts Client.
From Stdlib Require Import Ascii.

(** ** [cin >> s] *)

(** [isspace] of the C locale *)
Definition is_blank (c : ascii) : bool :=
  let n := char_code c in (n =? 32) || ((9 <=? n) && (n <=? 13)).

Fixpoint skip_blanks (s : string) : string :=
  match s with
  | EmptyString => ""
  | String c s' => if is_blank c then skip_blanks s' else s
  end.

Fixpoint span_word (s : string) : string * string :=
  match s with
  | EmptyString => ("", "")
  | String c s' => if is_blank c then ("", s) else let '(w, rest) := span_word s' in (String c w, rest)
  end.

Definition read_word (k : console) : string * console :=
  if failbit k then ("", k)
  else match skip_blanks (input k) with
       | EmptyString => ("", mkConsole "" true)
       | s => let '(w, rest) := span_word s in (w, mkConsole rest false)
       end.

(** ** The command loop *)

Section dialogue.
Context {S J : Type} `{!JsonLib J} (exchange : string → string → st S (Z * string)).
Open Scope cpp_scope.

Inductive round :=
  | Logged (d : login_data)            (* leaves the loop *)
  | LoginFailed
  | LoginThrew (e : exn)               (* caught, printed *)
  | Registered (ok : bool)
  | Exited                             (* main returns *)
  | UnknownCommand (inp : string).

(** [try { ... } catch (const std::exception &e)] around the login *)
Definition try_login (username passcode : string) : st S round := λ s,
  match Login (J := J) exchange username passcode s with
  | (s', Ok (_, Some d)) => (s', Ok (Logged d))
  | (s', Ok (_, None)) => (s', Ok LoginFailed)
  | (s', Throw e) => (s', Ok (LoginThrew e))
  | (s', UB w) => (s', UB w)
  end.

Definition command_round (k : console) : st S (console * round) :=
  let '(inp, k) := read_word k in
  if bool_decide (inp = "login") then
    let '(username, k) := read_word k in
    let '(passcode, k) := read_word k in
    r <- try_login username passcode ;;
    st_ret (k, r)
  else if bool_decide (inp = "register") then
    let '(username, k) := read_word k in
    let '(passcode, k) := read_word k in
    ok <- Register exchange username passcode ;;
    st_ret (k, Registered ok)
  else if bool_decide (inp = "exit") then st_ret (k, Exited)
  else st_ret (k, UnknownCommand inp).

(** [n] rounds at most; [None] when the loop has not been left *)
Fixpoint command_loop (n : nat) (k : console) : st S (console * option (option login_data)) :=
  match n with
  | O => st_ret (k, None)
  | Datatypes.S n' =>
      r <- command_round k ;;
      match r.2 with
      | Logged d => st_ret (r.1, Some (Some d))
      | Exited => st_ret (r.1, Some None)
      | _ => command_loop n' r.1
      end
  end.

(** ** From the login to the connection *)

Inductive main_state :=
  | MainLooping                                             (* still in the command loop *)
  | MainReturned (code : Z)
  | MainConnects (address : string) (port : Z) (c : AsyncClient).

(** [ip::make_address] *)
Context (make_address : string → res string) (host : byte_order) (junk : nat → Z).

(** The endpoint, and the verification queued for the server *)
Definition connect_server (d : login_data) : res main_state :=
  hp ← split_addr (ld_server_addr d);
  match hp with
  | None => Ok (MainReturned (-1))
  | Some (server_host, server_port) =>
      addr ← make_address server_host;
      port ← stoi server_port;
      c ← cli_Verify host junk (J := J) (AsyncClient_new junk) (ld_uid d) (ld_token d);
      Ok (MainConnects addr (u16 port) c)
  end.

(** [main] up to the chat, with at most [n] commands; the two words read first are the
    gateway's address *)
(** The two members of [GatewayHelper] *)
Definition SetRemoteAddress (host port : string) : string * string := (host, port).

Definition main_login (n : nat) (k : console) : st S (string * string * console * main_state) :=
  let '(gate_host, k) := read_word k in
  let '(gate_port, k) := read_word k in
  let gate := SetRemoteAddress gate_host gate_port in
  r <- command_loop n k ;;
  match r.2 with
  | None => st_ret (gate, r.1, MainLooping)
  | Some None => st_ret (gate, r.1, MainReturned 0)
  | Some (Some d) =>
      m <- st_res (connect_server d) ;;
      st_ret (gate, r.1, m)
  end.
End dialogue.

(** ** Reading words *)

(** A word: not empty, no white space *)
Definition is_word (w : string) : Prop := w ≠ "" ∧ str_forall (λ c, is_blank c = false) w.

Lemma span_word_Ok w : ∀ c rest,
  str_forall (λ c, is_blank c = false) w → is_blank c = true →
  span_word (w +:+ String c rest) = (w, String c rest).
Proof.
  induction w as [|d w IH]; intros c rest Hw Hc; [rewrite str_app_nil; cbn [span_word]; by rewrite Hc|].
  destruct Hw as [Hd Hw]. rewrite str_app_cons. cbn [span_word]. by rewrite Hd, IH.
Qed.

Lemma read_word_Ok w c rest :
  is_word w → is_blank c = true →
  read_word (mkConsole (w +:+ String c rest) false) = (w, mkConsole (String c rest) false).
Proof.
  intros [Hne Hw] Hc. unfold read_word. cbn [failbit input].
  assert (Hs : skip_blanks (w +:+ String c rest) = w +:+ String c rest).
  { destruct w as [|d w]; [done|]. rewrite str_app_cons. cbn [skip_blanks]. destruct Hw as [-> _]. done. }
  rewrite Hs. pose proof (span_word_Ok w c rest Hw Hc) as Hsp. destruct w as [|d w]; [done|].
  rewrite str_app_cons in Hsp |- *. by rewrite Hsp.
Qed.

Lemma read_word_blank c rest :
  is_blank c = true → read_word (mkConsole (String c rest) false) = read_word (mkConsole rest false).
Proof. intros Hc. unfold read_word. cbn [failbit input skip_blanks]. by rewrite Hc. Qed.

Definition nl : ascii := char_of 10.

(** Words typed on lines of their own *)
Fixpoint typed (ws : list string) : string :=
  match ws with
  | [] => ""
  | w :: ws' => w +:+ String nl (typed ws')
  end.

(** The console stands before these words, on a new line or at the end of the last one. *)
Definition awaits (ws : list string) (k : console) : Prop :=
  k = mkConsole (typed ws) false ∨ k = mkConsole (String nl (typed ws)) false.

Lemma read_word_typed w ws k :
  is_word w → awaits (w :: ws) k → ∃ k', read_word k = (w, k') ∧ awaits ws k'.
Proof.
  intros Hw Hk. exists (mkConsole (String nl (typed ws)) false). split; [|by right].
  destruct Hk as [-> | ->]; [|rewrite read_word_blank by done]; by apply read_word_Ok.
Qed.

(** ** The commands a text stands for *)

Inductive command :=
  | CLogin (username passcode : string)
  | CRegister (username passcode : string)
  | CExit
  | COther (w : string).

Definition command_words (c : command) : list string :=
  match c with
  | CLogin u p => ["login"; u; p]
  | CRegister u p => ["register"; u; p]
  | CExit => ["exit"]
  | COther w => [w]
  end.

Definition commands_words (cs : list command) : list string := concat (command_words <$> cs).

Definition command_ok (c : command) : Prop :=
  match c with
  | CLogin u p | CRegister u p => is_word u ∧ is_word p
  | CExit => True
  | COther w => is_word w ∧ w ∉ ["login"; "register"; "exit"]
  end.

Section commands.
Context {S J : Type} `{!JsonLib J} (exchange : string → string → st S (Z * string)).
Open Scope cpp_scope.

Definition run_command (c : command) : st S round :=
  match c with
  | CLogin u p => try_login (J := J) exchange u p
  | CRegister u p => ok <- Register exchange u p ;; st_ret (Registered ok)
  | CExit => st_ret Exited
  | COther w => st_ret (UnknownCommand w)
  end.

(** The loop on commands: how it ended, and the commands not read *)
Fixpoint run_commands (cs : list command) : st S (option (option login_data) * list command) :=
  match cs with
  | [] => st_ret (None, [])
  | c :: cs' =>
      r <- run_command c ;;
      match r with
      | Logged d => st_ret (Some (Some d), cs')
      | Exited => st_ret (Some None, cs')
      | _ => run_commands cs'
      end
  end.

Lemma is_word_login : is_word "login". Proof. by split. Qed.
Lemma is_word_register : is_word "register". Proof. by split. Qed.
Lemma is_word_exit : is_word "exit". Proof. by split. Qed.

Lemma command_round_typed c ws k s :
  command_ok c → awaits (command_words c ++ ws) k →
  ∃ k', awaits ws k' ∧
    command_round (J := J) exchange k s = (st_bind (run_command c) (λ r, st_ret (k', r))) s.
Proof.
  intros Hc Hk. unfold command_round. destruct c as [u p|u p| |w]; cbn [command_words command_ok app] in *.
  - destruct Hc as [Hu Hp]. destruct (read_word_typed _ _ _ is_word_login Hk) as (k1 & -> & Hk1).
    destruct (read_word_typed _ _ _ Hu Hk1) as (k2 & E2 & Hk2). destruct (read_word_typed _ _ _ Hp Hk2) as (k3 & E3 & Hk3).
    exists k3. split; [done|]. rewrite bool_decide_eq_true_2 by done. by rewrite E2, E3.
  - destruct Hc as [Hu Hp]. destruct (read_word_typed _ _ _ is_word_register Hk) as (k1 & -> & Hk1).
    destruct (read_word_typed _ _ _ Hu Hk1) as (k2 & E2 & Hk2). destruct (read_word_typed _ _ _ Hp Hk2) as (k3 & E3 & Hk3).
    exists k3. split; [done|]. rewrite (bool_decide_eq_false_2 ("register" = "login")), (bool_decide_eq_true_2 ("register" = "register")) by done.
    rewrite E2, E3. cbn [run_command]. unfold st_bind, st_ret. destruct (Register exchange u p s) as [? []]; done.
  - destruct (read_word_typed _ _ _ is_word_exit Hk) as (k1 & -> & Hk1). exists k1. split; [done|done].
  - destruct Hc as [Hw Hn]. destruct (read_word_typed _ _ _ Hw Hk) as (k1 & -> & Hk1). exists k1. split; [done|].
    rewrite !bool_decide_eq_false_2 by set_solver. done.
Qed.

(** The text of commands is executed as the commands. *)
Lemma command_loop_typed cs : ∀ k s n,
  Forall command_ok cs → awaits (commands_words cs) k → (length cs <= n)%nat →
  ∀ s' out rest, run_commands cs s = (s', Ok (Some out, rest)) →
  ∃ k', awaits (commands_words rest) k' ∧ command_loop (J := J) exchange n k s = (s', Ok (k', Some out)).
Proof.
  induction cs as [|c cs IH]; intros k s n Hcs Hk Hn s' out rest H; [done|].
  inversion_clear Hcs as [|?? Hc Hcs']. destruct n as [|n]; cbn in Hn; [lia|].
  destruct (command_round_typed c (commands_words cs) k s Hc Hk) as (k1 & Hk1 & E).
  cbn [run_commands command_loop] in *. unfold st_bind in H. unfold st_bind at 1. rewrite E. unfold st_bind at 1.
  destruct (run_command c s) as [s1 [r| |]]; [|done..].
  destruct r; cbn [st_ret snd fst] in *; try (apply (IH k1 s1 n Hcs' Hk1 ltac:(lia) _ _ _ H)).
  - injection H as <- <- <-. by exists k1.
  - injection H as <- <- <-. by exists k1.
Qed.
End commands.

(** The address in a login answer is the one the client connects to. *)
Lemma connect_server_Ok {J} `{!JsonLib J} make_address host junk d h a port c :
  ld_server_addr d = h +:+ String ":" (to_string port) → no_char ":" h → is_u16 port →
  make_address h = Ok a → cli_Verify host junk (J := J) (AsyncClient_new junk) (ld_uid d) (ld_token d) = Ok c →
  connect_server (J := J) make_address host junk d = Ok (MainConnects a port c).
Proof.
  intros Ha Hh Hp Hm Hc. unfold connect_server, split_addr. rewrite Ha, find_char_app by done.
  rewrite (substr_app "" h (String ":" (to_string port)) : substr (h +:+ _) 0 _ = Ok h). cbn [mbind res_bind].
  replace (h +:+ String ":" (to_string port)) with ((h +:+ String ":" "") +:+ to_string port)
    by (by rewrite str_app_assoc).
  replace (S (String.length h)) with (String.length (h +:+ String ":" "")) by (rewrite str_length_app; cbn; lia).
  rewrite substr_rest by (rewrite str_length_app; lia). cbn [mbind res_bind]. rewrite Hm. cbn [mbind res_bind].
  unfold is_u16 in Hp. rewrite stoi_to_string by lia. cbn [mbind res_bind]. rewrite Hc. cbn [mbind res_bind].
  by rewrite u16_id.
Qed.

(** ** Theorems *)

(** Typing commands is giving them: whatever the gateway does, the loop of [main] on a
    text of commands, one word per line, does what the commands do one after the other, up to
    and including the one that leaves the loop, and has then read exactly those. *)
Theorem typed_commands_run {S J} `{!JsonLib J} (exchange : string → string → st S (Z * string)) cs s n s' out rest :
  Forall command_ok cs → (length cs <= n)%nat →
  run_commands (J := J) exchange cs s = (s', Ok (Some out, rest)) →
  ∃ k', awaits (commands_words rest) k'
    ∧ command_loop (J := J) exchange n (mkConsole (typed (commands_words cs)) false) s = (s', Ok (k', Some out)).
Proof. intros Hcs Hn H. eapply command_loop_typed; [done|by left|done|done]. Qed.

Lemma typed_commands_run_witness :
  let exchange := λ _ _ : string, st_ret (403, "taken") : st unit (Z * string) in
  ∃ k', awaits ["more"] k'
    ∧ command_loop (J := list (string * jval)) exchange 5 (mkConsole (typed ["register"; "eve"; "pw"; "hello"; "exit"; "more"]) false) tt
      = (tt, Ok (k', Some None)).
Proof.
  cbn zeta. apply (typed_commands_run (J := list (string * jval)) (λ _ _, st_ret (403, "taken"))
    [CRegister "eve" "pw"; COther "hello"; CExit; COther "more"] tt 5 tt None [COther "more"]).
  - assert (Hw : ∀ w, w ∈ ["eve"; "pw"; "hello"; "more"] → is_word w).
    { intros w Hw. repeat (apply elem_of_cons in Hw as [->|Hw]; [by split|]). by apply elem_of_nil in Hw. }
    repeat apply Forall_cons_2; [..|apply Forall_nil_2]; cbn [command_ok]; try done;
      (split; [apply Hw; set_solver|first [apply Hw; set_solver|apply (bool_decide_unpack _); vm_compute; exact I]]).
  - cbn. lia.
  - vm_compute. reflexivity.
Defined.

(** At the end of the input, or once the console has failed, the loop spins: each round
    reads an empty command, complains about it and changes nothing, for ever. *)
Theorem command_loop_spins {S J} `{!JsonLib J} (exchange : string → string → st S (Z * string)) n k s :
  failbit k = true ∨ skip_blanks (input k) = "" →
  ∃ k', command_loop (J := J) exchange n k s = (s, Ok (k', None)).
Proof.
  intros Hk. revert k Hk; induction n as [|n IH]; intros k Hk; [by exists k|].
  assert (E : ∃ k1, read_word k = ("", k1) ∧ failbit k1 = true).
  { unfold read_word. destruct (failbit k) eqn:Hf; [by exists k|]. destruct Hk as [|Hk]; [done|].
    rewrite Hk. by exists (mkConsole "" true). }
  destruct E as (k1 & E & Hf). destruct (IH k1 (or_introl Hf)) as (k' & Hk').
  exists k'. cbn [command_loop]. unfold command_round. rewrite E. cbn. exact Hk'.
Qed.

Lemma command_loop_spins_witness :
  ∃ k', command_loop (J := list (string * jval)) (JsonLib0 := demo_json_lib)
    (λ _ _, st_res (Throw (runtime_error "connect"))) 1000 (mkConsole "" false) tt = (tt, Ok (k', None)).
Proof. apply command_loop_spins. by right. Defined.
