(* ===== verification/NewUser.v ===== *)
(** * Registering and logging in for the first time
      (src/src/http/req_handler.cpp, src/src/client/client_main.cpp)

    The registration handler of the gateway against the contract of the user store, and a
    new user's way through the client program: the words typed, the two requests, and the
    connection that follows. *)

From S2P Require Import Prelude Decimal CppString FieldOp MsgNode Session SessionFacts Security Dbm DbmPool DbmFacts.
From S2P Require Import Snowflake RedisBase Backend StatusService Gateway GatewayFacts TokenFacts Client ClientFacts ClientLogin ClientMain.
From Stdlib Require Import Ascii.

(** An identifier fits its type. *)
Lemma Generate_u64 g clock id g' clock' :
  gen_wf g → Generate g clock = Some (id, g', clock') → is_u64 id.
Proof.
  intros Hg H. destruct Hg as (Hw & Hrest). pose proof (Generate_fields g clock id g' clock' (conj Hw Hrest) H) as ((_ & Hs & _) & _ & ->).
  rewrite pack_fields by done. pose proof (Z.mod_pos_bound (last_ts_ g') (2 ^ 42) ltac:(lia)). unfold is_u64. lia.
Qed.

Section register.
Context {D Rd Sv J : Type}.
Context `{!MySql D, !MySqlLaws D, C : Crypto, !CryptoLaws C, !RedisOps Rd, !GatewayRedis Rd, !RedisLaws Rd, !MinimalRPC Sv, !JsonLib J}.
Context (base64 : list Z → string) (hash_junk : nat → list Z).

(** What a registration comes to: refused for the name, refused by the server for the id, done *)
Definition register_code (a : accounts) (name : string) (uid : Z) : Z :=
  if bool_decide (is_Some (a !! name)) then GATEWAY_REG_ALREADY_EXIST
  else if my_uid_key (D := D) && uid_taken a uid then GATEWAY_MYSQL_SERVER_ERROR
  else GATEWAY_SUCCESS.

(** The answer to it *)
Definition register_answer (req : http_request) (code : Z) : http_response :=
  if code =? GATEWAY_REG_ALREADY_EXIST then ForbiddenRequest req "Username already exists"
  else if code =? GATEWAY_SUCCESS
  then reply_page 200 "application/json" req (jwrite [("result", JInt 0); ("message", JStr "success")])
  else ServerError req "MySQL server error".

Lemma implements_register (m : DBM D) a salt name pass uid :
  implements hash_junk m a → Forall is_byte salt →
  ∃ m', RegisterNew false hash_junk (Some salt) name pass uid m = (m', Ok (Some (register_code a name uid)))
    ∧ implements hash_junk m' (account_step my_uid_key a (QRegister salt name pass uid)).1.
Proof.
  intros Hi Hs. destruct (implements_step hash_junk m a (QRegister salt name pass uid) Hi Hs) as (m' & E & Hi').
  cbn [pool_request] in E. unfold st_bind in E.
  destruct (RegisterNew false hash_junk (Some salt) name pass uid m) as [m1 [[c|]| |]]; try discriminate E.
  injection E as <- E. exists m1. split; [|done]. cbn [account_step] in E. do 3 f_equal. unfold register_code.
  destruct (a !! name) as [x|].
  - rewrite bool_decide_eq_true_2 by eauto. cbn in E. congruence.
  - rewrite bool_decide_eq_false_2 by (intros [? [=]]). destruct (_ && _); cbn in E; congruence.
Qed.

Lemma PostRegisterLogic_Ok (g : Gateway D Rd Sv) a env req name pass salt uid u clock' :
  asks (J := J) req name pass → implements hash_junk (dbm_ g) a →
  Generate (uid_gen_ g) (sys_clock env) = Some (uid, u, clock') →
  salt_rnd env = Some salt → Forall is_byte salt →
  ∃ g', PostRegisterLogic (J := J) false hash_junk env req g
      = (g', Ok (register_answer req (register_code a name uid)))
    ∧ implements hash_junk (dbm_ g') (account_step my_uid_key a (QRegister salt name pass uid)).1
    ∧ g_redis_ g' = g_redis_ g ∧ rpc_ g' = rpc_ g ∧ uid_gen_ g' = u.
Proof.
  intros (readed & Hp & Hc) Hi Hgen Hsalt Hb. unfold PostRegisterLogic. rewrite Hp.
  rewrite (st_bind_Ok _ _ g g (Some (name, pass))) by (unfold st_res; by rewrite Hc).
  set (g1 := set_uid_gen g u). rewrite (st_bind_Ok _ _ g g1 uid) by (unfold on_uid_gen; by rewrite Hgen).
  destruct (implements_register (dbm_ g1) a salt name pass uid Hi Hb) as (m' & E & Hi').
  exists (set_dbm g1 m').
  rewrite (st_bind_Ok _ _ g1 (set_dbm g1 m') (register_code a name uid)) by (unfold on_dbm; by rewrite Hsalt, E).
  split_and!; [|done..]. unfold register_code. by destruct (bool_decide _); [|destruct (my_uid_key && uid_taken a uid)].
Qed.
End register.

(** A registration is decided by the name and the id: with a user store that implements the
    accounts, a free name is taken for the id drawn, with the salt and password given, and
    answered with 200; a name in use is refused with 403; an id in use, where the table has a
    unique key on it, with 500.  A refusal changes nothing but the id generator. *)
Theorem register_decides {D Rd Sv J} `{!MySql D, !MySqlLaws D, C : Crypto, !CryptoLaws C, !RedisOps Rd, !GatewayRedis Rd, !MinimalRPC Sv, !JsonLib J}
    hash_junk (g : Gateway D Rd Sv) a env req name pass salt uid u clock' :
  asks (J := J) req name pass → implements hash_junk (dbm_ g) a →
  Generate (uid_gen_ g) (sys_clock env) = Some (uid, u, clock') →
  salt_rnd env = Some salt → Forall is_byte salt →
  ∃ g' resp, PostRegisterLogic (J := J) false hash_junk env req g = (g', Ok resp)
    ∧ g_redis_ g' = g_redis_ g ∧ rpc_ g' = rpc_ g ∧ uid_gen_ g' = u
    ∧ match a !! name with
      | None =>
          if my_uid_key && uid_taken a uid
          then resp = ServerError req "MySQL server error" ∧ implements hash_junk (dbm_ g') a
          else result resp = 200 ∧ implements hash_junk (dbm_ g') (<[name := (uid, (salt, pass))]> a)
      | Some _ => resp = ForbiddenRequest req "Username already exists" ∧ implements hash_junk (dbm_ g') a
      end.
Proof.
  intros Hask Hi Hgen Hsalt Hb.
  destruct (PostRegisterLogic_Ok hash_junk g a env req name pass salt uid u clock' Hask Hi Hgen Hsalt Hb)
    as (g' & E & Hi' & Hr & Hs & Hu).
  exists g'. eexists. split; [exact E|]. split_and!; [done..|]. cbn [account_step] in Hi'. unfold register_code.
  destruct (a !! name); [by rewrite bool_decide_eq_true_2 by eauto|].
  rewrite bool_decide_eq_false_2 by (intros [? [=]]). by destruct (_ && _).
Qed.

(** A demonstration request, and its answers *)
Definition demo_register (name : string) : http_request :=
  helper_request "/register" (credentials (J := list (string * jval)) name "secret").

Lemma register_decides_witness :
  let g := demo_gateway (mkDemoRd ∅ ∅ ∅) in
  ∃ uid u clock' g' resp,
    PostRegisterLogic (J := list (string * jval)) false (λ _, []) demo_env (demo_register "eve") g = (g', Ok resp)
    ∧ g_redis_ g' = g_redis_ g ∧ rpc_ g' = rpc_ g ∧ uid_gen_ g' = u
    ∧ Generate (uid_gen_ g) (sys_clock demo_env) = Some (uid, u, clock')
    ∧ result resp = 200 ∧ implements (λ _, []) (dbm_ g') (<["eve" := (uid, ([3], "secret"))]> demo_accounts).
Proof.
  cbn zeta.
  assert (Hgen : ∃ uid u c, Generate (uid_gen_ (demo_gateway (mkDemoRd ∅ ∅ ∅))) (sys_clock demo_env) = Some (uid, u, c)
      ∧ uid_taken demo_accounts uid = false)
    by (eexists _, _, _; split; vm_compute; reflexivity).
  destruct Hgen as (uid & u & c & Hgen & Hfree).
  destruct (register_decides (J := list (string * jval)) (λ _, []) (demo_gateway (mkDemoRd ∅ ∅ ∅)) demo_accounts demo_env
    (demo_register "eve") "eve" "secret" [3] uid u c) as (g' & resp & E & Hr & Hs & Hu & Hm).
  - apply asks_credentials; unfold printable; repeat constructor; done.
  - exact demo_implements.
  - exact Hgen.
  - reflexivity.
  - repeat constructor; done.
  - exists uid, u, c, g', resp. change (demo_accounts !! "eve") with (@None (Z * (list Z * string))) in Hm.
    rewrite Hfree, andb_false_r in Hm. destruct Hm as [H1 H2].
    exact (conj E (conj Hr (conj Hs (conj Hu (conj Hgen (conj H1 H2)))))).
Defined.

(** ** The story *)

Lemma authentic_registered `{!Crypto} (a : accounts) name pass uid salt :
  authentic (<[name := (uid, (salt, pass))]> a) name pass = Some uid.
Proof. unfold authentic. cbn [account_step]. rewrite lookup_insert_eq. by rewrite decide_True. Qed.

Lemma cli_Verify_Ok {J} `{!JsonLib J} host junk uid token :
  let m := (tag_value VERIFY, bytes_of_string (verify_text (J := J) uid token)) in
  sendable m →
  cli_Verify host junk (J := J) (AsyncClient_new junk) uid token
    = Ok (set_cli_queue (AsyncClient_new junk) [node_of m] None).
Proof.
  intros m Hm. unfold cli_Verify. pose proof (cli_sends_Ok host junk [m] (AsyncClient_new junk)) as H.
  cbn [cli_sends] in H. pose proof Hm as [(_ & _ & Hlen) _]. unfold MAX_CTX_LEN, m in Hlen. cbn [snd] in Hlen.
  rewrite u32_id by (unfold is_u32; lia). change (tag_value VERIFY) with m.1. change (bytes_of_string _) with m.2.
  specialize (H ltac:(repeat constructor; apply Hm)). inv_res. by rewrite Hm0.
Qed.

(** The gateway's answer to the client's registration *)
Lemma Register_granted {D Rd Sv J} `{!MySql D, !MySqlLaws D, C : Crypto, !CryptoLaws C, !RedisOps Rd, !GatewayRedis Rd, !MinimalRPC Sv, !JsonLib J, !JsonLaws J}
    base64 hash_junk (g : Gateway D Rd Sv) a env name pass salt uid u clock' :
  printable name → printable pass → implements hash_junk (dbm_ g) a → a !! name = None →
  my_uid_key && uid_taken a uid = false →
  Generate (uid_gen_ g) (sys_clock env) = Some (uid, u, clock') →
  salt_rnd env = Some salt → Forall is_byte salt →
  ∃ g', Register (J := J) (gateway_exchange (J := J) base64 hash_junk env) name pass g = (g', Ok true)
    ∧ implements hash_junk (dbm_ g') (<[name := (uid, (salt, pass))]> a)
    ∧ g_redis_ g' = g_redis_ g ∧ rpc_ g' = rpc_ g.
Proof.
  intros Hn Hp Hi Ha Hk Hgen Hsalt Hb.
  destruct (PostRegisterLogic_Ok (J := J) hash_junk g a env (helper_request "/register" (credentials (J := J) name pass))
    name pass salt uid u clock') as (g' & E & Hi' & Hr & Hs & _); [by apply asks_credentials|done..|].
  exists g'. cbn [account_step] in Hi'. unfold register_code in E. rewrite Ha, Hk in Hi', E.
  rewrite bool_decide_eq_false_2 in E by (intros [? [=]]). split_and!; [|done..].
  unfold Register. rewrite (st_bind_Ok _ _ g g' (200, resp_body (register_answer (J := J) (helper_request "/register" (credentials (J := J) name pass)) GATEWAY_SUCCESS))); [done|].
  unfold gateway_exchange. by rewrite (st_bind_Ok _ _ g g' _ E).
Qed.

(** C9. A new user's first session: typing the gateway's address, a registration and a login
    with the same name and password, one word per line, makes the client register the name,
    log in, and connect to the server the status service named, with exactly one message
    queued for it: the verification with the id the gateway drew for the user and the token
    it bound to that id.  The user store then has the account, and the user's place is
    taken.  (Where the table has a unique key on the id, the id drawn is no account's; the
    generator does not repeat one while its clock does not go back.) *)
Theorem new_user_story {D Rd Sv J} `{!MySql D, !MySqlLaws D, C : Crypto, !CryptoLaws C, !RedisOps Rd, !GatewayRedis Rd, !RedisLaws Rd, !MinimalRPC Sv, !JsonLib J, !JsonLaws J}
    base64 `{!Base64Laws base64} hash_junk (g : Gateway D Rd Sv) a rd env gh gp name pass sv s h port bytes salt uid u clock'
    make_address ip host junk n :
  Forall is_word [gh; gp; name; pass] → printable name → printable pass →
  implements hash_junk (dbm_ g) a → a !! name = None → g_redis_ g = mkMgr (Some rd) →
  let addr := h +:+ String ":" (to_string port) in
  rpc_minimal (rpc_ g) = Ok (sv, s, addr) → rpc_ok s = true → printable addr → no_char ":" h → is_u16 port →
  make_address h = Ok ip →
  gen_wf (uid_gen_ g) → Generate (uid_gen_ g) (sys_clock env) = Some (uid, u, clock') → location rd uid = None →
  my_uid_key && uid_taken a uid = false →
  salt_rnd env = Some salt → Forall is_byte salt →
  token_rnd env = Some bytes → length bytes = TOKEN_BYTES → Forall is_byte bytes →
  let token := url_safe (base64 bytes) in
  let verify := (tag_value VERIFY, bytes_of_string (verify_text (J := J) uid token)) in
  sendable verify → (2 <= n)%nat →
  ∃ g' rd' k' c,
    main_login (J := J) (gateway_exchange (J := J) base64 hash_junk env) make_address host junk n
      (mkConsole (typed [gh; gp; "register"; name; pass; "login"; name; pass]) false) g
      = (g', Ok (gh, gp, k', MainConnects ip port c))
    ∧ cli_send_q_ c = [node_of verify]
    ∧ implements hash_junk (dbm_ g') (<[name := (uid, (salt, pass))]> a)
    ∧ g_redis_ g' = mkMgr (Some rd') ∧ redis_string rd' (token_key token) = Some (to_string uid)
    ∧ location rd' uid = Some "unset".
Proof.
  intros Hw Hn Hp Hi Ha Hr addr Hrpc Hok Hpa Hh Hport Hip Hwf Hgen Hloc Hkey Hsalt Hsb Htok Hlen Hb token verify Hsend Hn2.
  pose proof (Generate_u64 _ _ _ _ _ Hwf Hgen) as Hu.
  inversion_clear Hw as [|?? Hgh Hw1]. inversion_clear Hw1 as [|?? Hgp Hw2]. inversion_clear Hw2 as [|?? Hname Hw3].
  inversion_clear Hw3 as [|?? Hpass _].
  destruct (Register_granted (J := J) base64 hash_junk g a env name pass salt uid u clock' Hn Hp Hi Ha Hkey Hgen Hsalt Hsb)
    as (g1 & Ereg & Hi1 & Hr1 & Hs1).
  destruct (Login_granted (J := J) base64 hash_junk g1 (<[name := (uid, (salt, pass))]> a) rd env name pass sv s addr bytes uid)
    as (g2 & rd2 & tok & Elog & Hr2 & Hstr & Hplace & -> & Hi2);
    [done..|by rewrite Hr1|by rewrite Hs1|done|done|done|done|apply authentic_registered|done|].
  set (cs := [CRegister name pass; CLogin name pass]).
  assert (Hrun : run_commands (J := J) (gateway_exchange (J := J) base64 hash_junk env) cs g
    = (g2, Ok (Some (Some (mkLoginData token addr uid)), []))).
  { cbn [cs run_commands run_command]. unfold st_bind, try_login. rewrite Ereg. cbn. by rewrite Elog. }
  destruct (read_word_typed gh (gp :: commands_words cs) (mkConsole (typed (gh :: gp :: commands_words cs)) false))
    as (k1 & E1 & Hk1); [done|by left|].
  destruct (read_word_typed gp (commands_words cs) k1) as (k2 & E2 & Hk2); [done..|].
  destruct (command_loop_typed (J := J) (gateway_exchange (J := J) base64 hash_junk env) cs k2 g n) with (4 := Hrun)
    as (k3 & _ & Eloop); [|done|done|].
  { apply Forall_cons_2; [by split|]. apply Forall_cons_2; [by split|]. apply Forall_nil_2. }
  assert (Ec : connect_server (J := J) make_address host junk (mkLoginData token addr uid)
    = Ok (MainConnects ip port (set_cli_queue (AsyncClient_new junk) [node_of verify] None)))
    by (eapply connect_server_Ok; [done..|by apply cli_Verify_Ok]).
  exists g2, rd2, k3, (set_cli_queue (AsyncClient_new junk) [node_of verify] None). split_and!; [|done..].
  unfold main_login. change (typed _) with (typed (gh :: gp :: commands_words cs)). rewrite E1, E2.
  rewrite (st_bind_Ok _ _ _ _ _ Eloop). cbn [snd fst]. unfold st_bind, st_res. by rewrite Ec.
Qed.

Definition story_env : req_env := mkEnv [1600000000000000000] 5 (Some [3]) (Some (replicate 24 255)).

Definition story_uid : Z := pack (ts_of 1577836800000 1600000000000000000) 0 0.

Lemma new_user_story_witness :
  let g := demo_gateway (mkDemoRd ∅ ∅ ∅) in
  let verify := (tag_value VERIFY,
    bytes_of_string (verify_text (J := list (string * jval)) story_uid (url_safe (b64 (replicate 24 255))))) in
  ∃ g' rd' k' c,
    main_login (J := list (string * jval)) (gateway_exchange (J := list (string * jval)) b64 (λ _, []) story_env)
      Ok LITTLE_ENDIAN (λ _, 0) 2 (mkConsole (typed ["gate"; "1234"; "register"; "eve"; "pw"; "login"; "eve"; "pw"]) false) g
      = (g', Ok ("gate", "1234", k', MainConnects "10.0.0.1" 2000 c))
    ∧ cli_send_q_ c = [node_of verify]
    ∧ implements (λ _, []) (dbm_ g') (<["eve" := (story_uid, ([3], "pw"))]> demo_accounts)
    ∧ g_redis_ g' = mkMgr (Some rd')
    ∧ redis_string rd' (token_key (url_safe (b64 (replicate 24 255)))) = Some (to_string story_uid)
    ∧ location rd' story_uid = Some "unset".
Proof.
  cbn zeta.
  eapply (new_user_story b64 (λ _, []) (demo_gateway (mkDemoRd ∅ ∅ ∅)) demo_accounts (mkDemoRd ∅ ∅ ∅) story_env
    "gate" "1234" "eve" "pw" tt Status_OK "10.0.0.1" 2000 (replicate 24 255) [3] story_uid).
  - repeat constructor; done.
  - unfold printable; repeat constructor; done.
  - unfold printable; repeat constructor; done.
  - exact demo_implements.
  - reflexivity.
  - reflexivity.
  - reflexivity.
  - reflexivity.
  - unfold printable; repeat constructor; done.
  - vm_compute. repeat split; discriminate.
  - done.
  - reflexivity.
  - apply UIDGenerator_init_wf.
  - vm_compute. reflexivity.
  - reflexivity.
  - vm_compute. reflexivity.
  - reflexivity.
  - repeat constructor; done.
  - reflexivity.
  - reflexivity.
  - repeat constructor; done.
  - split; [split_and!; [done|apply bytes_of_string_byte|vm_compute; discriminate]|vm_compute; discriminate].
  - lia.
Defined.
