(* ===== verification/Heartbeat.v ===== *)
(** * The heartbeat of a client (src/src/client/client_main.cpp, src/src/server/msg_handler.cpp,
      src/src/include/server/online_status_upload.hpp)

    Every five seconds the client sends a message of tag [PING].  It has no handler of its
    own: what it is for is the entry in the set of online users that every message of a
    session makes, and the renewal of the user's state in Redis that follows from it. *)

From S2P Require Import Prelude Decimal CppString FieldOp MsgNode Session SessionFacts Timer RedisBase Backend BackendFacts Client ClientFacts.

(** [tm_mgr.CreateTimer(5000 ms, ...)] and its activation *)
Definition heartbeat_timer (m : TimerTaskManager) : TimerTaskManager * nat :=
  let '(m, iter) := CreateTimer m 5000 true in
  (mkTimerMgr (<[iter := Activate (SetTimer 5000 true)]> (list_ m)) (next_iter m), iter).

(** The callback *)
Definition heartbeat (host : byte_order) (junk : nat → Z) (c : AsyncClient) : res AsyncClient :=
  cli_Send host junk c (bytes_of_string "PING") 4 (tag_value PING).

Definition ping_msg : Z * list Z := (tag_value PING, bytes_of_string "PING").

(** The end of [main]: the heartbeat is removed, then the connection closed *)
Definition main_end (m : TimerTaskManager) (iter : nat) (c : AsyncClient) : res (TimerTaskManager * AsyncClient) :=
  m ← RemoveTimer m iter;
  Ok (m, cli_Close c).

Lemma heartbeat_Ok host junk c :
  heartbeat host junk c = Ok (set_cli_queue c (cli_send_q_ c ++ [node_of ping_msg]) (cli_sending_ c)).
Proof.
  assert (Hs : Forall sendable [ping_msg]).
  { repeat constructor; cbn; try done; try (unfold is_byte; vm_compute; split; congruence). }
  pose proof (cli_sends_Ok host junk [ping_msg] c Hs) as H. cbn [cli_sends] in H. inv_res. exact Hm.
Qed.

(** What the handler does with a heartbeat *)
Lemma Worker_ping {Rd Json} `{!RedisOps Rd, !JsonReader Json} host junk order server_id (w : World Rd) p s msg q :
  h_running_ w = true → q_ w = (Some p, Some msg) :: q → objs w !! p = Some s →
  GetTagField host msg = Ok (tag_value PING) →
  Worker host junk order Json server_id w
    = (set_uploader (set_q w q) (Timer.AddSession (status_uploader_ w) (user_id_ s)).1, Ok WorkerBusy).
Proof.
  intros Hr Hq Hp Ht. unfold Worker. rewrite (st_bind_Ok _ _ w w true) by (unfold st_get; by rewrite Hr). cbn [negb].
  rewrite (st_bind_Ok _ _ w w ((Some p, Some msg) :: q)) by (unfold st_get; by rewrite Hq).
  rewrite (st_bind_Ok _ _ w (set_q w q) tt) by done.
  unfold st_bind at 1. unfold Processor. rewrite (st_bind_Ok _ _ _ _ _ (get_obj_Ok (set_q w q) p s Hp)).
  unfold st_bind at 1, st_res. rewrite Ht. done.
Qed.

(** A heartbeat keeps its user online: the message the client queues, when it has reached the
    server's queue, makes the handler enter the session's user in the set of online users and
    changes nothing else; the next upload then renews that user's state in Redis for another
    30 seconds (unless an upload is stuck). *)
Theorem heartbeat_renews {Rd Json} `{!RedisOps Rd, !JsonReader Json} host1 junk1 host junk order server_id
    (c : AsyncClient) (w : World Rd) p s msg q :
  node_holds host msg ping_msg →
  h_running_ w = true → q_ w = (Some p, Some msg) :: q → objs w !! p = Some s →
  (∀ X x, x ∈ order X ↔ x ∈ X) →
  heartbeat host1 junk1 c = Ok (set_cli_queue c (cli_send_q_ c ++ [node_of ping_msg]) (cli_sending_ c))
  ∧ ∃ w', Worker host junk order Json server_id w = (w', Ok WorkerBusy)
    ∧ objs w' = objs w ∧ sess_ w' = sess_ w ∧ temp_sess_ w' = temp_sess_ w ∧ w_redis_ w' = w_redis_ w ∧ writes w' = writes w
    ∧ on_sess_ (status_uploader_ w') = {[user_id_ s]} ∪ on_sess_ (status_uploader_ w)
    ∧ HEXPIRE (status_key (user_id_ s)) 30 ["server_id"; "status"]
        ∈ upload_cmds order (on_sess_ (status_uploader_ w')) (removal_sess_ (status_uploader_ w')).
Proof.
  intros (_ & Ht & _) Hr Hq Hp Hord. split; [apply heartbeat_Ok|].
  eexists. split; [by apply (Worker_ping host junk order server_id w p s msg q)|]. split_and!; try done.
  unfold upload_cmds. apply elem_of_app. left. apply list_elem_of_fmap. exists (user_id_ s). split; [done|].
  apply Hord. cbn. set_solver.
Qed.

Lemma heartbeat_renews_witness :
  let w := set_q (demo_world (∅ : gmap string string) (demo_session 7 true)) [(Some 5%nat, Some (node_of ping_msg))] in
  heartbeat LITTLE_ENDIAN (λ _, 0) (AsyncClient_new (λ _, 0))
    = Ok (set_cli_queue (AsyncClient_new (λ _, 0)) [node_of ping_msg] None)
  ∧ ∃ w', Worker LITTLE_ENDIAN (λ _, 0) elements string "1" w = (w', Ok WorkerBusy)
    ∧ objs w' = objs w ∧ sess_ w' = sess_ w ∧ temp_sess_ w' = temp_sess_ w ∧ w_redis_ w' = w_redis_ w ∧ writes w' = writes w
    ∧ on_sess_ (status_uploader_ w') = {[7]} ∪ on_sess_ (status_uploader_ w)
    ∧ HEXPIRE (status_key 7) 30 ["server_id"; "status"]
        ∈ upload_cmds elements (on_sess_ (status_uploader_ w')) (removal_sess_ (status_uploader_ w')).
Proof.
  cbn zeta.
  apply (heartbeat_renews (Json := string) LITTLE_ENDIAN (λ _, 0) LITTLE_ENDIAN (λ _, 0) elements "1" (AsyncClient_new (λ _, 0))
    (set_q (demo_world ∅ (demo_session 7 true)) [(Some 5%nat, Some (node_of ping_msg))]) 5%nat (demo_session 7 true) (node_of ping_msg) []).
  - split; [|split; [reflexivity|split; [reflexivity|]]].
    + split_and!; try done. repeat constructor; done.
    + eexists. split; reflexivity.
  - reflexivity.
  - reflexivity.
  - reflexivity.
  - intros X x. apply elem_of_elements.
Defined.
